(* ===== verification/_CoqProject ===== *)
-Q . S2P
Prelude.v
RString.v
Log.v
Aes.v
AesFips.v
AesUtil.v
ModuleApi.v
SimpleProxy.v
SeProxy.v
SockIO.v
NetLib.v
Tunnel.v
Socks5.v
Duplex.v
Opt.v
Config.v
Usage.v
Programs.v
TraceableList.v
ObjPool.v
ThreadPool.v
WinMutex.v
WinThread.v
WinCond.v
WinNet.v
ScopeGuard.v
ModuleLife.v
FormatCache.v
Heap.v
HeapModule.v
HeapSimple.v
HeapSe.v
HeapIO.v
HeapTunnel.v
HeapSocks5.v
Printing.v
