(* ===== verification/Prelude.v ===== *)
(** * SnakeSocks: a verification development

    SnakeSocks is a proxy.  The client ([skcli]) is a SOCKS5 server on the
    user's machine; the server ([sksrv]) connects to the destinations.  Between
    the two runs a tunnel whose packets are made and read by a loadable module
    (encryption, authentication).  Paths below are relative to [src/src/].

    ** Parts, files and how they interact

    - [RString] ([native/src/lib/rlib/string.hpp]): formatting with holes
      and with [vsnprintf], [split], [join], [strip], [replace], conversions;
      [FormatCache]: formatting on the string streams cached per thread.
    - [Aes] ([modules/module_util/kokke_aes.c]) and [AesUtil] ([aes.c],
      [octet_order.c]): the AES cipher over memory with bounds for each of the
      three key sizes the macros of the file select (the class [AesBuild]; the
      build selects 128 bits), ECB and CBC modes, the padded interface, byte
      order.  [AesFips] states FIPS-197 from its text, as the reference of [Aes].
    - [ModuleApi] ([native/src/module.hpp], [module.cc], [modules/*.h]): the
      data exchanged with a module, the nine functions as a record, the loader,
      and the class [ModuleLaws], which states what a module promises to the
      tunnel.  The theorems on [Tunnel] and [Socks5] are proved against it.
    - [SimpleProxy], [SeProxy] ([modules/simple_proxy], [modules/se_proxy]):
      the two bundled modules, both instances of [ModuleLaws].
    - [ModuleLife] ([native/src/module.hpp], [module.cc]): who holds the handle
      of a shared object through constructions, moves and destructions.
    - [SockIO] ([rlib/sys/sio.hpp]): the operating system as a state (sockets
      with what has arrived, what was sent and a script of partial transfers,
      interruptions, failures and [SIGPIPE]), the monad [st] of state, exceptions,
      undefined behaviour and blocking, scope guards, and the readers and
      writers built on [recv] and [send].
    - [NetLib] ([lib/NetLib.hpp], [NetLib.cc]): length-prefixed packets,
      name queries, printed addresses.
    - [Tunnel] ([tunnel.hpp], [tunnel.cc], [connection.hpp]): the client's end
      (resolving, dialling, authenticating) and the server's end (authentication,
      the relay loop between client and next hop, cleanup, accept loop).
    - [Socks5] ([socks5.hpp], [socks5.cc]): greeting, request, name
      resolution through the tunnel, relay loop, accept loop.
    - [Duplex]: the relay loops of [Socks5] and [Tunnel] as two processes with a
      connection between them that delivers late and in pieces.  A step of a
      process is one part of a turn of its loop.
    - [Log] ([rlib/log.hpp], [rlib/sys/time.hpp]), [Opt] ([rlib/opt.hpp]),
      [Config] ([config.hpp], over the class [PropertyTree]), [Usage] (the usage
      texts) and [Programs] ([client.cc], [server.cc], [syserr.hpp]): [main] of
      both programs, which shows the usage text on request, reads options, merges them with the configuration file and starts the
      listener of [Socks5] or [Tunnel].
    - [TraceableList] ([rlib/impl/traceable_list.hpp]) and [ObjPool]
      ([rlib/pool.hpp]): a doubly linked list in a heap of nodes, and the
      multi-threaded object pool over it.
    - [ThreadPool] ([lib/threadPool.hpp]): the pool that runs connection
      handlers when it is compiled in, as interleaved steps of the main thread
      and the workers.
    - [WinMutex], [WinThread], [WinCond] ([native/mingw-thread-fix/]): mutexes,
      threads and condition variables of the Windows build, over classes that
      state what Win32 promises; [WinNet]: the Win32 branches of [sio.hpp],
      [tunnel.cc] and [socks5.cc] over the sockets of [SockIO].
    - [ScopeGuard] ([rlib/scope_guard.hpp], [rlib/functional.hpp]) and
      [Printing] ([rlib/stdio.hpp], [rlib/terminal.hpp],
      [modules/module_util/fmt.c]): guards, repetition, printed text.

    The files above model strings as values.  The [Heap] files model the same
    functions with pointers, allocations, releases and scope guards: [Heap] has
    the heap and the simulation [sim] between a computation with pointers and
    one on values; [HeapModule] the class [HeapModule], the agreement of
    [modules/stdafx.h] about who frees which string; [HeapSimple] and [HeapSe]
    the two modules, both instances; [HeapIO] the transfers into allocated
    buffers; [HeapTunnel] and [HeapSocks5] the server's handler and the client's,
    proved against the class.

    This file holds what they share: bytes and machine words, the type
    [outcome] (a value, an exception, undefined behaviour, or a call that does
    not return), memory with bounds, byte order, decimal text, and the hint
    databases [bytes] and [lens].

    ** What the theorems show

    - End to end ([Socks5]): what an application writes before it closes reaches
      the destination, what the destination writes before it closes comes back,
      when no call on the sockets of the side that writes is interrupted or fails;
      names are resolved by the server; for every module that keeps [ModuleLaws]
      and every segmentation of the streams.
    - Both relays at once ([Duplex]): under every interleaving with the network,
      the application and the destination each end is given a prefix of what the
      other wrote, nothing is lost while both relays run, and the relays can
      always go on to deliver what an application wrote before it closed.
    - Protocol layers: the handshake, both relays, the SOCKS5 greeting and
      request, frames, messages, exact reads and writes; the handler of a
      connection leaves no descriptor open while [setsockopt] succeeds, and the
      front end contains the exceptions whose text has no hole.
    - Cipher and modules: key expansion, cipher and inverse cipher compute what
      FIPS-197 defines for keys of 128, 192 and 256 bits, encryption followed by
      decryption is the identity in every mode on the sizes it supports, every
      round maps blocks of bytes to blocks of bytes, both
      modules decode what the peer encodes, and the server of [SeProxy] accepts
      exactly the packets that decrypt to its constant.
    - Library: the loops of [RString] end and meet declarative specifications
      ([Split], [render], [stripped_of]); configuration files and option
      readers round-trip; the usage texts document exactly the options the
      programs read; the linked list refines sequences; the pool never
      lends an object twice under any interleaving; a guard's callback is called
      exactly once unless dismissed.
    - Threads: the thread pool neither loses nor repeats a task, a worker that
      [go] gave a task starts it, and after [addTask] the pool can always go on to
      start the task, provided the pool is called while no worker has a task to
      take and its mutexes are binary semaphores; the Windows mutexes refine a plain
      mutex, thread handles have one owner, notifications without timeouts are
      exact.
    - Memory: with any module that keeps the ownership agreement the code with
      pointers does on the network what the code on values does, frees nothing
      twice, uses nothing after its release and, on runs that are not undefined,
      leaves the memory of others alone; encoding and decoding in the bundled
      modules pass a packet from one process to the other and leave nothing
      behind; the client's relay leaves no block behind; a shared object is
      closed once and not before the last use of its nine functions; formatting on cached streams
      equals formatting on new ones.
    - Windows: transfers below two gigabytes equal those of the POSIX build;
      dialling and listening with the use count of the Winsock library.
    - Defects: a peer that closes early can end either program by [SIGPIPE]
      ([SockIO.sendn_epipe]); sizes that are read through a signed [char] overflow buffers,
      short packets are deciphered out of bounds, ECB covers one block only, a
      host name with a hole ends the client at log level [DEBUG], a
      notified borrower can sleep for ever, a message with a hole makes the
      logger throw, and the client without a configuration file reads an
      uninitialised member; the client gives up an application that has closed
      only its writing end; the server forgets the payload of every packet it
      forwards and every packet it sends back, a null C string silences the
      formatting of its thread; the thread pool is undefined in ISO C++, races,
      spins and deadlocks; timed operations of the Windows build can wait for
      ever, and its [quick_connect] frees a list twice.

    ** Bounds and fuel

    A loop that is not structural takes [fuel], an upper bound on its
    iterations, and is [Blocked] when that is used up.  The callers choose it
    from the state: one more than the number of readable bytes for readers, than
    the number of scripted [select] or [accept] results for the relay and accept
    loops, than the length of the text for string loops, two for
    [do_try_borrow_one] and for [format_string_c], the count for [repeat].  The
    theorems state results, so they include that the fuel is enough; [Blocked]
    in a statement means that the modelled call does not return: it waits for
    ever or ends the process.
    Integers are kept at their width ([u8], [u16], [u32], [u64], [schar],
    [size_of_char]).

    ** What is not modelled

    The text of log lines inside the network components; [Socks5] makes the
    calls, which can throw, [Tunnel] leaves them out, because they pass texts as
    arguments or print numbers and return ([Log.log_spec]); texts of
    [errno], floating-point conversions; the Win32 loader of
    modules, which names a namespace that does not exist; destructors of the
    Windows mutexes and failing waits there; [unix_handy.hpp], which the
    preprocessor removes, and the deprecated [rwlock.hpp]; the Go server;
    third-party code (prettyprint, Catch); the modules under
    [modules/example], which are sketches that do not compile.  In [Duplex]
    the sockets do not fail and sending does not wait.  Descriptors are below
    [FD_SETSIZE], so that [select] is defined.  What a moved-from [std::function]
    holds and what Winsock does with a negative length are parameters.  Allocations succeed, the [Heap]
    files treat one handler at a time, and memory owned by [std::string] is not
    on their heap.  Memory is sequentially consistent in
    all models of threads.  [_beginthreadex], the objects of Win32, [dlopen],
    [getaddrinfo], the Boost resolver and property tree, [rand], [strftime],
    [vsnprintf]'s text and the contents of fresh memory are parameters. *)

From stdpp Require Export base list strings.
From Stdlib Require Export ZArith Lia.
From Stdlib Require Import Btauto.

Open Scope Z_scope.

(** ** Bytes and machine words *)

(** A byte is an integer in [0, 256); a buffer is a list of bytes. *)
Abbreviation bytes := (list Z).

Definition is_byte (b : Z) : Prop := 0 <= b < 256.

#[global] Instance is_byte_dec b : Decision (is_byte b).
Proof. unfold is_byte. apply _. Defined.

Definition wf_bytes (l : bytes) : Prop := Forall is_byte l.

#[global] Instance wf_bytes_dec l : Decision (wf_bytes l).
Proof. unfold wf_bytes. apply _. Defined.

(** Truncation to an unsigned type of 8, 16, 32 and 64 bits. *)
Definition u8 (z : Z) : Z := Z.land z 255.
Definition u16 (z : Z) : Z := z mod 2 ^ 16.
Definition u32 (z : Z) : Z := z mod 2 ^ 32.
Definition u64 (z : Z) : Z := z mod 2 ^ 64.

(** The value of a byte read through a (signed) [char]. *)
Definition schar (b : Z) : Z := if b <? 128 then b else b - 256.

(** [(size_t)c] for a [char] holding the byte [b]: sign extension to 64 bits. *)
Definition size_of_char (b : Z) : Z := u64 (schar b).

Lemma u8_mod z : u8 z = z mod 256.
Proof. unfold u8. change 255 with (Z.ones 8). by rewrite Z.land_ones by lia. Qed.

Lemma u8_byte z : is_byte (u8 z).
Proof. rewrite u8_mod. apply Z.mod_pos_bound. lia. Qed.

Lemma u8_id b : is_byte b -> u8 b = b.
Proof. intros. rewrite u8_mod. apply Z.mod_small. done. Qed.

Lemma is_byte_bits b : is_byte b <-> Z.land b 255 = b.
Proof.
  split; [apply u8_id|]. intros <-. apply u8_byte.
Qed.

Lemma land_lxor_distr a b c : Z.land (Z.lxor a b) c = Z.lxor (Z.land a c) (Z.land b c).
Proof. apply Z.bits_inj'. intros n _. rewrite !Z.land_spec, !Z.lxor_spec, !Z.land_spec. btauto. Qed.

Lemma lxor_byte a b : is_byte a -> is_byte b -> is_byte (Z.lxor a b).
Proof.
  rewrite !is_byte_bits. intros Ha Hb. by rewrite land_lxor_distr, Ha, Hb.
Qed.

Lemma lxor_cancel_r a k : Z.lxor (Z.lxor a k) k = a.
Proof. by rewrite Z.lxor_assoc, Z.lxor_nilpotent, Z.lxor_0_r. Qed.

(** ** Outcomes

    A C or C++ function returns a value, throws, or performs an operation that
    the language leaves undefined.  [Blocked] is a call that never returns: a
    system call that waits for ever in the modelled environment, or one that ends
    the process ([SIGPIPE], [std::terminate] in a scope guard). *)

Inductive exn :=
| runtime_error (what : string)
| invalid_argument (what : string)
| out_of_range (what : string)
| logic_error (what : string)
| system_error (what : string)
| overflow_error (what : string).

Inductive ub :=
| OobRead
| OobWrite
| NullDeref
| InvalidIterator
| DoubleFree
| Uninitialised
| UseAfterFree
| MutexMisuse
| DataRace.

#[global] Instance exn_eq_dec : EqDecision exn.
Proof. solve_decision. Defined.
#[global] Instance ub_eq_dec : EqDecision ub.
Proof. solve_decision. Defined.

Inductive outcome (A : Type) :=
| Ok (a : A)
| Throw (e : exn)
| Undefined (u : ub)
| Blocked.
Arguments Ok {A} a.
Arguments Throw {A} e.
Arguments Undefined {A} u.
Arguments Blocked {A}.

#[global] Instance outcome_ret : MRet outcome := fun A a => Ok a.
#[global] Instance outcome_bind : MBind outcome := fun A B k m =>
  match m with
  | Ok a => k a
  | Throw e => Throw e
  | Undefined u => Undefined u
  | Blocked => Blocked
  end.

(** Run the monadic binds whose first computation has a known outcome. *)
Tactic Notation "run_ok" := cbn [mbind outcome_bind mret outcome_ret].
Tactic Notation "run_ok" "in" hyp(H) := cbn [mbind outcome_bind mret outcome_ret] in H.

(** ** Memory *)

(** [malloc n]: [n] bytes of unspecified contents; [junk] says which. *)
Definition malloc (junk : nat -> Z) (n : nat) : bytes :=
  map (fun i => u8 (junk i)) (seq 0 n).

Definition mem_read (buf : bytes) (off n : nat) : outcome bytes :=
  if decide (off + n <= length buf)%nat
  then Ok (take n (drop off buf)) else Undefined OobRead.

Definition mem_write (buf : bytes) (off : nat) (src : bytes) : outcome bytes :=
  if decide (off + length src <= length buf)%nat
  then Ok (take off buf ++ src ++ drop (off + length src) buf)
  else Undefined OobWrite.

(** The same with an offset and a size of type [size_t]. *)
Definition mem_readz (buf : bytes) (off n : Z) : outcome bytes :=
  if (0 <=? off) && (0 <=? n) && (off + n <=? Z.of_nat (length buf))
  then Ok (take (Z.to_nat n) (drop (Z.to_nat off) buf)) else Undefined OobRead.

(** ** Little- and big-endian integers *)

Fixpoint le_bytes (n : nat) (z : Z) : bytes :=
  match n with
  | O => []
  | S n => z mod 256 :: le_bytes n (z / 256)
  end.

Fixpoint le_val (l : bytes) : Z :=
  match l with
  | [] => 0
  | b :: l => b + 256 * le_val l
  end.

Definition be_bytes (n : nat) (z : Z) : bytes := rev (le_bytes n z).
Definition be_val (l : bytes) : Z := le_val (rev l).

(** [htons], [htonl] and their inverses on a little-endian host. *)
Definition htons (z : Z) : Z := le_val (rev (le_bytes 2 z)).
Definition htonl (z : Z) : Z := le_val (rev (le_bytes 4 z)).
Definition ntohs (z : Z) : Z := htons z.
Definition ntohl (z : Z) : Z := htonl z.

Lemma malloc_length junk n : length (malloc junk n) = n.
Proof. unfold malloc. by rewrite length_map, length_seq. Qed.

Lemma malloc_wf junk n : wf_bytes (malloc junk n).
Proof.
  unfold malloc, wf_bytes. rewrite Forall_fmap. apply Forall_forall.
  intros. apply u8_byte.
Qed.

Lemma le_bytes_length n z : length (le_bytes n z) = n.
Proof. revert z; induction n; intros; simpl; auto. Qed.

Lemma le_bytes_wf n z : wf_bytes (le_bytes n z).
Proof.
  revert z; induction n; intros; simpl; constructor.
  - apply Z.mod_pos_bound. lia.
  - apply IHn.
Qed.

Lemma le_val_bytes n z : 0 <= z < 256 ^ Z.of_nat n -> le_val (le_bytes n z) = z.
Proof.
  revert z; induction n as [|n IH]; intros z Hz; cbn [le_bytes le_val].
  - change (256 ^ Z.of_nat 0) with 1 in Hz. lia.
  - rewrite IH.
    + pose proof (Z.div_mod z 256). lia.
    + rewrite Nat2Z.inj_succ, Z.pow_succ_r in Hz by lia. split.
      * apply Z.div_pos; lia.
      * apply Z.div_lt_upper_bound; lia.
Qed.

Lemma le_bytes_val l : wf_bytes l -> le_bytes (length l) (le_val l) = l.
Proof.
  induction 1 as [|b l Hb Hl IH]; cbn [length le_bytes le_val]; [done|].
  unfold is_byte in Hb. f_equal.
  - rewrite Z.mul_comm, Z.mod_add by lia. by apply Z.mod_small.
  - rewrite Z.mul_comm, Z.div_add by lia.
    rewrite (Z.div_small b 256) by lia. by rewrite Z.add_0_l.
Qed.

Lemma le_val_bound l : wf_bytes l -> 0 <= le_val l < 256 ^ Z.of_nat (length l).
Proof.
  induction 1 as [|b l Hb Hl IH]; cbn [length le_val].
  - change (256 ^ Z.of_nat 0) with 1. lia.
  - rewrite Nat2Z.inj_succ, Z.pow_succ_r by lia. unfold is_byte in Hb. lia.
Qed.

Lemma wf_bytes_rev l : wf_bytes l -> wf_bytes (rev l).
Proof. unfold wf_bytes. rewrite !Forall_forall. intros H x Hx. apply H. by rewrite list_elem_of_In, <- in_rev, <- list_elem_of_In in *. Qed.

Lemma wf_bytes_app l k : wf_bytes (l ++ k) <-> wf_bytes l /\ wf_bytes k.
Proof. apply Forall_app. Qed.

Lemma wf_bytes_take n l : wf_bytes l -> wf_bytes (take n l).
Proof. apply Forall_take. Qed.

Lemma wf_bytes_drop n l : wf_bytes l -> wf_bytes (drop n l).
Proof. apply Forall_drop. Qed.

Lemma wf_bytes_repeat b n : is_byte b -> wf_bytes (replicate n b).
Proof. intros. by apply Forall_replicate. Qed.

Lemma htonl_bytes z : le_bytes 4 (htonl z) = be_bytes 4 z.
Proof.
  unfold htonl, be_bytes. set (l := rev (le_bytes 4 z)).
  assert (Hl : length l = 4%nat) by done.
  rewrite <- Hl. apply le_bytes_val, wf_bytes_rev, le_bytes_wf.
Qed.

Lemma htonl_bound z : 0 <= htonl z < 2 ^ 32.
Proof.
  unfold htonl. pose proof (le_val_bound (rev (le_bytes 4 z)) (wf_bytes_rev _ (le_bytes_wf 4 z))) as H.
  rewrite length_rev, le_bytes_length in H. exact H.
Qed.

Lemma be_val_bytes n z : 0 <= z < 256 ^ Z.of_nat n -> be_val (be_bytes n z) = z.
Proof. intros. unfold be_val, be_bytes. rewrite rev_involutive. by apply le_val_bytes. Qed.

Lemma ntohl_be l : wf_bytes l -> length l = 4%nat -> ntohl (le_val l) = be_val l.
Proof.
  intros Hl Hn. unfold ntohl, htonl, be_val. by rewrite <- Hn, le_bytes_val.
Qed.

Lemma ntohs_be l : wf_bytes l -> length l = 2%nat -> ntohs (le_val l) = be_val l.
Proof.
  intros Hl Hn. unfold ntohs, htons, be_val. by rewrite <- Hn, le_bytes_val.
Qed.

Lemma be_bytes_length n z : length (be_bytes n z) = n.
Proof. unfold be_bytes. by rewrite length_rev, le_bytes_length. Qed.

Lemma be_bytes_wf n z : wf_bytes (be_bytes n z).
Proof. apply wf_bytes_rev, le_bytes_wf. Qed.

(** Reads and writes of memory laid out as a concatenation. *)
Lemma mem_read_mid a b c off n :
  off = length a -> n = length b -> mem_read (a ++ b ++ c) off n = Ok b.
Proof.
  intros -> ->. unfold mem_read. rewrite decide_True by (rewrite !length_app; lia).
  by rewrite drop_app_length, take_app_length.
Qed.

Lemma mem_read_all a n : n = length a -> mem_read a 0 n = Ok a.
Proof.
  intros ->. unfold mem_read. rewrite decide_True by lia. by rewrite drop_0, firstn_all.
Qed.

Lemma mem_read_ok buf off n :
  (off + n <= length buf)%nat -> mem_read buf off n = Ok (take n (drop off buf)).
Proof. intros. unfold mem_read. by rewrite decide_True. Qed.

Lemma mem_read_ub buf off n :
  (length buf < off + n)%nat -> mem_read buf off n = Undefined OobRead.
Proof. intros. unfold mem_read. rewrite decide_False by lia. done. Qed.

Lemma mem_readz_mid a b c off n :
  off = Z.of_nat (length a) -> n = Z.of_nat (length b) -> mem_readz (a ++ b ++ c) off n = Ok b.
Proof.
  intros -> ->. unfold mem_readz. rewrite !length_app.
  destruct (Z.leb_spec 0 (Z.of_nat (length a))); [|lia].
  destruct (Z.leb_spec 0 (Z.of_nat (length b))); [|lia]. cbn [andb].
  destruct (Z.leb_spec (Z.of_nat (length a) + Z.of_nat (length b))
              (Z.of_nat (length a + (length b + length c)))); [|lia].
  by rewrite !Nat2Z.id, drop_app_length, take_app_length.
Qed.

Lemma mem_write_mid a b c off src :
  off = length a -> length src = length b ->
  mem_write (a ++ b ++ c) off src = Ok (a ++ src ++ c).
Proof.
  intros -> Hs. unfold mem_write. rewrite decide_True by (rewrite !length_app; lia).
  rewrite take_app_length, <- drop_drop, drop_app_length, Hs, drop_app_length. done.
Qed.

Lemma mem_read_head b c n : n = length b -> mem_read (b ++ c) 0 n = Ok b.
Proof. intros. by apply (mem_read_mid [] b c). Qed.

Lemma mem_write_head b c src : length src = length b -> mem_write (b ++ c) 0 src = Ok (src ++ c).
Proof. intros. by apply (mem_write_mid [] b c). Qed.

Lemma nth_take_drop (l : bytes) k d : nth 0 (take 1 (drop k l)) d = nth k l d.
Proof. revert l. induction k; intros [|x l]; cbn; auto. Qed.

Lemma u64_small z : 0 <= z < 2 ^ 64 -> u64 z = z.
Proof. apply Z.mod_small. Qed.

Lemma u32_small z : 0 <= z < 2 ^ 32 -> u32 z = z.
Proof. apply Z.mod_small. Qed.

Lemma mem_write_length buf off src buf' :
  mem_write buf off src = Ok buf' -> length buf' = length buf.
Proof.
  unfold mem_write. case_decide; [|done]. intros [= <-].
  rewrite !length_app, length_take, length_drop. lia.
Qed.

Lemma mem_write_wf buf off src buf' :
  mem_write buf off src = Ok buf' -> wf_bytes buf -> wf_bytes src -> wf_bytes buf'.
Proof.
  unfold mem_write. case_decide; [|done]. intros [= <-] Hb Hs.
  rewrite !wf_bytes_app. auto using wf_bytes_take, wf_bytes_drop.
Qed.

(** ** Character strings *)

Definition bytes_of_string (s : string) : bytes :=
  map (fun c => Z.of_N (Ascii.N_of_ascii c)) (String.list_ascii_of_string s).

(** [e.what()] *)
Definition what (x : exn) : bytes :=
  match x with
  | runtime_error s | invalid_argument s | out_of_range s | logic_error s | system_error s
  | overflow_error s => bytes_of_string s
  end.

(** The bytes before the first NUL, as a [std::string] built from a [char *] reads them. *)
Fixpoint cstr (l : bytes) : bytes :=
  match l with
  | [] => []
  | b :: l => if b =? 0 then [] else b :: cstr l
  end.

Lemma bytes_of_string_wf s : wf_bytes (bytes_of_string s).
Proof.
  unfold bytes_of_string, wf_bytes. rewrite Forall_fmap. apply Forall_forall.
  intros c _. simpl. pose proof (Ascii.N_ascii_bounded c). unfold is_byte. lia.
Qed.

(** Decimal digits of a non-negative integer, as [std::to_string] and the
    [%d]/[%u] conversions print them. [fuel] bounds the number of digits. *)
Fixpoint dec_digits (fuel : nat) (z : Z) : bytes :=
  match fuel with
  | O => []
  | S fuel => if z <? 10 then [48 + z] else dec_digits fuel (z / 10) ++ [48 + z mod 10]
  end.

Definition to_string (z : Z) : bytes :=
  if z <? 0 then 45 :: dec_digits 20 (- z) else dec_digits 20 z.

Lemma dec_digits_bound fuel n z :
  0 <= z < 10 ^ Z.of_nat n -> (1 <= n <= fuel)%nat ->
  (1 <= length (dec_digits fuel z) <= n)%nat /\ Forall (fun d => 48 <= d <= 57) (dec_digits fuel z).
Proof.
  revert n z. induction fuel as [|fuel IH]; intros n z Hz Hn; [lia|]. cbn [dec_digits].
  destruct (Z.ltb_spec z 10) as [H|H].
  - split; [cbn; lia|]. constructor; [lia|constructor].
  - destruct n as [|[|n]]; [lia|cbn in Hz; lia|].
    rewrite Nat2Z.inj_succ, Z.pow_succ_r in Hz by lia.
    pose proof (Z.mod_pos_bound z 10). pose proof (Z.div_mod z 10).
    destruct (IH (S n) (z / 10)) as [HL HD]; [|lia|].
    + split; [apply Z.div_pos; lia|]. apply Z.div_lt_upper_bound; lia.
    + rewrite length_app, Forall_app. cbn. split; [lia|]. split; [done|].
      constructor; [lia|constructor].
Qed.

Lemma to_string_bound n z :
  0 <= z < 10 ^ Z.of_nat n -> (1 <= n <= 20)%nat ->
  (1 <= length (to_string z) <= n)%nat /\ Forall (fun d => 48 <= d <= 57) (to_string z).
Proof.
  intros Hz Hn. unfold to_string. destruct (Z.ltb_spec z 0); [lia|]. by apply dec_digits_bound.
Qed.

(** A number is printed without braces. *)
Lemma dec_digits_range fuel z : 0 <= z -> Forall (fun d => 48 <= d <= 57) (dec_digits fuel z).
Proof.
  revert z. induction fuel as [|fuel IH]; intros z Hz; cbn [dec_digits]; [constructor|].
  destruct (Z.ltb_spec z 10); [constructor; [lia|constructor]|].
  apply Forall_app. split; [apply IH; apply Z.div_pos; lia|].
  pose proof (Z.mod_pos_bound z 10). constructor; [lia|constructor].
Qed.

Lemma digits_wf l : Forall (fun d => 48 <= d <= 57) l -> wf_bytes l.
Proof. intros H. eapply Forall_impl; [exact H|]. unfold is_byte. cbv beta. lia. Qed.

Lemma to_string_wf z : wf_bytes (to_string z).
Proof.
  unfold to_string. destruct (Z.ltb_spec z 0); [constructor; [unfold is_byte; lia|]|];
    apply digits_wf, dec_digits_range; lia.
Qed.

Definition nobrace (l : bytes) : bool := forallb (fun c => negb (c =? 123)) l.

Lemma nobrace_app a b : nobrace (a ++ b) = nobrace a && nobrace b.
Proof. apply forallb_app. Qed.

Lemma to_string_nobrace z : nobrace (to_string z) = true.
Proof.
  assert (H : forall z, 0 <= z -> nobrace (dec_digits 20 z) = true).
  { intros x Hx. apply forallb_forall. intros d Hd. apply list_elem_of_In in Hd.
    pose proof (proj1 (Forall_forall _ _) (dec_digits_range 20 x Hx) d Hd) as Hr. cbv beta in Hr.
    destruct (Z.eqb_spec d 123); [lia|done]. }
  unfold to_string. destruct (Z.ltb_spec z 0); [|by apply H].
  change (nobrace (dec_digits 20 (- z)) = true). apply H. lia.
Qed.

(** ** Automation *)

Create HintDb bytes discriminated.
#[export] Hint Resolve u8_byte lxor_byte malloc_wf le_bytes_wf be_bytes_wf
  wf_bytes_take wf_bytes_drop wf_bytes_rev bytes_of_string_wf mem_write_wf : bytes.
#[export] Hint Extern 2 (wf_bytes (_ ++ _)) => apply wf_bytes_app; split : bytes.

Create Rewrite HintDb lens.
#[export] Hint Rewrite @length_app @length_take @length_drop @length_rev @length_replicate
  @length_insert @length_zip_with @length_map @length_fmap @length_seq
  malloc_length le_bytes_length be_bytes_length : lens.

(** Normalise the lengths in the goal and decide it. *)
Ltac len := autorewrite with lens in *; cbn [length] in *; lia.
