(* ===== verification/RString.v ===== *)
(** * Character strings: [rlib/string.hpp]

    [rlib::string] (conversion, splitting, joining, stripping, replacing) and
    the two formatters.  A [std::string] is the list of its bytes; the members
    of [std::string] and the numeric conversions of the standard library the
    code calls are defined first.  A loop takes a bound [fuel] on its number of
    iterations and is [Blocked] when it has not left the loop by then. *)

From S2P Require Import Prelude.

Module RString.

(** ** The members of [std::string] *)

Fixpoint starts_with (p l : bytes) : bool :=
  match p, l with
  | [], _ => true
  | a :: p, b :: l => (a =? b) && starts_with p l
  | _ :: _, [] => false
  end.

Fixpoint find_from (pat l : bytes) (pos : nat) : option nat :=
  if starts_with pat l then Some pos else
  match l with
  | [] => None
  | _ :: l => find_from pat l (S pos)
  end.

(** [s.find(pat, pos)]; [None] is [npos]. *)
Definition find (s pat : bytes) (pos : nat) : option nat :=
  if decide (pos <= length s)%nat then find_from pat (drop pos s) pos else None.

(** [s.substr(pos, n)] *)
Definition substr (s : bytes) (pos n : nat) : outcome bytes :=
  if decide (pos <= length s)%nat then Ok (take n (drop pos s))
  else Throw (out_of_range "basic_string::substr").

(** [s.erase(pos, n)] *)
Definition erase (s : bytes) (pos n : nat) : outcome bytes :=
  if decide (pos <= length s)%nat then Ok (take pos s ++ drop (pos + n) s)
  else Throw (out_of_range "basic_string::erase").

(** [s.std::string::replace(pos, n, to)] *)
Definition std_replace (s : bytes) (pos n : nat) (to : bytes) : outcome bytes :=
  if decide (pos <= length s)%nat then Ok (take pos s ++ to ++ drop (pos + n) s)
  else Throw (out_of_range "basic_string::replace").

Definition is_in (set : bytes) (c : Z) : bool := existsb (Z.eqb c) set.

Fixpoint find_first_not_of (set s : bytes) : option nat :=
  match s with
  | [] => None
  | c :: s => if is_in set c then S <$> find_first_not_of set s else Some 0%nat
  end.

Definition find_last_not_of (set s : bytes) : option nat :=
  (fun k => (length s - 1 - k)%nat) <$> find_first_not_of set (rev s).

(** ** Numeric conversions of the standard library *)

Definition is_space (c : Z) : bool := (c =? 32) || ((9 <=? c) && (c <=? 13)).
Definition is_digit (c : Z) : bool := (48 <=? c) && (c <=? 57).

Fixpoint skip_space (l : bytes) : bytes :=
  match l with
  | [] => []
  | c :: l' => if is_space c then skip_space l' else l
  end.

(** The value of the digits at the front of [l], [None] if there is none. *)
Fixpoint read_digits (l : bytes) (acc : option Z) : option Z :=
  match l with
  | [] => acc
  | c :: l => if is_digit c then read_digits l (Some (10 * default 0 acc + (c - 48))) else acc
  end.

(** White space, an optional sign and digits: the sign and the magnitude. *)
Definition strtol (s : bytes) : option (bool * Z) :=
  match skip_space s with
  | [] => None
  | c :: l =>
      if c =? 45 then pair true <$> read_digits l None
      else if c =? 43 then pair false <$> read_digits l None
      else pair false <$> read_digits (c :: l) None
  end.

Definition stox (name : string) (lo hi : Z) (s : bytes) : outcome Z :=
  match strtol s with
  | None => Throw (invalid_argument name)
  | Some (neg, m) =>
      let z := if neg : bool then - m else m in
      if (lo <=? z) && (z <=? hi) then Ok z else Throw (out_of_range name)
  end.

Definition stoi : bytes -> outcome Z := stox "stoi" (- 2 ^ 31) (2 ^ 31 - 1).
Definition stol : bytes -> outcome Z := stox "stol" (- 2 ^ 63) (2 ^ 63 - 1).

(** [strtoul] bounds the magnitude and negates it modulo 2^64. *)
Definition stoul (s : bytes) : outcome Z :=
  match strtol s with
  | None => Throw (invalid_argument "stoul")
  | Some (neg, m) =>
      if m <=? 2 ^ 64 - 1 then Ok (if neg : bool then u64 (- m) else m)
      else Throw (out_of_range "stoul")
  end.

(** ** [as<T>] *)

Definition as_char (s : bytes) : outcome Z :=
  match s with
  | [] => Ok 0
  | [c] => Ok c
  | _ => Throw (invalid_argument "Can not convert rlib::string to char: size() > 1.")
  end.

Definition as_bool (s : bytes) : outcome bool :=
  let same t := bool_decide (s = bytes_of_string t) in
  if same "true"%string then Ok true
  else if same "false"%string then Ok false
  else if same "1"%string || same "True"%string || same "TRUE"%string then Ok true
  else if same "0"%string || same "False"%string || same "FALSE"%string then Ok false
  else Throw (invalid_argument "Can not convert rlib::string to bool. Not matching any template.").

(** [RLIB_IMPL_GEN_AS_NUMERIC] *)
Definition as_numeric (std_conv : bytes -> outcome Z) (s : bytes) : outcome Z :=
  match s with [] => Ok 0 | _ => std_conv s end.

Definition as_int : bytes -> outcome Z := as_numeric stoi.
Definition as_long : bytes -> outcome Z := as_numeric stol.
Definition as_unsigned_long : bytes -> outcome Z := as_numeric stoul.

(** [RLIB_IMPL_GEN_AS_ALIAS]: [static_cast] truncates to the width. *)
Definition signed (bits z : Z) : Z :=
  let m := z mod 2 ^ bits in if m <? 2 ^ (bits - 1) then m else m - 2 ^ bits.

Definition as_unsigned_int (s : bytes) : outcome Z := z ← as_unsigned_long s; mret (u32 z).
Definition as_unsigned_short (s : bytes) : outcome Z := z ← as_unsigned_long s; mret (u16 z).
Definition as_uint8 (s : bytes) : outcome Z := z ← as_unsigned_long s; mret (u8 z).
Definition as_short (s : bytes) : outcome Z := z ← as_int s; mret (signed 16 z).
Definition as_int8 (s : bytes) : outcome Z := z ← as_int s; mret (signed 8 z).

(** ** Splitting and joining *)

Fixpoint split_loop (fuel : nat) (toSplit divider : bytes) (curr prev : nat) (buf : list bytes)
  : outcome (list bytes) :=
  match fuel with
  | O => Blocked
  | S fuel =>
      match find toSplit divider curr with
      | Some curr =>
          piece ← substr toSplit prev (curr - prev);
          let curr := (curr + length divider)%nat in
          split_loop fuel toSplit divider curr curr (buf ++ [piece])
      | None =>
          piece ← substr toSplit prev (length toSplit);
          mret (buf ++ [piece])
      end
  end.

(** [split(const std::string &)] *)
Definition split (fuel : nat) (s divider : bytes) : outcome (list bytes) :=
  split_loop fuel s divider 0 0 [].

(** [split(const char &)]: the same loop, searching one character. *)
Definition split_char (fuel : nat) (s : bytes) (divider : Z) : outcome (list bytes) :=
  split_loop fuel s [divider] 0 0 [].

Fixpoint split_as_loop {T} (as_T : bytes -> outcome T) (fuel : nat) (toSplit divider : bytes)
  (curr prev : nat) (buf : list T) : outcome (list T) :=
  match fuel with
  | O => Blocked
  | S fuel =>
      match find toSplit divider curr with
      | Some curr =>
          piece ← substr toSplit prev (curr - prev);
          v ← as_T piece;
          let curr := (curr + length divider)%nat in
          split_as_loop as_T fuel toSplit divider curr curr (buf ++ [v])
      | None =>
          piece ← substr toSplit prev (length toSplit);
          v ← as_T piece;
          mret (buf ++ [v])
      end
  end.

Definition split_as {T} (as_T : bytes -> outcome T) (fuel : nat) (s divider : bytes) : outcome (list T) :=
  split_as_loop as_T fuel s divider 0 0 [].

(** The loop of [join], [first] while [iter == begin]. *)
Fixpoint join_loop (toJoin : bytes) (first : bool) (buffer : list bytes) (result : bytes) : bytes :=
  match buffer with
  | [] => result
  | x :: buffer =>
      let result := if first then result else result ++ toJoin in
      join_loop toJoin false buffer (result ++ x)
  end.

Definition join (s : bytes) (buffer : list bytes) : bytes := join_loop s true buffer [].

(** ** Stripping *)

Definition strip_set (s stripped : bytes) : outcome bytes :=
  let len := length s in
  match find_first_not_of stripped s with
  | None => Ok []
  | Some begin =>
      match find_last_not_of stripped s with
      | None => (* [npos + 1] is 0 and [len - npos - 1] is [len] *)
          s ← erase s 0 len;
          erase s 0 begin
      | Some end_ =>
          s ← erase s (end_ + 1) (len - end_ - 1);
          erase s 0 begin
      end
  end.

Definition strip (s : bytes) : outcome bytes := strip_set s [32; 9; 13; 10].

(** ** Replacing *)

Fixpoint replace_loop (fuel : nat) (s from to : bytes) (start_pos times : nat) : outcome (bytes * nat) :=
  match fuel with
  | O => Blocked
  | S fuel =>
      match find s from start_pos with
      | Some start_pos =>
          s ← std_replace s start_pos (length from) to;
          replace_loop fuel s from to (start_pos + length to) (S times)
      | None => Ok (s, times)
      end
  end.

(** The string and [out_times], which keeps its value when [from] is empty. *)
Definition replace (fuel : nat) (s from to : bytes) (out_times : nat) : outcome (bytes * nat) :=
  match from with
  | [] => Ok (s, out_times)
  | _ => replace_loop fuel s from to 0 0
  end.

Definition replace_once (s from to : bytes) : outcome (bytes * bool) :=
  match find s from 0 with
  | None => Ok (s, false)
  | Some start_pos => s ← std_replace s start_pos (length from) to; mret (s, true)
  end.

(** ** Formatting with [{}] *)

Definition hole : bytes := bytes_of_string "{}".
Definition backslash : Z := 92.

Definition string_of_bytes (l : bytes) : string :=
  String.string_of_list_ascii (map (fun b => Ascii.ascii_of_N (Z.to_N b)) l).

(** The hand-written replacement of an escaped hole by a hole. *)
Fixpoint unescape_loop (fuel : nat) (s : bytes) (pos : nat) : outcome bytes :=
  match fuel with
  | O => Blocked
  | S fuel =>
      match find s (backslash :: hole) pos with
      | Some pos => s ← erase s pos 1; unescape_loop fuel s (pos + 2)
      | None => Ok s
      end
  end.

Definition not_enough (fmt : bytes) (expected got : nat) : exn :=
  out_of_range (string_of_bytes (bytes_of_string "format_string: not enough arguments for format string `"
    ++ fmt ++ bytes_of_string "`. Expecting at least " ++ to_string (Z.of_nat expected)
    ++ bytes_of_string ", got " ++ to_string (Z.of_nat got))).

Definition too_many (fmt : bytes) (expected got : nat) : exn :=
  out_of_range (string_of_bytes (bytes_of_string "format_string: too many arguments for format string `"
    ++ fmt ++ bytes_of_string "`. Expecting " ++ to_string (Z.of_nat expected)
    ++ bytes_of_string ", got " ++ to_string (Z.of_nat got))).

(** [argsArr]: the arguments printed by [to_string_by_sstream]; [ss]: the
    thread-local string stream. *)
Fixpoint format_loop (fuel : nat) (fmt : bytes) (argsArr : list bytes) (ss : bytes)
  (pos prev_pos used : nat) (escaped : bool) : outcome bytes :=
  match fuel with
  | O => Blocked
  | S fuel =>
      match find fmt hole pos with
      | Some pos =>
          if negb (pos =? 0)%nat && (nth (pos - 1) fmt 0 =? backslash)
          then format_loop fuel fmt argsArr ss (pos + 2) prev_pos used true
          else
            cut ← substr fmt prev_pos (pos - prev_pos);
            cut ← (if escaped then unescape_loop (S (length cut)) cut 0 else Ok cut);
            match argsArr !! used with
            | None => Throw (not_enough fmt (used + 1) (length argsArr))
            | Some a => format_loop fuel fmt argsArr (ss ++ cut ++ a) (pos + 2) (pos + 2) (S used) escaped
            end
      | None =>
          if negb (used =? length argsArr)%nat
          then Throw (too_many fmt used (length argsArr))
          else tail ← substr fmt prev_pos (length fmt); mret (ss ++ tail)
      end
  end.

(** [ss.str(std::string())] empties the stream left by an earlier call. *)
Definition format_string (fmt : bytes) (args : list bytes) : outcome bytes :=
  format_loop (S (length fmt)) fmt args [] 0 0 0 false.

(** ** Formatting with [vsnprintf]

    [out] is the text the conversion of the arguments yields, [None] when
    [vsnprintf] reports an error; [alloc n] says whether an allocation of [n]
    bytes succeeds. *)
Definition vsnprintf (out : option bytes) (p : bytes) (size : nat) : outcome (bytes * Z) :=
  match out with
  | None => Ok (p, -1)
  | Some t =>
      p ← (if (size =? 0)%nat then Ok p else mem_write p 0 (take (size - 1) t ++ [0]));
      mret (p, Z.of_nat (length t))
  end.

Fixpoint format_c_loop (fuel : nat) (alloc : nat -> bool) (junk : nat -> Z) (out : option bytes)
  (p : bytes) (size : nat) : outcome bytes :=
  match fuel with
  | O => Blocked
  | S fuel =>
      r ← vsnprintf out p size;
      let '(p, n) := r in
      if n <? 0 then Throw (runtime_error (string_of_bytes (bytes_of_string "vsnprintf returns " ++ to_string n)))
      else if n <? Z.of_nat size then Ok p
      else
        let size' := S (Z.to_nat n) in
        if alloc size' then format_c_loop fuel alloc junk out (p ++ drop size (malloc junk size')) size'
        else Throw (runtime_error "make_message realloc failed.")
  end.

Definition format_string_c (alloc : nat -> bool) (junk : nat -> Z) (fmt : bytes) (out : option bytes)
  : outcome bytes :=
  let size := length (cstr fmt) in
  if alloc size then
    res ← format_c_loop 2 alloc junk out (malloc junk size) size;
    mret (cstr res)
  else Throw (runtime_error "malloc returns null.").

(** ** Searching *)

Definition occurs (pat s : bytes) : Prop := exists pre post, s = pre ++ pat ++ post.

(** [s] is [pre ++ pat ++ post] and no occurrence of [pat] starts earlier. *)
Definition first_hit (pat s pre post : bytes) : Prop :=
  s = pre ++ pat ++ post /\
  forall pre' post', s = pre' ++ pat ++ post' -> (length pre <= length pre')%nat.

Lemma starts_with_spec p l : starts_with p l = true <-> exists post, l = p ++ post.
Proof.
  revert l. induction p as [|a p IH]; intros l; cbn [starts_with].
  - split; [by exists l|done].
  - destruct l as [|b l]; [split; [done|by intros [? ?]]|].
    rewrite andb_true_iff, Z.eqb_eq, IH. split.
    + intros [-> [post ->]]. by exists post.
    + intros [post [= -> ->]]. eauto.
Qed.

Lemma find_from_Some pat l pos q :
  find_from pat l pos = Some q ->
  exists pre post, first_hit pat l pre post /\ q = (pos + length pre)%nat.
Proof.
  revert pos. induction l as [|c l IH]; intros pos; cbn [find_from].
  - destruct (starts_with pat []) eqn:E; [|done]. intros [= <-].
    apply starts_with_spec in E as [post E]. exists [], post. repeat split; [done| |cbn; lia].
    intros. cbn. lia.
  - destruct (starts_with pat (c :: l)) eqn:E.
    + intros [= <-]. apply starts_with_spec in E as [post E]. exists [], post.
      repeat split; [done| |cbn; lia]. intros. cbn. lia.
    + intros (pre & post & [-> Hmin] & ->)%IH. exists (c :: pre), post.
      repeat split; [|cbn; lia]. intros [|c' pre'] post' Hs.
      * exfalso. assert (starts_with pat (c :: pre ++ pat ++ post) = true) as Ht; [|congruence].
        apply starts_with_spec. by exists post'.
      * injection Hs as -> Hs. apply Hmin in Hs. cbn. lia.
Qed.

Lemma find_from_None pat l pos : find_from pat l pos = None -> ~ occurs pat l.
Proof.
  revert pos. induction l as [|c l IH]; intros pos; cbn [find_from];
    (destruct (starts_with pat _) eqn:E; [done|]).
  - intros _ (pre & post & H). symmetry in H. apply app_eq_nil in H as [-> H].
    apply app_eq_nil in H as [-> ->]. done.
  - intros Hn (pre & post & Hs). destruct pre as [|c' pre].
    + assert (starts_with pat (c :: l) = true); [|congruence]. apply starts_with_spec. by exists post.
    + injection Hs as -> ->. eapply IH; [done|]. by exists pre, post.
Qed.

Lemma find_app_Some (d s pat : bytes) q :
  find (d ++ s) pat (length d) = Some q ->
  exists pre post, first_hit pat s pre post /\ q = (length d + length pre)%nat.
Proof.
  unfold find. rewrite decide_True by len. rewrite drop_app_length. apply find_from_Some.
Qed.

Lemma find_app_None (d s pat : bytes) : find (d ++ s) pat (length d) = None -> ~ occurs pat s.
Proof.
  unfold find. rewrite decide_True by len. rewrite drop_app_length. apply find_from_None.
Qed.

Lemma substr_mid (a b c : bytes) n : n = length b -> substr (a ++ b ++ c) (length a) n = Ok b.
Proof.
  intros ->. unfold substr. rewrite decide_True by len. by rewrite drop_app_length, take_app_length.
Qed.

Lemma substr_tail (a b : bytes) n : (length b <= n)%nat -> substr (a ++ b) (length a) n = Ok b.
Proof.
  intros H. unfold substr. rewrite decide_True by len. rewrite drop_app_length.
  by rewrite take_ge.
Qed.

Lemma std_replace_mid (a b c to : bytes) n :
  n = length b -> std_replace (a ++ b ++ c) (length a) n to = Ok (a ++ to ++ c).
Proof.
  intros ->. unfold std_replace. rewrite decide_True by len.
  rewrite take_app_length, <- drop_drop, drop_app_length, drop_app_length. done.
Qed.

(** ** The specification of splitting *)

(** [Split d s l]: [l] are the pieces of [s] between the occurrences of [d],
    taken from the left and without overlap. *)
Inductive Split (d : bytes) : bytes -> list bytes -> Prop :=
| Split_last s : ~ occurs d s -> Split d s [s]
| Split_cons s pre post l : first_hit d s pre post -> Split d post l -> Split d s (pre :: l).

(** The reference meaning of [join]. *)
Fixpoint concat_with (d : bytes) (l : list bytes) : bytes :=
  match l with
  | [] => []
  | [x] => x
  | x :: l => x ++ d ++ concat_with d l
  end.

Lemma first_hit_unique d s pre post pre' post' :
  first_hit d s pre post -> first_hit d s pre' post' -> pre = pre' /\ post = post'.
Proof.
  intros [Hs Hm] [Hs' Hm'].
  assert (Hl : length pre = length pre').
  { pose proof (Hm _ _ Hs'). pose proof (Hm' _ _ Hs). lia. }
  rewrite Hs in Hs'. apply app_inj_1 in Hs' as [-> Hs']; [|done]. by apply app_inv_head in Hs' as ->.
Qed.

Lemma Split_unique d s l l' : Split d s l -> Split d s l' -> l = l'.
Proof.
  intros H. revert l'. induction H as [s Hn|s pre post l Hh Hr IH]; intros l' H'; inversion H'; subst.
  - done.
  - destruct Hn. destruct H as [-> _]. by do 2 eexists.
  - destruct H. destruct Hh as [-> _]. by do 2 eexists.
  - edestruct (first_hit_unique _ _ _ _ _ _ Hh H) as [-> ->]. f_equal. by apply IH.
Qed.

Lemma Split_concat d s l : Split d s l -> concat_with d l = s.
Proof.
  induction 1 as [s Hn|s pre post l [-> _] Hr IH]; [done|].
  destruct l as [|x l]; [inversion Hr|]. cbn [concat_with] in *. by rewrite IH.
Qed.

Lemma Split_nonempty d s l : Split d s l -> l <> [].
Proof. by destruct 1. Qed.

Lemma split_loop_run fuel d (pre s : bytes) buf :
  d <> [] -> (length s < fuel)%nat ->
  exists l, Split d s l /\ split_loop fuel (pre ++ s) d (length pre) (length pre) buf = Ok (buf ++ l).
Proof.
  intros Hd. revert pre s buf. induction fuel as [|fuel IH]; intros pre s buf Hf; [lia|].
  cbn [split_loop]. destruct (find _ _ _) as [q|] eqn:E.
  - apply find_app_Some in E as (a & b & Hh & ->). pose proof Hh as [-> _].
    rewrite substr_mid by lia. run_ok.
    destruct (IH (pre ++ a ++ d) b (buf ++ [a])) as (l & Hl & Hr).
    { destruct d; [done|]. len. }
    exists (a :: l). split; [by econstructor|].
    replace (length pre + length a + length d)%nat with (length (pre ++ a ++ d)) by len.
    rewrite <- !app_assoc in Hr. exact Hr.
  - apply find_app_None in E. exists [s]. split; [by constructor|].
    rewrite substr_tail by len. done.
Qed.

Lemma join_loop_spec d l res first : l <> [] ->
  join_loop d first l res = (if first then res else res ++ d) ++ concat_with d l.
Proof.
  revert res first. induction l as [|x l IH]; intros res first Hl; [done|].
  cbn [join_loop]. destruct l as [|y l].
  - cbn. by destruct first.
  - rewrite IH by done. cbn [concat_with]. destruct first; by rewrite <- !app_assoc.
Qed.

Lemma join_concat d l : join d l = concat_with d l.
Proof. destruct l as [|x l]; [done|]. unfold join. by rewrite join_loop_spec. Qed.

Lemma replace_loop_run fuel from to (done s : bytes) times :
  from <> [] -> (length s < fuel)%nat ->
  exists l, Split from s l /\ replace_loop fuel (done ++ s) from to (length done) times =
    Ok (done ++ concat_with to l, (times + (length l - 1))%nat).
Proof.
  intros Hd. revert done s times. induction fuel as [|fuel IH]; intros pre s times Hf; [lia|].
  cbn [replace_loop]. destruct (find _ _ _) as [q|] eqn:E.
  - apply find_app_Some in E as (a & b & Hh & ->). pose proof Hh as [-> _].
    replace (length pre + length a)%nat with (length (pre ++ a)) by len.
    rewrite (app_assoc pre), std_replace_mid by done. run_ok.
    destruct (IH (pre ++ a ++ to) b (S times)) as (l & Hl & Hr).
    { destruct from; [done|]. len. }
    exists (a :: l). split; [by econstructor|].
    replace (length (pre ++ a) + length to)%nat with (length (pre ++ a ++ to)) by len.
    rewrite <- !app_assoc in Hr. rewrite <- !app_assoc, Hr.
    destruct l as [|x l]; [inversion Hl|]. cbn [concat_with length].
    do 2 f_equal. lia.
  - apply find_app_None in E. exists [s]. split; [by constructor|]. cbn. do 2 f_equal. lia.
Qed.

(** Splitting by a non-empty divider always ends (one iteration per
    character is enough), its result is the left-to-right decomposition of the
    string around the divider, and joining the pieces with the divider gives
    the string back. *)
Theorem split_join s d :
  d <> [] ->
  exists l, split (S (length s)) s d = Ok l /\ Split d s l /\ join d l = s.
Proof.
  intros Hd. destruct (split_loop_run (S (length s)) d [] s []) as (l & Hl & Hr); [done|lia|].
  exists l. rewrite join_concat. eauto using Split_concat.
Qed.

Lemma split_join_witness :
  [124] <> ([] : bytes) /\
  exists l, split 7 [124; 49; 50; 51; 124; 124] [124] = Ok l /\ Split [124] [124; 49; 50; 51; 124; 124] l
    /\ join [124] l = [124; 49; 50; 51; 124; 124].
Proof. split; [done|]. apply (split_join [124; 49; 50; 51; 124; 124] [124]). done. Defined.

Lemma split_as_loop_run {T} (as_T : bytes -> outcome T) fuel d (pre s : bytes) buf :
  d <> [] -> (length s < fuel)%nat ->
  exists l, Split d s l /\ split_as_loop as_T fuel (pre ++ s) d (length pre) (length pre) buf =
    (vs ← mapM as_T l; mret (buf ++ vs)).
Proof.
  intros Hd. revert pre s buf. induction fuel as [|fuel IH]; intros pre s buf Hf; [lia|].
  cbn [split_as_loop]. destruct (find _ _ _) as [q|] eqn:E.
  - apply find_app_Some in E as (a & b & Hh & ->). pose proof Hh as [-> _].
    rewrite substr_mid by lia. run_ok. destruct (as_T a) as [v| | |] eqn:Ea; run_ok.
    2-4: destruct (split_loop_run (S (length b)) d [] b []) as (l & Hl & _); [done|lia|];
      exists (a :: l); (split; [by econstructor|]); cbn [mapM]; by rewrite Ea.
    destruct (IH (pre ++ a ++ d) b (buf ++ [v])) as (l & Hl & Hr).
    { destruct d; [done|]. len. }
    exists (a :: l). split; [by econstructor|].
    replace (length pre + length a + length d)%nat with (length (pre ++ a ++ d)) by len.
    rewrite <- !app_assoc in Hr. rewrite Hr. cbn [mapM]. rewrite Ea. run_ok.
    destruct (mapM as_T l); [|done..]. run_ok. by rewrite <- app_assoc.
  - apply find_app_None in E. exists [s]. split; [by constructor|].
    rewrite substr_tail by len. cbn [mapM]. run_ok. by destruct (as_T s).
Qed.

(** Splitting and converting is converting the pieces from the left; the first
    piece that does not convert decides. *)
Lemma split_as_spec {T} (as_T : bytes -> outcome T) s d :
  d <> [] -> exists l, Split d s l /\ split_as as_T (S (length s)) s d = mapM as_T l.
Proof.
  intros Hd. destruct (split_as_loop_run as_T (S (length s)) d [] s []) as (l & Hl & Hr); [done|lia|].
  exists l. split; [done|]. unfold split_as. change (length []) with 0%nat in Hr. cbn [app] in Hr.
  rewrite Hr. by destruct (mapM as_T l).
Qed.

Lemma find_nil s pos : (pos <= length s)%nat -> find s [] pos = Some pos.
Proof. intros. unfold find. rewrite decide_True by done. by destruct (drop pos s). Qed.

(** Splitting by an empty divider never ends: [find] reports a hit at the
    current position for ever, so no number of iterations leaves the loop. *)
Theorem split_empty_divider fuel s : split fuel s [] = Blocked.
Proof.
  unfold split. cut (forall buf, split_loop fuel s [] 0 0 buf = Blocked); [done|].
  induction fuel as [|fuel IH]; intros buf; [done|]. cbn [split_loop].
  rewrite find_nil by lia. unfold substr. rewrite decide_True by lia. run_ok. apply IH.
Qed.

(** C26: replacing a non-empty pattern ends, whatever the replacement contains;
    the result is the pieces of the string around the pattern joined with the
    replacement, and [out_times] is the number of occurrences replaced. *)
Theorem replace_spec s from to t0 :
  from <> [] ->
  exists l, Split from s l /\
    replace (S (length s)) s from to t0 = Ok (join to l, (length l - 1)%nat).
Proof.
  intros Hf. destruct (replace_loop_run (S (length s)) from to [] s 0) as (l & Hl & Hr); [done|lia|].
  exists l. split; [done|]. rewrite join_concat. destruct from; [done|]. exact Hr.
Qed.

Lemma replace_spec_witness :
  [120] <> ([] : bytes) /\
  exists l, Split [120] [97; 120; 120] l /\
    replace 4 [97; 120; 120] [120] [121; 120] 9 = Ok (join [121; 120] l, (length l - 1)%nat).
Proof. split; [done|]. apply (replace_spec [97; 120; 120] [120] [121; 120] 9). done. Defined.

(** ** Stripping *)

Lemma find_first_not_of_None set s : find_first_not_of set s = None -> Forall (fun c => is_in set c = true) s.
Proof.
  induction s as [|c s IH]; cbn [find_first_not_of]; [by constructor|].
  destruct (is_in set c) eqn:E; [|done]. destruct (find_first_not_of set s); [done|].
  intros _. constructor; auto.
Qed.

Lemma find_first_not_of_Some set s k : find_first_not_of set s = Some k ->
  exists pre c post, s = pre ++ c :: post /\ k = length pre /\
    Forall (fun c => is_in set c = true) pre /\ is_in set c = false.
Proof.
  revert k. induction s as [|c s IH]; intros k; cbn [find_first_not_of]; [done|].
  destruct (is_in set c) eqn:E.
  - destruct (find_first_not_of set s) as [j|]; [|done]. intros [= <-].
    destruct (IH j eq_refl) as (pre & x & post & -> & -> & Hp & Hx).
    exists (c :: pre), x, post. repeat split; [|done]. by constructor.
  - intros [= <-]. exists [], c, s. repeat split; [constructor|done].
Qed.

Lemma find_last_not_of_Some set s k : find_last_not_of set s = Some k ->
  exists pre c post, s = pre ++ c :: post /\ k = length pre /\
    Forall (fun c => is_in set c = true) post /\ is_in set c = false.
Proof.
  unfold find_last_not_of. destruct (find_first_not_of set (rev s)) as [j|] eqn:E; [|done].
  intros [= <-]. apply find_first_not_of_Some in E as (pre & c & post & Hs & -> & Hp & Hc).
  exists (rev post), c, (rev pre).
  assert (Hs' : s = rev (pre ++ c :: post)) by (by rewrite <- Hs, rev_involutive).
  rewrite rev_app_distr in Hs'. cbn [rev] in Hs'. rewrite <- app_assoc in Hs'.
  rewrite Hs'. repeat split; [len|by apply List.Forall_rev|done].
Qed.

(** [strip] keeps the middle of the string and only drops stripped characters. *)
Definition stripped_of (set s r : bytes) : Prop :=
  exists pre post, s = pre ++ r ++ post /\
    Forall (fun c => is_in set c = true) pre /\ Forall (fun c => is_in set c = true) post /\
    (forall c, head r = Some c -> is_in set c = false) /\
    (forall c, last r = Some c -> is_in set c = false).

Lemma find_last_not_of_None set s : find_last_not_of set s = None -> Forall (fun c => is_in set c = true) s.
Proof.
  unfold find_last_not_of. destruct (find_first_not_of set (rev s)) eqn:E; [done|]. intros _.
  apply find_first_not_of_None, List.Forall_rev in E. by rewrite rev_involutive in E.
Qed.

(** The first and the last kept character are in this order. *)
Lemma kept_middle set (pre post pre2 post2 : bytes) c c2 :
  pre ++ c :: post = pre2 ++ c2 :: post2 ->
  is_in set c = false -> Forall (fun c => is_in set c = true) post2 ->
  exists k, pre2 = pre ++ k /\ c :: post = k ++ c2 :: post2.
Proof.
  intros [(k & -> & H)|(k & -> & H)]%app_eq_inv Hc Hp; [|eauto].
  destruct k as [|x k]; cbn in H; [exists []; rewrite !app_nil_r; auto|].
  injection H as -> ->. apply Forall_app in Hp as [_ Hp]. inversion Hp. congruence.
Qed.

(** [strip] never throws and removes exactly the longest prefix and suffix
    made of the given characters. *)
Theorem strip_spec set s : exists r, strip_set s set = Ok r /\ stripped_of set s r.
Proof.
  unfold strip_set. destruct (find_first_not_of set s) as [b|] eqn:E.
  - apply find_first_not_of_Some in E as (pre & c & post & -> & -> & Hp & Hc).
    destruct (find_last_not_of set (pre ++ c :: post)) as [e|] eqn:E.
    + apply find_last_not_of_Some in E as (pre2 & c2 & post2 & Hs & -> & Hp2 & Hc2).
      destruct (kept_middle _ _ _ _ _ _ _ Hs Hc Hp2) as (k & -> & Hk). rewrite Hk.
      exists (k ++ [c2]). split.
      * unfold erase. rewrite decide_True by len. run_ok. rewrite decide_True by lia.
        rewrite (drop_ge (pre ++ k ++ c2 :: post2)) by len.
        rewrite app_nil_r, cons_middle, !app_assoc.
        rewrite take_app_length' by len. change (0 + length pre)%nat with (length pre).
        by rewrite <- app_assoc, drop_app_length.
      * exists pre, post2. rewrite <- !app_assoc. repeat split; auto.
        -- intros x. destruct k as [|y k]; cbn; [congruence|]. injection Hk as <- _. congruence.
        -- intros x. rewrite last_snoc. congruence.
    + apply find_last_not_of_None, Forall_app in E as [_ E]. inversion E. congruence.
  - apply find_first_not_of_None in E. exists []. split; [done|].
    exists s, []. repeat split; auto; done || by rewrite app_nil_r.
Qed.

(** ** Conversions *)

Lemma read_digits_app l k acc :
  Forall (fun c => is_digit c = true) l -> read_digits (l ++ k) acc = read_digits k (read_digits l acc).
Proof.
  revert acc. induction l as [|c l IH]; intros acc H; [done|]. inversion H as [|? ? Hc Hl]; subst.
  cbn [app read_digits]. rewrite Hc. by apply IH.
Qed.

Lemma digit_48 d : 0 <= d < 10 -> is_digit (48 + d) = true.
Proof. intros. unfold is_digit. apply andb_true_iff. lia. Qed.

Lemma dec_digits_read fuel z :
  0 <= z < 10 ^ Z.of_nat fuel -> (0 < fuel)%nat ->
  read_digits (dec_digits fuel z) None = Some z /\
  Forall (fun c => is_digit c = true) (dec_digits fuel z).
Proof.
  revert z. induction fuel as [|fuel IH]; intros z Hz Hf; [lia|]. cbn [dec_digits].
  destruct (Z.ltb_spec z 10) as [H|H].
  - cbn [read_digits]. rewrite digit_48 by lia. split; [cbn; f_equal; lia|].
    constructor; [apply digit_48; lia|constructor].
  - assert (fuel <> 0%nat) by (intros ->; cbn in Hz; lia).
    rewrite Nat2Z.inj_succ, Z.pow_succ_r in Hz by lia.
    pose proof (Z.mod_pos_bound z 10). pose proof (Z.div_mod z 10).
    destruct (IH (z / 10)) as [HR HD]; [|lia|].
    + split; [apply Z.div_pos; lia|]. apply Z.div_lt_upper_bound; lia.
    + rewrite read_digits_app, HR by done. cbn [read_digits]. rewrite digit_48 by lia. cbn [default].
      split; [f_equal; cbn; lia|]. apply Forall_app. split; [done|].
      constructor; [apply digit_48; lia|constructor].
Qed.

Lemma strtol_to_string z : - 10 ^ 20 < z < 10 ^ 20 ->
  strtol (to_string z) = Some (z <? 0, Z.abs z).
Proof.
  intros Hz. unfold to_string, strtol. destruct (Z.ltb_spec z 0).
  - destruct (dec_digits_read 20 (- z)) as [HR _]; [cbn in *; lia|lia|].
    change (skip_space (45 :: dec_digits 20 (- z))) with (45 :: dec_digits 20 (- z)).
    cbv iota beta. change (45 =? 45) with true. cbv iota. rewrite HR. cbn. do 2 f_equal. lia.
  - destruct (dec_digits_read 20 z) as [HR HD]; [cbn in *; lia|lia|].
    destruct (dec_digits_bound 20 20 z) as [[HL _] _]; [cbn in *; lia|lia|].
    destruct (dec_digits 20 z) as [|c l]; [cbn in HL; lia|]. inversion HD as [|? ? Hc _]; subst.
    assert (Hc' : 48 <= c <= 57) by (unfold is_digit in Hc; lia).
    assert (Hs : skip_space (c :: l) = c :: l).
    { cbn [skip_space]. unfold is_space. destruct (Z.eqb_spec c 32); [lia|].
      destruct (Z.leb_spec c 13); [lia|]. by rewrite andb_false_r. }
    rewrite Hs. destruct (Z.eqb_spec c 45); [lia|]. destruct (Z.eqb_spec c 43); [lia|].
    rewrite HR. cbn. do 2 f_equal. lia.
Qed.

(** [stoi] reads back every [int] that [std::to_string] prints, and rejects
    the text of every integer outside the range of [int]. *)
Theorem stoi_to_string z : - 10 ^ 20 < z < 10 ^ 20 ->
  stoi (to_string z) =
    if (- 2 ^ 31 <=? z) && (z <=? 2 ^ 31 - 1) then Ok z else Throw (out_of_range "stoi").
Proof.
  intros Hz. unfold stoi, stox. rewrite strtol_to_string by done.
  replace (if z <? 0 then - Z.abs z else Z.abs z) with z; [done|].
  destruct (Z.ltb_spec z 0); lia.
Qed.

Lemma stoi_to_string_witness : - 10 ^ 20 < -70000 < 10 ^ 20 /\ stoi (to_string (-70000)) = Ok (-70000).
Proof. split; [lia|]. apply (stoi_to_string (-70000)). lia. Defined.

Lemma to_string_nonempty z : - 10 ^ 20 < z < 10 ^ 20 -> to_string z <> [].
Proof. intros Hz H. apply strtol_to_string in Hz. by rewrite H in Hz. Qed.

(** The unsigned conversions reduce modulo the width instead of rejecting. *)
Lemma as_unsigned_short_wraps z : 0 <= z < 2 ^ 64 -> as_unsigned_short (to_string z) = Ok (z mod 2 ^ 16).
Proof.
  intros Hz. unfold as_unsigned_short, as_unsigned_long, as_numeric.
  destruct (to_string z) as [|c l] eqn:E; [by apply to_string_nonempty in E; [|lia]|].
  rewrite <- E. unfold stoul. rewrite strtol_to_string by lia.
  destruct (Z.leb_spec (Z.abs z) (2 ^ 64 - 1)); [|lia]. destruct (Z.ltb_spec z 0); [lia|].
  cbn [mbind outcome_bind mret outcome_ret]. unfold u16. by rewrite Z.abs_eq by lia.
Qed.

(** ** Formatting *)

Definition esc : bytes := backslash :: hole.

Lemma unescape_replace fuel s pos times :
  unescape_loop fuel s pos = (r ← replace_loop fuel s esc hole pos times; mret r.1).
Proof.
  revert s pos times. induction fuel as [|fuel IH]; intros s pos times; [done|].
  cbn [unescape_loop replace_loop]. change (backslash :: hole) with esc.
  destruct (find s esc pos) as [q|] eqn:E; [|done].
  unfold find in E. case_decide as Hp; [|done].
  apply find_from_Some in E as (a & b & [Hs _] & ->).
  rewrite <- (take_drop pos s), Hs.
  assert (Hlen : (pos + length a)%nat = length (take pos s ++ a)) by len.
  rewrite Hlen, app_assoc, std_replace_mid by done. run_ok.
  unfold erase. rewrite decide_True by len.
  rewrite take_app_length, <- drop_drop, drop_app_length. run_ok.
  rewrite (IH _ _ (S times)). done.
Qed.

Lemma no_hole_no_esc p : ~ occurs hole p -> ~ occurs esc p.
Proof.
  intros Hn (a & b & ->). apply Hn. exists (a ++ [backslash]), b. by rewrite <- app_assoc.
Qed.

Lemma first_hit_no_hole s p post : first_hit hole s p post -> ~ occurs hole p.
Proof.
  intros [-> Hm] (a & b & ->).
  specialize (Hm a (b ++ hole ++ post)). rewrite <- !app_assoc in Hm.
  specialize (Hm eq_refl). rewrite !length_app in Hm. change (length hole) with 2%nat in Hm. lia.
Qed.

Lemma no_hole_first_hit p t : ~ occurs hole p -> first_hit hole (p ++ hole ++ t) p t.
Proof.
  intros Hn. split; [done|]. intros a b H.
  destruct (decide (length p <= length a)%nat) as [|Hlt]; [done|]. exfalso.
  apply app_eq_inv in H as [(k & -> & H)|(k & -> & H)]; [|len].
  destruct k as [|x [|y k]]; [rewrite app_nil_r in Hlt; lia|by injection H|].
  injection H as <- <- _. apply Hn. by exists a, k.
Qed.

(** [lit] is [raw] with its escaped holes unescaped, whatever text follows. *)
Definition unescapes (raw lit : bytes) : Prop :=
  forall t l, Split esc t l ->
    exists l', Split esc (raw ++ t) l' /\ concat_with hole l' = lit ++ concat_with hole l.

Lemma unescapes_nil : unescapes [] [].
Proof. intros t l H. eauto. Qed.

Lemma unescapes_snoc raw lit a :
  unescapes raw lit -> ~ occurs hole (a ++ [backslash]) ->
  unescapes (raw ++ (a ++ [backslash]) ++ hole) (lit ++ a ++ hole).
Proof.
  intros H Hn t l Hl. destruct (H (a ++ esc ++ t) (a :: l)) as (l' & Hl' & Hc).
  - econstructor; [|done]. split; [done|]. intros pre post Hs.
    destruct (no_hole_first_hit (a ++ [backslash]) t Hn) as [_ Hm].
    specialize (Hm (pre ++ [backslash]) post). rewrite <- !app_assoc in Hm.
    change ([backslash] ++ hole ++ t) with (esc ++ t) in Hm.
    change ([backslash] ++ hole ++ post) with (esc ++ post) in Hm.
    specialize (Hm Hs). len.
  - exists l'. rewrite <- !app_assoc. split; [done|]. rewrite Hc.
    destruct l as [|x l]; [inversion Hl|]. cbn [concat_with]. done.
Qed.

Lemma unescape_run raw lit p :
  unescapes raw lit -> ~ occurs hole p ->
  unescape_loop (S (length (raw ++ p))) (raw ++ p) 0 = Ok (lit ++ p).
Proof.
  intros Hu Hp. rewrite (unescape_replace _ _ _ 0).
  destruct (replace_loop_run (S (length (raw ++ p))) esc hole [] (raw ++ p) 0) as (l & Hl & Hr); [done|lia|].
  change (length []) with 0%nat in Hr. cbn [app] in Hr. rewrite Hr. run_ok. cbn [fst].
  destruct (Hu p [p]) as (l' & Hl' & Hc); [constructor; by apply no_hole_no_esc|].
  rewrite (Split_unique _ _ _ _ Hl Hl'), Hc. done.
Qed.

(** ** The meaning of a format string

    [segs] are the pieces of the format string between its holes.  A hole after
    a backslash is literal text; another hole takes the next argument.  [raw]
    and [lit] are the text since the last hole taken, as written and with the
    escapes removed.  The text after the last hole is copied as written. *)
Fixpoint render (fmt : bytes) (total used : nat) (raw lit : bytes) (segs args : list bytes) : outcome bytes :=
  match segs with
  | [] => Ok []
  | [p] => match args with [] => Ok (raw ++ p) | _ => Throw (too_many fmt used total) end
  | p :: segs =>
      if bool_decide (last p = Some backslash)
      then render fmt total used (raw ++ p ++ hole) (lit ++ removelast p ++ hole) segs args
      else
        match args with
        | [] => Throw (not_enough fmt (used + 1) total)
        | a :: args => r ← render fmt total (S used) [] [] segs args; mret (lit ++ p ++ a ++ r)
        end
  end.

Lemma render_cons fmt total used raw lit p s0 segs args :
  render fmt total used raw lit (p :: s0 :: segs) args =
  if bool_decide (last p = Some backslash)
  then render fmt total used (raw ++ p ++ hole) (lit ++ removelast p ++ hole) (s0 :: segs) args
  else
    match args with
    | [] => Throw (not_enough fmt (used + 1) total)
    | a :: args => r ← render fmt total (S used) [] [] (s0 :: segs) args; mret (lit ++ p ++ a ++ r)
    end.
Proof. done. Qed.

Lemma escape_check (pre p post : bytes) :
  last pre <> Some backslash ->
  negb (length pre + length p =? 0)%nat && (nth (length pre + length p - 1) (pre ++ p ++ post) 0 =? backslash)
  = bool_decide (last p = Some backslash).
Proof.
  intros Hpre. destruct p as [|x p _] using rev_ind.
  - rewrite (bool_decide_eq_false_2 (last [] = _)) by done. cbn [length app].
    destruct pre as [|y pre _] using rev_ind; [done|]. rewrite last_snoc in Hpre.
    rewrite length_app. cbn [length]. rewrite app_nth1 by len.
    replace (length pre + 1 + 0 - 1)%nat with (length pre) by lia.
    rewrite nth_middle. destruct (Z.eqb_spec y backslash); [congruence|]. by rewrite andb_false_r.
  - rewrite last_snoc, length_app. cbn [length].
    destruct (Nat.eqb_spec (length pre + (length p + 1)) 0); [lia|]. cbn [negb andb].
    replace (length pre + (length p + 1) - 1)%nat with (length (pre ++ p)) by len.
    replace (pre ++ (p ++ [x]) ++ post) with ((pre ++ p) ++ x :: post) by (by rewrite <- !app_assoc).
    rewrite nth_middle. destruct (Z.eqb_spec x backslash).
    + by rewrite bool_decide_eq_true_2 by congruence.
    + by rewrite bool_decide_eq_false_2 by congruence.
Qed.

(** What one search finds in the text still to be read. *)
Lemma Split_find (d rest : bytes) segs :
  Split hole rest segs ->
  match find (d ++ rest) hole (length d) with
  | None => segs = [rest]
  | Some q => exists p post segs', first_hit hole rest p post /\ q = (length d + length p)%nat /\
                segs = p :: segs' /\ Split hole post segs'
  end.
Proof.
  intros H. destruct (find _ _ _) as [q|] eqn:E.
  - apply find_app_Some in E as (a & b & Hh & ->). inversion H as [|? pre post l Hh' Hl]; subst.
    + destruct Hh as [-> _]. exfalso. apply H0. by do 2 eexists.
    + destruct (first_hit_unique _ _ _ _ _ _ Hh Hh') as [-> ->]. by exists pre, post, l.
  - apply find_app_None in E. inversion H as [|? pre post l Hh' Hl]; subst; [done|].
    destruct Hh' as [-> _]. destruct E. by do 2 eexists.
Qed.

Lemma last_hole (l : bytes) : last (l ++ hole) <> Some backslash.
Proof. rewrite last_app. done. Qed.

Lemma cut_text escaped raw lit p :
  unescapes raw lit -> ~ occurs hole p -> (escaped = false -> raw = [] /\ lit = []) ->
  (if escaped : bool then unescape_loop (S (length (raw ++ p))) (raw ++ p) 0 else Ok (raw ++ p)) = Ok (lit ++ p).
Proof.
  intros Hu Hp He. destruct escaped; [by apply unescape_run|]. by destruct He as [-> ->].
Qed.

Lemma format_loop_run fuel argsArr ss (d raw lit rest : bytes) used escaped segs :
  let fmt := d ++ raw ++ rest in
  Split hole rest segs -> last (d ++ raw) <> Some backslash -> unescapes raw lit ->
  (escaped = false -> raw = [] /\ lit = []) -> (length rest < fuel)%nat -> (used <= length argsArr)%nat ->
  format_loop fuel fmt argsArr ss (length (d ++ raw)) (length d) used escaped =
  (r ← render fmt (length argsArr) used raw lit segs (drop used argsArr); mret (ss ++ r)).
Proof.
  intros fmt HS HL HU HE Hf Hu. subst fmt.
  revert ss d raw lit rest used escaped segs HS HL HU HE Hf Hu.
  induction fuel as [|fuel IH]; intros; [lia|]. cbn [format_loop].
  pose proof (Split_find (d ++ raw) rest segs HS) as HF. rewrite <- app_assoc in HF.
  destruct (find _ _ _) as [q|].
  - destruct HF as (p & post & segs' & Hh & -> & -> & HS'). pose proof Hh as [-> _].
    assert (Hlen : (length p + 2 <= length (p ++ hole ++ post) < S fuel)%nat).
    { split; [|lia]. rewrite !length_app. change (length hole) with 2%nat. lia. }
    assert (length post < fuel)%nat.
    { rewrite !length_app in Hf. change (length hole) with 2%nat in Hf. lia. }
    assert (Hn := first_hit_no_hole _ _ _ Hh).
    rewrite (app_assoc d raw), (escape_check (d ++ raw) p (hole ++ post)) by done.
    destruct segs' as [|s0 segs']; [inversion HS'|]. rewrite render_cons.
    destruct (bool_decide_reflect (last p = Some backslash)) as [Hb|Hb].
    + destruct p as [|x a _] using rev_ind; [done|]. rewrite last_snoc in Hb. injection Hb as ->.
      rewrite removelast_last.
      specialize (IH ss d (raw ++ (a ++ [backslash]) ++ hole) (lit ++ a ++ hole) post used true (s0 :: segs')).
      rewrite <- !app_assoc in IH |- *.
      replace (length (d ++ raw) + length (a ++ [backslash]) + 2)%nat
        with (length (d ++ raw ++ a ++ [backslash] ++ hole)) by (rewrite !length_app; cbn; lia).
      apply IH; auto.
      * replace (d ++ raw ++ a ++ [backslash] ++ hole) with ((d ++ raw ++ a ++ [backslash]) ++ hole)
          by (by rewrite <- !app_assoc). apply last_hole.
      * pose proof (unescapes_snoc raw lit a HU Hn) as Hs. by rewrite <- app_assoc in Hs.
      * done.
    + rewrite <- app_assoc, (app_assoc raw p).
      rewrite (substr_mid d (raw ++ p)) by len. run_ok. rewrite (cut_text _ _ lit) by done. run_ok.
      destruct (argsArr !! used) as [v|] eqn:Ha.
      * rewrite (drop_S argsArr v used Ha). cbv beta iota.
        specialize (IH (ss ++ (lit ++ p) ++ v) (d ++ raw ++ p ++ hole) [] [] post (S used) escaped (s0 :: segs')).
        rewrite app_nil_r, <- !app_assoc in IH. cbn [app] in IH. rewrite <- !app_assoc.
        replace (length (d ++ raw) + length p + 2)%nat with (length (d ++ raw ++ p ++ hole))
          by (rewrite !length_app; cbn; lia).
        rewrite IH; auto using unescapes_nil.
        -- destruct (render _ _ _ _ _ _ _); [|done..]. run_ok. by rewrite <- !app_assoc.
        -- replace (d ++ raw ++ p ++ hole) with ((d ++ raw ++ p) ++ hole) by (by rewrite <- !app_assoc).
           apply last_hole.
        -- apply lookup_lt_Some in Ha. lia.
      * apply lookup_ge_None in Ha. rewrite drop_ge by done. rewrite <- !app_assoc. done.
  - subst segs. cbn [render]. destruct (Nat.eqb_spec used (length argsArr)) as [->|Hne]; cbn [negb].
    + rewrite drop_all. rewrite substr_tail by len. run_ok. done.
    + destruct (drop used argsArr) as [|a l] eqn:Ed; [|done].
      apply (f_equal length) in Ed. rewrite length_drop in Ed. cbn in Ed. lia.
Qed.

Lemma format_string_spec' fmt args :
  exists segs, Split hole fmt segs /\
    format_string fmt args = render fmt (length args) 0 [] [] segs args.
Proof.
  destruct (split_loop_run (S (length fmt)) hole [] fmt []) as (segs & HS & _); [done|lia|].
  exists segs. split; [done|]. unfold format_string.
  pose proof (format_loop_run (S (length fmt)) args [] [] [] [] fmt 0 false segs) as H.
  cbn [app length drop] in H. rewrite H by (first [done|lia|apply unescapes_nil]).
  by destruct (render _ _ _ _ _ _ _).
Qed.

(** C24: [format_string] ends on every format string and gives the meaning of the
    template: the pieces between the holes interleaved with the arguments,
    escaped holes copied as holes, and [out_of_range] when the number of
    arguments is not the number of unescaped holes. *)
Theorem format_string_spec fmt args :
  exists segs, Split hole fmt segs /\
    format_string fmt args = render fmt (length args) 0 [] [] segs args.
Proof. apply format_string_spec'. Qed.

(** A text without holes is printed as it is. *)
Lemma format_plain s : ~ occurs hole s -> format_string s [] = Ok s.
Proof.
  intros Hn. destruct (format_string_spec' s []) as (segs & HS & ->).
  assert (segs = [s]) as -> by (eapply Split_unique; [done|by constructor]). done.
Qed.

(** A text without holes takes no argument. *)
Lemma format_too_many s a : ~ occurs hole s -> format_string s [a] = Throw (too_many s 0 1).
Proof.
  intros Hn. destruct (format_string_spec' s [a]) as (segs & HS & ->).
  assert (segs = [s]) as -> by (eapply Split_unique; [done|by constructor]). done.
Qed.

(** A hole that is not escaped needs an argument. *)
Lemma format_hole_throws p t :
  ~ occurs hole p -> last p <> Some backslash ->
  format_string (p ++ hole ++ t) [] = Throw (not_enough (p ++ hole ++ t) 1 0).
Proof.
  intros Hn Hb. destruct (format_string_spec' (p ++ hole ++ t) []) as (segs & HS & ->).
  inversion HS as [s Ho|s pre post l Hh Hl]; subst.
  - destruct Ho. by do 2 eexists.
  - destruct (first_hit_unique _ _ _ _ _ _ Hh (no_hole_first_hit p t Hn)) as [-> ->].
    destruct l as [|s0 l]; [inversion Hl|]. rewrite render_cons.
    by rewrite bool_decide_eq_false_2.
Qed.

(** One hole between two texts takes one argument. *)
Lemma format_one p t a :
  ~ occurs hole p -> last p <> Some backslash -> ~ occurs hole t ->
  format_string (p ++ hole ++ t) [a] = Ok (p ++ a ++ t).
Proof.
  intros Hn Hb Ht. destruct (format_string_spec' (p ++ hole ++ t) [a]) as (segs & HS & ->).
  assert (segs = [p; t]) as ->.
  { eapply Split_unique; [done|]. econstructor; [by apply no_hole_first_hit|by constructor]. }
  rewrite render_cons, bool_decide_eq_false_2 by done. done.
Qed.

(** An escaped hole is unescaped only when an argument follows it: in the
    text after the last argument the backslash is printed. *)
Theorem format_escape_in_tail p t a :
  ~ occurs hole (p ++ [backslash]) -> ~ occurs hole t -> last t <> Some backslash ->
  format_string ((p ++ [backslash]) ++ hole ++ t) [] = Ok ((p ++ [backslash]) ++ hole ++ t) /\
  format_string ((p ++ [backslash]) ++ hole ++ t ++ hole) [a] = Ok (p ++ hole ++ t ++ a).
Proof.
  intros Hp Ht Hb. assert (Hnil : ~ occurs hole []).
  { intros (x & y & H). symmetry in H. apply app_eq_nil in H as [_ H]. by apply app_eq_nil in H as [H _]. }
  split.
  - destruct (format_string_spec' ((p ++ [backslash]) ++ hole ++ t) []) as (segs & HS & ->).
    assert (segs = [p ++ [backslash]; t]) as ->.
    { eapply Split_unique; [done|]. econstructor; [by apply no_hole_first_hit|by constructor]. }
    rewrite render_cons, last_snoc, bool_decide_eq_true_2 by done. cbn [render app].
    by rewrite <- !app_assoc.
  - destruct (format_string_spec' ((p ++ [backslash]) ++ hole ++ t ++ hole) [a]) as (segs & HS & ->).
    assert (segs = [p ++ [backslash]; t; []]) as ->.
    { eapply Split_unique; [done|]. econstructor; [by apply no_hole_first_hit|].
      econstructor; [|by constructor]. pose proof (no_hole_first_hit t [] Ht) as H.
      by rewrite app_nil_r in H. }
    rewrite render_cons, last_snoc, bool_decide_eq_true_2 by done.
    rewrite removelast_last, render_cons, bool_decide_eq_false_2 by done. cbn [render app].
    run_ok. by rewrite app_nil_r, <- !app_assoc.
Qed.

Lemma format_two p q t a b :
  ~ occurs hole p -> last p <> Some backslash -> ~ occurs hole q -> last q <> Some backslash -> ~ occurs hole t ->
  format_string (p ++ hole ++ q ++ hole ++ t) [a; b] = Ok (p ++ a ++ q ++ b ++ t).
Proof.
  intros Hp Bp Hq Bq Ht. destruct (format_string_spec' (p ++ hole ++ q ++ hole ++ t) [a; b]) as (segs & HS & ->).
  assert (segs = [p; q; t]) as ->.
  { eapply Split_unique; [done|]. econstructor; [by apply no_hole_first_hit|].
    econstructor; [by apply no_hole_first_hit|by constructor]. }
  rewrite render_cons, bool_decide_eq_false_2 by done. rewrite render_cons, bool_decide_eq_false_2 by done. done.
Qed.

Lemma bytes_of_string_of_bytes l : wf_bytes l -> bytes_of_string (string_of_bytes l) = l.
Proof.
  intros Hl. unfold bytes_of_string, string_of_bytes. rewrite String.list_ascii_of_string_of_list_ascii, map_map.
  induction Hl as [|b l Hb Hl IH]; [done|]. cbn [map]. rewrite IH. f_equal.
  unfold is_byte in Hb. rewrite Ascii.N_ascii_embedding by lia. lia.
Qed.

Lemma no_hole_nobrace l : forallb (fun c => negb (c =? 123)) l = true -> ~ occurs hole l.
Proof.
  intros H (a & b & ->). rewrite !forallb_app in H. apply andb_prop in H as [_ H].
  by apply andb_prop in H as [H _].
Qed.

Lemma no_hole_app a b :
  ~ occurs hole a -> ~ occurs hole b -> head b <> Some 125 -> ~ occurs hole (a ++ b).
Proof.
  intros Ha Hb Hh (x & y & H). apply app_eq_inv in H as [(k & -> & H)|(k & -> & ->)].
  - destruct k as [|c1 [|c2 k]]; cbn in H.
    + apply Hb. by exists [], y.
    + injection H as <- H. rewrite <- H in Hh. done.
    + injection H as <- <- H. apply Ha. by exists x, k.
  - apply Hb. by exists k, y.
Qed.

Lemma no_hole_pre a b :
  forallb (fun c => negb (c =? 123)) a = true -> ~ occurs hole b -> ~ occurs hole (a ++ b).
Proof.
  intros Ha Hb (x & y & H). apply app_eq_inv in H as [(k & -> & H)|(k & -> & ->)].
  - destruct k as [|c k]; [apply Hb; by exists [], y|]. injection H as <- _.
    rewrite forallb_app in Ha. apply andb_prop in Ha as [_ Ha]. done.
  - apply Hb. by exists k, y.
Qed.

Lemma format_escape_in_tail_witness :
  ~ occurs hole ([104] ++ [backslash]) /\ ~ occurs hole [105] /\
  format_string ([104; 92] ++ hole ++ [105]) [] = Ok ([104; 92] ++ hole ++ [105]) /\
  format_string ([104; 92] ++ hole ++ [105] ++ hole) [[120]] = Ok ([104] ++ hole ++ [105] ++ [120]).
Proof.
  assert (H1 : ~ occurs hole ([104] ++ [backslash])) by (by apply no_hole_nobrace).
  assert (H2 : ~ occurs hole [105]) by (by apply no_hole_nobrace).
  split; [done|]. split; [done|].
  apply (format_escape_in_tail [104] [105] [120]); done.
Defined.

(** ** Formatting with [vsnprintf] *)

Lemma cstr_app_nul t r : cstr (t ++ 0 :: r) = cstr t.
Proof. induction t as [|b t IH]; [done|]. cbn [app cstr]. destruct (b =? 0); [done|]. by rewrite IH. Qed.

Lemma vsnprintf_fits t p size : (length t < size)%nat -> length p = size ->
  exists r, vsnprintf (Some t) p size = Ok (t ++ 0 :: r, Z.of_nat (length t)).
Proof.
  intros Ht Hp. unfold vsnprintf. destruct (Nat.eqb_spec size 0); [lia|].
  rewrite (take_ge t) by lia. exists (drop (S (length t)) p).
  rewrite <- (take_drop (S (length t)) p) at 1. rewrite mem_write_head by len.
  run_ok. by rewrite <- app_assoc.
Qed.

Lemma vsnprintf_short t p size : (size <= length t)%nat -> length p = size ->
  exists p', vsnprintf (Some t) p size = Ok (p', Z.of_nat (length t)) /\ length p' = size.
Proof.
  intros Ht Hp. unfold vsnprintf. destruct (Nat.eqb_spec size 0); [by exists p|].
  unfold mem_write. rewrite decide_True by len. run_ok. eexists. split; [done|]. len.
Qed.

(** [format_string_c] returns the text [vsnprintf] produces, up to its first
    NUL, after at most two calls, whatever the length of the format string; a
    failed conversion throws. *)
Theorem format_string_c_spec alloc junk fmt t :
  (forall n, alloc n = true) ->
  format_string_c alloc junk fmt (Some t) = Ok (cstr t) /\
  format_string_c alloc junk fmt None = Throw (runtime_error "vsnprintf returns -1").
Proof.
  intros Ha. unfold format_string_c. rewrite Ha. split; [|done].
  set (size := length (cstr fmt)). cbn [format_c_loop].
  destruct (decide (length t < size)%nat) as [Hl|Hl].
  - destruct (vsnprintf_fits t (malloc junk size) size Hl) as (r & ->); [by len|]. run_ok.
    destruct (Z.ltb_spec (Z.of_nat (length t)) 0); [lia|].
    destruct (Z.ltb_spec (Z.of_nat (length t)) (Z.of_nat size)); [|lia]. run_ok. by rewrite cstr_app_nul.
  - destruct (vsnprintf_short t (malloc junk size) size) as (p & -> & Hp); [lia|by len|]. run_ok.
    destruct (Z.ltb_spec (Z.of_nat (length t)) 0); [lia|].
    destruct (Z.ltb_spec (Z.of_nat (length t)) (Z.of_nat size)); [lia|]. rewrite Ha, Nat2Z.id.
    destruct (vsnprintf_fits t (p ++ drop size (malloc junk (S (length t)))) (S (length t))) as (r & ->);
      [lia|by len|]. run_ok.
    destruct (Z.ltb_spec (Z.of_nat (length t)) 0); [lia|].
    destruct (Z.ltb_spec (Z.of_nat (length t)) (Z.of_nat (S (length t)))); [|lia]. run_ok.
    by rewrite cstr_app_nul.
Qed.

Lemma format_string_c_spec_witness :
  (forall n : nat, (fun _ => true) n = true) /\
  format_string_c (fun _ => true) (fun _ => 7) [37; 115] (Some [104; 105; 33]) = Ok [104; 105; 33].
Proof.
  split; [done|].
  exact (proj1 (format_string_c_spec (fun _ => true) (fun _ => 7) [37; 115] [104; 105; 33] (fun _ => eq_refl))).
Defined.

(** The examples of the test suite, [test/src/string.cc]. *)
Example format_examples :
  format_string (bytes_of_string "{{}}, {, }{") [bytes_of_string "test"]
    = Ok (bytes_of_string "{test}, {, }{") /\
  format_string (bytes_of_string "\{},\\\{},\abc,{}.") [bytes_of_string "you"]
    = Ok (bytes_of_string "{},\\{},\abc,you.") /\
  strip (bytes_of_string " hello world  ") = Ok (bytes_of_string "hello world") /\
  as_uint8 (bytes_of_string "8") = Ok 8 /\ as_bool (bytes_of_string "False") = Ok false.
Proof. vm_compute. auto. Qed.

End RString.
