(* ===== verification/Log.v ===== *)
(** * Logging: [rlib/log.hpp] and [rlib/sys/time.hpp]

    The logger as a record of its members, the streams it prints to as a map
    from stream numbers to what was printed, and the files the process has
    open.  The text of the current time is an argument [strftime]. *)

From stdpp Require Import gmap.
From S2P Require Import Prelude RString.
Open Scope Z_scope.

Module Log.
Import RString.

(** ** Levels *)

(** [log_level_t] is an [int]; levels can be registered beyond the named ones. *)
Definition FATAL : Z := 1.
Definition ERROR : Z := 2.
Definition WARNING : Z := 3.
Definition INFO : Z := 4.
Definition VERBOSE : Z := 5.
Definition DEBUG : Z := 6.

Definition predefined_log_level_name (level : Z) : bytes :=
  if level =? FATAL then bytes_of_string "FATAL"
  else if level =? ERROR then bytes_of_string "ERROR"
  else if level =? WARNING then bytes_of_string "WARNING"
  else if level =? INFO then bytes_of_string "INFO"
  else if level =? VERBOSE then bytes_of_string "VERBOSE"
  else if level =? DEBUG then bytes_of_string "DEBUG"
  else [].

Definition is_predefined_log_level (level : Z) : bool :=
  match predefined_log_level_name level with [] => false | c :: _ => negb (c =? 0) end.

(** ** State *)

(** [out]: the text printed to each stream; [files]: the [std::ofstream]
    objects that exist; [max_predefined_log_level]: the static counter. *)
Record log_world := LogWorld {
  out : gmap Z bytes;
  files : list Z;
  max_predefined_log_level : Z
}.

Record logger := Logger {
  pstream : Z;
  custom_log_level_names : list (Z * bytes);
  log_level : Z;
  must_delete_stream_as_ofstream : bool;
  enable_flush : bool
}.

Definition cout : Z := 1.

(** [logger(std::ostream &)] *)
Definition logger_stream (stream : Z) : logger := Logger stream [] INFO false true.

(** [logger(const std::string &)]: [f] is the new stream, [opened] whether the
    file opens.  The stream object is not deleted when the constructor throws. *)
Definition logger_file (f : Z) (opened : bool) (file_name : bytes) (w : log_world) : outcome logger * log_world :=
  let w := LogWorld (<[f := []]> (out w)) (f :: files w) (max_predefined_log_level w) in
  if opened then (Ok (Logger f [] INFO true true), w)
  else (msg ← format_string (bytes_of_string "Failed to open file {}.") [file_name];
        Throw (runtime_error (string_of_bytes msg)), w).

(** The move constructor: the new logger and what is left of [another]. *)
Definition logger_move (another : logger) : logger * logger :=
  (another,
   Logger (pstream another) [] (log_level another) false (enable_flush another)).

(** [~logger] *)
Definition logger_destroy (l : logger) (w : log_world) : log_world :=
  if must_delete_stream_as_ofstream l
  then LogWorld (out w) (remove Z.eq_dec (pstream l) (files w)) (max_predefined_log_level w) else w.

(** [operator=(logger &&)]: [self] afterwards and what is left of [another];
    the stream [self] had is neither closed nor deleted. *)
Definition logger_assign (self another : logger) : logger * logger :=
  (Logger (pstream another) (custom_log_level_names another) (log_level another)
     (must_delete_stream_as_ofstream another) (enable_flush another),
   Logger (pstream another) [] (log_level another) false (enable_flush another)).

Definition set_log_level (l : logger) (max_level : Z) : logger :=
  Logger (pstream l) (custom_log_level_names l) max_level (must_delete_stream_as_ofstream l) (enable_flush l).

Definition set_flush (l : logger) (flush : bool) : logger :=
  Logger (pstream l) (custom_log_level_names l) (log_level l) (must_delete_stream_as_ofstream l) flush.

(** ** Operations *)

Fixpoint custom_name (level : Z) (names : list (Z * bytes)) : bytes :=
  match names with
  | [] => []
  | (l, name) :: names => if level =? l then name else custom_name level names
  end.

Definition log_level_name (l : logger) (level : Z) : bytes :=
  match predefined_log_level_name level with
  | [] =>
      match custom_name level (custom_log_level_names l) with
      | [] => bytes_of_string "LEVEL-" ++ to_string level
      | name => name
      end
  | name => name
  end.

(** [get_current_time_str]: [strftime now] is the local time text of the time
    point [now] in seconds.  The code subtracts 24 hours first. *)
Definition get_current_time_str (strftime : Z -> bytes) (now : Z) : bytes :=
  strftime (now - 24 * 60 * 60).

Definition print_to (s : Z) (text : bytes) (w : log_world) : log_world :=
  LogWorld (<[s := default [] (out w !! s) ++ text]> (out w)) (files w) (max_predefined_log_level w).

Definition line_format : bytes := bytes_of_string "[{}|{}] {}".

Definition log (strftime : Z -> bytes) (now : Z) (l : logger) (level : Z) (info : bytes)
  (extra_args : list bytes) (w : log_world) : outcome unit * log_world :=
  if is_predefined_log_level level && (log_level l <? level) then (Ok tt, w)
  else
    match (text ← format_string info extra_args;
           format_string line_format
             [get_current_time_str strftime now; log_level_name l level; text]) with
    | Ok line => (Ok tt, print_to (pstream l) (line ++ [10]) w)
    | Throw e => (Throw e, w)
    | Undefined u => (Undefined u, w)
    | Blocked => (Blocked, w)
    end.

Definition INT_MAX : Z := 2 ^ 31 - 1.

Definition register_log_level (l : logger) (name : bytes) (w : log_world) : outcome (Z * logger) * log_world :=
  if max_predefined_log_level w =? INT_MAX
  then (Throw (overflow_error "At most 2147483647(INT_MAX) log_level is allowed."), w)
  else
    let new_level := max_predefined_log_level w + 1 in
    (Ok (new_level, Logger (pstream l) (custom_log_level_names l ++ [(new_level, name)]) (log_level l)
                      (must_delete_stream_as_ofstream l) (enable_flush l)),
     LogWorld (out w) (files w) new_level).

(** The shorthands [fatal], [error], [warning], [info], [verbose], [debug]. *)
Definition fatal strftime now l := log strftime now l FATAL.
Definition error strftime now l := log strftime now l ERROR.
Definition warning strftime now l := log strftime now l WARNING.
Definition info strftime now l := log strftime now l INFO.
Definition verbose strftime now l := log strftime now l VERBOSE.
Definition debug strftime now l := log strftime now l DEBUG.

(** ** What a line looks like *)

Lemma Split_line : Split hole line_format [[91]; [124]; [93; 32]; []].
Proof.
  destruct (split_loop_run 11 hole [] line_format []) as (l & Hl & Hr); [done|cbn; lia|].
  vm_compute in Hr. injection Hr as <-. exact Hl.
Qed.

Lemma line_format_run a b c :
  format_string line_format [a; b; c] = Ok ([91] ++ a ++ [124] ++ b ++ [93; 32] ++ c).
Proof.
  destruct (format_string_spec' line_format [a; b; c]) as (segs & HS & ->).
  rewrite (Split_unique _ _ _ _ HS Split_line).
  rewrite !render_cons. cbn [render].
  rewrite (bool_decide_eq_false_2 (last [91] = _)), (bool_decide_eq_false_2 (last [124] = _)),
    (bool_decide_eq_false_2 (last [93; 32] = _)) by done.
  run_ok. cbn [app]. by rewrite app_nil_r.
Qed.

(** The line printed for a message. *)
Definition log_line (strftime : Z -> bytes) (now : Z) (l : logger) (level : Z) (text : bytes) : bytes :=
  [91] ++ strftime (now - 86400) ++ [124] ++ log_level_name l level ++ [93; 32] ++ text ++ [10].

Definition enabled (l : logger) (level : Z) : Prop := level <= log_level l \/ DEBUG < level.

Lemma predefined_spec level : is_predefined_log_level level = true <-> FATAL <= level <= DEBUG.
Proof.
  unfold is_predefined_log_level, predefined_log_level_name, FATAL, ERROR, WARNING, INFO, VERBOSE, DEBUG.
  destruct (Z.eqb_spec level 1) as [->|]; [vm_compute; intuition congruence|].
  destruct (Z.eqb_spec level 2) as [->|]; [vm_compute; intuition congruence|].
  destruct (Z.eqb_spec level 3) as [->|]; [vm_compute; intuition congruence|].
  destruct (Z.eqb_spec level 4) as [->|]; [vm_compute; intuition congruence|].
  destruct (Z.eqb_spec level 5) as [->|]; [vm_compute; intuition congruence|].
  destruct (Z.eqb_spec level 6) as [->|]; [vm_compute; intuition congruence|].
  split; [done|lia].
Qed.

Lemma log_skips l level : FATAL <= level ->
  is_predefined_log_level level && (log_level l <? level) = true <-> ~ enabled l level.
Proof.
  intros Hl. unfold enabled. rewrite andb_true_iff, predefined_spec, Z.ltb_lt.
  split; [lia|]. intros H. split; [split; [done|]|]; lia.
Qed.

Lemma log_enabled strftime now l level msg args w : enabled l level ->
  log strftime now l level msg args w =
  match format_string msg args with
  | Ok text => (Ok tt, print_to (pstream l) (log_line strftime now l level text) w)
  | Throw e => (Throw e, w)
  | Undefined u => (Undefined u, w)
  | Blocked => (Blocked, w)
  end.
Proof.
  intros He. unfold log.
  destruct (is_predefined_log_level level && (log_level l <? level)) eqn:E.
  { apply andb_true_iff in E as [E1 E2]. apply predefined_spec in E1. apply Z.ltb_lt in E2.
    unfold enabled in He. lia. }
  destruct (format_string msg args) as [text| | |]; run_ok; [|done..].
  rewrite line_format_run. unfold log_line. by rewrite <- !app_assoc.
Qed.

Lemma log_plain strftime now l level msg w : ~ occurs hole msg ->
  exists w', log strftime now l level msg [] w = (Ok tt, w').
Proof.
  intros Hm. unfold log. destruct (_ && _); [by eexists|].
  rewrite format_plain by done. run_ok. rewrite line_format_run. by eexists.
Qed.

(** A message of a level above the logger's is dropped without being
    formatted; any other prints one line with the time, the level's name and
    the message with its arguments, to the logger's stream and no other. *)
Theorem log_spec strftime now l level msg args text w :
  FATAL <= level -> format_string msg args = Ok text ->
  exists w', log strftime now l level msg args w = (Ok tt, w') /\
    (~ enabled l level -> w' = w) /\
    (enabled l level ->
       out w' !! pstream l = Some (default [] (out w !! pstream l) ++ log_line strftime now l level text)) /\
    (forall s, s <> pstream l -> out w' !! s = out w !! s).
Proof.
  intros Hl Hf. destruct (is_predefined_log_level level && (log_level l <? level)) eqn:E.
  - exists w. split; [unfold log; by rewrite E|]. apply log_skips in E; [|done]. tauto.
  - assert (He : enabled l level).
    { unfold enabled. destruct (Z.le_gt_cases level (log_level l)); [by left|right].
      apply andb_false_iff in E as [E|E]; [|apply Z.ltb_nlt in E; lia].
      destruct (Z.lt_ge_cases DEBUG level); [done|].
      assert (is_predefined_log_level level = true) by (apply predefined_spec; lia). congruence. }
    rewrite log_enabled, Hf by done. eexists. split; [done|]. split; [done|]. split.
    + intros _. cbn [print_to out]. by rewrite lookup_insert_eq.
    + intros s Hs. cbn [print_to out]. by rewrite lookup_insert_ne.
Qed.

Definition w0 : log_world := LogWorld ∅ [] DEBUG.

Lemma log_spec_witness :
  exists w', log (fun _ => [84]) 0 (logger_stream cout) INFO [104; 123; 125] [[105]] w0 = (Ok tt, w') /\
    (enabled (logger_stream cout) INFO ->
      out w' !! cout = Some (log_line (fun _ => [84]) 0 (logger_stream cout) INFO [104; 105])).
Proof.
  destruct (log_spec (fun _ => [84]) 0 (logger_stream cout) INFO [104; 123; 125] [[105]] [104; 105] w0)
    as (w' & H1 & _ & H2 & _); [done|reflexivity|].
  exists w'. split; [exact H1|exact H2].
Defined.

(** A message built before the call is read as a format string once more:
    if it contains a hole, and its level is printed, the call throws
    [out_of_range] and nothing is printed. *)
Theorem log_hole_throws strftime now l level p t w :
  enabled l level -> ~ occurs hole p -> last p <> Some backslash ->
  log strftime now l level (p ++ hole ++ t) [] w = (Throw (not_enough (p ++ hole ++ t) 1 0), w).
Proof. intros He Hp Hb. by rewrite log_enabled, format_hole_throws. Qed.

Lemma log_hole_throws_witness :
  enabled (logger_stream cout) FATAL /\
  (log (fun _ => []) 0 (logger_stream cout) FATAL ([120] ++ hole ++ [46]) [] w0).1
    = Throw (not_enough ([120] ++ hole ++ [46]) 1 0).
Proof.
  assert (He : enabled (logger_stream cout) FATAL) by (left; cbn; unfold FATAL, INFO; lia).
  split; [exact He|].
  assert (Hp : ~ occurs hole [120]) by (by apply no_hole_nobrace).
  exact (f_equal fst (log_hole_throws (fun _ => []) 0 (logger_stream cout) FATAL [120] [46] w0 He Hp
    ltac:(discriminate))).
Defined.

(** ** Registered levels *)

(** The registered levels of a logger are distinct, above the named ones and
    not above the counter. *)
Definition levels_ok (l : logger) (w : log_world) : Prop :=
  NoDup (custom_log_level_names l).*1 /\
  Forall (fun n => DEBUG < n <= max_predefined_log_level w) (custom_log_level_names l).*1 /\
  DEBUG <= max_predefined_log_level w.

Lemma custom_name_app level a b :
  level ∉ a.*1 -> custom_name level (a ++ b) = custom_name level b.
Proof.
  induction a as [|[n x] a IH]; [done|]. cbn. rewrite not_elem_of_cons. intros [Hne Hn].
  destruct (Z.eqb_spec level n); [congruence|]. by apply IH.
Qed.

Lemma custom_name_old level a b : level ∈ a.*1 -> custom_name level (a ++ b) = custom_name level a.
Proof.
  induction a as [|[n x] a IH]; [by intros ?%elem_of_nil|]. cbn. rewrite elem_of_cons.
  destruct (Z.eqb_spec level n); [done|]. intros [->|H]; [done|]. by apply IH.
Qed.

Lemma unnamed_above level : DEBUG < level -> predefined_log_level_name level = [].
Proof.
  intros H. unfold predefined_log_level_name, FATAL, ERROR, WARNING, INFO, VERBOSE, DEBUG in *.
  repeat match goal with |- context [level =? ?k] => destruct (Z.eqb_spec level k); [lia|] end. done.
Qed.

(** Registering a level below [INT_MAX] of them gives a level no logger had,
    under the given name; the levels registered before keep their names, the
    new level is never filtered out, and the invariant on levels is kept. *)
Theorem register_log_level_spec l name w :
  levels_ok l w -> max_predefined_log_level w < INT_MAX -> name <> [] ->
  exists level l' w', register_log_level l name w = (Ok (level, l'), w') /\
    levels_ok l' w' /\ level = max_predefined_log_level w + 1 /\
    log_level_name l' level = name /\ enabled l' level /\
    (forall n, n ∈ (custom_log_level_names l).*1 -> log_level_name l' n = log_level_name l n).
Proof.
  intros (Hnd & Hall & Hd) Hmax Hname. unfold register_log_level.
  destruct (Z.eqb_spec (max_predefined_log_level w) INT_MAX); [lia|].
  do 3 eexists. split; [done|].
  assert (Hnew : max_predefined_log_level w + 1 ∉ (custom_log_level_names l).*1).
  { intros H. rewrite Forall_forall in Hall. apply Hall in H. lia. }
  repeat split; cbn [custom_log_level_names max_predefined_log_level log_level].
  - rewrite fmap_app. apply NoDup_app. split; [done|]. split; [|apply NoDup_singleton].
    intros x Hx. cbn. rewrite list_elem_of_singleton. congruence.
  - rewrite fmap_app. apply Forall_app. split.
    + eapply Forall_impl; [done|]. cbn. lia.
    + constructor; [cbn [fst]; lia|constructor].
  - lia.
  - unfold log_level_name. rewrite unnamed_above by lia. cbn [custom_log_level_names].
    rewrite custom_name_app by done. cbn. rewrite Z.eqb_refl. by destruct name.
  - right. lia.
  - intros n' Hn. unfold log_level_name. cbn [custom_log_level_names]. by rewrite custom_name_old.
Qed.

Lemma register_log_level_spec_witness :
  levels_ok (logger_stream cout) w0 /\
  exists level l' w', register_log_level (logger_stream cout) [65] w0 = (Ok (level, l'), w') /\
    log_level_name l' level = [65].
Proof.
  assert (H : levels_ok (logger_stream cout) w0).
  { split; [apply NoDup_nil; exact I|]. split; [constructor|cbn; lia]. }
  split; [exact H|].
  destruct (register_log_level_spec (logger_stream cout) [65] w0 H)
    as (level & l' & w' & H1 & _ & _ & H2 & _); [cbn; unfold DEBUG, INT_MAX; lia|done|].
  exists level, l', w'. split; [exact H1|exact H2].
Defined.

(** ** Redirection *)

(** Replacing a logger on a stream it does not own by one on a file: lines go
    to the file, and destroying the logger deletes the one file object. *)
Lemma redirect_to_file self f name w l' old :
  must_delete_stream_as_ofstream self = false -> f ∉ files w ->
  (logger_file f true name w).1 = Ok l' -> logger_assign self l' = old ->
  pstream old.1 = f /\ log_level old.1 = INFO /\
  files (logger_destroy old.1 (logger_destroy old.2 (logger_file f true name w).2)) = files w.
Proof.
  intros Hs Hf [= <-] <-. cbn. repeat split.
  destruct (Z.eq_dec f f); [|done]. apply notin_remove. by rewrite <- list_elem_of_In.
Qed.

(** A logger that owns its stream leaks it when it is assigned to. *)
Lemma assign_leaks self another w :
  must_delete_stream_as_ofstream self = true -> pstream self ∈ files w ->
  pstream another <> pstream self ->
  let r := logger_assign self another in
  pstream self ∈ files (logger_destroy r.1 (logger_destroy r.2 w)).
Proof.
  intros Hs Hf Hne. cbn. unfold logger_destroy. cbn.
  destruct (must_delete_stream_as_ofstream another); [|done]. cbn.
  rewrite list_elem_of_In in *. apply in_in_remove; [congruence|done].
Qed.

(** ** Logging from the network components

    What a component needs of the global logger: its level, and the text the
    macros [die] and [sysdie] put before a message (file, line and errno). *)

Class Rlog := { cur_level : Z; err_prefix : bytes }.

(** That text names a source file and an error, without a brace. *)
Class RlogLaws `{Rlog} := { err_prefix_nobrace : nobrace err_prefix = true; err_prefix_wf : wf_bytes err_prefix }.

(** How a call of [rlog.log] ends; [rlog_call_log] relates it to [log]. *)
Definition rlog_call `{Rlog} (level : Z) (msg : bytes) (extra_args : list bytes) : outcome unit :=
  if is_predefined_log_level level && (cur_level <? level) then Ok tt
  else _ ← format_string msg extra_args; Ok tt.

(** [rlog.level("..."_format(args...))] *)
Definition rlog_text `{Rlog} (level : Z) (fmt : bytes) (args : list bytes) : outcome unit :=
  text ← format_string fmt args;
  rlog_call level text [].

(** The macros [die] and [sysdie]. *)
Definition die `{Rlog} {A} (msg : bytes) : outcome A :=
  let errmsg := err_prefix ++ msg in
  _ ← rlog_call FATAL errmsg [];
  Throw (runtime_error (string_of_bytes errmsg)).

(** [die("..."_format(args...))] *)
Definition die_text `{Rlog} {A} (fmt : bytes) (args : list bytes) : outcome A :=
  msg ← format_string fmt args;
  die msg.

Lemma rlog_call_log `{Rlog} strftime now l level msg args w :
  log_level l = cur_level -> (log strftime now l level msg args w).1 = rlog_call level msg args.
Proof.
  intros Hl. unfold log, rlog_call. rewrite Hl. destruct (_ && _); [done|].
  destruct (format_string msg args) as [text| | |]; run_ok; [|done..]. by rewrite line_format_run.
Qed.

Lemma rlog_call_plain `{Rlog} level msg : ~ occurs hole msg -> rlog_call level msg [] = Ok tt.
Proof. intros Hm. unfold rlog_call. destruct (_ && _); [done|]. by rewrite format_plain. Qed.

Lemma rlog_call_hole `{Rlog} level p t :
  FATAL <= level <= cur_level -> ~ occurs hole p -> last p <> Some backslash ->
  rlog_call level (p ++ hole ++ t) [] = Throw (not_enough (p ++ hole ++ t) 1 0).
Proof.
  intros Hl Hp Hb. unfold rlog_call. destruct (Z.ltb_spec cur_level level); [lia|]. rewrite andb_false_r.
  by rewrite format_hole_throws.
Qed.

(** A message with one hole, filled with a text without braces. *)
Lemma rlog_text_one `{Rlog} level fmt p t a :
  fmt = p ++ hole ++ t -> nobrace p = true -> last p <> Some backslash -> nobrace t = true -> nobrace a = true ->
  rlog_text level fmt [a] = Ok tt.
Proof.
  intros -> Hp Hb Ht Ha. unfold rlog_text. rewrite format_one by auto using no_hole_nobrace. run_ok.
  apply rlog_call_plain, no_hole_nobrace. change (nobrace (p ++ a ++ t) = true). by rewrite !nobrace_app, Hp, Ha, Ht.
Qed.

(** A message with two holes. *)
Lemma rlog_text_two `{Rlog} level fmt p q t a b :
  fmt = p ++ hole ++ q ++ hole ++ t -> nobrace p = true -> last p <> Some backslash ->
  nobrace q = true -> last q <> Some backslash -> nobrace t = true ->
  rlog_text level fmt [a; b] = rlog_call level (p ++ a ++ q ++ b ++ t) [].
Proof. intros -> Hp Bp Hq Bq Ht. unfold rlog_text. by rewrite format_two by auto using no_hole_nobrace. Qed.

Lemma die_not_ok `{Rlog} {A} msg (a : A) : die msg <> Ok a.
Proof. unfold die. by destruct (rlog_call _ _ _). Qed.

Lemma die_plain `{RlogLaws} {A} msg :
  ~ occurs hole msg -> @die _ A msg = Throw (runtime_error (string_of_bytes (err_prefix ++ msg))).
Proof.
  intros Hm. unfold die. rewrite rlog_call_plain; [done|]. apply no_hole_pre; [apply err_prefix_nobrace|done].
Qed.

(** A logger of level [level]. *)
Definition rlog_at (level : Z) : Rlog :=
  {| cur_level := level; err_prefix := bytes_of_string "logic/argument error at socks5.cc:292 | errno=0:Success >" |}.

#[global] Instance rlog_at_laws level : RlogLaws (H := rlog_at level).
Proof. split; [reflexivity|apply bytes_of_string_wf]. Qed.

End Log.
