(* ===== verification/Aes.v ===== *)
(** * AES (module_util/kokke_aes.c)

    The block cipher behind the [se_proxy] module: S-box tables, key expansion,
    the round transformations, [Cipher]/[InvCipher], and the ECB and CBC entry
    points.  The state [state_t *] of the C code is a view of the first sixteen
    bytes of the output buffer, so it is modelled as a list of sixteen bytes,
    [state[i][j]] being element [4*i+j].  The key size is the one the macros
    AES128, AES192 and AES256 select, an instance of the class [AesBuild];
    kokke_aes.h selects AES128, with ECB and CBC enabled. *)

From S2P Require Import Prelude.
From Stdlib Require Import Btauto.

Module Aes.

(** ** Constants *)

Inductive aes_variant := AES128 | AES192 | AES256.
Class AesBuild := variant : aes_variant.

Definition Nb : nat := 4.
Definition BLOCKLEN : nat := 16.

(** The number of words of a key, its bytes, the number of rounds, and the bytes
    of the round keys. *)
Definition Nk {B : AesBuild} : nat := match variant with AES256 => 8 | AES192 => 6 | AES128 => 4 end.
Definition KEYLEN {B : AesBuild} : nat := match variant with AES256 => 32 | AES192 => 24 | AES128 => 16 end.
Definition Nr {B : AesBuild} : nat := match variant with AES256 => 14 | AES192 => 12 | AES128 => 10 end.
Definition keyExpSize {B : AesBuild} : nat := match variant with AES256 => 240 | AES192 => 208 | AES128 => 176 end.

Definition sbox : list Z := [
  99; 124; 119; 123; 242; 107; 111; 197; 48; 1; 103; 43; 254; 215; 171; 118;
  202; 130; 201; 125; 250; 89; 71; 240; 173; 212; 162; 175; 156; 164; 114; 192;
  183; 253; 147; 38; 54; 63; 247; 204; 52; 165; 229; 241; 113; 216; 49; 21;
  4; 199; 35; 195; 24; 150; 5; 154; 7; 18; 128; 226; 235; 39; 178; 117;
  9; 131; 44; 26; 27; 110; 90; 160; 82; 59; 214; 179; 41; 227; 47; 132;
  83; 209; 0; 237; 32; 252; 177; 91; 106; 203; 190; 57; 74; 76; 88; 207;
  208; 239; 170; 251; 67; 77; 51; 133; 69; 249; 2; 127; 80; 60; 159; 168;
  81; 163; 64; 143; 146; 157; 56; 245; 188; 182; 218; 33; 16; 255; 243; 210;
  205; 12; 19; 236; 95; 151; 68; 23; 196; 167; 126; 61; 100; 93; 25; 115;
  96; 129; 79; 220; 34; 42; 144; 136; 70; 238; 184; 20; 222; 94; 11; 219;
  224; 50; 58; 10; 73; 6; 36; 92; 194; 211; 172; 98; 145; 149; 228; 121;
  231; 200; 55; 109; 141; 213; 78; 169; 108; 86; 244; 234; 101; 122; 174; 8;
  186; 120; 37; 46; 28; 166; 180; 198; 232; 221; 116; 31; 75; 189; 139; 138;
  112; 62; 181; 102; 72; 3; 246; 14; 97; 53; 87; 185; 134; 193; 29; 158;
  225; 248; 152; 17; 105; 217; 142; 148; 155; 30; 135; 233; 206; 85; 40; 223;
  140; 161; 137; 13; 191; 230; 66; 104; 65; 153; 45; 15; 176; 84; 187; 22 ].

Definition rsbox : list Z := [
  82; 9; 106; 213; 48; 54; 165; 56; 191; 64; 163; 158; 129; 243; 215; 251;
  124; 227; 57; 130; 155; 47; 255; 135; 52; 142; 67; 68; 196; 222; 233; 203;
  84; 123; 148; 50; 166; 194; 35; 61; 238; 76; 149; 11; 66; 250; 195; 78;
  8; 46; 161; 102; 40; 217; 36; 178; 118; 91; 162; 73; 109; 139; 209; 37;
  114; 248; 246; 100; 134; 104; 152; 22; 212; 164; 92; 204; 93; 101; 182; 146;
  108; 112; 72; 80; 253; 237; 185; 218; 94; 21; 70; 87; 167; 141; 157; 132;
  144; 216; 171; 0; 140; 188; 211; 10; 247; 228; 88; 5; 184; 179; 69; 6;
  208; 44; 30; 143; 202; 63; 15; 2; 193; 175; 189; 3; 1; 19; 138; 107;
  58; 145; 17; 65; 79; 103; 220; 234; 151; 242; 207; 206; 240; 180; 230; 115;
  150; 172; 116; 34; 231; 173; 53; 133; 226; 249; 55; 232; 28; 117; 223; 110;
  71; 241; 26; 113; 29; 41; 197; 137; 111; 183; 98; 14; 170; 24; 190; 27;
  252; 86; 62; 75; 198; 210; 121; 32; 154; 219; 192; 254; 120; 205; 90; 244;
  31; 221; 168; 51; 136; 7; 199; 49; 177; 18; 16; 89; 39; 128; 236; 95;
  96; 81; 127; 169; 25; 181; 74; 13; 45; 229; 122; 159; 147; 201; 156; 239;
  160; 224; 59; 77; 174; 42; 245; 176; 200; 235; 187; 60; 131; 83; 153; 97;
  23; 43; 4; 126; 186; 119; 214; 38; 225; 105; 20; 99; 85; 33; 12; 125 ].

Definition Rcon : list Z := [141; 1; 2; 4; 8; 16; 32; 64; 128; 27; 54].

Definition getSBoxValue (num : Z) : Z := nth (Z.to_nat num) sbox 0.
Definition getSBoxInvert (num : Z) : Z := nth (Z.to_nat num) rsbox 0.

(** ** State access *)

Definition st_get (s : bytes) (i j : nat) : Z := nth (4 * i + j) s 0.
Definition st_set (s : bytes) (i j : nat) (v : Z) : bytes := <[(4 * i + j)%nat := v]> s.

(** The private data of one run: the state is threaded separately, so only the
    expanded key remains. *)
Definition RoundKey_get (rk : bytes) (n : nat) : Z := nth n rk 0.

Section Code.
Context {B : AesBuild}.

(** ** Key expansion *)

(** The first round key is the key itself: bytes [4*i .. 4*i+3] of iteration [i]. *)
Definition copy_key_word (key rk : bytes) (i : nat) : bytes :=
  foldl (fun rk c => <[(i * 4 + c)%nat := nth (i * 4 + c) key 0]> rk) rk (seq 0 4).

(** One iteration of the second loop of [KeyExpansion]. *)
Definition expand_word (rk : bytes) (i : nat) : bytes :=
  let t c := RoundKey_get rk ((i - 1) * 4 + c) in
  let tempa0 := (t 0%nat, t 1%nat, t 2%nat, t 3%nat) in
  let tempa :=
    if (i mod Nk =? 0)%nat then
      let '(t0, t1, t2, t3) := tempa0 in
      (* RotWord *)
      let '(t0, t1, t2, t3) := (t1, t2, t3, t0) in
      (* SubWord *)
      let '(t0, t1, t2, t3) :=
        (getSBoxValue t0, getSBoxValue t1, getSBoxValue t2, getSBoxValue t3) in
      (u8 (Z.lxor t0 (nth (i / Nk) Rcon 0)), t1, t2, t3)
    else tempa0 in
  (* with AES256 only: SubWord in the middle of a key *)
  let tempa :=
    match variant with
    | AES256 =>
        if (i mod Nk =? 4)%nat then
          let '(t0, t1, t2, t3) := tempa in
          (getSBoxValue t0, getSBoxValue t1, getSBoxValue t2, getSBoxValue t3)
        else tempa
    | _ => tempa
    end in
  let '(t0, t1, t2, t3) := tempa in
  let put rk c v := <[(i * 4 + c)%nat := u8 (Z.lxor (RoundKey_get rk ((i - Nk) * 4 + c)) v)]> rk in
  put (put (put (put rk 0%nat t0) 1%nat t1) 2%nat t2) 3%nat t3.

Definition KeyExpansion (key : bytes) : bytes :=
  let rk := replicate keyExpSize 0 in
  let rk := foldl (copy_key_word key) rk (seq 0 Nk) in
  foldl expand_word rk (seq Nk (Nb * (Nr + 1) - Nk)).

(** ** Round transformations *)

Definition for4 {A} (f : A -> nat -> A) (a : A) : A := foldl f a (seq 0 4).

Definition AddRoundKey (rk : bytes) (round : nat) (s : bytes) : bytes :=
  for4 (fun s i => for4 (fun s j =>
    st_set s i j (u8 (Z.lxor (st_get s i j) (RoundKey_get rk (round * Nb * 4 + i * Nb + j))))) s) s.

Definition SubBytes (s : bytes) : bytes :=
  for4 (fun s i => for4 (fun s j => st_set s j i (getSBoxValue (st_get s j i))) s) s.

Definition InvSubBytes (s : bytes) : bytes :=
  for4 (fun s i => for4 (fun s j => st_set s j i (getSBoxInvert (st_get s j i))) s) s.

Definition ShiftRows (s : bytes) : bytes :=
  (* row 1 by one column *)
  let temp := st_get s 0 1 in
  let s := st_set s 0 1 (st_get s 1 1) in
  let s := st_set s 1 1 (st_get s 2 1) in
  let s := st_set s 2 1 (st_get s 3 1) in
  let s := st_set s 3 1 temp in
  (* row 2 by two columns *)
  let temp := st_get s 0 2 in
  let s := st_set s 0 2 (st_get s 2 2) in
  let s := st_set s 2 2 temp in
  let temp := st_get s 1 2 in
  let s := st_set s 1 2 (st_get s 3 2) in
  let s := st_set s 3 2 temp in
  (* row 3 by three columns *)
  let temp := st_get s 0 3 in
  let s := st_set s 0 3 (st_get s 3 3) in
  let s := st_set s 3 3 (st_get s 2 3) in
  let s := st_set s 2 3 (st_get s 1 3) in
  st_set s 1 3 temp.

Definition InvShiftRows (s : bytes) : bytes :=
  let temp := st_get s 3 1 in
  let s := st_set s 3 1 (st_get s 2 1) in
  let s := st_set s 2 1 (st_get s 1 1) in
  let s := st_set s 1 1 (st_get s 0 1) in
  let s := st_set s 0 1 temp in
  let temp := st_get s 0 2 in
  let s := st_set s 0 2 (st_get s 2 2) in
  let s := st_set s 2 2 temp in
  let temp := st_get s 1 2 in
  let s := st_set s 1 2 (st_get s 3 2) in
  let s := st_set s 3 2 temp in
  let temp := st_get s 0 3 in
  let s := st_set s 0 3 (st_get s 1 3) in
  let s := st_set s 1 3 (st_get s 2 3) in
  let s := st_set s 2 3 (st_get s 3 3) in
  st_set s 3 3 temp.

Definition xtime (x : Z) : Z :=
  u8 (Z.lxor (Z.shiftl x 1) (Z.land (Z.shiftr x 7) 1 * 27)).

Definition MixColumns (s : bytes) : bytes :=
  for4 (fun s i =>
    let t := st_get s i 0 in
    let Tmp := Z.lxor (Z.lxor (Z.lxor (st_get s i 0) (st_get s i 1)) (st_get s i 2)) (st_get s i 3) in
    let Tm := xtime (Z.lxor (st_get s i 0) (st_get s i 1)) in
    let s := st_set s i 0 (u8 (Z.lxor (st_get s i 0) (Z.lxor Tm Tmp))) in
    let Tm := xtime (Z.lxor (st_get s i 1) (st_get s i 2)) in
    let s := st_set s i 1 (u8 (Z.lxor (st_get s i 1) (Z.lxor Tm Tmp))) in
    let Tm := xtime (Z.lxor (st_get s i 2) (st_get s i 3)) in
    let s := st_set s i 2 (u8 (Z.lxor (st_get s i 2) (Z.lxor Tm Tmp))) in
    let Tm := xtime (Z.lxor (st_get s i 3) t) in
    st_set s i 3 (u8 (Z.lxor (st_get s i 3) (Z.lxor Tm Tmp)))) s.

Definition Multiply (x y : Z) : Z :=
  Z.lxor (Z.lxor (Z.lxor (Z.lxor
    (Z.land y 1 * x)
    (Z.land (Z.shiftr y 1) 1 * xtime x))
    (Z.land (Z.shiftr y 2) 1 * xtime (xtime x)))
    (Z.land (Z.shiftr y 3) 1 * xtime (xtime (xtime x))))
    (Z.land (Z.shiftr y 4) 1 * xtime (xtime (xtime (xtime x)))).

Definition InvMixColumns (s : bytes) : bytes :=
  for4 (fun s i =>
    let a := st_get s i 0 in
    let b := st_get s i 1 in
    let c := st_get s i 2 in
    let d := st_get s i 3 in
    let mix ka kb kc kd :=
      u8 (Z.lxor (Z.lxor (Z.lxor (Multiply a ka) (Multiply b kb)) (Multiply c kc)) (Multiply d kd)) in
    let s := st_set s i 0 (mix 14 11 13 9) in
    let s := st_set s i 1 (mix 9 14 11 13) in
    let s := st_set s i 2 (mix 13 9 14 11) in
    st_set s i 3 (mix 11 13 9 14)) s.

(** ** The ciphers *)

Definition round_step (rk : bytes) (s : bytes) (round : nat) : bytes :=
  AddRoundKey rk round (MixColumns (ShiftRows (SubBytes s))).

Definition Cipher (rk s : bytes) : bytes :=
  let s := AddRoundKey rk 0 s in
  let s := foldl (round_step rk) s (seq 1 (Nr - 1)) in
  AddRoundKey rk Nr (ShiftRows (SubBytes s)).

Definition inv_round_step (rk : bytes) (s : bytes) (round : nat) : bytes :=
  InvMixColumns (AddRoundKey rk round (InvSubBytes (InvShiftRows s))).

Definition InvCipher (rk s : bytes) : bytes :=
  let s := AddRoundKey rk Nr s in
  let s := foldl (inv_round_step rk) s (rev (seq 1 (Nr - 1))) in
  AddRoundKey rk 0 (InvSubBytes (InvShiftRows s)).

(** The cipher run in place on the sixteen bytes at offset [off] of a buffer;
    touching bytes outside the buffer is undefined. *)
Definition in_place (f : bytes -> bytes) (buf : bytes) (off : nat) : outcome bytes :=
  b ← mem_read buf off BLOCKLEN; mem_write buf off (f b).

(** [memcpy(output, input, length)], then one [Cipher] on the start of [output]. *)
Definition AES_ECB_encrypt (input key output : bytes) (len : nat) : outcome bytes :=
  src ← mem_read input 0 len;
  output ← mem_write output 0 src;
  key ← mem_read key 0 KEYLEN;
  in_place (Cipher (KeyExpansion key)) output 0.

Definition AES_ECB_decrypt (input key output : bytes) (len : nat) : outcome bytes :=
  src ← mem_read input 0 len;
  output ← mem_write output 0 src;
  key ← mem_read key 0 KEYLEN;
  in_place (InvCipher (KeyExpansion key)) output 0.

(** ** CBC mode

    [input] and [output] are distinct buffers and the pointers advance by a
    block per iteration, so each function threads both buffers and the common
    offset.  [ap.Iv] points into a buffer whose block is not written again, so
    its contents are threaded; a null pointer is [None]. *)

Definition XorWithIv (buf : bytes) (off : nat) (iv : option bytes) : outcome bytes :=
  match iv with
  | None => Undefined NullDeref
  | Some iv =>
      b ← mem_read buf off BLOCKLEN;
      v ← mem_read iv 0 BLOCKLEN;
      mem_write buf off (zip_with (fun x y => u8 (Z.lxor x y)) b v)
  end.

(** Both CBC functions skip the key expansion when [key] is null; [RoundKey]
    was zeroed by the [memset]. *)
Definition cbc_round_keys (key : option bytes) : outcome bytes :=
  match key with
  | None => Ok (replicate keyExpSize 0)
  | Some key => k ← mem_read key 0 KEYLEN; Ok (KeyExpansion k)
  end.

(** Number of iterations of [for (i = 0; i < length; i += BLOCKLEN)]. *)
Definition cbc_iterations (len : nat) : nat := ((len + 15) / BLOCKLEN)%nat.

Fixpoint cbc_encrypt_loop (rk : bytes) (n : nat) (input output : bytes) (off : nat)
    (iv : option bytes) : outcome (bytes * bytes * nat) :=
  match n with
  | O => Ok (input, output, off)
  | S n =>
      input ← XorWithIv input off iv;
      b ← mem_read input off BLOCKLEN;
      output ← mem_write output off b;
      output ← in_place (Cipher rk) output off;
      c ← mem_read output off BLOCKLEN;
      cbc_encrypt_loop rk n input output (off + BLOCKLEN) (Some c)
  end.

Definition AES_CBC_encrypt_buffer (output input : bytes) (len : nat)
    (key iv : option bytes) : outcome (bytes * bytes) :=
  let extra := (len mod BLOCKLEN)%nat in
  rk ← cbc_round_keys key;
  r ← cbc_encrypt_loop rk (cbc_iterations len) input output 0 iv;
  let '(input, output, off) := r in
  if (extra =? 0)%nat then Ok (output, input)
  else
    b ← mem_read input off extra;
    output ← mem_write output off b;
    output ← in_place (Cipher rk) output off;
    Ok (output, input).

Fixpoint cbc_decrypt_loop (rk : bytes) (n : nat) (input output : bytes) (off : nat)
    (iv : option bytes) : outcome (bytes * nat) :=
  match n with
  | O => Ok (output, off)
  | S n =>
      b ← mem_read input off BLOCKLEN;
      output ← mem_write output off b;
      output ← in_place (InvCipher rk) output off;
      output ← XorWithIv output off iv;
      cbc_decrypt_loop rk n input output (off + BLOCKLEN) (Some b)
  end.

Definition AES_CBC_decrypt_buffer (output input : bytes) (len : nat)
    (key iv : option bytes) : outcome bytes :=
  let extra := (len mod BLOCKLEN)%nat in
  rk ← cbc_round_keys key;
  r ← cbc_decrypt_loop rk (cbc_iterations len) input output 0 iv;
  let '(output, off) := r in
  if (extra =? 0)%nat then Ok output
  else
    b ← mem_read input off extra;
    output ← mem_write output off b;
    in_place (InvCipher rk) output off.

End Code.

#[global] Arguments KeyExpansion : simpl never.
#[global] Arguments Cipher : simpl never.
#[global] Arguments InvCipher : simpl never.
#[global] Arguments getSBoxValue : simpl never.
#[global] Arguments getSBoxInvert : simpl never.

(** ** Well-formed states and closed forms *)

Definition st_wf (s : bytes) : Prop := length s = 16%nat /\ wf_bytes s.

Ltac split16 s :=
  do 16 (destruct s as [|? s]; [discriminate|]);
  destruct s as [|? ?]; [|discriminate].

Lemma SubBytes_map s : length s = 16%nat -> SubBytes s = map getSBoxValue s.
Proof. intros Hs. split16 s. cbv -[getSBoxValue]. reflexivity. Qed.

Lemma InvSubBytes_map s : length s = 16%nat -> InvSubBytes s = map getSBoxInvert s.
Proof. intros Hs. split16 s. cbv -[getSBoxInvert]. reflexivity. Qed.

Definition round_key (rk : bytes) (round : nat) : bytes :=
  map (fun n => RoundKey_get rk (round * 16 + n)) (seq 0 16).

Lemma AddRoundKey_zip rk round s :
  length s = 16%nat ->
  AddRoundKey rk round s = zip_with (fun a k => u8 (Z.lxor a k)) s (round_key rk round).
Proof.
  intros Hs. unfold AddRoundKey, round_key.
  replace (round * Nb * 4)%nat with (round * 16)%nat by (unfold Nb; lia).
  generalize (round * 16)%nat. intros r. split16 s.
  cbn -[RoundKey_get u8 Z.lxor]. unfold st_get, st_set. cbn -[RoundKey_get u8 Z.lxor].
  rewrite <- !Nat.add_assoc. reflexivity.
Qed.

Definition mixcol (a b c d : Z) : list Z :=
  let Tmp := Z.lxor (Z.lxor (Z.lxor a b) c) d in
  [ u8 (Z.lxor a (Z.lxor (xtime (Z.lxor a b)) Tmp));
    u8 (Z.lxor b (Z.lxor (xtime (Z.lxor b c)) Tmp));
    u8 (Z.lxor c (Z.lxor (xtime (Z.lxor c d)) Tmp));
    u8 (Z.lxor d (Z.lxor (xtime (Z.lxor d a)) Tmp)) ].

Definition invmixcol (a b c d : Z) : list Z :=
  let mix ka kb kc kd :=
    u8 (Z.lxor (Z.lxor (Z.lxor (Multiply a ka) (Multiply b kb)) (Multiply c kc)) (Multiply d kd)) in
  [ mix 14 11 13 9; mix 9 14 11 13; mix 13 9 14 11; mix 11 13 9 14 ].

Definition by_columns (f : Z -> Z -> Z -> Z -> list Z) (s : bytes) : bytes :=
  match s with
  | [a0; b0; c0; d0; a1; b1; c1; d1; a2; b2; c2; d2; a3; b3; c3; d3] =>
      f a0 b0 c0 d0 ++ f a1 b1 c1 d1 ++ f a2 b2 c2 d2 ++ f a3 b3 c3 d3
  | _ => s
  end.

Lemma MixColumns_cols s : length s = 16%nat -> MixColumns s = by_columns mixcol s.
Proof. intros Hs. split16 s. cbv -[xtime u8 Z.lxor]. reflexivity. Qed.

Lemma InvMixColumns_cols s : length s = 16%nat -> InvMixColumns s = by_columns invmixcol s.
Proof. intros Hs. split16 s. cbv -[Multiply u8 Z.lxor]. reflexivity. Qed.

(** ** The S-box tables are inverse permutations of the bytes *)

Definition all_bytes : list Z := map Z.of_nat (seq 0 256).

Lemma all_bytes_spec (P : Z -> Prop) : Forall P all_bytes -> forall b, is_byte b -> P b.
Proof.
  rewrite Forall_forall. intros H b Hb. apply H. unfold all_bytes, is_byte in *.
  apply list_elem_of_fmap. exists (Z.to_nat b). split; [lia|].
  apply elem_of_seq. lia.
Qed.

Lemma sbox_inverse b : is_byte b -> getSBoxInvert (getSBoxValue b) = b.
Proof.
  revert b. apply all_bytes_spec. apply (bool_decide_unpack _). vm_compute. exact I.
Qed.

Lemma sbox_byte b : is_byte b -> is_byte (getSBoxValue b).
Proof.
  revert b. apply all_bytes_spec. apply (bool_decide_unpack _). vm_compute. exact I.
Qed.

(** ** Linearity of [xtime] *)

Lemma xtime_byte x : is_byte (xtime x).
Proof. apply u8_byte. Qed.

Lemma bit0_mul x k : Z.land x 1 * k = if Z.odd x then k else 0.
Proof.
  change 1 with (Z.ones 1). rewrite Z.land_ones by lia. change (2 ^ 1) with 2.
  rewrite Zmod_odd. destruct (Z.odd x); lia.
Qed.

Lemma xtime_lxor x y : xtime (Z.lxor x y) = Z.lxor (xtime x) (xtime y).
Proof.
  unfold xtime, u8. rewrite Z.shiftl_lxor, Z.shiftr_lxor, !bit0_mul.
  rewrite <- !Z.bit0_odd, Z.lxor_spec, !land_lxor_distr.
  destruct (Z.testbit (x ≫ 7) 0), (Z.testbit (y ≫ 7) 0); cbn [xorb];
    apply Z.bits_inj'; intros n _; rewrite ?Z.lxor_spec, ?Z.land_spec, ?Z.bits_0; btauto.
Qed.

(** ** Each round transformation is undone by its inverse *)

Lemma lxor_u8_cancel a k : is_byte a -> u8 (Z.lxor (u8 (Z.lxor a k)) k) = a.
Proof.
  intros Ha. unfold u8. rewrite land_lxor_distr, <- Z.land_assoc, Z.land_diag.
  rewrite land_lxor_distr, lxor_cancel_r. by apply u8_id.
Qed.

Lemma AddRoundKey_involutive rk round s :
  st_wf s -> AddRoundKey rk round (AddRoundKey rk round s) = s.
Proof.
  intros [Hl Hs]. assert (Hk : length (round_key rk round) = 16%nat) by done.
  rewrite !AddRoundKey_zip by (rewrite ?AddRoundKey_zip; len).
  revert Hs Hk. rewrite <- Hl. generalize (round_key rk round) as k. clear Hl.
  induction s as [|b s IH]; intros [|x k] Hs Hk; try done; try discriminate.
  apply Forall_cons in Hs as [Hb Hs]. cbn. f_equal; [by apply lxor_u8_cancel|].
  apply IH; [done|]. by injection Hk.
Qed.

Lemma InvSub_Sub s : st_wf s -> InvSubBytes (SubBytes s) = s.
Proof.
  intros [Hl Hs]. rewrite SubBytes_map, InvSubBytes_map by len.
  rewrite map_map. clear Hl. induction Hs as [|b s Hb Hs IH]; [done|].
  cbn [map]. by rewrite sbox_inverse, IH.
Qed.

Lemma InvShift_Shift s : length s = 16%nat -> InvShiftRows (ShiftRows s) = s.
Proof. intros Hs. split16 s. reflexivity. Qed.

Lemma Multiply_9 x : Multiply x 9 = Z.lxor x (xtime (xtime (xtime x))).
Proof.
  unfold Multiply. cbn -[xtime Z.lxor Z.mul]. rewrite !Z.mul_0_l, !Z.mul_1_l, !Z.lxor_0_r. done.
Qed.
Lemma Multiply_11 x : Multiply x 11 = Z.lxor (Z.lxor x (xtime x)) (xtime (xtime (xtime x))).
Proof.
  unfold Multiply. cbn -[xtime Z.lxor Z.mul]. rewrite !Z.mul_0_l, !Z.mul_1_l, !Z.lxor_0_r. done.
Qed.
Lemma Multiply_13 x :
  Multiply x 13 = Z.lxor (Z.lxor x (xtime (xtime x))) (xtime (xtime (xtime x))).
Proof.
  unfold Multiply. cbn -[xtime Z.lxor Z.mul]. rewrite !Z.mul_0_l, !Z.mul_1_l, !Z.lxor_0_r. done.
Qed.
Lemma Multiply_14 x :
  Multiply x 14 = Z.lxor (Z.lxor (xtime x) (xtime (xtime x))) (xtime (xtime (xtime x))).
Proof.
  unfold Multiply. cbn -[xtime Z.lxor Z.mul]. rewrite !Z.mul_0_l, !Z.mul_1_l, !Z.lxor_0_r, !Z.lxor_0_l. done.
Qed.

(** Decide an equation between exclusive-ors by cancelling equal terms. *)
Ltac xor_cancel :=
  apply Z.bits_inj'; intros ? _; rewrite ?Z.lxor_spec;
  repeat match goal with |- context [Z.testbit ?t ?n] => generalize (Z.testbit t n) end;
  intros; btauto.

Lemma invmixcol_mixcol a b c d :
  is_byte a -> is_byte b -> is_byte c -> is_byte d ->
  match mixcol a b c d with
  | [a'; b'; c'; d'] => invmixcol a' b' c' d'
  | _ => []
  end = [a; b; c; d].
Proof.
  intros Ha Hb Hc Hd. cbn [mixcol].
  rewrite !u8_id by auto 6 using lxor_byte, xtime_byte.
  unfold invmixcol. rewrite !Multiply_9, !Multiply_11, !Multiply_13, !Multiply_14, !xtime_lxor.
  match goal with |- [u8 ?p; u8 ?q; u8 ?r; u8 ?s] = _ =>
    assert (p = a) as -> by xor_cancel; assert (q = b) as -> by xor_cancel;
    assert (r = c) as -> by xor_cancel; assert (s = d) as -> by xor_cancel
  end.
  by rewrite !u8_id.
Qed.

Lemma mixcol_undo a b c d :
  is_byte a -> is_byte b -> is_byte c -> is_byte d ->
  exists a' b' c' d', mixcol a b c d = [a'; b'; c'; d'] /\ invmixcol a' b' c' d' = [a; b; c; d].
Proof.
  intros Ha Hb Hc Hd. do 4 eexists. split; [reflexivity|].
  by apply (invmixcol_mixcol a b c d).
Qed.

Lemma by_columns_inverse s :
  st_wf s -> by_columns invmixcol (by_columns mixcol s) = s.
Proof.
  unfold st_wf, wf_bytes. intros [Hl Hs]. split16 s. rewrite !Forall_cons in Hs.
  destruct_and! Hs. cbn [by_columns].
  repeat match goal with
  | |- context [mixcol ?a ?b ?c ?d] =>
      let E := fresh in
      destruct (mixcol_undo a b c d) as (? & ? & ? & ? & -> & E); [assumption..|]
  end.
  cbn [app by_columns].
  repeat match goal with H : invmixcol _ _ _ _ = _ |- _ => rewrite H; clear H end.
  reflexivity.
Qed.

Lemma InvMix_Mix s : st_wf s -> InvMixColumns (MixColumns s) = s.
Proof.
  intros Hs. pose proof Hs as [Hl _].
  rewrite MixColumns_cols by done. rewrite InvMixColumns_cols.
  - by apply by_columns_inverse.
  - clear Hs. split16 s. reflexivity.
Qed.

(** ** The transformations keep a state well formed *)

Lemma SubBytes_wf s : st_wf s -> st_wf (SubBytes s).
Proof.
  intros [Hl Hs]. rewrite SubBytes_map by done. split; [len|].
  unfold wf_bytes. rewrite Forall_fmap. eapply Forall_impl; [exact Hs|]. apply sbox_byte.
Qed.

Lemma ShiftRows_wf s : st_wf s -> st_wf (ShiftRows s).
Proof.
  intros [Hl Hs]. split16 s. split; [reflexivity|]. cbv -[wf_bytes].
  unfold wf_bytes in *. rewrite !Forall_cons in *. tauto.
Qed.

Lemma MixColumns_wf s : st_wf s -> st_wf (MixColumns s).
Proof.
  intros [Hl Hs]. rewrite MixColumns_cols by done. split16 s. split; [reflexivity|].
  cbn [by_columns mixcol app]. repeat constructor; apply u8_byte.
Qed.

Lemma AddRoundKey_wf rk round s : st_wf s -> st_wf (AddRoundKey rk round s).
Proof.
  intros [Hl Hs]. rewrite AddRoundKey_zip by done. split; [unfold round_key; len|].
  apply Forall_zip_with_fst with (P := is_byte); [done|].
  apply Forall_forall. intros. apply u8_byte.
Qed.

Lemma InvShiftRows_wf s : st_wf s -> st_wf (InvShiftRows s).
Proof.
  intros [Hl Hs]. split16 s. split; [reflexivity|]. cbv -[wf_bytes].
  unfold wf_bytes in *. rewrite !Forall_cons in *. tauto.
Qed.

Lemma rsbox_byte b : is_byte b -> is_byte (getSBoxInvert b).
Proof.
  revert b. apply all_bytes_spec. apply (bool_decide_unpack _). vm_compute. exact I.
Qed.

Lemma InvSubBytes_wf s : st_wf s -> st_wf (InvSubBytes s).
Proof.
  intros [Hl Hs]. rewrite InvSubBytes_map by done. split; [len|].
  unfold wf_bytes. rewrite Forall_fmap. eapply Forall_impl; [exact Hs|]. apply rsbox_byte.
Qed.

Lemma InvMixColumns_wf s : st_wf s -> st_wf (InvMixColumns s).
Proof.
  intros [Hl Hs]. rewrite InvMixColumns_cols by done. split16 s. split; [reflexivity|].
  cbn [by_columns invmixcol app]. repeat constructor; apply u8_byte.
Qed.

Create HintDb aes discriminated.
#[export] Hint Resolve SubBytes_wf ShiftRows_wf MixColumns_wf AddRoundKey_wf
  InvSubBytes_wf InvShiftRows_wf InvMixColumns_wf : aes.

(** ** Decryption inverts encryption *)

Lemma InvSubShift_wf s : st_wf s -> InvSubBytes (InvShiftRows (ShiftRows (SubBytes s))) = s.
Proof.
  intros Hs. rewrite InvShift_Shift by apply (SubBytes_wf s Hs). by apply InvSub_Sub.
Qed.

Lemma round_step_wf rk s r : st_wf s -> st_wf (round_step rk s r).
Proof. unfold round_step. auto with aes. Qed.

Lemma inv_round_step_wf rk s r : st_wf s -> st_wf (inv_round_step rk s r).
Proof. unfold inv_round_step. auto 6 with aes. Qed.

Lemma foldl_wf (f : bytes -> nat -> bytes) l s :
  (forall s r, st_wf s -> st_wf (f s r)) -> st_wf s -> st_wf (foldl f s l).
Proof. intros Hf. revert s. induction l; simpl; auto. Qed.

(** Undoing the rounds [l], from just before the last [AddRoundKey]: the
    decryption loop works on a state to which SubBytes and ShiftRows have
    already been applied once more. *)
Lemma inv_rounds rk l s :
  st_wf s ->
  InvSubBytes (InvShiftRows (foldl (inv_round_step rk)
    (ShiftRows (SubBytes (foldl (round_step rk) s l))) (rev l))) = s.
Proof.
  revert s. induction l as [|r l IH] using rev_ind; intros s Hs.
  - simpl. by apply InvSubShift_wf.
  - rewrite rev_app_distr, !foldl_app. cbn [rev app foldl].
    set (t := foldl (round_step rk) s l).
    assert (Ht : st_wf t) by (apply foldl_wf; [apply round_step_wf|done]).
    unfold inv_round_step at 2. rewrite InvSubShift_wf by (by apply round_step_wf).
    unfold round_step. rewrite AddRoundKey_involutive by auto with aes.
    rewrite InvMix_Mix by auto with aes. by apply IH.
Qed.

Lemma InvCipher_Cipher_id {B : AesBuild} rk s : st_wf s -> InvCipher rk (Cipher rk s) = s.
Proof.
  intros Hs. unfold InvCipher, Cipher.
  rewrite AddRoundKey_involutive.
  - rewrite inv_rounds by auto with aes. by apply AddRoundKey_involutive.
  - apply ShiftRows_wf, SubBytes_wf, foldl_wf; [apply round_step_wf|auto with aes].
Qed.

Lemma Cipher_wf {B : AesBuild} rk s : st_wf s -> st_wf (Cipher rk s).
Proof.
  intros Hs. unfold Cipher. apply AddRoundKey_wf, ShiftRows_wf, SubBytes_wf, foldl_wf;
    [apply round_step_wf|auto with aes].
Qed.

Lemma InvCipher_wf {B : AesBuild} rk s : st_wf s -> st_wf (InvCipher rk s).
Proof.
  intros Hs. unfold InvCipher. apply AddRoundKey_wf, InvSubBytes_wf, InvShiftRows_wf, foldl_wf;
    [apply inv_round_step_wf|auto with aes].
Qed.
#[export] Hint Resolve Cipher_wf InvCipher_wf : aes.

(** ** The buffer-level functions *)

Ltac alen := unfold BLOCKLEN in *; len.

Section Buffers.
Context {B : AesBuild}.

Lemma in_place_mid f a b c off :
  off = length a -> length b = BLOCKLEN -> length (f b) = BLOCKLEN ->
  in_place f (a ++ b ++ c) off = Ok (a ++ f b ++ c).
Proof.
  intros -> Hb Hf. unfold in_place. rewrite (mem_read_mid a b c) by done.
  run_ok. apply mem_write_mid; congruence.
Qed.

(** The buffer [output] after [memcpy(output, input, len)]. *)
Definition overlay (input output : bytes) (len : nat) : bytes :=
  take len input ++ drop len output.

Lemma overlay_write input output len :
  (len <= length input)%nat -> (len <= length output)%nat ->
  (src ← mem_read input 0 len; mem_write output 0 src) = Ok (overlay input output len).
Proof.
  intros Hi Ho. rewrite mem_read_ok by lia. run_ok. rewrite drop_0.
  rewrite <- (take_drop len output) at 1.
  rewrite <- (app_nil_l (take len output ++ _)), (mem_write_mid [] (take len output)) by len.
  done.
Qed.

Lemma overlay_length input output len :
  (len <= length input)%nat -> (len <= length output)%nat ->
  length (overlay input output len) = length output.
Proof. intros. unfold overlay. len. Qed.

Lemma ecb_shape f input key output len :
  (len <= length input)%nat -> (len <= length output)%nat ->
  (16 <= length output)%nat -> (KEYLEN <= length key)%nat ->
  (forall rk b, length b = 16%nat -> length (f rk b) = 16%nat) ->
  (src ← mem_read input 0 len;
   output ← mem_write output 0 src;
   key ← mem_read key 0 KEYLEN;
   in_place (f (KeyExpansion key)) output 0) =
  Ok (f (KeyExpansion (take KEYLEN key)) (take 16 (overlay input output len))
        ++ drop 16 (overlay input output len)).
Proof.
  intros Hi Ho H16 Hk Hf.
  pose proof (overlay_write input output len Hi Ho) as E.
  pose proof (overlay_length input output len Hi Ho) as L.
  destruct (mem_read input 0 len); try discriminate. run_ok in E. run_ok. rewrite E. run_ok.
  rewrite (mem_read_ok key) by lia. run_ok. rewrite drop_0.
  set (o := overlay input output len) in *. clearbody o.
  rewrite <- (take_drop 16 o) at 1.
  apply (in_place_mid _ [] (take 16 o)); [done|alen|].
  apply Hf. alen.
Qed.

Lemma Cipher_length rk b : length b = 16%nat -> length (Cipher rk b) = 16%nat.
Proof.
  assert (HA : forall r s, length s = 16%nat -> length (AddRoundKey rk r s) = 16%nat).
  { intros r s Hs. rewrite AddRoundKey_zip by done. unfold round_key. len. }
  assert (HS : forall s, length s = 16%nat -> length (ShiftRows (SubBytes s)) = 16%nat).
  { intros s Hs. rewrite SubBytes_map by done. split16 s. reflexivity. }
  assert (HM : forall s, length s = 16%nat -> length (MixColumns s) = 16%nat).
  { intros s Hs. rewrite MixColumns_cols by done. split16 s. reflexivity. }
  assert (HF : forall l s, length s = 16%nat -> length (foldl (round_step rk) s l) = 16%nat).
  { induction l; simpl; intros; [done|]. apply IHl. unfold round_step. auto. }
  intros Hb. unfold Cipher. auto.
Qed.

Lemma InvCipher_length rk b : length b = 16%nat -> length (InvCipher rk b) = 16%nat.
Proof.
  assert (HA : forall r s, length s = 16%nat -> length (AddRoundKey rk r s) = 16%nat).
  { intros r s Hs. rewrite AddRoundKey_zip by done. unfold round_key. len. }
  assert (HS : forall s, length s = 16%nat -> length (InvSubBytes (InvShiftRows s)) = 16%nat).
  { intros s Hs. rewrite InvSubBytes_map; split16 s; reflexivity. }
  assert (HM : forall s, length s = 16%nat -> length (InvMixColumns s) = 16%nat).
  { intros s Hs. rewrite InvMixColumns_cols by done. split16 s. reflexivity. }
  assert (HF : forall l s, length s = 16%nat -> length (foldl (inv_round_step rk) s l) = 16%nat).
  { induction l; simpl; intros; [done|]. apply IHl. unfold inv_round_step. auto. }
  intros Hb. unfold InvCipher. auto.
Qed.

Section Ecb.
Context (input key output : bytes) (len : nat).
Context (Hi : (len <= length input)%nat) (Ho : (len <= length output)%nat).
Context (H16 : (16 <= length output)%nat) (Hk : (KEYLEN <= length key)%nat).

Lemma AES_ECB_encrypt_eq :
  AES_ECB_encrypt input key output len =
  Ok (Cipher (KeyExpansion (take KEYLEN key)) (take 16 (overlay input output len))
        ++ drop 16 (overlay input output len)).
Proof. apply (ecb_shape Cipher); auto using Cipher_length. Qed.

Lemma AES_ECB_decrypt_eq :
  AES_ECB_decrypt input key output len =
  Ok (InvCipher (KeyExpansion (take KEYLEN key)) (take 16 (overlay input output len))
        ++ drop 16 (overlay input output len)).
Proof. apply (ecb_shape InvCipher); auto using InvCipher_length. Qed.
End Ecb.

(** What the ECB functions compute on a buffer of exactly the right size. *)
Definition ecb_enc (key p : bytes) : bytes := Cipher (KeyExpansion key) (take 16 p) ++ drop 16 p.
Definition ecb_dec (key p : bytes) : bytes := InvCipher (KeyExpansion key) (take 16 p) ++ drop 16 p.

Lemma ecb_enc_length key p : (16 <= length p)%nat -> length (ecb_enc key p) = length p.
Proof. intros. unfold ecb_enc. rewrite length_app, Cipher_length; len. Qed.

Lemma ecb_dec_length key p : (16 <= length p)%nat -> length (ecb_dec key p) = length p.
Proof. intros. unfold ecb_dec. rewrite length_app, InvCipher_length; len. Qed.

(** Beyond the first block nothing changes. *)
Lemma ecb_enc_tail key p : (16 <= length p)%nat -> drop 16 (ecb_enc key p) = drop 16 p.
Proof. intros. unfold ecb_enc. rewrite drop_app_length'; [done|]. symmetry. apply Cipher_length. len. Qed.

Lemma ecb_enc_wf key p : (16 <= length p)%nat -> wf_bytes p -> wf_bytes (ecb_enc key p).
Proof.
  intros. unfold ecb_enc. rewrite wf_bytes_app. split; [|auto with bytes].
  apply Cipher_wf. split; [len|auto with bytes].
Qed.

Lemma ecb_dec_enc key p : (16 <= length p)%nat -> wf_bytes p -> ecb_dec key (ecb_enc key p) = p.
Proof.
  intros Hl Hw. unfold ecb_dec, ecb_enc.
  assert (Lc : length (Cipher (KeyExpansion key) (take 16 p)) = 16%nat) by (apply Cipher_length; len).
  rewrite take_app_length', drop_app_length' by done.
  rewrite InvCipher_Cipher_id by (split; [len|auto with bytes]). apply take_drop.
Qed.

Lemma overlay_full input output :
  length input = length output -> overlay input output (length input) = input.
Proof.
  intros H. unfold overlay. rewrite firstn_all, H, drop_all. apply app_nil_r.
Qed.

Lemma AES_ECB_encrypt_full input key output n :
  n = length input -> n = length output -> (16 <= n)%nat -> length key = KEYLEN ->
  AES_ECB_encrypt input key output n = Ok (ecb_enc key input).
Proof.
  intros -> Ho H16 Hk. rewrite AES_ECB_encrypt_eq, overlay_full by lia.
  rewrite (firstn_all2 key) by lia. unfold ecb_enc, ecb_dec. reflexivity.
Qed.

Lemma AES_ECB_decrypt_full input key output n :
  n = length input -> n = length output -> (16 <= n)%nat -> length key = KEYLEN ->
  AES_ECB_decrypt input key output n = Ok (ecb_dec key input).
Proof.
  intros -> Ho H16 Hk. rewrite AES_ECB_decrypt_eq, overlay_full by lia.
  rewrite (firstn_all2 key) by lia. unfold ecb_enc, ecb_dec. reflexivity.
Qed.

(** ** CBC as a function on blocks *)

Definition xor_block (b v : bytes) : bytes := zip_with (fun x y => u8 (Z.lxor x y)) b v.

(** Chaining with an arbitrary block function [f]. *)
Fixpoint chain_enc (f : bytes -> bytes) (iv : bytes) (blocks : list bytes) : list bytes :=
  match blocks with
  | [] => []
  | b :: bs => f (xor_block b iv) :: chain_enc f (f (xor_block b iv)) bs
  end.

Fixpoint chain_dec (f : bytes -> bytes) (iv : bytes) (blocks : list bytes) : list bytes :=
  match blocks with
  | [] => []
  | c :: cs => xor_block (f c) iv :: chain_dec f c cs
  end.

Definition cbc_enc (rk : bytes) := chain_enc (Cipher rk).
Definition cbc_dec (rk : bytes) := chain_dec (InvCipher rk).

Lemma xor_block_wf b v : st_wf b -> length v = 16%nat -> st_wf (xor_block b v).
Proof.
  intros [Hl Hb] Hv. unfold xor_block. split; [len|].
  apply Forall_zip_with_fst with (P := is_byte); [done|].
  apply Forall_forall. intros. apply u8_byte.
Qed.

Lemma xor_block_cancel b v : wf_bytes b -> length v = length b -> xor_block (xor_block b v) v = b.
Proof.
  intros Hb. revert v. induction Hb as [|x b Hx Hb IH]; intros [|y v] Hl; try done.
  unfold xor_block in *. cbn. rewrite lxor_u8_cancel by done. f_equal. apply IH. by injection Hl.
Qed.

Lemma cbc_enc_wf rk iv blocks :
  length iv = 16%nat -> Forall st_wf blocks -> Forall st_wf (cbc_enc rk iv blocks).
Proof.
  intros Hiv Hb. revert iv Hiv.
  unfold cbc_enc.
  induction Hb as [|b bs Hb Hbs IH]; intros iv Hiv; cbn; [constructor|].
  assert (Hc : st_wf (Cipher rk (xor_block b iv))) by auto using Cipher_wf, xor_block_wf.
  constructor; [done|]. apply IH. apply Hc.
Qed.

Lemma cbc_dec_enc rk iv blocks :
  length iv = 16%nat -> Forall st_wf blocks ->
  cbc_dec rk iv (cbc_enc rk iv blocks) = blocks.
Proof.
  intros Hiv Hb. revert iv Hiv.
  unfold cbc_enc, cbc_dec.
  induction Hb as [|b bs Hb Hbs IH]; intros iv Hiv; cbn; [done|].
  rewrite InvCipher_Cipher_id by auto using xor_block_wf.
  rewrite xor_block_cancel by (destruct Hb; (done || congruence)).
  rewrite IH; [done|]. apply Cipher_length. destruct Hb. unfold xor_block. len.
Qed.

Lemma XorWithIv_mid a b c v off :
  off = length a -> length b = 16%nat -> (16 <= length v)%nat ->
  XorWithIv (a ++ b ++ c) off (Some v) = Ok (a ++ xor_block b (take 16 v) ++ c).
Proof.
  intros -> Hb Hv. unfold XorWithIv. rewrite (mem_read_mid a b c) by done. run_ok.
  rewrite mem_read_ok by alen. run_ok. rewrite drop_0.
  apply mem_write_mid; [done|]. unfold xor_block. alen.
Qed.

(** The encryption loop over a buffer that holds the blocks at [off]. *)
Lemma cbc_encrypt_loop_spec rk blocks a z oa old oz iv off :
  off = length a -> off = length oa ->
  Forall (fun b => length b = 16%nat) blocks ->
  length old = (16 * length blocks)%nat -> (16 <= length iv)%nat ->
  exists input', cbc_encrypt_loop rk (length blocks) (a ++ concat blocks ++ z) (oa ++ old ++ oz) off (Some iv)
  = Ok (input', oa ++ concat (cbc_enc rk (take 16 iv) blocks) ++ oz, (off + 16 * length blocks)%nat).
Proof.
  intros Ha Hoa Hb. revert a oa old iv off Ha Hoa. unfold cbc_enc, cbc_dec.
  induction Hb as [|b bs Hb Hbs IH]; intros a oa old iv off Ha Hoa Hold Hiv;
    cbn [length concat chain_enc cbc_encrypt_loop].
  - apply nil_length_inv in Hold as ->. eexists. f_equal. f_equal. lia.
  - cbn [length] in Hold. set (x := xor_block b (take 16 iv)).
    assert (Hx : length x = 16%nat) by (unfold x, xor_block; len).
    rewrite <- !app_assoc, (XorWithIv_mid a b) by done. run_ok. fold x.
    rewrite (mem_read_mid a x) by done. run_ok.
    rewrite <- (take_drop 16 old), <- !app_assoc.
    rewrite (mem_write_mid oa (take 16 old)) by len. run_ok.
    rewrite (in_place_mid _ oa x) by auto using Cipher_length. run_ok.
    set (c := Cipher rk x). assert (Hc : length c = 16%nat) by (by apply Cipher_length).
    rewrite (mem_read_mid oa c) by done. run_ok.
    rewrite (app_assoc a x), (app_assoc oa c).
    destruct (IH (a ++ x) (oa ++ c) (drop 16 old) c (off + BLOCKLEN)%nat) as [i' E]; try alen.
    exists i'. rewrite E. rewrite (firstn_all2 c) by lia. unfold BLOCKLEN.
    rewrite <- !app_assoc. f_equal. f_equal. lia.
Qed.

Lemma cbc_decrypt_loop_spec rk blocks a z oa old oz iv off :
  off = length a -> off = length oa ->
  Forall (fun b => length b = 16%nat) blocks ->
  length old = (16 * length blocks)%nat -> (16 <= length iv)%nat ->
  cbc_decrypt_loop rk (length blocks) (a ++ concat blocks ++ z) (oa ++ old ++ oz) off (Some iv)
  = Ok (oa ++ concat (cbc_dec rk (take 16 iv) blocks) ++ oz, (off + 16 * length blocks)%nat).
Proof.
  intros Ha Hoa Hb. revert a oa old iv off Ha Hoa. unfold cbc_enc, cbc_dec.
  induction Hb as [|b bs Hb Hbs IH]; intros a oa old iv off Ha Hoa Hold Hiv;
    cbn [length concat chain_dec cbc_decrypt_loop].
  - apply nil_length_inv in Hold as ->. f_equal. f_equal. lia.
  - cbn [length] in Hold. rewrite <- !app_assoc, (mem_read_mid a b) by done. run_ok.
    rewrite <- (take_drop 16 old), <- !app_assoc.
    rewrite (mem_write_mid oa (take 16 old)) by len. run_ok.
    rewrite (in_place_mid _ oa b) by auto using InvCipher_length. run_ok.
    rewrite (XorWithIv_mid oa (InvCipher rk b)) by auto using InvCipher_length. run_ok.
    assert (Hx : length (xor_block (InvCipher rk b) (take 16 iv)) = 16%nat).
    { pose proof (InvCipher_length rk b Hb). unfold xor_block. len. }
    rewrite (app_assoc a b), (app_assoc oa), (IH (a ++ b)); try alen.
    rewrite (firstn_all2 b) by lia. unfold BLOCKLEN.
    rewrite <- !app_assoc. f_equal. f_equal. lia.
Qed.

(** Cutting a buffer into blocks. *)
Fixpoint blocks_of (n : nat) (l : bytes) : list bytes :=
  match n with
  | O => []
  | S n => take 16 l :: blocks_of n (drop 16 l)
  end.

Lemma blocks_of_spec n l :
  (16 * n <= length l)%nat -> wf_bytes l ->
  Forall st_wf (blocks_of n l) /\ length (blocks_of n l) = n /\
  concat (blocks_of n l) = take (16 * n) l.
Proof.
  revert l. induction n as [|n IH]; intros l Hl Hw; [done|].
  destruct (IH (drop 16 l)) as (H1 & H2 & H3); [len|auto with bytes|].
  cbn [blocks_of concat length]. split_and!.
  - constructor; [split; [len|auto with bytes]|done].
  - by rewrite H2.
  - rewrite H3. replace (16 * S n)%nat with (16 + 16 * n)%nat by lia.
    by rewrite <- take_take_drop.
Qed.

End Buffers.

(** ** Properties *)

(** The key size of kokke_aes.h. *)
#[global] Instance configured : AesBuild | 100 := AES128.

Lemma overlay_head input output len :
  (16 <= len <= length input)%nat -> take 16 (overlay input output len) = take 16 input.
Proof.
  intros. unfold overlay. rewrite take_app_le by len. by rewrite take_take, Nat.min_l by lia.
Qed.

Lemma overlay_tail input output len :
  (len <= length input)%nat ->
  take (len - 16) (drop 16 (overlay input output len)) = take (len - 16) (drop 16 input).
Proof.
  intros. unfold overlay. destruct (decide (len <= 16)%nat).
  { replace (len - 16)%nat with 0%nat by lia. done. }
  rewrite drop_app_le by len. rewrite skipn_firstn_comm.
  rewrite take_app_le by len. by rewrite take_take, Nat.min_id.
Qed.

Lemma take_block_app (x y : bytes) len :
  length x = 16%nat -> (16 <= len)%nat -> take len (x ++ y) = x ++ take (len - 16) y.
Proof. intros Hx Hl. rewrite take_app_ge by lia. by rewrite Hx. Qed.

(** C22: ECB round trip, for each key size. Whenever at least one whole block is processed and the
    buffers are large enough, [AES_ECB_encrypt] succeeds, and decrypting its
    output with the same key restores the first [len] bytes of the input. *)
Theorem AES_ECB_roundtrip {B : AesBuild} (input key output output2 : bytes) (len : nat) :
  wf_bytes input -> (16 <= len <= length input)%nat -> (len <= length output)%nat ->
  (len <= length output2)%nat -> (KEYLEN <= length key)%nat ->
  exists c, AES_ECB_encrypt input key output len = Ok c /\ length c = length output /\
  exists p, AES_ECB_decrypt c key output2 len = Ok p /\ take len p = take len input.
Proof.
  intros Hw Hl Ho Ho2 Hk. rewrite AES_ECB_encrypt_eq by lia.
  set (o := overlay input output len). set (rk := KeyExpansion (take KEYLEN key)).
  assert (Lo : length o = length output) by (by apply overlay_length; lia).
  assert (Lc : length (Cipher rk (take 16 o)) = 16%nat) by (apply Cipher_length; len).
  eexists. split; [reflexivity|]. split; [len|].
  set (c := Cipher rk (take 16 o) ++ drop 16 o).
  assert (Lcc : length c = length output) by (unfold c; len).
  rewrite AES_ECB_decrypt_eq by lia. eexists. split; [reflexivity|]. fold rk.
  rewrite take_block_app by (try apply InvCipher_length; unfold overlay; len).
  rewrite overlay_tail, overlay_head by lia. unfold c.
  rewrite take_app_length', drop_app_length' by done.
  unfold o. rewrite overlay_tail, overlay_head, InvCipher_Cipher_id.
  - rewrite take_take_drop. f_equal. lia.
  - split; [len|auto with bytes].
  - lia.
  - lia.
Qed.

Lemma AES_ECB_roundtrip_witness :
  exists c, AES_ECB_encrypt (replicate 20 7) (replicate 16 9) (replicate 32 0) 20 = Ok c /\ length c = 32%nat /\
  exists p, AES_ECB_decrypt c (replicate 16 9) (replicate 20 0) 20 = Ok p /\ take 20 p = take 20 (replicate 20 7).
Proof.
  apply (AES_ECB_roundtrip (replicate 20 7) (replicate 16 9) (replicate 32 0) (replicate 20 0) 20);
    try (cbn; lia). apply wf_bytes_repeat. unfold is_byte. lia.
Defined.

(** Only the first block is enciphered. For every key and every buffer,
    the bytes that [AES_ECB_encrypt] writes from offset 16 on are the plain
    text itself. *)
Theorem AES_ECB_tail_in_clear {B : AesBuild} (input key output : bytes) (len : nat) :
  (len <= length input)%nat -> (len <= length output)%nat ->
  (16 <= length output)%nat -> (KEYLEN <= length key)%nat ->
  exists c, AES_ECB_encrypt input key output len = Ok c /\
            drop 16 (take len c) = drop 16 (take len input).
Proof.
  intros. rewrite AES_ECB_encrypt_eq by done. eexists. split; [reflexivity|].
  set (o := overlay input output len).
  assert (Lo : length o = length output) by (by apply overlay_length).
  assert (Lc : length (Cipher (KeyExpansion (take KEYLEN key)) (take 16 o)) = 16%nat)
    by (apply Cipher_length; len).
  rewrite !skipn_firstn_comm, drop_app_length' by done. by apply overlay_tail.
Qed.

Lemma AES_ECB_tail_in_clear_witness :
  exists c, AES_ECB_encrypt (replicate 20 7) (replicate 16 9) (replicate 32 0) 20 = Ok c /\
            drop 16 (take 20 c) = drop 16 (take 20 (replicate 20 7)).
Proof.
  apply (AES_ECB_tail_in_clear (replicate 20 7) (replicate 16 9) (replicate 32 0) 20); cbn; lia.
Defined.

(** CBC round trip. On a whole number of blocks, with a key and an
    initialisation vector, encryption into a buffer succeeds and decrypting that
    buffer with the same key and vector restores the input. *)
Theorem AES_CBC_roundtrip {B : AesBuild} (input output output2 key iv : bytes) (n : nat) :
  wf_bytes input -> length input = (16 * n)%nat ->
  length output = (16 * n)%nat -> length output2 = (16 * n)%nat ->
  (KEYLEN <= length key)%nat -> (16 <= length iv)%nat ->
  exists c input', AES_CBC_encrypt_buffer output input (16 * n) (Some key) (Some iv) = Ok (c, input') /\
    AES_CBC_decrypt_buffer output2 c (16 * n) (Some key) (Some iv) = Ok input.
Proof.
  intros Hw Hi Ho Ho2 Hk Hiv.
  destruct (blocks_of_spec n input) as (Hb & Hn & Hc); [lia|done|].
  rewrite firstn_all2 in Hc by lia.
  unfold AES_CBC_encrypt_buffer, AES_CBC_decrypt_buffer, cbc_round_keys.
  rewrite (mem_read_ok key) by lia. run_ok. rewrite drop_0.
  set (rk := KeyExpansion _).
  assert (Hit : cbc_iterations (16 * n) = n).
  { unfold cbc_iterations, BLOCKLEN. rewrite Nat.mul_comm, Nat.div_add_l by lia.
    change (15 / 16)%nat with 0%nat. lia. }
  assert (Hex : ((16 * n) mod BLOCKLEN)%nat = 0%nat).
  { unfold BLOCKLEN. rewrite Nat.mul_comm. apply Nat.Div0.mod_mul. }
  rewrite Hit, Hex. cbn [Nat.eqb].
  assert (Hlen : Forall (fun b => length b = 16%nat) (blocks_of n input)).
  { eapply Forall_impl; [exact Hb|]. by intros b [? _]. }
  destruct (cbc_encrypt_loop_spec rk (blocks_of n input) [] [] [] output [] iv 0)
    as [i' E]; try done; [by rewrite Hn|].
  cbn [app] in E. rewrite !app_nil_r, Hn, Hc in E. rewrite E. run_ok.
  do 2 eexists. split; [reflexivity|].
  set (cs := cbc_enc rk (take 16 iv) (blocks_of n input)).
  assert (Hcs : Forall st_wf cs) by (apply cbc_enc_wf; [len|done]).
  assert (Lcs : length cs = n).
  { unfold cs, cbc_enc. rewrite <- Hn at 2. clear. generalize (take 16 iv) as v.
    induction (blocks_of n input); intros; cbn; auto. }
  pose proof (cbc_decrypt_loop_spec rk cs [] [] [] output2 [] iv 0) as D.
  cbn [app] in D. rewrite !app_nil_r, Lcs in D. rewrite D; try done.
  - run_ok. f_equal. unfold cs. rewrite cbc_dec_enc; [done| |done]. rewrite length_take; lia.
  - eapply Forall_impl; [exact Hcs|]. by intros b [? _].
Qed.

Lemma AES_CBC_roundtrip_witness :
  exists c input', AES_CBC_encrypt_buffer (replicate 32 0) (replicate 32 5) 32
      (Some (replicate 16 1)) (Some (replicate 16 2)) = Ok (c, input') /\
    AES_CBC_decrypt_buffer (replicate 32 0) c 32 (Some (replicate 16 1)) (Some (replicate 16 2))
    = Ok (replicate 32 5).
Proof.
  apply (AES_CBC_roundtrip (replicate 32 5) (replicate 32 0) (replicate 32 0)
           (replicate 16 1) (replicate 16 2) 2); try (cbn; lia).
  apply wf_bytes_repeat. unfold is_byte. lia.
Defined.

(** ** Well-formedness of the key schedule and of the rounds *)

(** Memory of [n] bytes. *)
Definition buf_wf (n : nat) (l : bytes) : Prop := length l = n /\ wf_bytes l.

Lemma buf_wf_insert n l i v : buf_wf n l -> is_byte v -> buf_wf n (<[i := v]> l).
Proof. intros [Hl Hw] Hv. split; [by rewrite length_insert|]. by apply Forall_insert. Qed.

Lemma buf_wf_foldl {A} (f : bytes -> A -> bytes) n xs l :
  (forall l x, buf_wf n l -> buf_wf n (f l x)) -> buf_wf n l -> buf_wf n (foldl f l xs).
Proof. intros Hf. revert l. induction xs as [|x xs IH]; intros l Hl; cbn; auto. Qed.

Lemma nth_byte l i : wf_bytes l -> is_byte (nth i l 0).
Proof.
  intros Hl. rewrite nth_lookup. destruct (l !! i) as [b|] eqn:E; cbn; [|unfold is_byte; lia].
  by apply (Forall_lookup_1 _ _ _ _ Hl E).
Qed.

Lemma expand_word_wf {B : AesBuild} n rk i : buf_wf n rk -> buf_wf n (expand_word rk i).
Proof.
  intros Hr. unfold expand_word.
  destruct (i mod Nk =? 0)%nat, variant; try destruct (_ =? _)%nat; repeat (apply buf_wf_insert; [|apply u8_byte]); done.
Qed.

Lemma KeyExpansion_wf {B : AesBuild} key : wf_bytes key -> buf_wf keyExpSize (KeyExpansion key).
Proof.
  intros Hk. unfold KeyExpansion. apply buf_wf_foldl; [intros; by apply expand_word_wf|].
  apply buf_wf_foldl.
  - intros l i Hl. unfold copy_key_word. apply buf_wf_foldl; [|done]. intros l' c Hl'.
    apply buf_wf_insert; [done|]. by apply nth_byte.
  - split; [by rewrite length_replicate|]. apply wf_bytes_repeat. unfold is_byte. lia.
Qed.

(** Types of the cipher: for each key size a key of bytes expands to round keys of
    that size (176, 208 or 240 bytes), and every transformation of a round, in both directions, and both ciphers map a block
    of sixteen bytes to a block of sixteen bytes. *)
Theorem cipher_types {B : AesBuild} (key rk s : bytes) (r : nat) :
  wf_bytes key -> st_wf s ->
  buf_wf keyExpSize (KeyExpansion key) /\
  Forall (fun f => st_wf (f s))
    [AddRoundKey rk r; SubBytes; ShiftRows; MixColumns; InvSubBytes; InvShiftRows; InvMixColumns; Cipher rk; InvCipher rk].
Proof.
  intros Hk Hs. split; [by apply KeyExpansion_wf|].
  repeat (constructor; [auto using AddRoundKey_wf, SubBytes_wf, ShiftRows_wf, MixColumns_wf, InvSubBytes_wf,
    InvShiftRows_wf, InvMixColumns_wf, Cipher_wf, InvCipher_wf|]). constructor.
Qed.

Lemma cipher_types_witness : buf_wf keyExpSize (KeyExpansion (replicate 16 7)).
Proof.
  apply (cipher_types (replicate 16 7) [] (replicate 16 0) 0); [|split; [reflexivity|]];
    apply (bool_decide_unpack _); vm_compute; reflexivity.
Defined.

(** The ECB-AES128 vectors in the header comment of kokke_aes.c. *)
Definition vec_key : bytes := [43;126;21;22;40;174;210;166;171;247;21;136;9;207;79;60].
Definition vec_plain : bytes :=
  [107;193;190;226;46;64;159;150;233;61;126;17;115;147;23;42;
   174;45;138;87;30;3;172;156;158;183;111;172;69;175;142;81;
   48;200;28;70;163;92;228;17;229;251;193;25;26;10;82;239;
   246;159;36;69;223;79;155;23;173;43;65;123;230;108;55;16].
Definition vec_cipher : bytes :=
  [58;215;123;180;13;122;54;96;168;158;202;243;36;102;239;151;
   245;211;213;133;3;185;105;157;231;133;137;90;150;253;186;175;
   67;177;205;127;89;142;206;35;136;27;0;227;237;3;6;136;
   123;12;120;94;39;232;173;63;130;35;32;113;4;114;93;212].

(** The NIST vectors documented for the file. Block by block, the cipher
    produces the documented cipher text; but one call of [AES_ECB_encrypt] on
    the documented four-block plain text produces only the first of the four
    documented cipher blocks. *)
Theorem AES_ECB_vectors :
  concat (map (fun b => Cipher (KeyExpansion vec_key) b) (blocks_of 4 vec_plain)) = vec_cipher /\
  AES_ECB_encrypt vec_plain vec_key (replicate 64 0) 64
    = Ok (take 16 vec_cipher ++ drop 16 vec_plain) /\
  AES_ECB_encrypt vec_plain vec_key (replicate 64 0) 64 <> Ok vec_cipher.
Proof. split_and!; vm_compute; [done|done|discriminate]. Qed.

(** A partial last block in CBC mode runs past both buffers: when the
    length is not a multiple of the block size and the buffers have exactly
    that length, encryption is undefined. A null [iv] is dereferenced as soon
    as one byte is to be encrypted. *)
Theorem AES_CBC_partial_block_undefined {B : AesBuild} (input output key iv : bytes) (len : nat) :
  (0 < len < 16)%nat -> length input = len -> length output = len ->
  (KEYLEN <= length key)%nat -> (16 <= length iv)%nat ->
  AES_CBC_encrypt_buffer output input len (Some key) (Some iv) = Undefined OobRead /\
  AES_CBC_encrypt_buffer output input len (Some key) None = Undefined NullDeref.
Proof.
  intros Hl Hi Ho Hk Hiv.
  unfold AES_CBC_encrypt_buffer, cbc_round_keys.
  rewrite (mem_read_ok key) by lia. run_ok.
  assert (cbc_iterations len = 1%nat) as ->.
  { unfold cbc_iterations, BLOCKLEN.
    symmetry. apply (Nat.div_unique (len + 15) 16 1 (len - 1)); lia. }
  cbn [cbc_encrypt_loop XorWithIv]. split; [|done].
  rewrite (mem_read_ub input) by (unfold BLOCKLEN; lia). done.
Qed.

Lemma AES_CBC_partial_block_undefined_witness :
  AES_CBC_encrypt_buffer (replicate 5 0) (replicate 5 1) 5 (Some (replicate 16 1)) (Some (replicate 16 2))
    = Undefined OobRead /\
  AES_CBC_encrypt_buffer (replicate 5 0) (replicate 5 1) 5 (Some (replicate 16 1)) None
    = Undefined NullDeref.
Proof.
  apply (AES_CBC_partial_block_undefined (replicate 5 1) (replicate 5 0) (replicate 16 1)
           (replicate 16 2) 5); cbn; lia.
Defined.

#[global] Opaque KeyExpansion Cipher InvCipher ecb_enc ecb_dec.

End Aes.
