(* ===== verification/AesFips.v ===== *)
(** * The cipher against FIPS-197

    The standard's definitions, written from its text: the field GF(2^8) as
    polynomials modulo x^8+x^4+x^3+x+1, the substitution box as an inverse
    followed by an affine map, the state as a matrix of rows and columns, the key
    schedule as a sequence of words.  The code of [Aes] computes these functions,
    for each of the three key sizes. *)

From stdpp Require Import sets.
From S2P Require Import Prelude Aes.
Open Scope Z_scope.

Module AesFips.
Import Aes.

(** ** The field (section 4) *)

(** The product of two polynomials over GF(2), bit by bit. *)
Definition poly_mul (a b : Z) : Z :=
  foldl (fun acc n => if Z.testbit b (Z.of_nat n) then Z.lxor acc (Z.shiftl a (Z.of_nat n)) else acc) 0 (seq 0 8).

(** The remainder modulo x^8+x^4+x^3+x+1 of a polynomial of degree at most 14. *)
Definition poly_mod (a : Z) : Z :=
  foldl (fun a n => if Z.testbit a (Z.of_nat (8 + n)) then Z.lxor a (Z.shiftl 283 (Z.of_nat n)) else a) a (rev (seq 0 7)).

Definition gf_mul (a b : Z) : Z := poly_mod (poly_mul a b).

Fixpoint gf_pow (x : Z) (n : nat) : Z :=
  match n with O => 1 | S n => gf_mul x (gf_pow x n) end.

(** The inverse of a byte other than 0 is its 254th power. *)
Definition gf_inv (x : Z) : Z := gf_pow x 254.

(** ** The transformations (section 5) *)

(** Bit [i] of the affine map is b_i + b_(i+4) + b_(i+5) + b_(i+6) + b_(i+7) + c_i,
    indices modulo 8, with c = {63}. *)
Definition affine_bit (b : Z) (i : nat) : bool :=
  foldl xorb (Z.testbit 99 (Z.of_nat i))
    (map (fun k => Z.testbit b (Z.of_nat ((i + k) mod 8))) [0; 4; 5; 6; 7])%nat.

Definition of_bits (f : nat -> bool) : Z :=
  foldl (fun acc i => acc + if f i then 2 ^ Z.of_nat i else 0) 0 (seq 0 8).

Definition sub_byte (b : Z) : Z := of_bits (affine_bit (gf_inv b)).

(** The inverse of a function on bytes, by search. *)
Definition inverse_of (f : Z -> Z) (b : Z) : Z := default 0 (list_find (fun x => f x = b) all_bytes ≫= fun p => Some p.2).

Definition inv_sub_byte : Z -> Z := inverse_of sub_byte.

(** The state: [s r c] is the byte of row [r] and column [c]; the input is read
    column by column. *)
Definition matrix := nat -> nat -> Z.
Definition to_matrix (s : bytes) : matrix := fun r c => nth (r + 4 * c) s 0.
Definition of_matrix (m : matrix) : bytes := map (fun n => m (n mod 4)%nat (n / 4)%nat) (seq 0 16).

Definition sub_bytes (m : matrix) : matrix := fun r c => sub_byte (m r c).
Definition inv_sub_bytes (m : matrix) : matrix := fun r c => inv_sub_byte (m r c).
Definition shift_rows (m : matrix) : matrix := fun r c => m r ((c + r) mod 4)%nat.
Definition inv_shift_rows (m : matrix) : matrix := fun r c => m r ((c + (4 - r)) mod 4)%nat.

(** Columns as polynomials over GF(2^8), multiplied modulo x^4+1 by the
    polynomial with the coefficients [a]. *)
Definition mul_column (a : list Z) (m : matrix) : matrix := fun r c =>
  foldl Z.lxor 0 (map (fun k => gf_mul (nth ((r + (4 - k)) mod 4) a 0) (m k c)) (seq 0 4)).

Definition mix_columns : matrix -> matrix := mul_column [2; 1; 1; 3].
Definition inv_mix_columns : matrix -> matrix := mul_column [14; 9; 13; 11].

Definition word := bytes.
Definition add_round_key (w : list word) (round : nat) (m : matrix) : matrix := fun r c =>
  Z.lxor (m r c) (nth r (nth (round * 4 + c) w []) 0).

(** ** The key schedule (section 5.2) *)

Definition xor_word (a b : word) : word := zip_with Z.lxor a b.
Definition rot_word (w : word) : word := drop 1 w ++ take 1 w.
Definition sub_word (w : word) : word := map sub_byte w.
Definition rcon (i : nat) : word := [gf_pow 2 (i - 1); 0; 0; 0].

Section Standard.
(** The number of words in a key and the number of rounds. *)
Context (nk nr : nat).

Definition next_word (w : list word) : word :=
  let i := length w in
  let temp := nth (i - 1) w [] in
  let temp :=
    if decide (i mod nk = 0)%nat then xor_word (sub_word (rot_word temp)) (rcon (i / nk))
    else if decide (6 < nk /\ i mod nk = 4)%nat then sub_word temp
    else temp in
  xor_word (nth (i - nk) w []) temp.

Fixpoint expand (n : nat) (w : list word) : list word :=
  match n with O => w | S n => expand n (w ++ [next_word w]) end.

Definition key_words (key : bytes) : list word := map (fun i => take 4 (drop (4 * i) key)) (seq 0 nk).
Definition key_schedule (key : bytes) : list word := expand (4 * (nr + 1) - nk) (key_words key).

(** ** The ciphers (figures 5 and 12) *)

Definition cipher (w : list word) (m : matrix) : matrix :=
  let m := add_round_key w 0 m in
  let m := foldl (fun m round => add_round_key w round (mix_columns (shift_rows (sub_bytes m)))) m (seq 1 (nr - 1)) in
  add_round_key w nr (shift_rows (sub_bytes m)).

Definition inv_cipher (w : list word) (m : matrix) : matrix :=
  let m := add_round_key w nr m in
  let m := foldl (fun m round => inv_mix_columns (add_round_key w round (inv_sub_bytes (inv_shift_rows m)))) m
             (rev (seq 1 (nr - 1))) in
  add_round_key w 0 (inv_sub_bytes (inv_shift_rows m)).

End Standard.

(** ** States that agree *)

(** Two matrices with the same four rows and columns. *)
Definition meq (m m' : matrix) : Prop := forall r c, (r < 4)%nat -> (c < 4)%nat -> m r c = m' r c.

#[global] Instance meq_equiv : Equivalence meq.
Proof.
  split.
  - by intros m r c.
  - intros m m' H r c Hr Hc. symmetry. by apply H.
  - intros m1 m2 m3 H1 H2 r c Hr Hc. etrans; [by apply H1|by apply H2].
Qed.

#[global] Instance sub_bytes_proper : Proper (meq ==> meq) sub_bytes.
Proof. intros m m' H r c Hr Hc. unfold sub_bytes. by rewrite H. Qed.
#[global] Instance inv_sub_bytes_proper : Proper (meq ==> meq) inv_sub_bytes.
Proof. intros m m' H r c Hr Hc. unfold inv_sub_bytes. by rewrite H. Qed.
#[global] Instance shift_rows_proper : Proper (meq ==> meq) shift_rows.
Proof. intros m m' H r c Hr Hc. apply H; [done|]. by apply Nat.mod_upper_bound. Qed.
#[global] Instance inv_shift_rows_proper : Proper (meq ==> meq) inv_shift_rows.
Proof. intros m m' H r c Hr Hc. apply H; [done|]. by apply Nat.mod_upper_bound. Qed.
#[global] Instance mul_column_proper a : Proper (meq ==> meq) (mul_column a).
Proof.
  intros m m' H r c Hr Hc. unfold mul_column. cbn [seq map]. by rewrite !H by lia.
Qed.
#[global] Instance add_round_key_proper w round : Proper (meq ==> meq) (add_round_key w round).
Proof. intros m m' H r c Hr Hc. unfold add_round_key. by rewrite H. Qed.

Lemma of_matrix_proper m m' : meq m m' -> of_matrix m = of_matrix m'.
Proof. intros H. unfold of_matrix. cbn -[Nat.div Nat.modulo]. repeat f_equal; apply H; cbn; lia. Qed.

Lemma of_to_matrix s : length s = 16%nat -> of_matrix (to_matrix s) = s.
Proof. intros Hs. split16 s. reflexivity. Qed.

(** ** The tables and products of the code *)

Lemma sub_byte_table b : is_byte b -> getSBoxValue b = sub_byte b.
Proof. revert b. apply all_bytes_spec. apply (bool_decide_unpack _). vm_compute. exact I. Qed.

Lemma sbox_two_sided b : is_byte b -> getSBoxValue (getSBoxInvert b) = b.
Proof. revert b. apply all_bytes_spec. apply (bool_decide_unpack _). vm_compute. exact I. Qed.

Lemma elem_of_all_bytes b : b ∈ all_bytes <-> is_byte b.
Proof.
  unfold all_bytes, is_byte. rewrite list_elem_of_fmap. setoid_rewrite elem_of_seq. split.
  - intros (n & -> & Hn). lia.
  - intros Hb. exists (Z.to_nat b). lia.
Qed.

Lemma inverse_of_spec f b x :
  (forall y, is_byte y -> f y = b -> y = x) -> is_byte x -> f x = b -> inverse_of f b = x.
Proof.
  intros Hu Hx Hf. unfold inverse_of. destruct (list_find _ all_bytes) as [[i y]|] eqn:E; cbn.
  - apply list_find_Some in E as (Hl & Hy & _). apply Hu; [|done].
    apply elem_of_all_bytes. by eapply list_elem_of_lookup_2.
  - apply list_find_None in E. rewrite Forall_forall in E. exfalso. apply (E x); [|done].
    by apply elem_of_all_bytes.
Qed.

Lemma inv_sub_byte_table b : is_byte b -> getSBoxInvert b = inv_sub_byte b.
Proof.
  intros Hb. symmetry. apply inverse_of_spec; [|by apply rsbox_byte|].
  - intros y Hy E. rewrite <- sub_byte_table in E by done. rewrite <- E. by rewrite sbox_inverse.
  - rewrite <- sub_byte_table by (by apply rsbox_byte). by apply sbox_two_sided.
Qed.

(** The constants of the two column polynomials. *)
Lemma gf_products x : is_byte x ->
  gf_mul 1 x = x /\ gf_mul 2 x = xtime x /\ gf_mul 3 x = Z.lxor (xtime x) x /\
  gf_mul 9 x = Multiply x 9 /\ gf_mul 11 x = Multiply x 11 /\
  gf_mul 13 x = Multiply x 13 /\ gf_mul 14 x = Multiply x 14.
Proof. revert x. apply all_bytes_spec. apply (bool_decide_unpack _). vm_compute. exact I. Qed.

Lemma Multiply_byte x k : is_byte x -> k ∈ [9; 11; 13; 14] -> is_byte (Multiply x k).
Proof.
  intros Hx Hk. rewrite !elem_of_cons in Hk.
  destruct Hk as [->|[->|[->|[->|Hk]]]];
    rewrite ?Multiply_9, ?Multiply_11, ?Multiply_13, ?Multiply_14; auto 6 using lxor_byte, xtime_byte.
  by apply elem_of_nil in Hk.
Qed.

#[global] Opaque sub_byte inv_sub_byte gf_mul gf_pow.

(** ** The transformations of the code *)

Lemma nth_map16 f s r c : length s = 16%nat -> (r < 4)%nat -> (c < 4)%nat ->
  to_matrix (map f s) r c = f (to_matrix s r c).
Proof. intros Hs Hr Hc. unfold to_matrix. rewrite (nth_indep _ 0 (f 0)) by (rewrite length_map; lia). apply map_nth. Qed.

Lemma to_matrix_byte s r c : wf_bytes s -> is_byte (to_matrix s r c).
Proof. intros. by apply nth_byte. Qed.

Lemma SubBytes_fips s : st_wf s -> meq (to_matrix (SubBytes s)) (sub_bytes (to_matrix s)).
Proof.
  intros [Hl Hs] r c Hr Hc. rewrite SubBytes_map, nth_map16 by done.
  apply sub_byte_table. by apply to_matrix_byte.
Qed.

Lemma InvSubBytes_fips s : st_wf s -> meq (to_matrix (InvSubBytes s)) (inv_sub_bytes (to_matrix s)).
Proof.
  intros [Hl Hs] r c Hr Hc. rewrite InvSubBytes_map, nth_map16 by done.
  apply inv_sub_byte_table. by apply to_matrix_byte.
Qed.

(** Each of the sixteen positions. *)
Ltac positions r c :=
  destruct r as [|[|[|[|r]]]]; [..|lia]; (destruct c as [|[|[|[|c]]]]; [..|lia]).

Lemma ShiftRows_fips s : length s = 16%nat -> meq (to_matrix (ShiftRows s)) (shift_rows (to_matrix s)).
Proof. intros Hl r c Hr Hc. split16 s. positions r c; reflexivity. Qed.

Lemma InvShiftRows_fips s : length s = 16%nat -> meq (to_matrix (InvShiftRows s)) (inv_shift_rows (to_matrix s)).
Proof. intros Hl r c Hr Hc. split16 s. positions r c; reflexivity. Qed.

(** One column of the state under both definitions. *)
Lemma mixcol_fips a b c d : is_byte a -> is_byte b -> is_byte c -> is_byte d ->
  mixcol a b c d = map (fun r => foldl Z.lxor 0 (map (fun k =>
    gf_mul (nth ((r + (4 - k)) mod 4) [2; 1; 1; 3] 0) (nth k [a; b; c; d] 0)) (seq 0 4))) (seq 0 4).
Proof.
  intros Ha Hb Hc Hd. unfold mixcol. rewrite !u8_id by auto 6 using lxor_byte, xtime_byte.
  destruct (gf_products a Ha) as (A1 & A2 & A3 & _), (gf_products b Hb) as (B1 & B2 & B3 & _),
    (gf_products c Hc) as (C1 & C2 & C3 & _), (gf_products d Hd) as (D1 & D2 & D3 & _).
  cbn [seq map nth foldl Nat.add Nat.sub Nat.modulo Nat.divmod fst snd].
  rewrite A1, A2, A3, B1, B2, B3, C1, C2, C3, D1, D2, D3, !xtime_lxor, !Z.lxor_0_l.
  repeat (apply (f_equal2 cons); [xor_cancel|]). reflexivity.
Qed.

Lemma invmixcol_fips a b c d : is_byte a -> is_byte b -> is_byte c -> is_byte d ->
  invmixcol a b c d = map (fun r => foldl Z.lxor 0 (map (fun k =>
    gf_mul (nth ((r + (4 - k)) mod 4) [14; 9; 13; 11] 0) (nth k [a; b; c; d] 0)) (seq 0 4))) (seq 0 4).
Proof.
  intros Ha Hb Hc Hd. unfold invmixcol.
  rewrite !u8_id by (do 3 (apply lxor_byte; [|apply Multiply_byte; (done || set_solver)]); apply Multiply_byte; (done || set_solver)).
  destruct (gf_products a Ha) as (_ & _ & _ & A1 & A2 & A3 & A4), (gf_products b Hb) as (_ & _ & _ & B1 & B2 & B3 & B4),
    (gf_products c Hc) as (_ & _ & _ & C1 & C2 & C3 & C4), (gf_products d Hd) as (_ & _ & _ & D1 & D2 & D3 & D4).
  cbn [seq map nth foldl Nat.add Nat.sub Nat.modulo Nat.divmod fst snd].
  rewrite A1, A2, A3, A4, B1, B2, B3, B4, C1, C2, C3, C4, D1, D2, D3, D4. by rewrite !Z.lxor_0_l.
Qed.

Lemma columns_fips f p s :
  (forall a b c d, is_byte a -> is_byte b -> is_byte c -> is_byte d ->
     f a b c d = map (fun r => foldl Z.lxor 0 (map (fun k =>
       gf_mul (nth ((r + (4 - k)) mod 4) p 0) (nth k [a; b; c; d] 0)) (seq 0 4))) (seq 0 4)) ->
  st_wf s -> meq (to_matrix (by_columns f s)) (mul_column p (to_matrix s)).
Proof.
  intros Hf [Hl Hs] r c Hr Hc. unfold wf_bytes in Hs. split16 s. rewrite !Forall_cons in Hs. destruct_and! Hs.
  cbn [by_columns]. rewrite !Hf by done. positions r c; cbv -[gf_mul Z.lxor]; reflexivity.
Qed.

Lemma MixColumns_fips s : st_wf s -> meq (to_matrix (MixColumns s)) (mix_columns (to_matrix s)).
Proof. intros Hs. rewrite MixColumns_cols by apply Hs. by apply columns_fips; [apply mixcol_fips|]. Qed.

Lemma InvMixColumns_fips s : st_wf s -> meq (to_matrix (InvMixColumns s)) (inv_mix_columns (to_matrix s)).
Proof. intros Hs. rewrite InvMixColumns_cols by apply Hs. by apply columns_fips; [apply invmixcol_fips|]. Qed.

(** ** Round keys *)

(** The round keys of the code hold the words of the schedule one after another. *)
Definition words (w : list word) : Prop := Forall (buf_wf 4) w.

Lemma words_length w : words w -> length (concat w) = (4 * length w)%nat.
Proof. induction 1 as [|x w [Hx _] Hw IH]; cbn [concat length]; [done|]. rewrite length_app. lia. Qed.

Lemma words_wf w : words w -> wf_bytes (concat w).
Proof. induction 1 as [|x w [_ Hx] Hw IH]; cbn [concat]; [constructor|]. by apply wf_bytes_app. Qed.

Lemma nth_concat w j c : words w -> (c < 4)%nat -> nth (j * 4 + c) (concat w) 0 = nth c (nth j w []) 0.
Proof.
  intros Hw Hc. revert j. induction Hw as [|x w [Hx _] Hw IH]; intros j; cbn [concat].
  - by destruct (j * 4 + c)%nat, j, c.
  - destruct j as [|j]; cbn [nth Nat.mul Nat.add]; [by rewrite app_nth1 by lia|].
    rewrite app_nth2 by lia. rewrite Hx. rewrite <- IH. f_equal. lia.
Qed.

Lemma AddRoundKey_fips w z round s : words w -> (round * 4 + 4 <= length w)%nat -> st_wf s ->
  meq (to_matrix (AddRoundKey (concat w ++ z) round s)) (add_round_key w round (to_matrix s)).
Proof.
  intros Hw Hround [Hl Hs] r c Hr Hc. rewrite AddRoundKey_zip by done.
  pose proof (words_length w Hw). pose proof (words_wf w Hw) as Hb.
  assert (E : nth (r + 4 * c) (round_key (concat w ++ z) round) 0 = nth r (nth (round * 4 + c) w []) 0).
  { unfold round_key. rewrite (nth_indep _ 0 (RoundKey_get (concat w ++ z) (round * 16 + 0))) by (rewrite length_map, length_seq; lia).
    rewrite (map_nth (fun n => RoundKey_get (concat w ++ z) (round * 16 + n))), seq_nth by lia.
    unfold RoundKey_get. rewrite app_nth1 by lia. rewrite <- nth_concat by done. f_equal. lia. }
  unfold add_round_key. rewrite <- E. unfold to_matrix. rewrite !nth_lookup, lookup_zip_with.
  destruct (s !! (r + 4 * c)%nat) as [x|] eqn:Ex; [|apply lookup_ge_None in Ex; lia].
  destruct (round_key _ round !! (r + 4 * c)%nat) as [k|] eqn:Ek; cbn.
  - rewrite u8_id; [done|]. apply lxor_byte.
    + by apply (Forall_lookup_1 _ _ _ _ Hs Ex).
    + rewrite nth_lookup, Ek in E. cbn in E. rewrite E, <- nth_concat by done. by apply nth_byte.
  - apply lookup_ge_None in Ek. revert Ek. unfold round_key. rewrite length_map, length_seq. lia.
Qed.

(** ** The key schedule of the code *)

Section Schedule.
#[local] Transparent KeyExpansion Cipher InvCipher.
Context {B : AesBuild}.

Lemma rcon_table j : (1 <= j <= 10)%nat -> nth j Rcon 0 = gf_pow 2 (j - 1).
Proof. intros Hj. do 11 (destruct j as [|j]; [lia || (vm_compute; reflexivity)|]). lia. Qed.

Lemma Nk_pos : (4 <= Nk)%nat.
Proof. unfold Nk. destruct variant; lia. Qed.

(** The index into [Rcon] stays within the table. *)
Lemma rcon_index i : (Nk <= i < Nb * (Nr + 1))%nat -> (1 <= i / Nk <= 10)%nat.
Proof.
  pose proof Nk_pos. intros Hi. split.
  - apply Nat.div_le_lower_bound; lia.
  - apply Nat.lt_succ_r, Nat.Div0.div_lt_upper_bound. revert Hi. unfold Nb, Nr, Nk. destruct variant; lia.
Qed.

Lemma word_four x : buf_wf 4 x -> exists a b c d, x = [a; b; c; d] /\ is_byte a /\ is_byte b /\ is_byte c /\ is_byte d.
Proof.
  intros [Hl Hw]. do 4 (destruct x as [|? x]; [done|]). destruct x; [|done].
  unfold wf_bytes in Hw. rewrite !Forall_cons in Hw. naive_solver.
Qed.

Lemma nth_word w j : words w -> (j < length w)%nat -> buf_wf 4 (nth j w []).
Proof. intros Hw Hj. unfold words in Hw. rewrite Forall_forall in Hw. apply Hw, list_elem_of_In, nth_In. done. Qed.

Lemma RoundKey_word w z j c : words w -> (j < length w)%nat -> (c < 4)%nat ->
  RoundKey_get (concat w ++ z) (j * 4 + c) = nth c (nth j w []) 0.
Proof.
  intros Hw Hj Hc. unfold RoundKey_get. pose proof (words_length w Hw).
  rewrite app_nth1 by lia. by apply nth_concat.
Qed.

(** What the loop adds to the previous word before storing the next one. *)
Definition code_temp (i : nat) (x : word) : word :=
  let x := if (i mod Nk =? 0)%nat then
    match map getSBoxValue (rot_word x) with
    | t0 :: l => u8 (Z.lxor t0 (nth (i / Nk) Rcon 0)) :: l
    | [] => [] end else x in
  match variant with
  | AES256 => if (i mod Nk =? 4)%nat then map getSBoxValue x else x
  | _ => x
  end.

Lemma map_table x : wf_bytes x -> map getSBoxValue x = sub_word x.
Proof. induction 1 as [|b x Hb Hx IH]; [done|]. cbn. by rewrite IH, sub_byte_table. Qed.

Lemma sub_word_wf x : buf_wf 4 x -> buf_wf 4 (sub_word x).
Proof.
  intros [Hl Hw]. rewrite <- map_table by done. split; [by rewrite length_map|].
  unfold wf_bytes. rewrite Forall_fmap. eapply Forall_impl; [exact Hw|]. apply sbox_byte.
Qed.

(** The standard's step, for the key sizes of the code. *)
Definition fips_temp (i : nat) (x : word) : word :=
  if decide (i mod Nk = 0)%nat then xor_word (sub_word (rot_word x)) (rcon (i / Nk))
  else if decide (6 < Nk /\ i mod Nk = 4)%nat then sub_word x else x.

Lemma rot_sub_fips i x : buf_wf 4 x -> (Nk <= i < Nb * (Nr + 1))%nat ->
  match map getSBoxValue (rot_word x) with
  | t0 :: l => u8 (Z.lxor t0 (nth (i / Nk) Rcon 0)) :: l
  | [] => [] end = xor_word (sub_word (rot_word x)) (rcon (i / Nk)) /\
  buf_wf 4 (xor_word (sub_word (rot_word x)) (rcon (i / Nk))).
Proof.
  intros Hx Hi. destruct (word_four x Hx) as (a & b & c & d & -> & Ha & Hb & Hc & Hd).
  assert (Hj := rcon_index i Hi). unfold rcon. rewrite <- (rcon_table (i / Nk)) by done.
  assert (Hrc : is_byte (nth (i / Nk) Rcon 0)) by (apply nth_byte, (bool_decide_unpack _); vm_compute; exact I).
  assert (Hs := fun y Hy => eq_ind _ is_byte (sbox_byte y Hy) _ (sub_byte_table y Hy)).
  cbn [rot_word drop take app map xor_word sub_word zip_with]. rewrite !Z.lxor_0_r, !sub_byte_table by done.
  rewrite u8_id by auto using lxor_byte. split; [done|]. split; [done|].
  do 4 (apply Forall_cons; split; [auto using lxor_byte|]). constructor.
Qed.

Lemma code_temp_fips i x : buf_wf 4 x -> (Nk <= i < Nb * (Nr + 1))%nat ->
  code_temp i x = fips_temp i x /\ buf_wf 4 (fips_temp i x).
Proof.
  intros Hx Hi. unfold code_temp, fips_temp. destruct (rot_sub_fips i x Hx Hi) as [E Hw].
  destruct (Nat.eqb_spec (i mod Nk) 0) as [E0|E0].
  - rewrite decide_True by done. rewrite E. split; [|done].
    destruct variant; try done. by rewrite E0.
  - rewrite decide_False by done. unfold Nk in *. destruct variant eqn:Ev.
    1,2: rewrite decide_False by lia; done.
    destruct (Nat.eqb_spec (i mod 8) 4).
    + rewrite decide_True by lia. rewrite map_table by apply Hx. split; [done|by apply sub_word_wf].
    + rewrite decide_False by lia. done.
Qed.

(** Four bytes stored one after another behind the words. *)
Lemma store_word (L z : bytes) (v0 v1 v2 v3 : Z) n : length L = n -> (4 <= length z)%nat ->
  <[(n + 3)%nat := v3]> (<[(n + 2)%nat := v2]> (<[(n + 1)%nat := v1]> (<[(n + 0)%nat := v0]> (L ++ z))))
  = L ++ [v0; v1; v2; v3] ++ drop 4 z.
Proof.
  intros <- Hz. do 4 (destruct z as [|? z]; [cbn in Hz; lia|]). by rewrite !insert_app_r.
Qed.

Lemma RoundKey_insert rk i v n : (n < i)%nat -> RoundKey_get (<[i := v]> rk) n = RoundKey_get rk n.
Proof. intros. unfold RoundKey_get. rewrite !nth_lookup, list_lookup_insert_ne by lia. done. Qed.

(** One iteration of the loop, given the words it reads. *)
Lemma expand_word_run rk i t0 t1 t2 t3 : (Nk <= i)%nat ->
  code_temp i (map (fun c => RoundKey_get rk ((i - 1) * 4 + c)) (seq 0 4)) = [t0; t1; t2; t3] ->
  let q c t := u8 (Z.lxor (RoundKey_get rk ((i - Nk) * 4 + c)) t) in
  expand_word rk i =
    <[(i * 4 + 3)%nat := q 3%nat t3]> (<[(i * 4 + 2)%nat := q 2%nat t2]>
      (<[(i * 4 + 1)%nat := q 1%nat t1]> (<[(i * 4 + 0)%nat := q 0%nat t0]> rk))).
Proof.
  intros Hi Ht q. pose proof Nk_pos.
  assert (E : forall T, code_temp i (map (fun c => RoundKey_get rk ((i - 1) * 4 + c)) (seq 0 4)) = [T.1.1.1; T.1.1.2; T.1.2; T.2] ->
    T = (t0, t1, t2, t3)) by (intros [[[x0 x1] x2] x3]; rewrite Ht; cbn; congruence).
  unfold expand_word. cbv zeta.
  match goal with |- context [match ?T with pair _ _ => _ end] => rewrite (E T) end.
  - rewrite !RoundKey_insert by lia. reflexivity.
  - unfold code_temp. cbn [seq map rot_word drop take app].
    destruct (i mod Nk =? 0)%nat, variant; try done; by destruct (i mod Nk =? 4)%nat.
Qed.

(** It appends the standard's next word. *)
Lemma expand_word_fips w z : words w -> (4 <= length z)%nat -> (Nk <= length w < Nb * (Nr + 1))%nat ->
  expand_word (concat w ++ z) (length w) = concat (w ++ [next_word Nk w]) ++ drop 4 z /\ buf_wf 4 (next_word Nk w).
Proof.
  intros Hw Hz Hi. set (i := length w). pose proof Nk_pos as HNk.
  assert (Hp : buf_wf 4 (nth (i - 1) w [])) by (apply nth_word; [done|lia]).
  assert (Hq : buf_wf 4 (nth (i - Nk) w [])) by (apply nth_word; [done|lia]).
  destruct (code_temp_fips i _ Hp Hi) as [E Ht]. change (next_word Nk w)
    with (xor_word (nth (i - Nk) w []) (fips_temp i (nth (i - 1) w []))).
  destruct (word_four _ Ht) as (t0 & t1 & t2 & t3 & Et & Ht0 & Ht1 & Ht2 & Ht3).
  rewrite (expand_word_run _ _ t0 t1 t2 t3).
  - rewrite !RoundKey_word by (done || lia). rewrite Et.
    destruct (word_four _ Hq) as (q0 & q1 & q2 & q3 & -> & Hq0 & Hq1 & Hq2 & Hq3). cbn [nth xor_word zip_with].
    rewrite !u8_id by auto using lxor_byte. split.
    + rewrite store_word by (done || (rewrite words_length by done; lia)).
      rewrite concat_app. cbn [concat]. by rewrite app_nil_r, <- app_assoc.
    + split; [done|]. do 4 (apply Forall_cons; split; [auto using lxor_byte|]). constructor.
  - lia.
  - rewrite <- Et, <- E. f_equal. destruct (word_four _ Hp) as (p0 & p1 & p2 & p3 & Ep & _).
    cbn [seq map]. rewrite !RoundKey_word by (done || lia). by rewrite Ep.
Qed.

Lemma expand_loop n w z :
  words w -> (Nk <= length w)%nat -> (length w + n <= Nb * (Nr + 1))%nat -> (4 * n <= length z)%nat ->
  foldl expand_word (concat w ++ z) (seq (length w) n) = concat (expand Nk n w) ++ drop (4 * n) z /\
  words (expand Nk n w) /\ length (expand Nk n w) = (length w + n)%nat.
Proof.
  revert w z. induction n as [|n IH]; intros w z Hw Hk Hn Hz; cbn [seq foldl expand].
  - rewrite Nat.mul_0_r, drop_0, Nat.add_0_r. done.
  - destruct (expand_word_fips w z) as [E Hx]; [done|lia|lia|]. rewrite E.
    assert (L : length (w ++ [next_word Nk w]) = S (length w)) by (rewrite length_app; cbn; lia).
    rewrite <- L. destruct (IH (w ++ [next_word Nk w]) (drop 4 z)) as (-> & H2 & H3); try lia.
    + apply Forall_app. split; [done|]. constructor; [done|constructor].
    + rewrite length_drop. lia.
    + rewrite drop_drop. split_and!; [|done|lia]. do 2 f_equal. lia.
Qed.

Lemma copy_word key L z i : length L = (i * 4)%nat -> (i * 4 + 4 <= length key)%nat -> (4 <= length z)%nat ->
  copy_key_word key (L ++ z) i = L ++ take 4 (drop (4 * i) key) ++ drop 4 z.
Proof.
  intros HL Hk Hz. unfold copy_key_word. cbn [seq foldl]. rewrite store_word by done.
  do 2 f_equal. rewrite <- !nth_skipn, (Nat.mul_comm 4 i).
  assert (Hd : (4 <= length (drop (i * 4) key))%nat) by (rewrite length_drop; lia).
  by destruct (drop (i * 4) key) as [|? [|? [|? [|? ?]]]]; cbn in Hd; try lia.
Qed.

Lemma copy_loop key z n : (4 * n <= length key)%nat -> (4 * n <= length z)%nat ->
  foldl (copy_key_word key) z (seq 0 n) = concat (key_words n key) ++ drop (4 * n) z /\
  length (concat (key_words n key)) = (n * 4)%nat.
Proof.
  intros Hk Hz. induction n as [|n IH]; [by rewrite drop_0|].
  destruct IH as [IH L]; [lia..|]. unfold key_words in *.
  rewrite seq_S, foldl_app, map_app, concat_app, IH. cbn [seq foldl map concat Nat.add].
  rewrite copy_word by (rewrite ?length_drop; lia). rewrite app_nil_r, drop_drop, <- app_assoc. split.
  - do 3 f_equal. lia.
  - rewrite length_app, L, length_take, length_drop. lia.
Qed.

Lemma key_words_ok n key : (4 * n <= length key)%nat -> wf_bytes key -> words (key_words n key) /\ length (key_words n key) = n.
Proof.
  intros Hk Hw. unfold key_words, words. rewrite length_map, length_seq. split; [|done].
  apply Forall_fmap, Forall_forall. intros i [_ Hi]%elem_of_seq. split; [|auto with bytes].
  rewrite length_take, length_drop. lia.
Qed.

(** The round keys of the code are the words of the standard's schedule. *)
Lemma KeyExpansion_fips key : length key = KEYLEN -> wf_bytes key ->
  KeyExpansion key = concat (key_schedule Nk Nr key) /\
  words (key_schedule Nk Nr key) /\ length (key_schedule Nk Nr key) = (Nb * (Nr + 1))%nat.
Proof.
  intros Hl Hw. assert (HK : KEYLEN = (4 * Nk)%nat) by (unfold KEYLEN, Nk; by destruct variant).
  assert (HE : keyExpSize = (4 * (Nb * (Nr + 1)))%nat) by (unfold keyExpSize, Nb, Nr; by destruct variant).
  assert (HN : (Nk <= Nb * (Nr + 1))%nat) by (unfold Nk, Nb, Nr; destruct variant; lia).
  destruct (key_words_ok Nk key) as [H1 H2]; [lia|done|].
  assert (Hz : (4 * Nk <= length (replicate keyExpSize 0%Z))%nat) by (rewrite length_replicate; lia).
  unfold KeyExpansion, key_schedule. rewrite (proj1 (copy_loop key _ Nk ltac:(lia) Hz)).
  destruct (expand_loop (Nb * (Nr + 1) - Nk) (key_words Nk key) (drop (4 * Nk) (replicate keyExpSize 0)))
    as (E & H3 & H4); [done|lia|lia|rewrite length_drop, length_replicate; lia|].
  rewrite H2 in E, H4. rewrite E. split_and!; [|exact H3|].
  - rewrite drop_drop, skipn_all2, app_nil_r by (rewrite length_replicate; lia). done.
  - etrans; [exact H4|lia].
Qed.

(** ** The ciphers of the code *)

Section Rounds.
Context (w : list word) (Hw : words w) (Hlen : length w = (Nb * (Nr + 1))%nat).

Lemma AddRoundKey_round round s : (round <= Nr)%nat -> st_wf s ->
  meq (to_matrix (AddRoundKey (concat w) round s)) (add_round_key w round (to_matrix s)).
Proof using Hw Hlen.
  intros Hr Hs. rewrite <- (app_nil_r (concat w)). apply AddRoundKey_fips; [done| |done].
  rewrite Hlen. unfold Nb. lia.
Qed.

(** A loop of transformations that agree keeps the states in agreement. *)
Lemma rounds_agree (f : bytes -> nat -> bytes) (g : matrix -> nat -> matrix) l s m :
  (forall s r, st_wf s -> st_wf (f s r)) ->
  (forall s r m, r ∈ l -> st_wf s -> meq (to_matrix s) m -> meq (to_matrix (f s r)) (g m r)) ->
  st_wf s -> meq (to_matrix s) m -> meq (to_matrix (foldl f s l)) (foldl g m l).
Proof.
  intros Hf. revert s m. induction l as [|r l IH]; intros s m Hg Hs Hm; [done|]. cbn [foldl].
  apply IH; [|by apply Hf|]. { intros. apply Hg; [set_solver|done..]. }
  apply Hg; [set_solver|done..].
Qed.

Lemma Cipher_fips s : st_wf s -> meq (to_matrix (Cipher (concat w) s)) (cipher Nr w (to_matrix s)).
Proof using Hw Hlen.
  intros Hs. unfold Cipher, cipher. set (t := foldl _ _ _).
  assert (Ht : st_wf t) by (apply foldl_wf; [apply round_step_wf|auto with aes]).
  rewrite AddRoundKey_round by (lia || auto with aes).
  rewrite ShiftRows_fips by apply (SubBytes_wf _ Ht). rewrite SubBytes_fips by done.
  apply add_round_key_proper, shift_rows_proper, sub_bytes_proper. unfold t.
  apply rounds_agree; [apply round_step_wf| |auto with aes|by apply AddRoundKey_round; [lia|]].
  intros s' r m Hr Hs' Hm. apply elem_of_seq in Hr. unfold round_step.
  rewrite AddRoundKey_round by (lia || auto with aes). rewrite MixColumns_fips by auto with aes.
  rewrite ShiftRows_fips by apply (SubBytes_wf _ Hs'). rewrite SubBytes_fips by done. by rewrite Hm.
Qed.

Lemma InvCipher_fips s : st_wf s -> meq (to_matrix (InvCipher (concat w) s)) (inv_cipher Nr w (to_matrix s)).
Proof using Hw Hlen.
  intros Hs. unfold InvCipher, inv_cipher. set (t := foldl _ _ _).
  assert (Ht : st_wf t) by (apply foldl_wf; [apply inv_round_step_wf|auto with aes]).
  rewrite AddRoundKey_round by (lia || auto with aes).
  rewrite InvSubBytes_fips by auto with aes. rewrite InvShiftRows_fips by apply Ht.
  apply add_round_key_proper, inv_sub_bytes_proper, inv_shift_rows_proper. unfold t.
  apply rounds_agree; [apply inv_round_step_wf| |auto with aes|by apply AddRoundKey_round; [lia|]].
  intros s' r m Hr Hs' Hm. apply list_elem_of_In, in_rev, list_elem_of_In, elem_of_seq in Hr. unfold inv_round_step.
  rewrite InvMixColumns_fips by auto with aes. rewrite AddRoundKey_round by (lia || auto with aes).
  rewrite InvSubBytes_fips by auto with aes. rewrite InvShiftRows_fips by apply Hs'. by rewrite Hm.
Qed.

End Rounds.

End Schedule.

(** C21: the cipher of the code, key expansion, encryption and decryption of a
    block, is the one of FIPS-197, for each of the three key sizes: the expanded
    key is the standard's key schedule, and both ciphers compute the standard's
    functions on the state. *)
Theorem aes_is_fips {B : AesBuild} (key s : bytes) :
  length key = KEYLEN -> wf_bytes key -> st_wf s ->
  let w := key_schedule Nk Nr key in
  KeyExpansion key = concat w /\
  Cipher (KeyExpansion key) s = of_matrix (cipher Nr w (to_matrix s)) /\
  InvCipher (KeyExpansion key) s = of_matrix (inv_cipher Nr w (to_matrix s)).
Proof.
  intros Hl Hk Hs w. destruct (KeyExpansion_fips key Hl Hk) as (E & Hw & Hn). fold w in E, Hw, Hn.
  rewrite E. split; [done|]. split.
  - rewrite <- (of_to_matrix (Cipher _ _)) by (apply Cipher_length, Hs). by apply of_matrix_proper, Cipher_fips.
  - rewrite <- (of_to_matrix (InvCipher _ _)) by (apply InvCipher_length, Hs). by apply of_matrix_proper, InvCipher_fips.
Qed.

(** The example vectors of the standard, appendix C: one block under the keys
    00 01 02 ... of each size. *)
Definition seq_key (n : nat) : bytes := map Z.of_nat (seq 0 n).
Definition sample_block : bytes := map (fun n => 17 * Z.of_nat n) (seq 0 16).

Example fips_vectors :
  Cipher (B := AES128) (KeyExpansion (B := AES128) (seq_key 16)) sample_block
    = [105;196;224;216;106;123;4;48;216;205;183;128;112;180;197;90] /\
  Cipher (B := AES192) (KeyExpansion (B := AES192) (seq_key 24)) sample_block
    = [221;169;124;164;134;76;223;224;110;175;112;160;236;13;113;145] /\
  Cipher (B := AES256) (KeyExpansion (B := AES256) (seq_key 32)) sample_block
    = [142;162;183;202;81;103;69;191;234;252;73;144;75;73;96;137].
Proof. split_and!; vm_compute; reflexivity. Qed.

Lemma aes_is_fips_witness :
  of_matrix (cipher (Nr (B := AES256)) (key_schedule (Nk (B := AES256)) (Nr (B := AES256)) (seq_key 32)) (to_matrix sample_block))
    = [142;162;183;202;81;103;69;191;234;252;73;144;75;73;96;137].
Proof.
  assert (Hk : wf_bytes (seq_key 32)) by (apply (bool_decide_unpack _); vm_compute; exact I).
  assert (Hs : st_wf sample_block) by (split; [reflexivity|]; apply (bool_decide_unpack _); vm_compute; exact I).
  destruct (aes_is_fips (B := AES256) (seq_key 32) sample_block eq_refl Hk Hs) as (_ & E & _).
  rewrite <- E. exact (proj2 (proj2 fips_vectors)).
Defined.

End AesFips.
