(* ===== verification/AesUtil.v ===== *)
(** * Module utilities (module_util/aes.c, module_util/octet_order.c)

    The padding layer over AES-ECB that the [se_proxy] module calls, and the
    byte-order helpers offered to module authors.  Sizes are [size_t], kept as
    integers with the 64-bit wrap-around of the C code; the [length] parameter
    of the ECB functions is a [uint32_t], so sizes passed to them are truncated
    to 32 bits. *)

From S2P Require Import Prelude Aes.

Module AesUtil.
Import Aes.

Definition Q_AES_FLAG_FILL : Z := 0.
Definition Q_AES_FLAG_LESS : Z := 1.

Definition round_up (base mult : Z) : Z := u64 (u64 (base / mult * mult) + mult).
Definition round_down (base mult : Z) : Z := u64 (base / mult * mult).

(** [rkey]: the key padded with zeros, or cut, to sixteen bytes. *)
Definition pad_key (key : bytes) (keylen : Z) : outcome bytes :=
  if keylen <? 16 then
    k ← mem_read key 0 (Z.to_nat keylen);
    Ok (k ++ replicate (16 - Z.to_nat keylen) 0)
  else mem_read key 0 16.

(** [rsrc]: the source followed by zeros and, in the last byte, the padding size. *)
Definition fill_block (src : bytes) (srclen : Z) : outcome bytes :=
  let n := round_up srclen 16 in
  let delta := u8 (n - srclen) in
  let rsrc := replicate (Z.to_nat n) 0 in
  rsrc ← mem_write rsrc (Z.to_nat (n - 1)) [delta];
  s ← mem_read src 0 (Z.to_nat srclen);
  mem_write rsrc 0 s.

Definition AESEncrypt (src key cip : bytes) (srclen keylen flag : Z) : outcome bytes :=
  if negb (flag =? 0) then
    rkey ← pad_key key keylen;
    s ← mem_read src 0 (Z.to_nat srclen);
    cip ← mem_write cip 0 s;
    AES_ECB_encrypt src rkey cip (Z.to_nat (u32 (round_down srclen 16)))
  else
    rkey ← pad_key key keylen;
    rsrc ← fill_block src srclen;
    AES_ECB_encrypt rsrc rkey cip (Z.to_nat (u32 (round_up srclen 16))).

(** Returns the result buffer and the returned size. *)
Definition AESDecrypt (src key result : bytes) (srclen keylen flag : Z) : outcome (bytes * Z) :=
  if negb (flag =? 0) then
    rkey ← pad_key key keylen;
    s ← mem_read src 0 (Z.to_nat srclen);
    result ← mem_write result 0 s;
    result ← AES_ECB_decrypt src rkey result (Z.to_nat (u32 (round_down srclen 16)));
    Ok (result, srclen)
  else
    rkey ← pad_key key keylen;
    result ← AES_ECB_decrypt src rkey result (Z.to_nat (u32 srclen));
    last ← mem_read result (Z.to_nat (u64 (srclen - 1))) 1;
    Ok (result, u64 (srclen - schar (nth 0 last 0))).

(** ** Byte order *)

(** The bytes of an [n]-byte unsigned integer in the memory of the host. *)
Definition host_bytes (little : bool) (n : nat) (a : Z) : bytes :=
  if little then le_bytes n a else be_bytes n a.
Definition host_val (little : bool) (l : bytes) : Z :=
  if little then le_val l else be_val l.

Definition check_host_octet_order (little : bool) : Z :=
  nth 0 (host_bytes little 4 16776961) 0.

(** One iteration of the swapping loop. *)
Definition swap_octets (len : nat) (dst : bytes) (i : nat) : bytes :=
  let tmp := nth i dst 0 in
  let dst := <[i := nth (len - 1 - i) dst 0]> dst in
  <[(len - 1 - i)%nat := tmp]> dst.

Definition host_to_network_octet (little : bool) (dst : bytes) (len : nat) : bytes :=
  if check_host_octet_order little =? 0 then dst
  else foldl (swap_octets len) dst (seq 0 (len / 2)).

Definition network_to_host_octet (little : bool) (dst : bytes) (len : nat) : bytes :=
  host_to_network_octet little dst len.

Definition host_to_network_short (little : bool) (a : Z) : Z :=
  host_val little (host_to_network_octet little (host_bytes little 2 a) 2).
Definition network_to_host_short (little : bool) (a : Z) : Z := host_to_network_short little a.
Definition host_to_network_int (little : bool) (a : Z) : Z :=
  host_val little (host_to_network_octet little (host_bytes little 4 a) 4).
Definition network_to_host_int (little : bool) (a : Z) : Z := host_to_network_int little a.
Definition host_to_network_long (little : bool) (a : Z) : Z :=
  host_val little (host_to_network_octet little (host_bytes little 8 a) 8).
Definition network_to_host_long (little : bool) (a : Z) : Z := host_to_network_long little a.

(** ** Rounding *)

Lemma round_up_spec n :
  0 <= n -> n + 16 < 2 ^ 64 ->
  n < round_up n 16 <= n + 16 /\ round_up n 16 mod 16 = 0 /\ round_up n 16 = (n / 16 + 1) * 16.
Proof.
  intros H0 H1. pose proof (Z.div_mod n 16). pose proof (Z.mod_pos_bound n 16).
  assert (E : round_up n 16 = (n / 16 + 1) * 16).
  { unfold round_up, u64. rewrite (Z.mod_small (n / 16 * 16)) by lia. rewrite Z.mod_small; lia. }
  rewrite E. split; [lia|]. split; [|done]. by rewrite Z.mod_mul.
Qed.

(** ** Keys and padding *)

Definition padded_key (key : bytes) (keylen : Z) : bytes :=
  if keylen <? 16 then take (Z.to_nat keylen) key ++ replicate (Z.to_nat (16 - keylen)) 0
  else take 16 key.

Lemma pad_key_eq key keylen :
  0 <= keylen -> keylen <= Z.of_nat (length key) -> pad_key key keylen = Ok (padded_key key keylen).
Proof.
  intros H0 H1. unfold pad_key, padded_key. destruct (Z.ltb_spec keylen 16).
  - rewrite mem_read_ok by lia. run_ok. rewrite drop_0. do 3 f_equal. lia.
  - rewrite mem_read_ok by lia. by rewrite drop_0.
Qed.

Lemma padded_key_length key keylen :
  0 <= keylen -> keylen <= Z.of_nat (length key) -> length (padded_key key keylen) = 16%nat.
Proof. intros H0 H1. unfold padded_key. destruct (Z.ltb_spec keylen 16); len. Qed.

(** The padded plain text of [n] bytes [src]. *)
Definition padded (src : bytes) : bytes :=
  let n := Z.of_nat (length src) in
  let m := round_up n 16 in
  src ++ replicate (Z.to_nat (m - n - 1)) 0 ++ [m - n].

Lemma padded_length src :
  Z.of_nat (length src) + 16 < 2 ^ 64 ->
  Z.of_nat (length (padded src)) = round_up (Z.of_nat (length src)) 16.
Proof.
  intros H. destruct (round_up_spec (Z.of_nat (length src))) as (H1 & _ & _); [lia..|].
  unfold padded. len.
Qed.

Lemma padded_wf src :
  Z.of_nat (length src) + 16 < 2 ^ 64 -> wf_bytes src -> wf_bytes (padded src).
Proof.
  intros H Hw. destruct (round_up_spec (Z.of_nat (length src))) as (H1 & _ & _); [lia..|].
  unfold padded. rewrite !wf_bytes_app. split; [done|]. split.
  - apply wf_bytes_repeat. unfold is_byte. lia.
  - constructor; [|constructor]. unfold is_byte. lia.
Qed.

Lemma fill_block_eq src :
  Z.of_nat (length src) + 16 < 2 ^ 64 ->
  fill_block src (Z.of_nat (length src)) = Ok (padded src).
Proof.
  intros H. destruct (round_up_spec (Z.of_nat (length src))) as (H1 & _ & _); [lia..|].
  unfold fill_block, padded. set (m := round_up _ 16) in *. set (n := Z.of_nat (length src)) in *.
  replace (replicate (Z.to_nat m) 0)
    with (replicate (Z.to_nat (m - 1)) 0 ++ [0] ++ []).
  2: { rewrite app_nil_r, <- replicate_S_end. f_equal. lia. }
  rewrite (mem_write_mid _ [0]) by len. run_ok.
  replace (Z.to_nat n) with (length src) by lia. rewrite mem_read_all by done. run_ok.
  replace (Z.to_nat (m - 1)) with (length src + Z.to_nat (m - n - 1))%nat by lia.
  rewrite replicate_add, <- app_assoc.
  rewrite (mem_write_head (replicate (length src) 0)) by len.
  rewrite u8_id by (unfold is_byte; lia). by rewrite app_nil_r.
Qed.

(** Only the first [srclen] bytes of the source are read. *)
Lemma AESEncrypt_fill_prefix src key cip srclen keylen :
  0 <= srclen <= Z.of_nat (length src) ->
  AESEncrypt src key cip srclen keylen Q_AES_FLAG_FILL
  = AESEncrypt (take (Z.to_nat srclen) src) key cip srclen keylen Q_AES_FLAG_FILL.
Proof.
  intros H. unfold AESEncrypt, Q_AES_FLAG_FILL, fill_block. cbn [Z.eqb negb].
  rewrite (mem_read_ok src), (mem_read_ok (take _ src)) by len.
  by rewrite !drop_0, take_take, Nat.min_id.
Qed.

Lemma padded_key_prefix key keylen :
  0 <= keylen -> padded_key (take (Z.to_nat keylen) key) keylen = padded_key key keylen.
Proof.
  intros H. unfold padded_key. rewrite !take_take, Nat.min_id.
  destruct (Z.ltb_spec keylen 16); [done|]. by rewrite Nat.min_l by lia.
Qed.

(** Encryption and decryption of whole buffers, in fill mode. *)
Section Fill.
Context (key : bytes) (keylen : Z).
Context (Hk0 : 0 <= keylen) (Hk : keylen <= Z.of_nat (length key)).

Lemma AESEncrypt_fill_eq src cip srclen :
  srclen = Z.of_nat (length src) -> srclen + 16 < 2 ^ 32 ->
  Z.of_nat (length cip) = round_up srclen 16 ->
  AESEncrypt src key cip srclen keylen Q_AES_FLAG_FILL
  = Ok (ecb_enc (padded_key key keylen) (padded src)).
Proof.
  intros -> Hn Hc. unfold AESEncrypt, Q_AES_FLAG_FILL. cbn [Z.eqb negb].
  rewrite pad_key_eq by done. run_ok. rewrite fill_block_eq by lia. run_ok.
  pose proof (padded_length src ltac:(lia)) as Lp.
  destruct (round_up_spec (Z.of_nat (length src))) as (H1 & H2 & H3); [lia..|].
  assert (16 <= round_up (Z.of_nat (length src)) 16).
  { rewrite H3. pose proof (Z.div_pos (Z.of_nat (length src)) 16). lia. }
  rewrite u32_small by lia.
  apply AES_ECB_encrypt_full; [lia|lia|lia|]. by apply padded_key_length.
Qed.

Lemma AESDecrypt_fill_eq src result srclen :
  srclen = Z.of_nat (length src) -> 16 <= srclen < 2 ^ 32 ->
  length result = length src ->
  AESDecrypt src key result srclen keylen Q_AES_FLAG_FILL
  = let p := ecb_dec (padded_key key keylen) src in
    Ok (p, u64 (srclen - schar (nth (Z.to_nat (srclen - 1)) p 0))).
Proof.
  intros -> Hn Hr. unfold AESDecrypt, Q_AES_FLAG_FILL. cbn [Z.eqb negb].
  rewrite pad_key_eq by done. run_ok. rewrite u32_small by lia.
  rewrite Nat2Z.id.
  rewrite AES_ECB_decrypt_full by (try lia; by apply padded_key_length). run_ok.
  set (p := ecb_dec _ src).
  assert (Lp : length p = length src).
  { apply ecb_dec_length. lia. }
  rewrite (u64_small (_ - 1)) by lia.
  rewrite mem_read_ok by lia. run_ok. by rewrite nth_take_drop.
Qed.

Lemma AESDecrypt_fill_inverse src result n :
  Z.of_nat (length src) + 16 < 2 ^ 32 -> wf_bytes src ->
  n = round_up (Z.of_nat (length src)) 16 -> Z.of_nat (length result) = n ->
  AESDecrypt (ecb_enc (padded_key key keylen) (padded src)) key result n keylen Q_AES_FLAG_FILL
  = Ok (padded src, Z.of_nat (length src)).
Proof.
  intros Hn Hw -> Hr.
  pose proof (padded_length src ltac:(lia)) as Lp.
  destruct (round_up_spec (Z.of_nat (length src))) as (H1 & H2 & H3); [lia..|].
  assert (16 <= round_up (Z.of_nat (length src)) 16).
  { rewrite H3. pose proof (Z.div_pos (Z.of_nat (length src)) 16). lia. }
  set (m := round_up _ 16) in *. set (l := Z.of_nat (length src)) in *.
  rewrite AESDecrypt_fill_eq by (rewrite ?ecb_enc_length; lia). cbv zeta.
  rewrite ecb_dec_enc by (lia || (apply padded_wf; [lia|done])).
  assert (Hlast : nth (Z.to_nat (m - 1)) (padded src) 0 = m - l).
  { unfold padded. fold l. fold m. rewrite app_assoc, app_nth2 by len.
    replace (Z.to_nat (m - 1) - _)%nat with 0%nat by len. done. }
  rewrite Hlast. unfold schar. destruct (Z.ltb_spec (m - l) 128); [|lia].
  rewrite u64_small by lia. do 2 f_equal. lia.
Qed.
End Fill.

(** C23: Padded AES round trip. For every source shorter than 2^32 - 16 bytes
    and every key buffer, [AESEncrypt] in fill mode into a buffer of
    [round_up(srclen,16)] bytes succeeds, and [AESDecrypt] of that buffer with
    the same key returns exactly [srclen] and restores the source bytes. *)
Theorem AESEncrypt_Decrypt_fill (src key cip result : bytes) (keylen : Z) :
  wf_bytes src -> Z.of_nat (length src) + 16 < 2 ^ 32 ->
  0 <= keylen <= Z.of_nat (length key) ->
  Z.of_nat (length cip) = round_up (Z.of_nat (length src)) 16 -> length result = length cip ->
  exists c r,
    AESEncrypt src key cip (Z.of_nat (length src)) keylen Q_AES_FLAG_FILL = Ok c /\
    length c = length cip /\
    AESDecrypt c key result (Z.of_nat (length c)) keylen Q_AES_FLAG_FILL
      = Ok (r, Z.of_nat (length src)) /\
    take (length src) r = src.
Proof.
  intros Hw Hn Hk Hc Hr. pose proof (padded_length src ltac:(lia)) as Lp.
  destruct (round_up_spec (Z.of_nat (length src))) as (H1 & H2 & H3); [lia..|].
  assert (16 <= round_up (Z.of_nat (length src)) 16).
  { rewrite H3. pose proof (Z.div_pos (Z.of_nat (length src)) 16). lia. }
  assert (Lc : length (ecb_enc (padded_key key keylen) (padded src)) = length cip)
    by (rewrite ecb_enc_length; lia).
  eexists _, _. split_and!.
  - apply AESEncrypt_fill_eq; (done || lia).
  - exact Lc.
  - rewrite Lc. apply AESDecrypt_fill_inverse; (done || lia).
  - unfold padded. by rewrite take_app_length.
Qed.

Lemma AESEncrypt_Decrypt_fill_witness :
  exists c r,
    AESEncrypt (bytes_of_string "SE_PROXYv1") (bytes_of_string "secret") (replicate 16 0) 10 6 Q_AES_FLAG_FILL = Ok c /\
    length c = 16%nat /\
    AESDecrypt c (bytes_of_string "secret") (replicate 16 0) (Z.of_nat (length c)) 6 Q_AES_FLAG_FILL = Ok (r, 10) /\
    take 10 r = bytes_of_string "SE_PROXYv1".
Proof.
  apply (AESEncrypt_Decrypt_fill (bytes_of_string "SE_PROXYv1") (bytes_of_string "secret")
    (replicate 16 0) (replicate 16 0) 6); try reflexivity; try (cbn; lia).
  apply bytes_of_string_wf.
Defined.

(** ** Byte order *)

Lemma nth_insert (l : bytes) i j v d :
  (i < length l)%nat -> nth j (<[i := v]> l) d = if decide (i = j) then v else nth j l d.
Proof.
  intros Hi. revert i j Hi. induction l as [|x l IH]; intros [|i] [|j] Hi; cbn in *; try lia; try done.
  - rewrite IH by lia. repeat case_decide; (done || lia).
Qed.

(** After [k] iterations the [k] outermost pairs have been exchanged. *)
Lemma swap_octets_prefix (l : bytes) k :
  (k <= length l / 2)%nat ->
  let l' := foldl (swap_octets (length l)) l (seq 0 k) in
  length l' = length l /\
  forall j, (j < length l)%nat ->
    nth j l' 0 = if decide (j < k \/ length l - k <= j)%nat then nth (length l - 1 - j) l 0 else nth j l 0.
Proof.
  induction k as [|k IH]; intros Hk; cbn zeta.
  - split; [done|]. intros j Hj. rewrite decide_False by lia. done.
  - assert (Hb : (k < length l / 2)%nat) by lia.
    assert (H2 : (2 * (length l / 2) <= length l)%nat) by (apply Nat.Div0.mul_div_le).
    destruct IH as [HL HI]; [lia|]. rewrite seq_S, foldl_app. cbn [foldl Nat.add].
    set (l' := foldl _ l (seq 0 k)) in *. unfold swap_octets. split; [len|].
    intros j Hj. rewrite !nth_insert by len. rewrite !HI by lia.
    repeat case_decide; subst; try lia; try done; f_equal; lia.
Qed.

Lemma swap_octets_rev (l : bytes) :
  foldl (swap_octets (length l)) l (seq 0 (length l / 2)) = rev l.
Proof.
  destruct (swap_octets_prefix l (length l / 2)) as [HL HI]; [done|].
  assert (H2 : length l = (2 * (length l / 2) + length l mod 2)%nat) by (apply Nat.div_mod_eq).
  pose proof (Nat.mod_upper_bound (length l) 2).
  apply (nth_ext _ _ 0 0); [len|]. intros j Hj. rewrite HL in Hj.
  rewrite HI by done. rewrite rev_nth by done.
  case_decide; f_equal; lia.
Qed.

Lemma host_to_network_octet_bytes little n a :
  host_to_network_octet little (host_bytes little n a) n = be_bytes n a.
Proof.
  unfold host_to_network_octet. destruct little; [|done].
  change (check_host_octet_order true =? 0) with false. cbv iota.
  rewrite <- (le_bytes_length n a) at 1 3. apply swap_octets_rev.
Qed.

Lemma host_val_bytes little n a :
  0 <= a < 256 ^ Z.of_nat n -> host_val little (host_bytes little n a) = a.
Proof. destruct little; [apply le_val_bytes|apply be_val_bytes]. Qed.

Lemma host_bytes_val little l : wf_bytes l -> host_bytes little (length l) (host_val little l) = l.
Proof.
  intros Hl. destruct little; cbn; [by apply le_bytes_val|].
  unfold be_bytes, be_val. rewrite <- (length_rev l), le_bytes_val by auto with bytes.
  apply rev_involutive.
Qed.

(** Byte-order conversion. On little- and big-endian hosts alike, the
    converted integer has the big-endian (network) representation of the
    argument in memory, and converting it back returns the argument, for the
    16-, 32- and 64-bit functions. *)
Theorem host_to_network_correct (little : bool) (a b c : Z) :
  0 <= a < 2 ^ 16 -> 0 <= b < 2 ^ 32 -> 0 <= c < 2 ^ 64 ->
  (host_bytes little 2 (host_to_network_short little a) = be_bytes 2 a /\
   network_to_host_short little (host_to_network_short little a) = a) /\
  (host_bytes little 4 (host_to_network_int little b) = be_bytes 4 b /\
   network_to_host_int little (host_to_network_int little b) = b) /\
  (host_bytes little 8 (host_to_network_long little c) = be_bytes 8 c /\
   network_to_host_long little (host_to_network_long little c) = c).
Proof.
  assert (H : forall n z, 0 <= z < 256 ^ Z.of_nat n ->
    let h z := host_val little (host_to_network_octet little (host_bytes little n z) n) in
    host_bytes little n (h z) = be_bytes n z /\ h (h z) = z).
  { intros n z Hz. cbv beta zeta. rewrite (host_to_network_octet_bytes little n z).
    assert (E : host_bytes little n (host_val little (be_bytes n z)) = be_bytes n z).
    { rewrite <- (be_bytes_length n z) at 1. apply host_bytes_val, be_bytes_wf. }
    split; [done|]. rewrite host_to_network_octet_bytes.
    destruct little; cbn [host_val host_bytes] in *.
    - unfold be_bytes at 1. rewrite E. unfold be_bytes. rewrite rev_involutive. by apply le_val_bytes.
    - rewrite (be_val_bytes n z) by done. by apply be_val_bytes. }
  intros Ha Hb Hc. split_and!; by apply (H 2%nat) || by apply (H 4%nat) || by apply (H 8%nat).
Qed.

Lemma host_to_network_correct_witness :
  (host_bytes true 2 (host_to_network_short true 80) = be_bytes 2 80 /\
   network_to_host_short true (host_to_network_short true 80) = 80) /\
  (host_bytes true 4 (host_to_network_int true 1234567) = be_bytes 4 1234567 /\
   network_to_host_int true (host_to_network_int true 1234567) = 1234567) /\
  (host_bytes true 8 (host_to_network_long true 1234567) = be_bytes 8 1234567 /\
   network_to_host_long true (host_to_network_long true 1234567) = 1234567).
Proof. apply (host_to_network_correct true 80 1234567 1234567); lia. Defined.

End AesUtil.
