(* ===== verification/ModuleApi.v ===== *)
(** * The module interface (modules/stdafx.h, native/src/module.cc, module-port.hpp)

    The C structures exchanged with a module, the nine functions a module
    exports, the [module_interface] class that loads them, and the promise a
    module makes to the tunnels as a type class.  A pointer to a buffer is
    [Some] of its contents, a null pointer is [None]; the [length] field is
    kept apart from the real size of the buffer, as in C. *)

From S2P Require Import Prelude.

Module ModuleApi.

(** ** Structures *)

Record binary_safe_string := Bss {
  null_terminated : bool;
  bss_length : Z;
  str : option bytes;
}.

Record connect_info := ConnInfo {
  server_ip : bytes;
  server_port : Z;
  passphrase : binary_safe_string;
  connect_fd : Z;
  additional_info : option bytes;
}.

Record client_query := Query {
  destination_ip : bytes;
  destination_port : Z;
  payload : binary_safe_string;
}.

Definition set_additional_info (c : connect_info) (a : option bytes) : connect_info :=
  ConnInfo (server_ip c) (server_port c) (passphrase c) (connect_fd c) a.

Definition set_payload (q : client_query) (p : binary_safe_string) : client_query :=
  Query (destination_ip q) (destination_port q) p.

Definition deref (p : option bytes) : outcome bytes :=
  match p with Some b => Ok b | None => Undefined NullDeref end.

(** ** binary_safe_string helpers (module-port.hpp) *)

Definition make_binary_safe_string_len (junk : nat -> Z) (length : Z) : binary_safe_string :=
  Bss false length (Some (malloc junk (Z.to_nat length))).

Definition make_binary_safe_string_buf (junk : nat -> Z) (cstr : bytes) (length : Z)
    : outcome binary_safe_string :=
  let bss := make_binary_safe_string_len junk length in
  d ← deref (str bss);
  s ← mem_read cstr 0 (Z.to_nat length);
  d ← mem_write d 0 s;
  Ok (Bss (null_terminated bss) (bss_length bss) (Some d)).

(** [str.size()] is narrowed to the [uint32_t] parameter of the allocator, but
    all of the string is copied. *)
Definition make_binary_safe_string (junk : nat -> Z) (s : bytes) : outcome binary_safe_string :=
  let bss := make_binary_safe_string_len junk (u32 (Z.of_nat (length s))) in
  d ← deref (str bss);
  d ← mem_write d 0 s;
  Ok (Bss (null_terminated bss) (bss_length bss) (Some d)).

(** ** The functions of a module *)

Record module_fns := Fns {
  f_client_make_auth_query : connect_info -> outcome (binary_safe_string * connect_info);
  f_client_deal_auth_reply : connect_info -> binary_safe_string -> outcome (bool * connect_info);
  f_client_encode : connect_info -> client_query -> outcome binary_safe_string;
  f_client_decode : connect_info -> binary_safe_string -> outcome client_query;
  f_client_connection_close : connect_info -> outcome unit;
  f_server_make_auth_reply :
    connect_info -> binary_safe_string -> outcome (binary_safe_string * bool * connect_info);
  f_server_encode : connect_info -> client_query -> outcome binary_safe_string;
  f_server_decode : connect_info -> binary_safe_string -> outcome client_query;
  f_server_connection_close : connect_info -> outcome unit;
}.

(** ** module_interface *)

Definition makeAuthQuery (m : module_fns) (conn : connect_info) :=
  f_client_make_auth_query m conn.

Definition onAuthReply (m : module_fns) (authdata : bytes) (len : Z) (conn : connect_info) :=
  f_client_deal_auth_reply m conn (Bss false (u32 len) (Some authdata)).

Definition client_impl_encode (m : module_fns) (pl : binary_safe_string) (conn : connect_info)
    (addrTemplate : client_query) : outcome binary_safe_string :=
  f_client_encode m conn
    (if bss_length pl =? 0 then addrTemplate else set_payload addrTemplate pl).

Definition client_impl_decode (m : module_fns) (pl : binary_safe_string) (conn : connect_info) :=
  f_client_decode m conn pl.

Definition client_impl_onCloseConn (m : module_fns) (conn : connect_info) :=
  f_client_connection_close m conn.

Definition makeAuthReply (m : module_fns) (conn : connect_info) (query : binary_safe_string) :=
  f_server_make_auth_reply m conn query.

Definition server_impl_encode (m : module_fns) (conn : connect_info) (pl : client_query) :=
  f_server_encode m conn pl.

Definition server_impl_decode (m : module_fns) (conn : connect_info) (pl : binary_safe_string) :=
  f_server_decode m conn pl.

Definition server_impl_onCloseConn (m : module_fns) (conn : connect_info) :=
  f_server_connection_close m conn.

(** A shared object: the symbols it exports and the functions behind them. *)
Record dylib := Dylib { exported : list string; dl_fns : module_fns }.

Definition required_symbols : list string :=
  ["client_make_auth_query"; "client_deal_auth_reply"; "client_encode"; "client_decode";
   "client_connection_close"; "server_make_auth_reply"; "server_encode"; "server_decode";
   "server_connection_close"]%string.

(** The nine uses of [RLIB_IMPL_LOAD_DYLIB_SYMBOL_HELPER], in order. *)
Fixpoint load_symbols (lib : dylib) (names : list string) : outcome unit :=
  match names with
  | [] => Ok tt
  | n :: names =>
      if decide (n ∈ exported lib) then load_symbols lib names
      else Throw (runtime_error "Unable to locate symbol")
  end.

Definition loadSo (dlopen : string -> option dylib) (filePath : string) : outcome module_fns :=
  match dlopen filePath with
  | None => Throw (runtime_error "dlopen failed to open shared object")
  | Some lib => _ ← load_symbols lib required_symbols; Ok (dl_fns lib)
  end.

(** ** The packet layout shared by the bundled modules

    [struct data_struct {uint8_t dstip[16]; uint16_t dstport; uint32_t plsz;
    uint8_t payload;}]: [dstport] at offset 16, [plsz] at 20 (aligned), the
    payload at 24, and three bytes of tail padding: its size is 28. *)

Definition sizeof_data_struct : Z := 28.

Definition overall_size (q : client_query) : Z :=
  u64 (sizeof_data_struct + bss_length (payload q) - 1).

Definition pack_data_struct (junk : nat -> Z) (q : client_query) : outcome bytes :=
  let data := malloc junk (Z.to_nat (overall_size q)) in
  data ← mem_write data 0 (destination_ip q);
  data ← mem_write data 16 (le_bytes 2 (destination_port q));
  data ← mem_write data 20 (le_bytes 4 (bss_length (payload q)));
  if negb (bss_length (payload q) =? 0) then
    p ← deref (str (payload q));
    s ← mem_read p 0 (Z.to_nat (bss_length (payload q)));
    mem_write data 24 s
  else Ok data.

(** The [client_query] local of a decoder before its fields are assigned. *)
Definition fresh_query (junk : nat -> Z) : client_query :=
  Query (malloc junk 16) (le_val (malloc junk 2)) (Bss (Z.odd (junk 0%nat)) 0 None).

Definition unpack_data_struct (junk : nat -> Z) (data : bytes) (datalen : Z) : outcome client_query :=
  if datalen <=? 24 then Ok (fresh_query junk)
  else
    ip ← mem_read data 0 16;
    port ← mem_read data 16 2;
    sz ← mem_read data 20 4;
    let plsz := le_val sz in
    if negb (plsz =? 0) then
      p ← mem_read data 24 (Z.to_nat plsz);
      Ok (Query ip (le_val port) (Bss false plsz (Some p)))
    else Ok (Query ip (le_val port) (Bss false plsz None)).

(** ** Well-formed values *)

(** A string whose buffer holds at least [length] bytes. *)
Definition bss_ok (s : binary_safe_string) : Prop :=
  0 <= bss_length s < 2 ^ 32 /\
  match str s with
  | Some b => wf_bytes b /\ bss_length s <= Z.of_nat (length b)
  | None => bss_length s = 0
  end.

(** The bytes a [binary_safe_string] stands for. *)
Definition bss_bytes (s : binary_safe_string) : bytes :=
  match str s with Some b => take (Z.to_nat (bss_length s)) b | None => [] end.

Definition query_ok (q : client_query) : Prop :=
  length (destination_ip q) = 16%nat /\ wf_bytes (destination_ip q) /\
  0 <= destination_port q < 2 ^ 16 /\ bss_ok (payload q).

(** Two queries that a peer cannot tell apart: the same address, port and
    payload bytes. *)
Definition query_equiv (q1 q2 : client_query) : Prop :=
  destination_ip q1 = destination_ip q2 /\ destination_port q1 = destination_port q2 /\
  bss_length (payload q1) = bss_length (payload q2) /\
  bss_bytes (payload q1) = bss_bytes (payload q2).

#[global] Instance query_equiv_equivalence : Equivalence query_equiv.
Proof.
  unfold query_equiv. split.
  - intros q. done.
  - intros q1 q2 (?&?&?&?). split_and!; congruence.
  - intros q1 q2 q3 (?&?&?&?) (?&?&?&?). split_and!; congruence.
Qed.

Lemma bss_bytes_length s : bss_ok s -> Z.of_nat (length (bss_bytes s)) = bss_length s.
Proof.
  intros [H1 H2]. unfold bss_bytes. destruct (str s); [|simpl; lia].
  destruct H2. rewrite length_take. lia.
Qed.

Lemma bss_bytes_wf s : bss_ok s -> wf_bytes (bss_bytes s).
Proof.
  intros [H1 H2]. unfold bss_bytes. destruct (str s); [|constructor].
  destruct H2. auto with bytes.
Qed.

(** ** Packing and unpacking *)

(** The packed form: padding bytes come from uninitialised memory. *)
Definition packed (junk : nat -> Z) (q : client_query) : bytes :=
  let g := malloc junk (Z.to_nat (overall_size q)) in
  destination_ip q ++ le_bytes 2 (destination_port q) ++ take 2 (drop 18 g) ++
  le_bytes 4 (bss_length (payload q)) ++ bss_bytes (payload q) ++
  drop (24 + Z.to_nat (bss_length (payload q))) g.

Lemma overall_size_eq q : query_ok q -> overall_size q = bss_length (payload q) + 27.
Proof.
  intros (_ & _ & _ & H & _). unfold overall_size, sizeof_data_struct. rewrite u64_small; lia.
Qed.

Lemma packed_length junk q :
  query_ok q -> Z.of_nat (length (packed junk q)) = bss_length (payload q) + 27.
Proof.
  intros Hq. pose proof (overall_size_eq q Hq) as E. destruct Hq as (H1 & H2 & H3 & H4).
  pose proof (bss_bytes_length _ H4). destruct H4 as [H4 _]. unfold packed. rewrite E. len.
Qed.

Lemma packed_wf junk q : query_ok q -> wf_bytes (packed junk q).
Proof.
  intros (H1 & H2 & H3 & H4). unfold packed. rewrite !wf_bytes_app.
  split_and!; auto using bss_bytes_wf with bytes.
Qed.

Lemma pack_data_struct_eq junk q : query_ok q -> pack_data_struct junk q = Ok (packed junk q).
Proof.
  intros Hq. pose proof (overall_size_eq q Hq) as E. destruct Hq as (H1 & H2 & H3 & H4).
  pose proof (bss_bytes_length _ H4) as Lb.
  unfold pack_data_struct, packed. set (g := malloc junk _). set (n := bss_length (payload q)) in *.
  assert (Hn : 0 <= n < 2 ^ 32) by apply H4.
  assert (Lg : Z.of_nat (length g) = n + 27) by (unfold g; rewrite E; len).
  clearbody g.
  rewrite <- (take_drop 16 g) at 1.
  rewrite (mem_write_head (take 16 g)) by len. run_ok.
  rewrite <- (take_drop 2 (drop 16 g)), (mem_write_mid _ (take 2 (drop 16 g))) by len. run_ok.
  rewrite drop_drop. change (16 + 2)%nat with 18%nat.
  rewrite <- (take_drop 2 (drop 18 g)) at 1. rewrite drop_drop. change (18 + 2)%nat with 20%nat.
  rewrite <- (take_drop 4 (drop 20 g)), drop_drop. change (20 + 4)%nat with 24%nat.
  rewrite 2!app_assoc, (mem_write_mid _ (take 4 (drop 20 g))) by len. run_ok.
  destruct (Z.eqb_spec n 0) as [Hz|Hz]; cbn [negb].
  - rewrite Hz. assert (bss_bytes (payload q) = []) as ->.
    { apply nil_length_inv. lia. }
    change (24 + Z.to_nat 0)%nat with 24%nat. by rewrite <- !app_assoc.
  - destruct H4 as [H4 H5]. unfold bss_bytes in *. destruct (str (payload q)) as [b|].
    2: { exfalso. apply Hz. exact H5. }
    destruct H5 as [H5 H6]. run_ok. cbn [deref]. run_ok.
    fold n in H6 |- *. rewrite mem_read_ok by lia. run_ok. rewrite drop_0.
    rewrite <- (take_drop (Z.to_nat n) (drop 24 g)) at 1. rewrite drop_drop.
    rewrite !app_assoc.
    rewrite <- (app_assoc _ (take (Z.to_nat n) (drop 24 g))).
    rewrite (mem_write_mid _ (take (Z.to_nat n) (drop 24 g))) by len.
    by rewrite <- !app_assoc.
Qed.

Lemma unpack_packed junk junk' q tail n :
  query_ok q -> 24 < n ->
  exists q', unpack_data_struct junk' (packed junk q ++ tail) n = Ok q' /\
             query_ok q' /\ query_equiv q' q.
Proof.
  intros Hq Hn. pose proof (packed_length junk q Hq) as Lp. pose proof Hq as (H1 & H2 & H3 & H4).
  pose proof (bss_bytes_length _ H4) as Lb. pose proof (bss_bytes_wf _ H4) as Wb.
  pose proof H4 as [H5 _]. unfold unpack_data_struct. destruct (Z.leb_spec n 24); [lia|].
  unfold packed in *. set (g := malloc _ _) in *. rewrite <- !app_assoc.
  rewrite mem_read_head by done. run_ok.
  rewrite (mem_read_mid (destination_ip q) (le_bytes 2 _) _ 16 2) by len. run_ok.
  rewrite (app_assoc (destination_ip q)), (app_assoc (_ ++ _)).
  rewrite (mem_read_mid _ (le_bytes 4 (bss_length (payload q))) _ 20 4) by len. run_ok.
  rewrite (le_val_bytes 4) by (change (256 ^ Z.of_nat 4) with (2 ^ 32); lia).
  rewrite (le_val_bytes 2) by (change (256 ^ Z.of_nat 2) with (2 ^ 16); lia).
  set (m := bss_length (payload q)) in *.
  destruct (Z.eqb_spec m 0) as [Hz|Hz]; cbn [negb].
  - eexists. split; [reflexivity|]. split.
    + do 3 (split; [done|]). split; cbn; [lia|done].
    + do 2 (split; [done|]). split; cbn; [lia|]. symmetry. apply nil_length_inv. lia.
  - rewrite (app_assoc _ (le_bytes 4 m)).
    rewrite (mem_read_mid _ (bss_bytes (payload q)) _ 24) by len. run_ok.
    eexists. split; [reflexivity|]. split.
    + do 3 (split; [done|]). split; cbn; [lia|]. split; [done|lia].
    + do 3 (split; [done|]). change (take (Z.to_nat m) (bss_bytes (payload q)) = bss_bytes (payload q)).
      by rewrite firstn_all2 by lia.
Qed.

(** The size field of a packet is not compared with the size of the packet. *)
Lemma unpack_overread junk ip port pad p plsz n :
  length ip = 16%nat -> length port = 2%nat -> length pad = 2%nat ->
  Z.of_nat (length p) < plsz < 2 ^ 32 -> 24 < n ->
  unpack_data_struct junk (ip ++ port ++ pad ++ le_bytes 4 plsz ++ p) n = Undefined OobRead.
Proof.
  intros H1 H2 H3 Hn Hl. unfold unpack_data_struct. destruct (Z.leb_spec n 24); [lia|].
  rewrite mem_read_head by done. run_ok.
  rewrite (mem_read_mid ip port _ 16 2) by done. run_ok.
  rewrite (app_assoc ip), (app_assoc (_ ++ _)).
  rewrite (mem_read_mid _ (le_bytes 4 plsz) _ 20 4) by len. run_ok.
  rewrite le_val_bytes by (change (256 ^ Z.of_nat 4) with (2 ^ 32); lia).
  destruct (Z.eqb_spec plsz 0); [lia|]. cbn [negb].
  rewrite mem_read_ub by len. done.
Qed.

(** ** What a module promises *)

(** The string the peer rebuilds from the bytes it received. *)
Definition on_wire (p : binary_safe_string) : binary_safe_string :=
  Bss false (bss_length p) (Some (bss_bytes p)).

Lemma bss_bytes_full b n d :
  n = Z.of_nat (length d) -> bss_bytes (Bss b n (Some d)) = d.
Proof. intros ->. unfold bss_bytes. cbn. by rewrite Nat2Z.id, firstn_all. Qed.

Lemma on_wire_full n d :
  n = Z.of_nat (length d) -> on_wire (Bss false n (Some d)) = Bss false n (Some d).
Proof. intros. unfold on_wire. cbn [bss_length]. by rewrite bss_bytes_full. Qed.

(** [paired cc sc] relates the connection state of the client and of the server
    once the handshake between them is complete. *)
Class ModuleLaws (m : module_fns) (fresh paired : connect_info -> connect_info -> Prop) := {
  (** The handshake: the reply the server computes from the client's query is
      accepted, neither side closes, and the two connection states are paired. *)
  handshake cc sc : fresh cc sc ->
    exists q cc1 r sc1 cc2,
      f_client_make_auth_query m cc = Ok (q, cc1) /\
      (bss_ok q /\ bss_length q <= bss_length (passphrase cc) + 64) /\
      f_server_make_auth_reply m sc (on_wire q) = Ok (r, false, sc1) /\
      (bss_ok r /\ bss_length r <= 64) /\
      onAuthReply m (bss_bytes r) (bss_length r) cc1 = Ok (true, cc2) /\ paired cc2 sc1;
  (** A data packet encoded by one side decodes to the same query on the other. *)
  client_to_server cc sc q : paired cc sc -> query_ok q -> bss_length (payload q) + 64 < 2 ^ 32 ->
    exists p, f_client_encode m cc q = Ok p /\ bss_ok p /\
              0 < bss_length p <= bss_length (payload q) + 64 /\
    exists q', f_server_decode m sc (on_wire p) = Ok q' /\
               query_ok q' /\ query_equiv q' q;
  server_to_client cc sc q : paired cc sc -> query_ok q -> bss_length (payload q) + 64 < 2 ^ 32 ->
    exists p, f_server_encode m sc q = Ok p /\ bss_ok p /\
              0 < bss_length p <= bss_length (payload q) + 64 /\
    exists q', f_client_decode m cc (on_wire p) = Ok q' /\
               query_ok q' /\ query_equiv q' q;
}.

(** Loading a module. [loadSo] succeeds exactly when the shared object
    opens and exports all nine functions, and then installs its functions;
    otherwise it throws. *)
Theorem loadSo_spec (dlopen : string -> option dylib) (path : string) :
  (forall m, loadSo dlopen path = Ok m <->
     exists lib, dlopen path = Some lib /\ dl_fns lib = m /\
       Forall (fun n => n ∈ exported lib) required_symbols) /\
  ((exists m, loadSo dlopen path = Ok m) \/ (exists e, loadSo dlopen path = Throw e)).
Proof.
  assert (H : forall lib names,
    (load_symbols lib names = Ok tt /\ Forall (fun n => n ∈ exported lib) names) \/
    (exists e, load_symbols lib names = Throw e /\ ~ Forall (fun n => n ∈ exported lib) names)).
  { intros lib names. induction names as [|n names IH]; cbn [load_symbols]; [by left|].
    case_decide as Hn.
    - destruct IH as [[-> ?]|(e & -> & Hf)]; [left; auto|].
      right. exists e. split; [done|]. rewrite Forall_cons. tauto.
    - right. eexists. split; [done|]. rewrite Forall_cons. tauto. }
  unfold loadSo. destruct (dlopen path) as [lib|].
  - destruct (H lib required_symbols) as [[-> Hf]|(e & -> & Hf)]; run_ok.
    + split; [|left; eauto]. intros m. split.
      * intros [= <-]. eauto.
      * intros (l & [= ->] & <- & _). done.
    + split; [|right; eauto]. intros m. split; [done|].
      intros (l & [= ->] & _ & ?). contradiction.
  - split; [|right; eauto]. intros m. split; [done|]. by intros (l & ? & _).
Qed.

End ModuleApi.
