(* ===== verification/SimpleProxy.v ===== *)
(** * The simple_proxy module (modules/simple_proxy/simple_proxy.c)

    The bundled sample module: packets are exclusive-ored with a one-byte hash
    of the passphrase.  [junk] supplies the contents of uninitialised memory. *)

From S2P Require Import Prelude ModuleApi.

Module SimpleProxy.
Import ModuleApi.

(** [tmp += str[i]] on a [uint8_t]. *)
Definition simple_hash (s : bytes) : Z := foldl (fun tmp c => u8 (tmp + schar c)) 0 s.

Definition bss_hash (b : binary_safe_string) : outcome Z :=
  if bss_length b =? 0 then Ok (simple_hash [])
  else
    p ← deref (str b);
    s ← mem_read p 0 (Z.to_nat (bss_length b));
    Ok (simple_hash s).

(** [data[i] = data[i] ^ simple_encoder] for the first [n] bytes. *)
Definition xor_with (k : Z) (data : bytes) : bytes := map (fun b => u8 (Z.lxor b k)) data.

Definition xor_prefix (k : Z) (data : bytes) (n : Z) : outcome bytes :=
  d ← mem_read data 0 (Z.to_nat n);
  mem_write data 0 (xor_with k d).

Section Functions.
Context (junk : nat -> Z).

Definition client_make_auth_query (conn : connect_info)
    : outcome (binary_safe_string * connect_info) :=
  let n := bss_length (passphrase conn) in
  let buf := malloc junk (Z.to_nat n) in
  p ← deref (str (passphrase conn));
  s ← mem_read p 0 (Z.to_nat n);
  buf ← mem_write buf 0 s;
  Ok (Bss false n (Some buf), conn).

Definition client_deal_auth_reply (conn : connect_info) (server_reply : binary_safe_string)
    : outcome (bool * connect_info) :=
  p ← deref (str server_reply);
  b ← mem_read p 0 1;
  Ok (negb (nth 0 b 0 =? 0), conn).

Definition client_encode (conn : connect_info) (pl : client_query) : outcome binary_safe_string :=
  data ← pack_data_struct junk pl;
  k ← bss_hash (passphrase conn);
  data ← xor_prefix k data (overall_size pl);
  Ok (Bss false (u32 (overall_size pl)) (Some data)).

Definition client_decode (conn : connect_info) (data : binary_safe_string) : outcome client_query :=
  k ← bss_hash (passphrase conn);
  d ← deref (str data);
  d ← xor_prefix k d (bss_length data);
  unpack_data_struct junk d (bss_length data).

Definition server_make_auth_reply (conn : connect_info) (data : binary_safe_string)
    : outcome (binary_safe_string * bool * connect_info) :=
  buf ← mem_write (malloc junk 1) 0 [1];
  Ok (Bss false 1 (Some buf), false, conn).

Definition server_encode (conn : connect_info) (pl : client_query) : outcome binary_safe_string :=
  data ← pack_data_struct junk pl;
  k ← bss_hash (passphrase conn);
  data ← xor_prefix k data (overall_size pl);
  Ok (Bss false (u32 (overall_size pl)) (Some data)).

Definition server_decode (conn : connect_info) (data : binary_safe_string) : outcome client_query :=
  k ← bss_hash (passphrase conn);
  d ← deref (str data);
  d ← xor_prefix k d (bss_length data);
  unpack_data_struct junk d (bss_length data).

Definition client_connection_close (conn : connect_info) : outcome unit := Ok tt.
Definition server_connection_close (conn : connect_info) : outcome unit := Ok tt.

Definition simple_proxy : module_fns :=
  Fns client_make_auth_query client_deal_auth_reply client_encode client_decode
    client_connection_close server_make_auth_reply server_encode server_decode
    server_connection_close.
End Functions.

(** ** The hash *)

Lemma simple_hash_byte s : is_byte (simple_hash s).
Proof.
  assert (H : forall z, is_byte z -> is_byte (foldl (fun tmp c => u8 (tmp + schar c)) z s)).
  { induction s; simpl; auto using u8_byte. }
  apply H. unfold is_byte. lia.
Qed.

Lemma bss_hash_ok b : bss_ok b -> bss_hash b = Ok (simple_hash (bss_bytes b)).
Proof.
  intros [H1 H2]. unfold bss_hash, bss_bytes. destruct (Z.eqb_spec (bss_length b) 0) as [E|E].
  - rewrite E. by destruct (str b).
  - destruct (str b); [|contradiction]. destruct H2. run_ok. cbn [deref]. run_ok.
    rewrite mem_read_ok by lia. run_ok. by rewrite drop_0.
Qed.

Lemma xor_with_involutive k d : wf_bytes d -> xor_with k (xor_with k d) = d.
Proof.
  unfold xor_with. induction 1 as [|b d Hb Hd IH]; [done|]. cbn. rewrite IH. f_equal.
  unfold u8. rewrite land_lxor_distr, <- Z.land_assoc, Z.land_diag.
  rewrite land_lxor_distr, lxor_cancel_r. by apply u8_id.
Qed.

Lemma xor_with_wf k d : wf_bytes (xor_with k d).
Proof. unfold wf_bytes, xor_with. rewrite Forall_fmap. apply Forall_forall. intros. apply u8_byte. Qed.

Lemma xor_prefix_full k d n :
  n = Z.of_nat (length d) -> xor_prefix k d n = Ok (xor_with k d).
Proof.
  intros ->. unfold xor_prefix. rewrite Nat2Z.id, mem_read_all by done. run_ok.
  rewrite <- (app_nil_r d) at 1. rewrite mem_write_head by (unfold xor_with; len).
  by rewrite app_nil_r.
Qed.

(** ** simple_proxy keeps the promise of a module *)

Definition same_pass (cc sc : connect_info) : Prop :=
  bss_ok (passphrase cc) /\ bss_ok (passphrase sc) /\ str (passphrase cc) <> None /\
  bss_bytes (passphrase cc) = bss_bytes (passphrase sc).

Section Roundtrip.
Context (junk1 junk2 : nat -> Z).

(** Encoding on one side and decoding on the other, for any two passphrases
    with the same bytes. *)
Lemma encode_decode c1 c2 q :
  bss_ok (passphrase c1) -> bss_ok (passphrase c2) ->
  bss_bytes (passphrase c1) = bss_bytes (passphrase c2) ->
  query_ok q -> bss_length (payload q) + 64 < 2 ^ 32 ->
  exists p, client_encode junk1 c1 q = Ok p /\ bss_ok p /\
    0 < bss_length p <= bss_length (payload q) + 64 /\
    exists q', server_decode junk2 c2 (on_wire p) = Ok q' /\ query_ok q' /\ query_equiv q' q.
Proof.
  intros H1 H2 HE Hq Hb. pose proof (packed_length junk1 q Hq) as Lp.
  pose proof (overall_size_eq q Hq) as Eo. pose proof Hq as (_ & _ & _ & [Hn _]).
  unfold client_encode. rewrite pack_data_struct_eq by done. run_ok.
  rewrite bss_hash_ok by done. run_ok. rewrite xor_prefix_full by lia. run_ok.
  set (k := simple_hash _). set (d := xor_with k (packed junk1 q)).
  assert (Ld : length d = length (packed junk1 q)) by (unfold d, xor_with; len).
  eexists. split; [reflexivity|]. rewrite Eo, u32_small by lia. cbn [bss_length str].
  split. { split; cbn; [lia|]. split; [apply xor_with_wf|lia]. }
  split; [lia|].
  unfold server_decode, on_wire, bss_bytes. cbn [bss_length str deref]. run_ok.
  rewrite bss_hash_ok by done. rewrite <- HE. fold k. run_ok.
  rewrite (firstn_all2 d) by lia. rewrite xor_prefix_full by lia. run_ok.
  unfold d. rewrite xor_with_involutive by (by apply packed_wf).
  destruct (unpack_packed junk1 junk2 q [] (bss_length (payload q) + 27)) as (q' & E & ?); [done|lia|].
  rewrite app_nil_r in E. eauto.
Qed.
End Roundtrip.

#[global] Instance simple_proxy_laws junk : ModuleLaws (simple_proxy junk) same_pass same_pass.
Proof.
  constructor.
  - intros cc sc (H1 & H2 & H3 & H4). cbn.
    destruct (str (passphrase cc)) as [b|] eqn:Es; [|done].
    assert (Hl : bss_length (passphrase cc) <= Z.of_nat (length b) /\ wf_bytes b /\
                 0 <= bss_length (passphrase cc) < 2 ^ 32).
    { destruct H1 as [? H1]. rewrite Es in H1. tauto. }
    unfold client_make_auth_query. rewrite Es. cbn [deref]. run_ok.
    rewrite mem_read_ok by lia. run_ok. rewrite drop_0.
    set (n := bss_length (passphrase cc)) in *.
    rewrite <- (app_nil_r (malloc _ _)), mem_write_head by len. run_ok. rewrite app_nil_r.
    do 5 eexists. split; [reflexivity|]. split.
    { split; [|cbn; lia]. split; cbn; [lia|]. split; [apply wf_bytes_take; tauto|len]. }
    split; [reflexivity|]. split.
    { split; [|cbn; lia]. split; cbn; [lia|]. split; [|lia]. constructor; [unfold is_byte; lia|constructor]. }
    split; [reflexivity|]. unfold same_pass. rewrite Es. done.
  - intros cc sc q (H1 & H2 & _ & H4) Hq Hb. by apply encode_decode.
  - intros cc sc q (H1 & H2 & _ & H4) Hq Hb. by apply encode_decode.
Qed.

(** ** Properties *)

(** Packet round trip in both directions. With the same passphrase bytes
    on both ends, whatever one side encodes the other decodes to the same
    destination, port and payload, whatever the uninitialised memory holds. *)
Theorem simple_proxy_roundtrip (junkc junks : nat -> Z) (cc sc : connect_info) (q : client_query) :
  same_pass cc sc -> query_ok q -> bss_length (payload q) + 64 < 2 ^ 32 ->
  (exists p q', client_encode junkc cc q = Ok p /\
     server_decode junks sc (on_wire p) = Ok q' /\ query_equiv q' q) /\
  (exists p q', server_encode junks sc q = Ok p /\
     client_decode junkc cc (on_wire p) = Ok q' /\ query_equiv q' q).
Proof.
  intros (H1 & H2 & _ & H4) Hq Hb. split.
  - destruct (encode_decode junkc junks cc sc q) as (p & E & _ & _ & q' & D & _ & Eq); [done..|].
    eauto.
  - destruct (encode_decode junks junkc sc cc q) as (p & E & _ & _ & q' & D & _ & Eq); [done..|].
    eauto.
Qed.

Definition sample_conn : connect_info :=
  ConnInfo (replicate 16 0) 80 (Bss true 2 (Some [112; 119; 0])) 3 None.
Definition sample_query : client_query :=
  Query ([1; 2; 3; 4] ++ replicate 12 0) 80 (Bss false 3 (Some [104; 105; 33])).

Lemma sample_facts : same_pass sample_conn sample_conn /\ query_ok sample_query.
Proof.
  assert (H : bss_ok (passphrase sample_conn)).
  { split; cbn -[wf_bytes]; [lia|]. split; [|lia]. apply (bool_decide_unpack _). reflexivity. }
  split; [done|]. split; [reflexivity|]. split; [apply (bool_decide_unpack _); reflexivity|].
  cbn. split; [lia|]. split; cbn -[wf_bytes]; [lia|].
  split; [apply (bool_decide_unpack _); reflexivity|lia].
Qed.

Lemma simple_proxy_roundtrip_witness :
  (exists p q', client_encode (fun _ => 1) sample_conn sample_query = Ok p /\
     server_decode (fun _ => 2) sample_conn (on_wire p) = Ok q' /\ query_equiv q' sample_query) /\
  (exists p q', server_encode (fun _ => 2) sample_conn sample_query = Ok p /\
     client_decode (fun _ => 1) sample_conn (on_wire p) = Ok q' /\ query_equiv q' sample_query).
Proof.
  apply (simple_proxy_roundtrip (fun _ => 1) (fun _ => 2) sample_conn sample_conn sample_query);
    [apply sample_facts|apply sample_facts|cbn; lia].
Defined.

(** The payload size of a packet is trusted. A packet whose size field
    announces more payload bytes than the packet contains makes
    [server_decode] read past the end of the received buffer. *)
Theorem server_decode_overread (junk : nat -> Z) (conn : connect_info) (ip port pad p : bytes) (plsz : Z) :
  bss_ok (passphrase conn) ->
  length ip = 16%nat -> length port = 2%nat -> length pad = 2%nat ->
  wf_bytes (ip ++ port ++ pad ++ le_bytes 4 plsz ++ p) ->
  0 < Z.of_nat (length p) < plsz -> plsz < 2 ^ 32 ->
  let k := simple_hash (bss_bytes (passphrase conn)) in
  let pkt := xor_with k (ip ++ port ++ pad ++ le_bytes 4 plsz ++ p) in
  server_decode junk conn (Bss false (Z.of_nat (length pkt)) (Some pkt)) = Undefined OobRead.
Proof.
  intros Hp H1 H2 H3 Hw Hl Hn k pkt. unfold server_decode. cbn [str bss_length].
  rewrite bss_hash_ok by done. run_ok. cbn [deref]. run_ok. fold k.
  rewrite xor_prefix_full by done. run_ok. unfold pkt. rewrite xor_with_involutive by done.
  apply unpack_overread; try done; try lia. unfold xor_with. len.
Qed.

Lemma server_decode_overread_witness :
  let pkt := xor_with (simple_hash (bss_bytes (passphrase sample_conn)))
      (replicate 16 1 ++ [0; 80] ++ [0; 0] ++ le_bytes 4 4096 ++ [7]) in
  server_decode (fun _ => 0) sample_conn (Bss false (Z.of_nat (length pkt)) (Some pkt))
    = Undefined OobRead.
Proof.
  apply (server_decode_overread (fun _ => 0) sample_conn (replicate 16 1) [0; 80] [0; 0] [7] 4096);
    try reflexivity; try (cbn; lia).
  - apply sample_facts.
  - apply (bool_decide_unpack _). reflexivity.
Defined.

(** The key byte. [simple_hash] is the sum of the characters modulo 256
    whether [char] is signed or not, so every permutation of a passphrase gives
    the same key. *)
Theorem simple_hash_sum (s t : bytes) :
  wf_bytes s -> simple_hash s = foldr Z.add 0 s mod 256 /\ (s ≡ₚ t -> simple_hash s = simple_hash t).
Proof.
  assert (H : forall l acc, wf_bytes l ->
    foldl (fun tmp c => u8 (tmp + schar c)) (acc mod 256) l = (acc + foldr Z.add 0 l) mod 256).
  { induction l as [|c l IH]; intros acc Hl; cbn; [by rewrite Z.add_0_r|].
    apply Forall_cons in Hl as [Hc Hl]. rewrite u8_mod.
    replace ((acc mod 256 + schar c) mod 256) with ((acc + c) mod 256).
    - rewrite IH by done. f_equal. lia.
    - rewrite Zplus_mod_idemp_l. unfold schar. destruct (c <? 128); [done|].
      replace (acc + (c - 256)) with (acc + c + (-1) * 256) by lia. by rewrite Z.mod_add. }
  assert (H0 : forall l, wf_bytes l -> simple_hash l = foldr Z.add 0 l mod 256).
  { intros l Hl. unfold simple_hash. change 0 with (0 mod 256) at 1. rewrite H by done. f_equal. }
  intros Hs. split; [by apply H0|]. intros Hp. rewrite !H0.
  - f_equal. clear -Hp. induction Hp; cbn; lia.
  - unfold wf_bytes. by rewrite <- Hp.
  - done.
Qed.

Lemma simple_hash_sum_witness :
  simple_hash [200; 100] = foldr Z.add 0 [200; 100] mod 256 /\
  ([200; 100] ≡ₚ [100; 200] -> simple_hash [200; 100] = simple_hash [100; 200]).
Proof. apply (simple_hash_sum [200; 100] [100; 200]). apply (bool_decide_unpack _). reflexivity. Defined.

End SimpleProxy.
