(* ===== verification/SeProxy.v ===== *)
(** * The se_proxy module (modules/se_proxy/se_proxy.c)

    The bundled encrypting module: an AES-protected handshake that derives a
    session key from the server's [rand()], and packets padded and passed
    through [AESEncrypt].  [junk] supplies the contents of uninitialised
    memory, [tmprnd] the value of [rand()].

    [conn->additional_info] points to a [sym_passphrase {size_t pwlen; char
    str;}]: the model keeps the bytes of that allocation, [pwlen] in the first
    eight and the key from offset 8 on; [sizeof(sym_passphrase)] is 16. *)

From S2P Require Import Prelude Aes AesUtil ModuleApi.

Module SeProxy.
Import Aes AesUtil ModuleApi.

Definition AUTH_STR : bytes := bytes_of_string "SE_PROXYv1".
Definition MAGIC_STR : bytes := bytes_of_string "SE_MAGIC".
Definition EXCEEDING_SIZE : nat := 512.
Definition sizeof_sym_passphrase : Z := 16.

(** [for(i=0;i<alen;i++) if(a[i]!=b[i]) return false;] *)
Fixpoint strfullcmp_loop (a b : bytes) (n i : nat) : outcome bool :=
  match n with
  | O => Ok true
  | S n =>
      x ← mem_read a i 1;
      y ← mem_read b i 1;
      if bool_decide (x = y) then strfullcmp_loop a b n (S i) else Ok false
  end.

Definition strfullcmp (a b : bytes) (alen blen : Z) : outcome bool :=
  if negb (alen =? blen) then Ok false else strfullcmp_loop a b (Z.to_nat alen) 0.

(** The C library's [strncmp(a, b, n) != 0]. *)
Fixpoint strncmp_ne (a b : bytes) (n i : nat) : outcome bool :=
  match n with
  | O => Ok false
  | S n =>
      x ← mem_read a i 1;
      y ← mem_read b i 1;
      if bool_decide (x = y) then
        if bool_decide (x = [0]) then Ok false else strncmp_ne a b n (S i)
      else Ok true
  end.

(** [sprintf] of the text [s] at offset [off] of [buf]; the returned size is [length s]. *)
Definition sprintf_at (buf : bytes) (off : nat) (s : bytes) : outcome bytes :=
  mem_write buf off (s ++ [0]).

Definition ainfo_pwlen (ainfo : bytes) : outcome Z :=
  l ← mem_read ainfo 0 8; Ok (le_val l).

Section Functions.
Context (junk : nat -> Z) (tmprnd : Z).

Definition client_make_auth_query (conn : connect_info)
    : outcome (binary_safe_string * connect_info) :=
  let conn := set_additional_info conn None in
  let n := round_up (Z.of_nat (length AUTH_STR)) 16 in
  let buf := replicate (Z.to_nat n) 0 in
  key ← deref (str (passphrase conn));
  buf ← AESEncrypt AUTH_STR key buf (Z.of_nat (length AUTH_STR)) (bss_length (passphrase conn))
          Q_AES_FLAG_FILL;
  Ok (Bss false (u32 n) (Some buf), conn).

Definition client_deal_auth_reply (conn : connect_info) (server_reply : binary_safe_string)
    : outcome (bool * connect_info) :=
  let result := malloc junk (Z.to_nat (bss_length server_reply)) in
  src ← deref (str server_reply);
  key ← deref (str (passphrase conn));
  r ← AESDecrypt src key result (bss_length server_reply) (bss_length (passphrase conn))
        Q_AES_FLAG_FILL;
  let '(result, rlen) := r in
  ne ← strncmp_ne result (MAGIC_STR ++ [0]) (length MAGIC_STR) 0;
  if (ne : bool) then Ok (false, conn)
  else
    let tmplen := u64 (rlen - Z.of_nat (length MAGIC_STR)) in
    let ainfo := replicate (Z.to_nat (u64 (sizeof_sym_passphrase + tmplen))) 0 in
    ainfo ← mem_write ainfo 0 (le_bytes 8 tmplen);
    k ← mem_read result (length MAGIC_STR) (Z.to_nat tmplen);
    ainfo ← mem_write ainfo 8 k;
    Ok (true, set_additional_info conn (Some ainfo)).

(** The common body of [client_encode] and [server_encode]. *)
Definition encode_packet (conn : connect_info) (pl : client_query) : outcome binary_safe_string :=
  data ← pack_data_struct junk pl;
  let n := round_up (overall_size pl) 16 in
  let encresult := replicate (Z.to_nat n) 0 in
  ainfo ← deref (additional_info conn);
  pwlen ← ainfo_pwlen ainfo;
  encresult ← AESEncrypt data (drop 8 ainfo) encresult (overall_size pl) pwlen Q_AES_FLAG_FILL;
  Ok (Bss false (u32 n) (Some encresult)).

(** The common body of [client_decode] and [server_decode]. *)
Definition decode_packet (conn : connect_info) (data : binary_safe_string) : outcome client_query :=
  let tmpresult := malloc junk (Z.to_nat (bss_length data)) in
  src ← deref (str data);
  ainfo ← deref (additional_info conn);
  pwlen ← ainfo_pwlen ainfo;
  r ← AESDecrypt src (drop 8 ainfo) tmpresult (bss_length data) pwlen Q_AES_FLAG_FILL;
  let '(tmpresult, n) := r in
  unpack_data_struct junk tmpresult (u32 n).

Definition client_encode := encode_packet.
Definition client_decode := decode_packet.
Definition server_encode := encode_packet.
Definition server_decode := decode_packet.

(** The success branch of [server_make_auth_reply]: the encrypted reply and
    the new session key. *)
Definition auth_success (conn : connect_info) (key : bytes)
    : outcome (binary_safe_string * bool * connect_info) :=
  let tmpenc := malloc junk EXCEEDING_SIZE in
  let text := MAGIC_STR ++ bytes_of_string "_" ++ to_string tmprnd in
  tmpenc ← sprintf_at tmpenc 0 text;
  let tmpenl := Z.of_nat (length text) in
  let n := round_up tmpenl 16 in
  buf ← AESEncrypt tmpenc key (malloc junk (Z.to_nat n)) tmpenl
          (bss_length (passphrase conn)) Q_AES_FLAG_FILL;
  let ainfo := replicate EXCEEDING_SIZE 0 in
  let pw := bytes_of_string "_" ++ to_string tmprnd in
  ainfo ← sprintf_at ainfo 8 pw;
  ainfo ← mem_write ainfo 0 (le_bytes 8 (Z.of_nat (length pw)));
  Ok (Bss false (u32 n) (Some buf), false, set_additional_info conn (Some ainfo)).

Definition server_make_auth_reply (conn : connect_info) (data : binary_safe_string)
    : outcome (binary_safe_string * bool * connect_info) :=
  let request := malloc junk (Z.to_nat (bss_length data)) in
  src ← deref (str data);
  key ← deref (str (passphrase conn));
  r ← AESDecrypt src key request (bss_length data) (bss_length (passphrase conn)) Q_AES_FLAG_FILL;
  let '(request, rlen) := r in
  ok ← strfullcmp request AUTH_STR rlen (Z.of_nat (length AUTH_STR));
  if negb (ok : bool) then
    buf ← mem_write (malloc junk 1) 0 [1];
    Ok (Bss false 1 (Some buf), true, conn)
  else auth_success conn key.

(** [free(conn->additional_info)] if it is not null. *)
Definition client_connection_close (conn : connect_info) : outcome unit := Ok tt.
Definition server_connection_close (conn : connect_info) : outcome unit := Ok tt.

Definition se_proxy : module_fns :=
  Fns client_make_auth_query client_deal_auth_reply client_encode client_decode
    client_connection_close server_make_auth_reply server_encode server_decode
    server_connection_close.
End Functions.

(** ** String comparisons *)

Lemma strfullcmp_loop_eq a b n i :
  (i + n <= length a)%nat -> (i + n <= length b)%nat ->
  strfullcmp_loop a b n i = Ok (bool_decide (take n (drop i a) = take n (drop i b))).
Proof.
  revert i. induction n as [|n IH]; intros i Ha Hb; cbn [strfullcmp_loop]; [done|].
  rewrite !mem_read_ok by lia. run_ok. rewrite IH by lia.
  destruct (lookup_lt_is_Some_2 a i) as [x Hx]; [lia|].
  destruct (lookup_lt_is_Some_2 b i) as [y Hy]; [lia|].
  rewrite (drop_S a x i Hx), (drop_S b y i Hy). cbn [take].
  rewrite !take_0. repeat case_bool_decide; simplify_eq; congruence.
Qed.

Lemma strncmp_ne_prefix a b n i :
  (i + n <= length a)%nat -> (i + n <= length b)%nat ->
  take n (drop i a) = take n (drop i b) -> strncmp_ne a b n i = Ok false.
Proof.
  revert i. induction n as [|n IH]; intros i Ha Hb E; cbn [strncmp_ne]; [done|].
  rewrite !mem_read_ok by lia. run_ok.
  destruct (lookup_lt_is_Some_2 a i) as [x Hx]; [lia|].
  destruct (lookup_lt_is_Some_2 b i) as [y Hy]; [lia|].
  rewrite (drop_S a x i Hx), (drop_S b y i Hy) in E |- *. cbn [take] in E |- *.
  injection E as -> E. rewrite bool_decide_true by done.
  case_bool_decide; [done|]. apply IH; [lia..|done].
Qed.

(** ** Session keys *)

(** [conn] holds the session key [k]: its size, its bytes, then unused space. *)
Definition session (conn : connect_info) (k : bytes) : Prop :=
  exists rest, additional_info conn = Some (le_bytes 8 (Z.of_nat (length k)) ++ k ++ rest).

Definition fresh (cc sc : connect_info) : Prop :=
  bss_ok (passphrase cc) /\ bss_ok (passphrase sc) /\
  str (passphrase cc) <> None /\ str (passphrase sc) <> None /\
  bss_length (passphrase cc) = bss_length (passphrase sc) /\
  bss_bytes (passphrase cc) = bss_bytes (passphrase sc).

Definition paired (cc sc : connect_info) : Prop :=
  exists k, (length k <= 64)%nat /\ session cc k /\ session sc k.

(** The AES key made of a passphrase or of a session key. *)
Definition key_of (pw : bytes) : bytes := padded_key pw (Z.of_nat (length pw)).

Lemma key_of_bss b s :
  bss_ok s -> str s = Some b -> padded_key b (bss_length s) = key_of (bss_bytes s).
Proof.
  intros Hs Eb. unfold key_of. rewrite bss_bytes_length by done. unfold bss_bytes. rewrite Eb.
  symmetry. apply padded_key_prefix. apply Hs.
Qed.

Lemma key_of_session k rest : padded_key (k ++ rest) (Z.of_nat (length k)) = key_of k.
Proof.
  rewrite <- padded_key_prefix by lia. by rewrite Nat2Z.id, take_app_length.
Qed.

Lemma ainfo_pwlen_eq k rest :
  (length k <= 64)%nat ->
  ainfo_pwlen (le_bytes 8 (Z.of_nat (length k)) ++ k ++ rest) = Ok (Z.of_nat (length k)).
Proof.
  intros Hk. unfold ainfo_pwlen. rewrite mem_read_head by done. run_ok.
  rewrite le_val_bytes; [done|]. change (256 ^ Z.of_nat 8) with (2 ^ 64). lia.
Qed.

Lemma drop_ainfo k rest : drop 8 (le_bytes 8 (Z.of_nat (length k)) ++ k ++ rest) = k ++ rest.
Proof. by rewrite drop_app_length' by done. Qed.

(** ** Packets *)

Section Packets.
Context (junk1 junk2 : nat -> Z).

Lemma encode_packet_eq c k q :
  session c k -> (length k <= 64)%nat -> query_ok q -> bss_length (payload q) + 64 < 2 ^ 32 ->
  let n := round_up (overall_size q) 16 in
  encode_packet junk1 c q = Ok (Bss false n (Some (ecb_enc (key_of k) (padded (packed junk1 q))))) /\
  n = Z.of_nat (length (padded (packed junk1 q))) /\
  bss_length (payload q) + 27 < n <= bss_length (payload q) + 43.
Proof.
  intros [rest Es] Hk Hq Hb. cbv zeta. pose proof (packed_length junk1 q Hq) as Lp.
  pose proof (overall_size_eq q Hq) as Eo. pose proof Hq as (_ & _ & _ & [Hn _]).
  destruct (round_up_spec (overall_size q)) as (H1 & _ & _); [lia..|].
  unfold encode_packet. rewrite pack_data_struct_eq by done. run_ok.
  rewrite Es. cbn [deref]. run_ok. rewrite ainfo_pwlen_eq by done. run_ok.
  rewrite drop_ainfo.
  rewrite AESEncrypt_fill_eq by (autorewrite with lens; lia). run_ok.
  rewrite key_of_session, u32_small by lia.
  rewrite padded_length by lia. rewrite Lp, <- Eo. split; [done|]. split; [done|]. lia.
Qed.

Lemma decode_encode_packet c1 c2 k q :
  session c1 k -> session c2 k -> (length k <= 64)%nat ->
  query_ok q -> bss_length (payload q) + 64 < 2 ^ 32 ->
  exists p, encode_packet junk1 c1 q = Ok p /\ bss_ok p /\
    0 < bss_length p <= bss_length (payload q) + 64 /\
    exists q', decode_packet junk2 c2 (on_wire p) = Ok q' /\ query_ok q' /\ query_equiv q' q.
Proof.
  intros S1 [rest S2] Hk Hq Hb.
  destruct (encode_packet_eq c1 k q) as (E & Ln & Hn); [done..|].
  pose proof (packed_length junk1 q Hq) as Lp. pose proof (overall_size_eq q Hq) as Eo.
  pose proof Hq as (_ & _ & _ & [Hq0 _]).
  set (n := round_up (overall_size q) 16) in *. set (pk := packed junk1 q) in *.
  assert (Wp : wf_bytes (padded pk)) by (apply padded_wf; [lia|by apply packed_wf]).
  assert (Lc : length (ecb_enc (key_of k) (padded pk)) = length (padded pk))
    by (apply ecb_enc_length; lia).
  eexists. split; [exact E|]. cbn [bss_length]. split.
  { split; cbn; [lia|]. split; [apply ecb_enc_wf; [lia|done]|lia]. }
  split; [lia|].
  unfold decode_packet, on_wire, bss_bytes. cbn [bss_length str deref]. run_ok.
  rewrite S2. cbn [deref]. run_ok. rewrite ainfo_pwlen_eq by done. run_ok.
  rewrite drop_ainfo, firstn_all2 by lia. rewrite <- (key_of_session k rest).
  rewrite AESDecrypt_fill_inverse; try (autorewrite with lens; lia).
  - run_ok. rewrite u32_small by lia. unfold padded.
    apply (unpack_packed junk1 junk2 q); [done|]. fold pk. lia.
  - by apply packed_wf.
  - unfold n. f_equal. lia.
Qed.
End Packets.

(** ** The handshake *)

Lemma AUTH_STR_wf : wf_bytes AUTH_STR.
Proof. apply bytes_of_string_wf. Qed.

Definition session_key (tmprnd : Z) : bytes := bytes_of_string "_" ++ to_string tmprnd.

Lemma session_key_facts tmprnd :
  0 <= tmprnd < 2 ^ 31 -> (2 <= length (session_key tmprnd) <= 11)%nat /\ wf_bytes (session_key tmprnd).
Proof.
  intros H. destruct (to_string_bound 10 tmprnd) as [H1 H2]; [|lia|].
  { change (10 ^ Z.of_nat 10) with 10000000000. lia. }
  unfold session_key. rewrite length_app, wf_bytes_app. cbn [length bytes_of_string].
  change (length (bytes_of_string "_")) with 1%nat. split; [lia|].
  split; [apply bytes_of_string_wf|by apply digits_wf].
Qed.

Section Handshake.
Context (junk1 junk2 : nat -> Z) (tmprnd : Z) (Hrnd : 0 <= tmprnd < 2 ^ 31).

(** The pass phrase of a connection, as the functions find it. *)
Definition pass_ready (c : connect_info) (b : bytes) : Prop :=
  bss_ok (passphrase c) /\ str (passphrase c) = Some b.

Lemma pass_bounds c b :
  pass_ready c b -> 0 <= bss_length (passphrase c) <= Z.of_nat (length b).
Proof. intros [[H1 H2] E]. rewrite E in H2. lia. Qed.

Definition auth_query (pw : bytes) : bytes := ecb_enc (key_of pw) (padded AUTH_STR).
Definition auth_text : bytes := MAGIC_STR ++ session_key tmprnd.
Definition auth_reply (pw : bytes) : bytes := ecb_enc (key_of pw) (padded auth_text).

Lemma client_query_eq c b :
  pass_ready c b ->
  client_make_auth_query c =
    Ok (Bss false 16 (Some (auth_query (bss_bytes (passphrase c)))), set_additional_info c None).
Proof.
  intros Hp. pose proof (pass_bounds c b Hp) as Hb. destruct Hp as [Hs Eb].
  unfold client_make_auth_query. cbn [passphrase set_additional_info]. rewrite Eb.
  cbn [deref]. run_ok. rewrite AESEncrypt_fill_eq by (done || lia). run_ok.
  unfold auth_query. by rewrite (key_of_bss b).
Qed.

Lemma auth_text_facts :
  (10 <= length auth_text <= 19)%nat /\ wf_bytes auth_text /\
  Z.of_nat (length (padded auth_text)) = round_up (Z.of_nat (length auth_text)) 16 /\
  16 <= round_up (Z.of_nat (length auth_text)) 16 <= 64.
Proof.
  destruct (session_key_facts tmprnd Hrnd) as [H1 H2]. unfold auth_text.
  rewrite length_app, wf_bytes_app. change (length MAGIC_STR) with 8%nat.
  assert (L : (10 <= 8 + length (session_key tmprnd) <= 19)%nat) by lia.
  split; [done|]. split; [split; [apply bytes_of_string_wf|done]|].
  destruct (round_up_spec (Z.of_nat (8 + length (session_key tmprnd)))) as (H3 & _ & H4); [lia..|].
  split; [rewrite padded_length by (rewrite length_app; change (length MAGIC_STR) with 8%nat; lia);
    by rewrite length_app|].
  split; [|lia]. rewrite H4.
  pose proof (Z.div_pos (Z.of_nat (8 + length (session_key tmprnd))) 16). lia.
Qed.

Lemma auth_success_eq c b :
  pass_ready c b ->
  exists ainfo,
  auth_success junk1 tmprnd c b =
    Ok (Bss false (Z.of_nat (length (auth_reply (bss_bytes (passphrase c)))))
          (Some (auth_reply (bss_bytes (passphrase c)))), false, set_additional_info c (Some ainfo))
  /\ session (set_additional_info c (Some ainfo)) (session_key tmprnd).
Proof.
  intros Hp. pose proof (pass_bounds c b Hp) as Hb. destruct Hp as [Hs Eb].
  destruct auth_text_facts as (T1 & T2 & T3 & T4).
  destruct (session_key_facts tmprnd Hrnd) as [K1 K2]. unfold auth_success.
  change (MAGIC_STR ++ bytes_of_string "_" ++ to_string tmprnd) with auth_text.
  change (bytes_of_string "_" ++ to_string tmprnd) with (session_key tmprnd).
  unfold sprintf_at.
  rewrite <- (take_drop (S (length auth_text)) (malloc junk1 EXCEEDING_SIZE)).
  rewrite (mem_write_head (take (S (length auth_text)) _)) by (unfold EXCEEDING_SIZE; len). run_ok.
  rewrite AESEncrypt_fill_prefix by (autorewrite with lens; lia).
  rewrite Nat2Z.id, <- app_assoc, take_app_length.
  rewrite AESEncrypt_fill_eq by (autorewrite with lens; lia). run_ok.
  set (k := session_key tmprnd) in *.
  assert (Hz : replicate EXCEEDING_SIZE 0 =
    replicate 8 0 ++ replicate (S (length k)) 0 ++ replicate (503 - length k) 0).
  { rewrite <- !replicate_add. f_equal. unfold EXCEEDING_SIZE. lia. }
  rewrite Hz. rewrite (mem_write_mid (replicate 8 0) (replicate (S (length k)) 0)) by len. run_ok.
  rewrite (mem_write_head (replicate 8 0)) by len. run_ok.
  rewrite u32_small by lia. rewrite (key_of_bss b) by done.
  unfold auth_reply. rewrite ecb_enc_length, T3 by lia.
  eexists. split.
  - reflexivity.
  - eexists. cbn [additional_info set_additional_info]. by rewrite <- !app_assoc.
Qed.

Lemma server_reply_eq c b :
  pass_ready c b ->
  exists ainfo,
  server_make_auth_reply junk1 tmprnd c (Bss false 16 (Some (auth_query (bss_bytes (passphrase c))))) =
    Ok (Bss false (Z.of_nat (length (auth_reply (bss_bytes (passphrase c)))))
          (Some (auth_reply (bss_bytes (passphrase c)))), false, set_additional_info c (Some ainfo))
  /\ session (set_additional_info c (Some ainfo)) (session_key tmprnd).
Proof.
  intros Hp. pose proof (pass_bounds c b Hp) as Hb.
  pose proof (auth_success_eq c b Hp) as Hsucc. destruct Hp as [Hs Eb].
  unfold server_make_auth_reply. cbn [str bss_length deref]. run_ok.
  rewrite Eb. cbn [deref]. run_ok. unfold auth_query. rewrite <- (key_of_bss b) by done.
  rewrite AESDecrypt_fill_inverse by first [apply AUTH_STR_wf | reflexivity | lia].
  run_ok. unfold strfullcmp. rewrite Z.eqb_refl. cbn [negb].
  rewrite strfullcmp_loop_eq by (cbn; lia). run_ok.
  rewrite bool_decide_true by reflexivity. cbn [negb]. exact Hsucc.
Qed.

Lemma client_accepts c b :
  pass_ready c b ->
  let r := auth_reply (bss_bytes (passphrase c)) in
  exists ainfo,
    client_deal_auth_reply junk2 c (Bss false (Z.of_nat (length r)) (Some r))
      = Ok (true, set_additional_info c (Some ainfo)) /\
    session (set_additional_info c (Some ainfo)) (session_key tmprnd).
Proof.
  intros Hp. pose proof (pass_bounds c b Hp) as Hb. destruct Hp as [Hs Eb].
  destruct auth_text_facts as (T1 & T2 & T3 & T4).
  destruct (session_key_facts tmprnd Hrnd) as [K1 K2]. cbv zeta.
  assert (Lr : length (auth_reply (bss_bytes (passphrase c))) = length (padded auth_text))
    by (unfold auth_reply; apply ecb_enc_length; lia).
  unfold client_deal_auth_reply. cbn [str bss_length deref]. run_ok. rewrite Eb. cbn [deref]. run_ok.
  rewrite Lr. unfold auth_reply. rewrite <- (key_of_bss b) by done.
  rewrite AESDecrypt_fill_inverse by (assumption || (autorewrite with lens; lia)).
  run_ok. change (length MAGIC_STR) with 8%nat.
  rewrite strncmp_ne_prefix; [|lia|cbn; lia|].
  2: { unfold padded, auth_text. rewrite <- !app_assoc, !drop_0, !take_app_length' by done. done. }
  run_ok. change (Z.of_nat 8) with 8.
  set (k := session_key tmprnd) in *.
  assert (Lt : length auth_text = (8 + length k)%nat) by (unfold auth_text; rewrite length_app; done).
  rewrite (u64_small (_ - 8)) by lia. unfold sizeof_sym_passphrase. rewrite u64_small by lia.
  replace (Z.of_nat (length auth_text) - 8) with (Z.of_nat (length k)) by lia.
  assert (Hz : replicate (Z.to_nat (16 + Z.of_nat (length k))) 0 =
    replicate 8 0 ++ replicate (length k) 0 ++ replicate 8 0).
  { rewrite <- !replicate_add. f_equal. lia. }
  rewrite Hz, (mem_write_head (replicate 8 0)) by len. run_ok.
  unfold padded, auth_text at 1. rewrite <- app_assoc, Nat2Z.id.
  rewrite (mem_read_mid MAGIC_STR k) by done. run_ok.
  rewrite (mem_write_mid (le_bytes 8 _) (replicate (length k) 0)) by len. run_ok.
  eexists. split; [reflexivity|]. eexists. reflexivity.
Qed.
End Handshake.

#[global] Instance se_proxy_laws junk tmprnd (Hrnd : 0 <= tmprnd < 2 ^ 31) :
  ModuleLaws (se_proxy junk tmprnd) fresh paired.
Proof.
  constructor.
  - intros cc sc (H1 & H2 & H3 & H4 & H5 & H6).
    destruct (str (passphrase cc)) as [b1|] eqn:E1; [|done].
    destruct (str (passphrase sc)) as [b2|] eqn:E2; [|done].
    destruct (server_reply_eq junk tmprnd Hrnd sc b2) as (a2 & R & S2); [by split|].
    destruct (client_accepts junk tmprnd Hrnd (set_additional_info cc None) b1) as (a1 & D & S1); [by split|].
    assert (P16 : length (padded AUTH_STR) = 16%nat) by reflexivity.
    assert (Lq : length (auth_query (bss_bytes (passphrase cc))) = 16%nat)
      by (unfold auth_query; rewrite ecb_enc_length; lia).
    destruct (auth_text_facts tmprnd Hrnd) as (T1 & T2 & T3 & T4).
    set (r := auth_reply tmprnd (bss_bytes (passphrase cc))) in *.
    assert (Lr : length r = length (padded (auth_text tmprnd)))
      by (unfold r, auth_reply; apply ecb_enc_length; lia).
    do 5 eexists. split; [apply (client_query_eq cc b1); by split|]. split.
    { split; [|cbn [bss_length]; destruct H1; lia]. split; cbn [bss_length str]; [lia|]. split; [|lia].
      apply ecb_enc_wf; [lia|]. apply padded_wf; [cbn; lia|apply AUTH_STR_wf]. }
    split.
    { rewrite on_wire_full by lia. rewrite H6. exact R. }
    rewrite <- H6. fold r. split.
    { split; [|cbn [bss_length]; lia]. split; cbn [bss_length str]; [lia|]. split; [|lia].
      unfold r, auth_reply. apply ecb_enc_wf; [lia|]. apply padded_wf; [lia|done]. }
    split.
    { unfold onAuthReply. rewrite bss_bytes_full by done. cbn [bss_length].
      rewrite u32_small by lia. exact D. }
    exists (session_key tmprnd). destruct (session_key_facts tmprnd Hrnd). split; [lia|]. by split.
  - intros cc sc q (k & Hk & S1 & S2) Hq Hb. by apply (decode_encode_packet junk junk cc sc k).
  - intros cc sc q (k & Hk & S1 & S2) Hq Hb. by apply (decode_encode_packet junk junk sc cc k).
Qed.

(** ** Properties *)

(** C7: A whole se_proxy session. For every passphrase shared by both sides
    and every value of [rand()], the handshake succeeds, both sides end up with
    the same session key ["_" ++ rand], and any query the client encodes is
    decoded by the server to the same destination, port and payload. *)
Theorem se_proxy_session (junkc junks : nat -> Z) (tmprnd : Z) (cc sc : connect_info) (q : client_query) :
  fresh cc sc -> 0 <= tmprnd < 2 ^ 31 -> query_ok q -> bss_length (payload q) + 64 < 2 ^ 32 ->
  exists query cc1 reply sc1 cc2 p q',
    client_make_auth_query cc = Ok (query, cc1) /\
    server_make_auth_reply junks tmprnd sc (on_wire query) = Ok (reply, false, sc1) /\
    client_deal_auth_reply junkc cc1 (on_wire reply) = Ok (true, cc2) /\
    session cc2 (session_key tmprnd) /\ session sc1 (session_key tmprnd) /\
    client_encode junkc cc2 q = Ok p /\
    server_decode junks sc1 (on_wire p) = Ok q' /\ query_equiv q' q.
Proof.
  intros (H1 & H2 & H3 & H4 & H5 & H6) Hrnd Hq Hb.
  destruct (str (passphrase cc)) as [b1|] eqn:E1; [|done].
  destruct (str (passphrase sc)) as [b2|] eqn:E2; [|done].
  destruct (server_reply_eq junks tmprnd Hrnd sc b2) as (a2 & R & S2); [by split|].
  destruct (client_accepts junkc tmprnd Hrnd (set_additional_info cc None) b1) as (a1 & D & S1); [by split|].
  destruct (session_key_facts tmprnd Hrnd) as [K1 _].
  destruct (decode_encode_packet junkc junks _ _ (session_key tmprnd) q S1 S2) as
    (p & Ep & _ & _ & q' & Ed & _ & Eq); [lia|done|done|].
  assert (Lq : length (auth_query (bss_bytes (passphrase cc))) = 16%nat).
  { unfold auth_query. rewrite ecb_enc_length; [reflexivity|]. apply Nat.leb_le. reflexivity. }
  do 7 eexists. split; [apply (client_query_eq cc b1); by split|]. split.
  { rewrite on_wire_full by lia. rewrite H6. exact R. }
  split. { rewrite on_wire_full by done. rewrite <- H6. exact D. }
  split; [exact S1|]. split; [exact S2|]. split; [exact Ep|]. by split.
Qed.

(** A connection with the passphrase ["pw"] and a small query to 1.2.3.4:80. *)
Definition sample_conn : connect_info :=
  ConnInfo (replicate 16 0) 80 (Bss true 2 (Some (bytes_of_string "pw" ++ [0]))) 3 None.
Definition sample_query : client_query :=
  Query ([1; 2; 3; 4] ++ replicate 12 0) 80 (Bss false 5 (Some (bytes_of_string "hello"))).

Lemma sample_query_ok : query_ok sample_query.
Proof.
  split; [reflexivity|]. split; [apply (bool_decide_unpack _); reflexivity|]. cbn.
  split; [lia|]. split; cbn -[wf_bytes]; [lia|].
  split; [apply (bool_decide_unpack _); reflexivity|lia].
Qed.

Lemma sample_conn_fresh : fresh sample_conn sample_conn.
Proof.
  assert (H : bss_ok (passphrase sample_conn)).
  { split; cbn -[wf_bytes]; [lia|]. split; [|lia]. apply (bool_decide_unpack _). reflexivity. }
  split_and!; done.
Qed.

Lemma se_proxy_session_witness :
  exists query cc1 reply sc1 cc2 p q',
    client_make_auth_query sample_conn = Ok (query, cc1) /\
    server_make_auth_reply (fun _ => 7) 1234567 sample_conn (on_wire query) = Ok (reply, false, sc1) /\
    client_deal_auth_reply (fun _ => 9) cc1 (on_wire reply) = Ok (true, cc2) /\
    session cc2 (session_key 1234567) /\ session sc1 (session_key 1234567) /\
    client_encode (fun _ => 9) cc2 sample_query = Ok p /\
    server_decode (fun _ => 7) sc1 (on_wire p) = Ok q' /\ query_equiv q' sample_query.
Proof.
  apply (se_proxy_session (fun _ => 9) (fun _ => 7) 1234567 sample_conn sample_conn sample_query);
    [apply sample_conn_fresh|lia|apply sample_query_ok|cbn; lia].
Defined.

(** Se_proxy sends the payload in the clear. Whatever the session key, the
    packet that [client_encode] puts on the wire contains the destination port
    (bytes 16-17) and the whole payload (from byte 24 on) unencrypted; only the
    sixteen bytes of the destination address go through the cipher. *)
Theorem se_proxy_payload_in_clear (junk : nat -> Z) (conn : connect_info) (k : bytes) (q : client_query) :
  session conn k -> (length k <= 64)%nat -> query_ok q -> bss_length (payload q) + 64 < 2 ^ 32 ->
  exists p, client_encode junk conn q = Ok p /\
    take 2 (drop 16 (bss_bytes p)) = le_bytes 2 (destination_port q) /\
    take (Z.to_nat (bss_length (payload q))) (drop 24 (bss_bytes p)) = bss_bytes (payload q).
Proof.
  intros Hs Hk Hq Hb. destruct (encode_packet_eq junk conn k q) as (E & Ln & Hn); [done..|].
  pose proof (packed_length junk q Hq) as Lp. pose proof Hq as (H1 & _ & _ & H4).
  pose proof (bss_bytes_length _ H4) as Lb. destruct H4 as [H4 _].
  set (n := round_up (overall_size q) 16) in *.
  eexists. split; [exact E|]. rewrite bss_bytes_full by (rewrite ecb_enc_length; lia).
  replace 24%nat with (16 + 8)%nat by done. rewrite <- drop_drop, ecb_enc_tail by lia.
  unfold padded, packed. set (g := malloc _ _). rewrite <- !app_assoc.
  rewrite drop_app_length' by done. split; [by rewrite take_app_length' by done|].
  rewrite (app_assoc (le_bytes 2 _)), (app_assoc (_ ++ _)).
  rewrite drop_app_length'. 2: { unfold g. pose proof (overall_size_eq q Hq). len. }
  by rewrite take_app_length' by lia.
Qed.

Lemma se_proxy_payload_in_clear_witness :
  exists p, client_encode (fun _ => 0)
      (set_additional_info sample_conn (Some (le_bytes 8 3 ++ bytes_of_string "_42" ++ replicate 8 0)))
      sample_query = Ok p /\
    take 2 (drop 16 (bss_bytes p)) = le_bytes 2 80 /\
    take (Z.to_nat 5) (drop 24 (bss_bytes p)) = bss_bytes (payload sample_query).
Proof.
  apply (se_proxy_payload_in_clear (fun _ => 0) _ (bytes_of_string "_42") sample_query);
    [eexists; reflexivity|cbn; lia|apply sample_query_ok|cbn; lia].
Defined.

(** Who is let in. On an authentication packet of at least one block, the
    server never crashes; it keeps the connection exactly when the packet
    decrypts, under its passphrase and after removing the padding, to
    [AUTH_STR], and otherwise answers with the single byte 1 and closes. *)
Theorem server_auth_decision (junk : nat -> Z) (tmprnd : Z) (conn : connect_info) (b d : bytes) :
  pass_ready conn b -> 0 <= tmprnd < 2 ^ 31 -> (16 <= length d)%nat -> Z.of_nat (length d) < 2 ^ 32 ->
  let n := Z.of_nat (length d) in
  let p := ecb_dec (key_of (bss_bytes (passphrase conn))) d in
  let accepted := u64 (n - schar (nth (length d - 1) p 0)) = 10 /\ take 10 p = AUTH_STR in
  exists reply closing conn',
    server_make_auth_reply junk tmprnd conn (Bss false n (Some d)) = Ok (reply, closing, conn') /\
    (closing = false <-> accepted) /\
    (closing = true -> reply = Bss false 1 (Some [1]) /\ conn' = conn).
Proof.
  intros Hp Hrnd Hd Hd32 n p accepted. pose proof (pass_bounds conn b Hp) as Hb.
  pose proof (auth_success_eq junk tmprnd Hrnd conn b Hp) as Hsucc. destruct Hp as [Hs Eb].
  unfold server_make_auth_reply. cbn [str bss_length deref]. run_ok. rewrite Eb. cbn [deref]. run_ok.
  rewrite AESDecrypt_fill_eq by (autorewrite with lens; lia). cbv zeta. run_ok.
  rewrite (key_of_bss b) by done. fold p. fold n.
  replace (Z.to_nat (n - 1)) with (length d - 1)%nat by (unfold n; lia).
  assert (Lp : length p = length d) by (apply ecb_dec_length; lia).
  unfold strfullcmp. change (Z.of_nat (length AUTH_STR)) with 10.
  unfold accepted. set (rlen := u64 _). destruct (Z.eqb_spec rlen 10) as [El|El]; cbn [negb].
  2: { run_ok. cbn [negb]. do 3 eexists. split; [reflexivity|]. split; [|done]. split; [done|]. tauto. }
  rewrite El. change (Z.to_nat 10) with 10%nat. rewrite strfullcmp_loop_eq by (cbn; lia). run_ok.
  rewrite !drop_0. change (take 10 AUTH_STR) with AUTH_STR.
  case_bool_decide as Ea; cbn [negb].
  2: { do 3 eexists. split; [reflexivity|]. split; [|done]. split; [done|]. tauto. }
  destruct Hsucc as (ainfo & -> & _). do 3 eexists. split; [reflexivity|]. split; [|done]. done.
Qed.

Lemma server_auth_decision_witness :
  let n := 16 in
  let p := ecb_dec (key_of (bss_bytes (passphrase sample_conn))) (replicate 16 5) in
  let accepted := u64 (n - schar (nth 15 p 0)) = 10 /\ take 10 p = AUTH_STR in
  exists reply closing conn',
    server_make_auth_reply (fun _ => 0) 7 sample_conn (Bss false n (Some (replicate 16 5)))
      = Ok (reply, closing, conn') /\
    (closing = false <-> accepted) /\
    (closing = true -> reply = Bss false 1 (Some [1]) /\ conn' = sample_conn).
Proof.
  apply (server_auth_decision (fun _ => 0) 7 sample_conn (bytes_of_string "pw" ++ [0]) (replicate 16 5));
    try (cbn; lia). split; [apply sample_conn_fresh|reflexivity].
Defined.

(** Packets shorter than a block. An authentication packet of fewer than
    sixteen bytes makes the server access memory outside the buffer it
    allocated, before any check of the passphrase; and the one-byte reply by
    which the server rejects a client makes the client do the same. *)
Theorem short_auth_packet_undefined (junk : nat -> Z) (tmprnd : Z) (conn : connect_info) (b d : bytes) :
  pass_ready conn b -> (length d < 16)%nat ->
  server_make_auth_reply junk tmprnd conn (Bss false (Z.of_nat (length d)) (Some d)) = Undefined OobRead /\
  client_deal_auth_reply junk conn (Bss false 1 (Some [1])) = Undefined OobRead.
Proof.
  intros Hp Hd. pose proof (pass_bounds conn b Hp) as Hb. destruct Hp as [Hs Eb].
  assert (H : forall d, (length d < 16)%nat ->
    AESDecrypt d b (malloc junk (length d)) (Z.of_nat (length d)) (bss_length (passphrase conn)) Q_AES_FLAG_FILL
    = Undefined OobRead).
  { clear d Hd. intros d Hd. unfold AESDecrypt, Q_AES_FLAG_FILL. cbn [Z.eqb negb].
    rewrite pad_key_eq by lia. run_ok. rewrite u32_small, Nat2Z.id by lia.
    unfold AES_ECB_decrypt. rewrite (mem_read_all d) by done. run_ok.
    rewrite <- (app_nil_r (malloc junk _)), mem_write_head by len. run_ok.
    rewrite (mem_read_all (padded_key _ _)) by (symmetry; apply padded_key_length; lia). run_ok.
    unfold in_place. rewrite mem_read_ub by (rewrite app_nil_r; unfold BLOCKLEN; lia). done. }
  split.
  - unfold server_make_auth_reply. cbn [str bss_length deref]. run_ok. rewrite Eb. cbn [deref]. run_ok.
    rewrite Nat2Z.id, H by done. done.
  - unfold client_deal_auth_reply. cbn [str bss_length deref]. run_ok. rewrite Eb. cbn [deref]. run_ok.
    change 1 with (Z.of_nat (length [1])) at 2. change (Z.to_nat 1) with (length [1]).
    rewrite H by (cbn; lia). done.
Qed.

Lemma short_auth_packet_undefined_witness :
  server_make_auth_reply (fun _ => 0) 7 sample_conn (Bss false 3 (Some [1; 2; 3])) = Undefined OobRead /\
  client_deal_auth_reply (fun _ => 0) sample_conn (Bss false 1 (Some [1])) = Undefined OobRead.
Proof.
  apply (short_auth_packet_undefined (fun _ => 0) 7 sample_conn (bytes_of_string "pw" ++ [0]) [1; 2; 3]);
    [|cbn; lia]. split; [apply sample_conn_fresh|reflexivity].
Defined.

End SeProxy.
