(* ===== verification/SockIO.v ===== *)
(** * Sockets and exact-length transfers (native/src/lib/rlib/sys/sio.hpp)

    The operating system seen through its socket calls, a state and error
    monad over it, and the I/O helpers of [rlib]: [fdIO] and [sockIO] with
    their loops around [read], [write], [recv] and [send], messages with a
    head, and the construction of listening and connected sockets.

    A socket holds the bytes that will arrive on it ([inbuf]), whether the
    peer then closes, and two scripts which say what each system call does:
    transfer at most so many bytes, be interrupted by a signal, or fail.  All
    theorems are about every script, hence about every segmentation of the
    stream by the network. *)

From S2P Require Import Prelude.
From stdpp Require Import gmap.

Open Scope Z_scope.

Module SockIO.

(** ** The operating system *)

Inductive io_event :=
| Chunk (k : nat) (** at most [k + 1] bytes are transferred *)
| Intr            (** the call returns -1 with [EINTR] *)
| Fail            (** the call returns -1 with another [errno] *)
| Epipe.          (** the peer no longer reads: [send] raises [SIGPIPE], or returns -1 with [EPIPE] *)

Record sock := Sock {
  inbuf : bytes;
  at_eof : bool;
  rscript : list io_event;
  outbuf : bytes;
  wscript : list io_event;
  is_open : bool;
}.

(** [selects]: the descriptors each call of [select] reports ready, [None] for
    a failing call.  [pending]: what each call of [accept] returns. *)
Record world := World {
  socks : gmap Z sock;
  selects : list (option (list Z));
  pending : list Z;
}.

Definition put_sock (w : world) (fd : Z) (s : sock) : world :=
  World (<[fd := s]> (socks w)) (selects w) (pending w).

Definition set_open (s : sock) (b : bool) : sock :=
  Sock (inbuf s) (at_eof s) (rscript s) (outbuf s) (wscript s) b.

Definition after_recv (s : sock) (m : nat) (es : list io_event) : sock :=
  Sock (drop m (inbuf s)) (at_eof s) es (outbuf s) (wscript s) (is_open s).

Definition after_send (s : sock) (d : bytes) (es : list io_event) : sock :=
  Sock (inbuf s) (at_eof s) (rscript s) (outbuf s ++ d) es (is_open s).

(** ** Computations with effects *)

(** State and errors over a state [W]; [io] is the case of the operating
    system alone. *)
Definition st (W A : Type) : Type := W -> outcome A * W.
Abbreviation io := (st world).

#[global] Instance st_ret {W} : MRet (st W) := fun A a w => (Ok a, w).
#[global] Instance st_bind {W} : MBind (st W) := fun A B k m w =>
  match m w with
  | (Ok a, w') => k a w'
  | (Throw e, w') => (Throw e, w')
  | (Undefined u, w') => (Undefined u, w')
  | (Blocked, w') => (Blocked, w')
  end.

Definition lift {W A} (o : outcome A) : st W A := fun w => (o, w).
Definition asks {W A} (f : W -> A) : st W A := fun w => (Ok (f w), w).
Definition throw {W A} (e : exn) : st W A := lift (Throw e).

(** A function with a local variable of type [L] that its scope guards refer
    to: the variable is part of the state. *)
Definition embed {L A} (m : io A) : st (L * world) A := fun lw =>
  let '(o, w) := m lw.2 in (o, (lw.1, w)).
Definition get_local {L} : st (L * world) L := fun lw => (Ok lw.1, lw).
Definition set_local {L} (l : L) : st (L * world) unit := fun lw => (Ok tt, (l, lw.2)).
Definition with_local {L A} (l : L) (m : st (L * world) A) : io A := fun w =>
  let '(o, lw) := m (l, w) in (o, lw.2).

(** A guard runs in a destructor, which is [noexcept]: [std::terminate] ends the
    process when it throws. *)
Definition noexcept {W A} (m : st W A) : st W A := fun w =>
  match m w with
  | (Throw _, w') => (Blocked, w')
  | r => r
  end.

(** [rlib_defer]: [g] runs when [m] returns or throws. *)
Definition defer {W A} (g : st W unit) (m : st W A) : st W A := fun w =>
  match m w with
  | (Ok a, w') => (_ ← noexcept g; mret a) w'
  | (Throw e, w') => (_ ← noexcept g; throw e) w'
  | r => r
  end.

(** [try { m } catch(std::exception &e) { h }]. *)
Definition try_catch {W A} (m : st W A) (h : exn -> st W A) : st W A := fun w =>
  match m w with
  | (Throw e, w') => h e w'
  | r => r
  end.

(** ** System calls *)

Inductive sysret := Done (n : Z) | Eintr | Eother.

(** [recv] and [read]: the bytes are written to [buf] from offset [off] on. *)
Definition recv (fd : Z) (buf : bytes) (off : nat) (n : Z) : io (sysret * bytes) := fun w =>
  match socks w !! fd with
  | None => (Ok (Eother, buf), w)
  | Some s =>
      if negb (is_open s) then (Ok (Eother, buf), w)
      else match rscript s with
      | Intr :: es => (Ok (Eintr, buf), put_sock w fd (after_recv s 0 es))
      | (Fail | Epipe) :: es => (Ok (Eother, buf), put_sock w fd (after_recv s 0 es))
      | es =>
          if n <=? 0 then (Ok (Done 0, buf), w)
          else match inbuf s with
          | [] => if at_eof s then (Ok (Done 0, buf), w) else (Blocked, w)
          | _ :: _ =>
              let limit := match es with Chunk k :: _ => S k | _ => length (inbuf s) end in
              let m := Z.to_nat (Z.min n (Z.of_nat (Nat.min limit (length (inbuf s))))) in
              match mem_write buf off (take m (inbuf s)) with
              | Ok buf' => (Ok (Done (Z.of_nat m), buf'), put_sock w fd (after_recv s m (tail es)))
              | _ => (Undefined OobWrite, w)
              end
          end
      end
  end.

Definition MSG_NOSIGNAL : Z := 0x4000.

(** [send]. The default action of [SIGPIPE], which the program never changes, ends
    the process: the call does not return. *)
Definition send (fd : Z) (buf : bytes) (off : nat) (n : Z) (flags : Z) : io sysret := fun w =>
  match socks w !! fd with
  | None => (Ok Eother, w)
  | Some s =>
      if negb (is_open s) then (Ok Eother, w)
      else match wscript s with
      | Intr :: es => (Ok Eintr, put_sock w fd (after_send s [] es))
      | Fail :: es => (Ok Eother, put_sock w fd (after_send s [] es))
      | Epipe :: es =>
          if Z.land flags MSG_NOSIGNAL =? 0 then (Blocked, put_sock w fd (after_send s [] es))
          else (Ok Eother, put_sock w fd (after_send s [] es))
      | es =>
          if n <=? 0 then (Ok (Done 0), w)
          else if Z.of_nat (length buf) <? Z.of_nat off + n then (Undefined OobRead, w)
          else
            let d := take (Z.to_nat n) (drop off buf) in
            let m := match es with Chunk k :: _ => Nat.min (S k) (length d) | _ => length d end in
            (Ok (Done (Z.of_nat m)), put_sock w fd (after_send s (take m d) (tail es)))
      end
  end.

Definition close (fd : Z) : io unit := fun w =>
  match socks w !! fd with
  | Some s => (Ok tt, put_sock w fd (set_open s false))
  | None => (Ok tt, w)
  end.

Definition accept : io Z := fun w =>
  match pending w with
  | fd :: l => (Ok fd, World (socks w) (selects w) l)
  | [] => (Blocked, w)
  end.

(** [select] on the descriptors [fds]: which of them are ready.  Descriptors are
    below [FD_SETSIZE]: for a larger one [FD_SET] writes outside of the set, which
    the model does not show. *)
Definition select (fds : list Z) : io (option (list Z)) := fun w =>
  match selects w with
  | [] => (Blocked, w)
  | None :: l => (Ok None, World (socks w) l (pending w))
  | Some r :: l => (Ok (Some (filter (fun fd => fd ∈ r) fds)), World (socks w) l (pending w))
  end.

(** ** Exact-length loops

    [nleft] and [ptr] of the source are [nleft] and [off].  An iteration either
    ends the loop, or takes an event from the script, or takes a byte from the
    stream; [recv_fuel] and [send_fuel] count these. *)

Definition recv_fuel (w : world) (fd : Z) : nat :=
  match socks w !! fd with Some s => S (length (rscript s) + length (inbuf s)) | None => 1 end.

Definition send_fuel (w : world) (fd : Z) (n : Z) : nat :=
  match socks w !! fd with Some s => S (length (wscript s) + Z.to_nat n) | None => 1 end.

Fixpoint recvn_loop (fuel : nat) (fd : Z) (buf : bytes) (off : nat) (nleft : Z) : io (bool * bytes) :=
  match fuel with
  | O => lift Blocked
  | S fuel =>
      if nleft <=? 0 then mret (true, buf)
      else
        r ← recv fd buf off nleft;
        match r with
        | (Eintr, buf) => recvn_loop fuel fd buf off nleft
        | (Eother, buf) => mret (false, buf)
        | (Done nread, buf) =>
            if nread =? 0 then mret (false, buf)
            else recvn_loop fuel fd buf (off + Z.to_nat nread) (nleft - nread)
        end
  end.

Fixpoint sendn_loop (fuel : nat) (fd : Z) (buf : bytes) (off : nat) (nleft : Z) (flags : Z) : io bool :=
  match fuel with
  | O => lift Blocked
  | S fuel =>
      if nleft <=? 0 then mret true
      else
        r ← send fd buf off nleft flags;
        match r with
        | Eintr => sendn_loop fuel fd buf off nleft flags
        | Eother => mret false
        | Done nwritten =>
            if nwritten <=? 0 then mret false
            else sendn_loop fuel fd buf (off + Z.to_nat nwritten) (nleft - nwritten) flags
        end
  end.

(** The [size_t] count as an [ssize_t] result. *)
Definition s64 (z : Z) : Z := if z <? 2 ^ 63 then z else z - 2 ^ 64.

Definition recvn (fd : Z) (buf : bytes) (off : nat) (n : Z) : io (Z * bytes) :=
  fuel ← asks (fun w => recv_fuel w fd);
  r ← recvn_loop fuel fd buf off n;
  mret ((if r.1 : bool then s64 n else -1), r.2).

Definition sendn (fd : Z) (buf : bytes) (n : Z) (flags : Z) : io Z :=
  fuel ← asks (fun w => send_fuel w fd n);
  ok ← sendn_loop fuel fd buf 0 n flags;
  mret (if ok : bool then s64 n else -1).

(** [fdIO] runs the same loops around [read] and [write], which act on a
    socket as [recv] and [send] with no flags do. *)
Definition readn := recvn.
Definition writen (fd : Z) (buf : bytes) (n : Z) : io Z := sendn fd buf n 0.

Definition recvn_ex (fd : Z) (buf : bytes) (off : nat) (n : Z) : io bytes :=
  r ← recvn fd buf off n;
  if r.1 =? -1 then throw (runtime_error "recvn failed.") else mret r.2.

Definition sendn_ex (fd : Z) (buf : bytes) (n : Z) (flags : Z) : io unit :=
  ret ← sendn fd buf n flags;
  if ret =? -1 then throw (runtime_error "sendn failed.") else mret tt.

Definition readn_ex (fd : Z) (buf : bytes) (off : nat) (n : Z) : io bytes :=
  r ← readn fd buf off n;
  if r.1 =? -1 then throw (runtime_error "readn failed.") else mret r.2.

Definition writen_ex (fd : Z) (buf : bytes) (n : Z) : io unit :=
  ret ← writen fd buf n;
  if ret =? -1 then throw (runtime_error "writen failed.") else mret tt.

(** ** Reading whatever there is

    [*pvptr] before the call: null, a buffer, or a pointer that was never
    initialised. *)
Inductive pointer := Null | Ptr (b : bytes) | Indeterminate.

Section ReadAll.
Variable junk : nat -> Z.
(** Whether [realloc] to a given size succeeds. *)
Variable realloc_ok : Z -> bool.

Definition realloc (b : bytes) (n : Z) : bytes :=
  take (Z.to_nat n) b ++ malloc junk (Z.to_nat n - length b).

Definition initial_buffer (pvptr : pointer) (current : Z) : outcome bytes :=
  match pvptr with
  | Null => Ok (malloc junk (Z.to_nat current))
  | Ptr b => Ok b
  | Indeterminate => Undefined Uninitialised
  end.

(** The [while(true)] loop: [ret < current] is tested against the full size of
    the buffer although at most half of it was requested. *)
Fixpoint recvall_loop (fuel : nat) (fd : Z) (vptr : bytes) (current : Z) : io (Z * bytes) :=
  match fuel with
  | O => lift Blocked
  | S fuel =>
      r ← recv fd vptr (Z.to_nat (current / 2)) (current / 2);
      match r with
      | (Done ret, vptr) =>
          if ret <? current then mret (ret + current / 2, vptr)
          else
            let current := u64 (current * 2) in
            if realloc_ok current then recvall_loop fuel fd (realloc vptr current) current
            else mret (-1, vptr)
      | (_, vptr) => mret (-1, vptr)
      end
  end.

Definition recvall (fd : Z) (pvptr : pointer) (initSize : Z) : io (Z * bytes) :=
  let current := if initSize =? 0 then 1024 else initSize in
  vptr ← lift (initial_buffer pvptr current);
  r ← recv fd vptr 0 (current / 2);
  match r with
  | (Done ret, vptr) =>
      if ret <? current / 2 then mret (ret, vptr)
      else
        fuel ← asks (fun w => recv_fuel w fd);
        recvall_loop fuel fd vptr current
  | (_, vptr) => mret (-1, vptr)
  end.

(** The Win32 version retries when interrupted. *)
Fixpoint recv_retry (fuel : nat) (fd : Z) (vptr : bytes) (off : nat) (n : Z) : io (sysret * bytes) :=
  match fuel with
  | O => lift Blocked
  | S fuel =>
      r ← recv fd vptr off n;
      match r with
      | (Eintr, vptr) => recv_retry fuel fd vptr off n
      | r => mret r
      end
  end.

Fixpoint win32_recvall_loop (fuel : nat) (fd : Z) (vptr : bytes) (current : Z) : io (Z * bytes) :=
  match fuel with
  | O => lift Blocked
  | S fuel =>
      r ← recv fd vptr (Z.to_nat (current / 2)) (current / 2);
      match r with
      | (Eintr, vptr) => win32_recvall_loop fuel fd vptr current
      | (Eother, vptr) => mret (-1, vptr)
      | (Done ret, vptr) =>
          if ret <? current then mret (ret + current / 2, vptr)
          else
            let current := u64 (current * 2) in
            if realloc_ok current then win32_recvall_loop fuel fd (realloc vptr current) current
            else mret (-1, vptr)
      end
  end.

Definition win32_recvall (fd : Z) (pvptr : pointer) (initSize : Z) : io (Z * bytes) :=
  let current := if initSize =? 0 then 1024 else initSize in
  vptr ← lift (initial_buffer pvptr current);
  fuel ← asks (fun w => recv_fuel w fd);
  r ← recv_retry fuel fd vptr 0 (current / 2);
  match r with
  | (Done ret, vptr) =>
      if ret <? current / 2 then mret (ret, vptr)
      else
        fuel ← asks (fun w => recv_fuel w fd);
        win32_recvall_loop fuel fd vptr current
  | (_, vptr) => mret (-1, vptr)
  end.

Definition readall := recvall.

Definition recvall_ex (fd : Z) (pvptr : pointer) (initSize : Z) : io (Z * bytes) :=
  r ← recvall fd pvptr initSize;
  if r.1 =? -1 then throw (runtime_error "recvall failed.") else mret r.

Definition readall_ex (fd : Z) (pvptr : pointer) (initSize : Z) : io (Z * bytes) :=
  r ← readall fd pvptr initSize;
  if r.1 =? -1 then throw (runtime_error "readall failed.") else mret r.

(** [void *ptr = NULL;] in one, [void *ptr;] in the other. *)
Definition quick_recvall (fd : Z) : io bytes :=
  r ← recvall_ex fd Null 0;
  lift (mem_read r.2 0 (Z.to_nat r.1)).

Definition quick_readall (fd : Z) : io bytes :=
  r ← readall_ex fd Indeterminate 0;
  lift (mem_read r.2 0 (Z.to_nat r.1)).

End ReadAll.

Definition quick_recvn (fd : Z) (n : Z) : io bytes :=
  recvn_ex fd (replicate (Z.to_nat n) 48) 0 n.

Definition quick_send (fd : Z) (data : bytes) : io unit :=
  sendn_ex fd data (Z.of_nat (length data)) MSG_NOSIGNAL.

Definition quick_readn (fd : Z) (n : Z) : io bytes :=
  readn_ex fd (replicate (Z.to_nat n) 48) 0 n.

Definition quick_write (fd : Z) (data : bytes) : io unit :=
  writen_ex fd data (Z.of_nat (length data)).

(** [MakeNonBlocking] over [fcntl] with [F_GETFL] and [F_SETFL]: [None] is
    [exit(-1)], otherwise the flags that were set. *)
Definition O_NONBLOCK : Z := 2048.

Definition MakeNonBlocking (getfl : Z -> Z) (setfl : Z -> Z -> Z) (fd : Z) : option Z :=
  let flags := getfl fd in
  if flags =? -1 then None
  else
    let flags := Z.lor flags O_NONBLOCK in
    if setfl fd flags =? -1 then None else Some flags.

(** ** Messages with a head *)

Definition msg_magic : Z := 0x19980427.

(** [struct packed_msg_head {uint32_t magic; uint64_t len;}], packed. *)
Definition packed_msg_head (len : Z) : bytes := le_bytes 4 msg_magic ++ le_bytes 8 len.

Definition recv_msg (junk : nat -> Z) (fd : Z) : io bytes :=
  head ← recvn_ex fd (le_bytes 4 msg_magic ++ malloc junk 8) 0 12;
  if negb (le_val (take 4 head) =? msg_magic) then throw (runtime_error "Invalid magic received.")
  else
    let len := le_val (drop 4 head) in
    if 1024 * 1024 * 1024 * 2 <? len then
      throw (runtime_error "Message len is greater than 2GiB. Refuse to alloc space.")
    else recvn_ex fd (replicate (Z.to_nat len) 0) 0 len.

Definition send_msg (fd : Z) (dat : bytes) : io unit :=
  _ ← sendn_ex fd (packed_msg_head (Z.of_nat (length dat))) 12 MSG_NOSIGNAL;
  sendn_ex fd dat (Z.of_nat (length dat)) MSG_NOSIGNAL.

(** ** Creating sockets

    [getaddrinfo] answers with candidate addresses; for each, the environment
    says which descriptor [socket] returns (-1 if it fails) and whether the
    following calls on it succeed. *)

Record addrinfo := AddrInfo {
  ai_fd : Z;
  ai_reuseaddr : bool;
  ai_reuseport : bool;
  ai_bind : bool;  (** [bind], or [connect], returns 0 *)
}.

Section Dial.
Variable getaddrinfo : bytes -> bytes -> bool -> Z + list addrinfo.
Variable sys_listen : Z -> bool.

Definition socket (rp : addrinfo) : io Z := fun w =>
  if ai_fd rp =? -1 then (Ok (-1), w)
  else (Ok (ai_fd rp),
        put_sock w (ai_fd rp)
          (match socks w !! ai_fd rp with
           | Some s => set_open s true
           | None => Sock [] false [] [] [] true
           end)).

(** The [for] loop over the candidates, shared by the two functions. *)
Fixpoint try_addrs (l : list addrinfo) : io (option Z) :=
  match l with
  | [] => mret None
  | rp :: l =>
      sockfd ← socket rp;
      if sockfd =? -1 then try_addrs l
      else if negb (ai_reuseaddr rp) then throw (runtime_error "setsockopt(SO_REUSEADDR) failed")
      else if negb (ai_reuseport rp) then throw (runtime_error "setsockopt(SO_REUSEPORT) failed")
      else if ai_bind rp then mret (Some sockfd)
      else _ ← close sockfd; try_addrs l
  end.

Definition quick_connect (addr : bytes) (port : Z) (use_udp : bool) : io Z :=
  match getaddrinfo addr (to_string port) use_udp with
  | inl _ => throw (runtime_error "getaddrinfo failed.")
  | inr paddr =>
      r ← try_addrs paddr;
      match r with
      | Some sockfd => mret sockfd
      | None => throw (runtime_error "Failed to connect to any of these addr.")
      end
  end.

Definition quick_listen (addr : bytes) (port : Z) (use_udp : bool) : io Z :=
  match getaddrinfo addr (to_string port) use_udp with
  | inl _ => throw (runtime_error "Failed to getaddrinfo.")
  | inr psaddr =>
      r ← try_addrs psaddr;
      match r with
      | Some listenfd =>
          if negb use_udp && negb (sys_listen listenfd) then throw (runtime_error "listen failed.")
          else mret listenfd
      | None => throw (runtime_error "Failed to bind.")
      end
  end.

End Dial.

Definition quick_accept : io Z :=
  res ← accept;
  if res =? -1 then throw (runtime_error "accept failed.") else mret res.

(** The peer address of a socket: family, address and port in network order. *)
Inductive ss_family := AF_INET | AF_OTHER.
Record sockaddr := SockAddr { family : ss_family; sin_addr : bytes; sin_port : Z }.

Definition get_peer_name (getpeername : Z -> option sockaddr)
    (inet_ntop : ss_family -> bytes -> option bytes) (fd : Z) : outcome (bytes * Z) :=
  match getpeername fd with
  | None => Throw (runtime_error "getpeername failed.")
  | Some addr =>
      match inet_ntop (family addr) (sin_addr addr) with
      | None => Throw (runtime_error "inet_ntop failed.")
      | Some str =>
          match family addr with
          | AF_INET => Ok (str, ntohs (sin_port addr))
          | AF_OTHER => Ok (bytes_of_string "[" ++ str ++ bytes_of_string "]", ntohs (sin_port addr))
          end
      end
  end.

(** ** Facts about the monad and the socket table *)

Lemma bind_ok {W A B} (m : st W A) (k : A -> st W B) w a w' :
  m w = (Ok a, w') -> (m ≫= k) w = k a w'.
Proof. intros H. unfold mbind, st_bind. by rewrite H. Qed.

Lemma noexcept_ok {W A} (m : st W A) w a w' : m w = (Ok a, w') -> noexcept m w = (Ok a, w').
Proof. intros H. unfold noexcept. by rewrite H. Qed.

Lemma bind_throw {W A B} (m : st W A) (k : A -> st W B) w e w' :
  m w = (Throw e, w') -> (m ≫= k) w = (Throw e, w').
Proof. intros H. unfold mbind, st_bind. by rewrite H. Qed.

Lemma bind_blocked {W A B} (m : st W A) (k : A -> st W B) w w' :
  m w = (Blocked, w') -> (m ≫= k) w = (Blocked, w').
Proof. intros H. unfold mbind, st_bind. by rewrite H. Qed.

Lemma bind_undefined {W A B} (m : st W A) (k : A -> st W B) w u w' :
  m w = (Undefined u, w') -> (m ≫= k) w = (Undefined u, w').
Proof. intros H. unfold mbind, st_bind. by rewrite H. Qed.

Lemma lookup_put w fd s : socks (put_sock w fd s) !! fd = Some s.
Proof. apply lookup_insert_eq. Qed.

Lemma lookup_put_ne w fd fd' s : fd <> fd' -> socks (put_sock w fd s) !! fd' = socks w !! fd'.
Proof. apply lookup_insert_ne. Qed.

Lemma put_put w fd s s' : put_sock (put_sock w fd s) fd s' = put_sock w fd s'.
Proof. unfold put_sock. cbn. by rewrite insert_insert_eq. Qed.

Lemma put_id w fd s : socks w !! fd = Some s -> put_sock w fd s = w.
Proof. intros H. unfold put_sock. rewrite insert_id by done. by destruct w. Qed.

Lemma after_recv_0 s : after_recv s 0 (rscript s) = s.
Proof. by destruct s. Qed.

Lemma after_recv_recv s m m' es es' :
  after_recv (after_recv s m es) m' es' = after_recv s (m + m') es'.
Proof. unfold after_recv. cbn. by rewrite drop_drop. Qed.

Lemma after_send_nil s : after_send s [] (wscript s) = s.
Proof. destruct s. unfold after_send. cbn. by rewrite app_nil_r. Qed.

Lemma after_send_send s d d' es es' :
  after_send (after_send s d es) d' es' = after_send s (d ++ d') es'.
Proof. unfold after_send. cbn. by rewrite <- app_assoc. Qed.

(** A script without failing calls; any segmentation and any number of
    interruptions are allowed. *)
Definition quiet (es : list io_event) : Prop := Forall (fun e => e <> Fail /\ e <> Epipe) es.

#[global] Instance io_event_eq_dec : EqDecision io_event.
Proof. solve_decision. Defined.
#[global] Instance quiet_dec es : Decision (quiet es).
Proof. unfold quiet. apply _. Defined.

Lemma quiet_tail es : quiet es -> quiet (tail es).
Proof. destruct 1; [constructor|done]. Qed.

(** A socket on which transfers can proceed. *)
Definition live (w : world) (fd : Z) (s : sock) : Prop :=
  socks w !! fd = Some s /\ is_open s = true /\ quiet (rscript s) /\ quiet (wscript s).

Lemma live_lookup w fd s : live w fd s -> socks w !! fd = Some s.
Proof. by intros []. Qed.

Lemma live_after_recv w fd s m rs :
  live w fd s -> quiet rs -> live (put_sock w fd (after_recv s m rs)) fd (after_recv s m rs).
Proof. intros (_ & H1 & H2 & H3) ?. split; [apply lookup_put|done]. Qed.

Lemma live_after_send w fd s d ws :
  live w fd s -> quiet ws -> live (put_sock w fd (after_send s d ws)) fd (after_send s d ws).
Proof. intros (_ & H1 & H2 & H3) ?. split; [apply lookup_put|done]. Qed.

Lemma live_other w fd fd' s s' : fd <> fd' -> live w fd' s' -> live (put_sock w fd s) fd' s'.
Proof. intros Hn (H & ?). split; [by rewrite lookup_put_ne|done]. Qed.

Create HintDb sockio discriminated.
#[export] Hint Resolve live_lookup live_after_recv live_after_send live_other quiet_tail : sockio.

(** ** One system call *)

(** What one [recv] of at least one byte does: it is interrupted, or delivers
    some bytes of the stream, which may not fit the buffer. *)
Lemma recv_any w fd s buf off n :
  live w fd s -> 0 < n -> inbuf s <> [] ->
  (exists es, recv fd buf off n w = (Ok (Eintr, buf), put_sock w fd (after_recv s 0 es)) /\
     quiet es /\ S (length es) = length (rscript s)) \/
  (exists m es, recv fd buf off n w =
       match mem_write buf off (take m (inbuf s)) with
       | Ok buf' => (Ok (Done (Z.of_nat m), buf'), put_sock w fd (after_recv s m es))
       | _ => (Undefined OobWrite, w)
       end /\
     quiet es /\ (length es <= length (rscript s))%nat /\
     (1 <= m <= length (inbuf s))%nat /\ (m <= Z.to_nat n)%nat).
Proof.
  intros (Hs & Ho & Hq & _) Hn Hi. unfold recv. rewrite Hs, Ho. cbn [negb].
  destruct (Z.leb_spec n 0); [lia|].
  assert (Hne : (1 <= length (inbuf s))%nat) by (destruct (inbuf s); cbn; [done|lia]).
  destruct (inbuf s) as [|b0 l0] eqn:Ei; [done|]. rewrite <- Ei in Hne |- *.
  destruct (rscript s) as [|[k| | |] es] eqn:E.
  - right. exists (Z.to_nat (Z.min n (Z.of_nat (Nat.min (length (inbuf s)) (length (inbuf s)))))), [].
    split; [done|]. split; [constructor|]. cbn [length]. lia.
  - right. apply Forall_cons in Hq as [_ Hq].
    exists (Z.to_nat (Z.min n (Z.of_nat (Nat.min (S k) (length (inbuf s)))))), es.
    split; [done|]. split; [done|]. cbn [length]. lia.
  - left. apply Forall_cons in Hq as [_ Hq]. exists es. done.
  - by apply Forall_cons in Hq as [[] _].
  - by apply Forall_cons in Hq as [[] _].
Qed.

(** The same with room for all the bytes requested. *)
Lemma recv_step w fd s buf off n :
  live w fd s -> 0 < n -> inbuf s <> [] -> (off + Z.to_nat n <= length buf)%nat ->
  (exists es, recv fd buf off n w = (Ok (Eintr, buf), put_sock w fd (after_recv s 0 es)) /\
     quiet es /\ S (length es) = length (rscript s)) \/
  (exists m es, recv fd buf off n w =
       (Ok (Done (Z.of_nat m), take off buf ++ take m (inbuf s) ++ drop (off + m) buf),
        put_sock w fd (after_recv s m es)) /\
     quiet es /\ (length es <= length (rscript s))%nat /\
     (1 <= m <= length (inbuf s))%nat /\ (m <= Z.to_nat n)%nat).
Proof.
  intros Hl Hn Hi Hb. destruct (recv_any w fd s buf off n Hl Hn Hi) as [H|(m & es & E & Hq & Hlen & Hm & Hmn)]; [by left|].
  right. exists m, es. rewrite E. split; [|done].
  unfold mem_write. rewrite decide_True by len. by rewrite length_take_le by lia.
Qed.

(** With nothing left to read, interruptions aside, [recv] reports the end of
    the stream or blocks. *)
Lemma recv_empty w fd s buf off n :
  live w fd s -> 0 < n -> inbuf s = [] ->
  (exists es, recv fd buf off n w = (Ok (Eintr, buf), put_sock w fd (after_recv s 0 es)) /\
     quiet es /\ S (length es) = length (rscript s)) \/
  recv fd buf off n w = ((if at_eof s then Ok (Done 0, buf) else Blocked), w).
Proof.
  intros (Hs & Ho & Hq & _) Hn Hi. unfold recv. rewrite Hs, Ho, Hi. cbn [negb].
  destruct (Z.leb_spec n 0); [lia|].
  destruct (rscript s) as [|[k| | |] es] eqn:E.
  - right. by destruct (at_eof s).
  - right. by destruct (at_eof s).
  - left. apply Forall_cons in Hq as [_ Hq]. exists es. done.
  - by apply Forall_cons in Hq as [[] _].
  - by apply Forall_cons in Hq as [[] _].
Qed.

Lemma send_step {flags} w fd s buf off n :
  live w fd s -> 0 < n -> Z.of_nat off + n <= Z.of_nat (length buf) ->
  (exists es, send fd buf off n flags w = (Ok Eintr, put_sock w fd (after_send s [] es)) /\
     quiet es /\ S (length es) = length (wscript s)) \/
  (exists m es, send fd buf off n flags w =
       (Ok (Done (Z.of_nat m)), put_sock w fd (after_send s (take m (drop off buf)) es)) /\
     quiet es /\ (length es <= length (wscript s))%nat /\ (1 <= m <= Z.to_nat n)%nat).
Proof.
  intros (Hs & Ho & _ & Hq) Hn Hb. unfold send. rewrite Hs, Ho. cbn [negb].
  destruct (Z.leb_spec n 0); [lia|]. destruct (Z.ltb_spec (Z.of_nat (length buf)) (Z.of_nat off + n)); [lia|].
  assert (Hl : length (take (Z.to_nat n) (drop off buf)) = Z.to_nat n) by len.
  destruct (wscript s) as [|[k| | |] es] eqn:E; [right|right|left| |].
  - exists (Z.to_nat n), []. rewrite Hl, firstn_firstn, Nat.min_id. split; [done|].
    split; [constructor|]. cbn. lia.
  - apply Forall_cons in Hq as [_ Hq]. exists (Nat.min (S k) (Z.to_nat n)), es.
    rewrite Hl, firstn_firstn. replace (Nat.min (Nat.min (S k) (Z.to_nat n)) (Z.to_nat n)) with (Nat.min (S k) (Z.to_nat n)) by lia.
    split; [done|]. split; [done|]. cbn [length]. lia.
  - apply Forall_cons in Hq as [_ Hq]. exists es. done.
  - by apply Forall_cons in Hq as [[] _].
  - by apply Forall_cons in Hq as [[] _].
Qed.

(** ** The loops *)

Lemma splice_splice (buf l : bytes) off m n :
  (m <= n)%nat -> (n <= length l)%nat -> (off + n <= length buf)%nat ->
  let b := take off buf ++ take m l ++ drop (off + m) buf in
  take (off + m) b ++ take (n - m) (drop m l) ++ drop (off + m + (n - m)) b
    = take off buf ++ take n l ++ drop (off + n) buf.
Proof.
  intros Hm Hn Hb b.
  assert (E : take off buf ++ take m l = take (off + m) b).
  { unfold b. rewrite app_assoc, take_app_length'; [done|len]. }
  rewrite <- E. replace (off + m + (n - m))%nat with (off + n)%nat by lia.
  replace (drop (off + n) b) with (drop (off + n) buf).
  - rewrite <- !app_assoc. f_equal. rewrite app_assoc. f_equal.
    rewrite take_take_drop. f_equal. lia.
  - unfold b. rewrite app_assoc, drop_app_ge by len. rewrite drop_drop. f_equal. len.
Qed.

Lemma recvn_loop_ok fuel w fd s buf off (n : nat) :
  live w fd s -> (length (rscript s) + length (inbuf s) < fuel)%nat ->
  (n <= length (inbuf s))%nat -> (off + n <= length buf)%nat ->
  exists rs, quiet rs /\
    recvn_loop fuel fd buf off (Z.of_nat n) w =
      (Ok (true, take off buf ++ take n (inbuf s) ++ drop (off + n) buf),
       put_sock w fd (after_recv s n rs)).
Proof.
  revert w s buf off n. induction fuel as [|fuel IH]; intros w s buf off n Hl Hf Hn Hb; [lia|].
  cbn [recvn_loop]. destruct (Z.leb_spec (Z.of_nat n) 0) as [Hz|Hz].
  { assert (n = 0%nat) as -> by lia. exists (rscript s). split; [apply Hl|].
    rewrite after_recv_0, put_id by apply Hl. by rewrite Nat.add_0_r, (take_drop off buf : take off buf ++ take 0 (inbuf s) ++ drop off buf = buf). }
  assert (Hi : inbuf s <> []) by (intros E; rewrite E in Hn; cbn in Hn; lia).
  destruct (recv_step w fd s buf off (Z.of_nat n) Hl) as [(es & E & Hq & Hlen)|(m & es & E & Hq & Hlen & Hm & Hmn)];
    [lia|done|lia| |].
  - rewrite (bind_ok _ _ _ _ _ E).
    destruct (IH (put_sock w fd (after_recv s 0 es)) (after_recv s 0 es) buf off n) as (rs & Hrs & ->);
      [eauto with sockio|cbn; rewrite drop_0; lia|cbn; rewrite drop_0; lia|lia|].
    exists rs. rewrite put_put, after_recv_recv. cbn. by rewrite drop_0.
  - rewrite (bind_ok _ _ _ _ _ E). destruct (Z.eqb_spec (Z.of_nat m) 0); [lia|].
    rewrite Nat2Z.id, <- Nat2Z.inj_sub by lia.
    set (b := take off buf ++ _).
    destruct (IH (put_sock w fd (after_recv s m es)) (after_recv s m es) b (off + m)%nat (n - m)%nat)
      as (rs & Hrs & ->); [eauto with sockio|cbn; len|cbn; len|unfold b; len|].
    exists rs. rewrite put_put, after_recv_recv. replace (m + (n - m))%nat with n by lia.
    cbn [inbuf after_recv]. unfold b. rewrite splice_splice by lia. done.
Qed.

(** [recvn] on a stream that holds enough bytes. *)
Lemma recvn_ok w fd s buf off n :
  live w fd s -> 0 <= n < 2 ^ 63 -> n <= Z.of_nat (length (inbuf s)) ->
  Z.of_nat off + n <= Z.of_nat (length buf) ->
  exists rs, quiet rs /\
    recvn fd buf off n w =
      (Ok (n, take off buf ++ take (Z.to_nat n) (inbuf s) ++ drop (off + Z.to_nat n) buf),
       put_sock w fd (after_recv s (Z.to_nat n) rs)).
Proof.
  intros Hl Hn Hi Hb. unfold recvn.
  rewrite (bind_ok (asks _) _ w (S (length (rscript s) + length (inbuf s))) w)
    by (unfold asks, recv_fuel; by rewrite (live_lookup _ _ _ Hl)).
  destruct (recvn_loop_ok (S (length (rscript s) + length (inbuf s))) w fd s buf off (Z.to_nat n) Hl)
    as (rs & Hrs & E); [lia..|].
  rewrite Z2Nat.id in E by lia. exists rs. split; [done|]. rewrite (bind_ok _ _ _ _ _ E).
  unfold s64. cbn [fst snd]. by destruct (Z.ltb_spec n (2 ^ 63)); [|lia].
Qed.

(** The same for a buffer that is filled exactly. *)
Lemma recvn_ex_fill w fd s buf n d rest :
  live w fd s -> inbuf s = d ++ rest -> length d = length buf -> n = Z.of_nat (length d) -> n < 2 ^ 63 ->
  exists rs, quiet rs /\
    recvn_ex fd buf 0 n w = (Ok d, put_sock w fd (after_recv s (length d) rs)).
Proof.
  intros Hl Hi Hd -> Hn. unfold recvn_ex.
  destruct (recvn_ok w fd s buf 0 (Z.of_nat (length d)) Hl) as (rs & Hrs & E); [lia|rewrite Hi; len|lia|].
  exists rs. split; [done|]. rewrite (bind_ok _ _ _ _ _ E). cbn [fst snd].
  destruct (Z.eqb_spec (Z.of_nat (length d)) (-1)); [lia|].
  rewrite Nat2Z.id, Hi, take_app_length. cbn [take app Nat.add].
  rewrite drop_ge by lia. by rewrite app_nil_r.
Qed.

Lemma recvn_loop_short fuel w fd s buf off (n : nat) :
  live w fd s -> (length (rscript s) + length (inbuf s) < fuel)%nat ->
  (length (inbuf s) < n)%nat -> (off + n <= length buf)%nat ->
  exists rs, quiet rs /\
    (at_eof s = true -> exists buf',
       recvn_loop fuel fd buf off (Z.of_nat n) w =
         (Ok (false, buf'), put_sock w fd (after_recv s (length (inbuf s)) rs))) /\
    (at_eof s = false ->
       recvn_loop fuel fd buf off (Z.of_nat n) w =
         (Blocked, put_sock w fd (after_recv s (length (inbuf s)) rs))).
Proof.
  revert w s buf off n. induction fuel as [|fuel IH]; intros w s buf off n Hl Hf Hn Hb; [lia|].
  cbn [recvn_loop]. destruct (Z.leb_spec (Z.of_nat n) 0) as [Hz|Hz]; [lia|].
  destruct (decide (inbuf s = [])) as [Hi|Hi].
  - destruct (recv_empty w fd s buf off (Z.of_nat n) Hl) as [(es & E & Hq & Hlen)|E]; [lia|done| |].
    + rewrite !(bind_ok _ _ _ _ _ E).
      destruct (IH (put_sock w fd (after_recv s 0 es)) (after_recv s 0 es) buf off n) as (rs & Hrs & Heof & Hblk);
        [eauto with sockio|cbn; rewrite drop_0; lia|cbn; rewrite drop_0; lia|lia|].
      rewrite put_put, after_recv_recv in Heof, Hblk. cbn [after_recv inbuf drop Nat.add] in Heof, Hblk.
      exists rs. done.
    + exists (rscript s). split; [apply Hl|]. rewrite Hi. cbn [length]. rewrite after_recv_0, put_id by apply Hl.
      split; intros He; rewrite He in E.
      * exists buf. by rewrite (bind_ok _ _ _ _ _ E).
      * by rewrite (bind_blocked _ _ _ _ E).
  - destruct (recv_step w fd s buf off (Z.of_nat n) Hl) as [(es & E & Hq & Hlen)|(m & es & E & Hq & Hlen & Hm & Hmn)];
      [lia|done|lia| |].
    + rewrite !(bind_ok _ _ _ _ _ E).
      destruct (IH (put_sock w fd (after_recv s 0 es)) (after_recv s 0 es) buf off n) as (rs & Hrs & Heof & Hblk);
        [eauto with sockio|cbn; rewrite drop_0; lia|cbn; rewrite drop_0; lia|lia|].
      rewrite put_put, after_recv_recv in Heof, Hblk. cbn [after_recv inbuf drop Nat.add] in Heof, Hblk.
      exists rs. done.
    + rewrite !(bind_ok _ _ _ _ _ E). destruct (Z.eqb_spec (Z.of_nat m) 0); [lia|].
      rewrite Nat2Z.id, <- Nat2Z.inj_sub by lia. set (b := take off buf ++ _).
      destruct (IH (put_sock w fd (after_recv s m es)) (after_recv s m es) b (off + m)%nat (n - m)%nat)
        as (rs & Hrs & Heof & Hblk); [eauto with sockio|cbn; len|cbn; len|unfold b; len|].
      rewrite put_put, after_recv_recv in Heof, Hblk. cbn [after_recv inbuf at_eof] in Heof, Hblk.
      rewrite length_drop in Heof, Hblk. replace (m + (length (inbuf s) - m))%nat with (length (inbuf s)) in * by lia.
      exists rs. done.
Qed.

(** [recvn] on a stream that is too short. *)
Lemma recvn_short (w : world) (fd : Z) (s : sock) (buf : bytes) (off : nat) (n : Z) :
  live w fd s -> 0 <= n -> Z.of_nat (length (inbuf s)) < n -> Z.of_nat off + n <= Z.of_nat (length buf) ->
  exists rs buf', quiet rs /\
    recvn fd buf off n w =
      ((if at_eof s then Ok (-1, buf') else Blocked), put_sock w fd (after_recv s (length (inbuf s)) rs)).
Proof.
  intros Hl Hn Hi Hb. unfold recvn.
  rewrite (bind_ok (asks _) _ w (S (length (rscript s) + length (inbuf s))) w)
    by (unfold asks, recv_fuel; by rewrite (live_lookup _ _ _ Hl)).
  destruct (recvn_loop_short (S (length (rscript s) + length (inbuf s))) w fd s buf off (Z.to_nat n) Hl)
    as (rs & Hrs & Heof & Hblk); [lia..|].
  rewrite Z2Nat.id in Heof, Hblk by lia. exists rs. destruct (at_eof s).
  - destruct (Heof eq_refl) as (buf' & E). exists buf'. by rewrite (bind_ok _ _ _ _ _ E).
  - exists []. by rewrite (bind_blocked _ _ _ _ (Hblk eq_refl)).
Qed.

Lemma recvn_ex_short (w : world) (fd : Z) (s : sock) (buf : bytes) (off : nat) (n : Z) :
  live w fd s -> 0 <= n -> Z.of_nat (length (inbuf s)) < n -> Z.of_nat off + n <= Z.of_nat (length buf) ->
  exists rs, quiet rs /\
    recvn_ex fd buf off n w =
      ((if at_eof s then Throw (runtime_error "recvn failed.") else Blocked),
       put_sock w fd (after_recv s (length (inbuf s)) rs)).
Proof.
  intros Hl Hn Hi Hb. destruct (recvn_short w fd s buf off n Hl Hn Hi Hb) as (rs & buf' & Hrs & E).
  exists rs. split; [done|]. unfold recvn_ex. destruct (at_eof s);
    [by rewrite (bind_ok _ _ _ _ _ E)|by rewrite (bind_blocked _ _ _ _ E)].
Qed.

(** More bytes are requested, and arrive, than the buffer has room for. *)
Lemma recvn_loop_overflow fuel w fd s buf off n :
  live w fd s -> (length (rscript s) + length (inbuf s) < fuel)%nat -> (off <= length buf)%nat ->
  Z.of_nat (length buf) < Z.of_nat off + n -> (length buf < off + length (inbuf s))%nat ->
  exists w', recvn_loop fuel fd buf off n w = (Undefined OobWrite, w').
Proof.
  revert w s buf off n. induction fuel as [|fuel IH]; intros w s buf off n Hl Hf Ho Hn Hb; [lia|].
  cbn [recvn_loop]. destruct (Z.leb_spec n 0) as [Hz|Hz]; [lia|].
  assert (Hi : inbuf s <> []) by (intros E; rewrite E in Hb; cbn in Hb; lia).
  destruct (recv_any w fd s buf off n Hl) as [(es & E & Hq & Hlen)|(m & es & E & Hq & Hlen & Hm & Hmn)]; [lia|done| |].
  - rewrite (bind_ok _ _ _ _ _ E).
    apply (IH _ (after_recv s 0 es)); [eauto with sockio|cbn; rewrite drop_0; lia|lia|lia|cbn; by rewrite drop_0].
  - destruct (mem_write buf off (take m (inbuf s))) as [buf'|e|u|] eqn:Ew.
    + rewrite (bind_ok _ _ _ _ _ E). destruct (Z.eqb_spec (Z.of_nat m) 0); [lia|]. rewrite Nat2Z.id.
      pose proof (mem_write_length _ _ _ _ Ew) as Lw.
      assert (Hfit : (off + m <= length buf)%nat).
      { unfold mem_write in Ew. case_decide as Hd; [|done]. rewrite length_take_le in Hd by lia. lia. }
      apply (IH _ (after_recv s m es)); [eauto with sockio|cbn; len|lia|lia|cbn; len].
    + rewrite (bind_undefined _ _ _ _ _ E). eauto.
    + rewrite (bind_undefined _ _ _ _ _ E). eauto.
    + rewrite (bind_undefined _ _ _ _ _ E). eauto.
Qed.

Lemma recvn_ex_overflow w fd s buf off n :
  live w fd s -> (off <= length buf)%nat -> Z.of_nat (length buf) < Z.of_nat off + n ->
  (length buf < off + length (inbuf s))%nat ->
  exists w', recvn_ex fd buf off n w = (Undefined OobWrite, w').
Proof.
  intros Hl Ho Hn Hb. unfold recvn_ex, recvn.
  destruct (recvn_loop_overflow (S (length (rscript s) + length (inbuf s))) w fd s buf off n Hl)
    as (w' & E); [lia..|].
  exists w'. apply bind_undefined.
  rewrite (bind_ok (asks _) _ w (S (length (rscript s) + length (inbuf s))) w)
    by (unfold asks, recv_fuel; by rewrite (live_lookup _ _ _ Hl)).
  by apply bind_undefined.
Qed.

Lemma recvn_ex_at w fd s buf off n :
  live w fd s -> 0 <= n < 2 ^ 63 -> n <= Z.of_nat (length (inbuf s)) ->
  Z.of_nat off + n <= Z.of_nat (length buf) ->
  exists rs, quiet rs /\
    recvn_ex fd buf off n w =
      (Ok (take off buf ++ take (Z.to_nat n) (inbuf s) ++ drop (off + Z.to_nat n) buf),
       put_sock w fd (after_recv s (Z.to_nat n) rs)).
Proof.
  intros Hl Hn Hi Hb. destruct (recvn_ok w fd s buf off n Hl Hn Hi Hb) as (rs & Hrs & E).
  exists rs. split; [done|]. unfold recvn_ex. rewrite (bind_ok _ _ _ _ _ E). cbn [fst snd].
  by destruct (Z.eqb_spec n (-1)); [lia|].
Qed.

Lemma sendn_loop_ok {flags} fuel w fd s buf off (n : nat) :
  live w fd s -> (length (wscript s) + n < fuel)%nat -> (off + n <= length buf)%nat ->
  exists ws, quiet ws /\
    sendn_loop fuel fd buf off (Z.of_nat n) flags w =
      (Ok true, put_sock w fd (after_send s (take n (drop off buf)) ws)).
Proof.
  revert w s off n. induction fuel as [|fuel IH]; intros w s off n Hl Hf Hb; [lia|].
  cbn [sendn_loop]. destruct (Z.leb_spec (Z.of_nat n) 0) as [Hz|Hz].
  { assert (n = 0%nat) as -> by lia. exists (wscript s). split; [apply Hl|].
    cbn [take]. by rewrite after_send_nil, put_id by apply Hl. }
  destruct (send_step (flags := flags) w fd s buf off (Z.of_nat n) Hl) as [(es & E & Hq & Hlen)|(m & es & E & Hq & Hlen & Hm)];
    [lia..| |]; rewrite (bind_ok _ _ _ _ _ E).
  - destruct (IH (put_sock w fd (after_send s [] es)) (after_send s [] es) off n) as (ws & Hws & ->);
      [eauto with sockio|cbn; lia|lia|].
    exists ws. by rewrite put_put, after_send_send.
  - destruct (Z.leb_spec (Z.of_nat m) 0); [lia|]. rewrite Nat2Z.id, <- Nat2Z.inj_sub by lia.
    set (d := take m (drop off buf)).
    destruct (IH (put_sock w fd (after_send s d es)) (after_send s d es) (off + m)%nat (n - m)%nat)
      as (ws & Hws & ->); [eauto with sockio|cbn; lia|lia|].
    exists ws. split; [done|]. rewrite put_put, after_send_send. unfold d.
    rewrite <- drop_drop, take_take_drop. do 4 f_equal. lia.
Qed.

(** [sendn] of the first [n] bytes of a buffer. *)
Lemma sendn_ok {flags} w fd s buf n :
  live w fd s -> 0 <= n < 2 ^ 63 -> n <= Z.of_nat (length buf) ->
  exists ws, quiet ws /\
    sendn fd buf n flags w = (Ok n, put_sock w fd (after_send s (take (Z.to_nat n) buf) ws)).
Proof.
  intros Hl Hn Hb. unfold sendn.
  rewrite (bind_ok (asks _) _ w (S (length (wscript s) + Z.to_nat n)) w)
    by (unfold asks, send_fuel; by rewrite (live_lookup _ _ _ Hl)).
  destruct (sendn_loop_ok (flags := flags) (S (length (wscript s) + Z.to_nat n)) w fd s buf 0 (Z.to_nat n) Hl)
    as (ws & Hws & E); [lia..|].
  rewrite Z2Nat.id in E by lia. exists ws. split; [done|]. rewrite (bind_ok _ _ _ _ _ E).
  unfold s64. rewrite drop_0. by destruct (Z.ltb_spec n (2 ^ 63)); [|lia].
Qed.

Lemma sendn_ex_ok {flags} w fd s buf n :
  live w fd s -> 0 <= n < 2 ^ 63 -> n <= Z.of_nat (length buf) ->
  exists ws, quiet ws /\
    sendn_ex fd buf n flags w = (Ok tt, put_sock w fd (after_send s (take (Z.to_nat n) buf) ws)).
Proof.
  intros Hl Hn Hb. destruct (sendn_ok (flags := flags) w fd s buf n Hl Hn Hb) as (ws & Hws & E).
  exists ws. split; [done|]. unfold sendn_ex. rewrite (bind_ok _ _ _ _ _ E).
  by destruct (Z.eqb_spec n (-1)); [lia|].
Qed.

Lemma sendn_ex_all {flags} w fd s d n :
  live w fd s -> n = Z.of_nat (length d) -> n < 2 ^ 63 ->
  exists ws, quiet ws /\ sendn_ex fd d n flags w = (Ok tt, put_sock w fd (after_send s d ws)).
Proof.
  intros Hl -> Hn. destruct (sendn_ex_ok (flags := flags) w fd s d (Z.of_nat (length d)) Hl) as (ws & Hws & E); [lia..|].
  exists ws. split; [done|]. by rewrite E, Nat2Z.id, firstn_all.
Qed.

(** C18: Exact reads. Whatever the segmentation of the stream and however often
    the calls are interrupted, [recvn] of [n] bytes consumes exactly the next
    [n] bytes of the stream and stores them at the given place of the buffer,
    leaving the rest of the buffer as it was; when the stream is shorter it
    returns -1 if the peer has closed and blocks if it has not. *)
Theorem recvn_exact (w : world) (fd : Z) (s : sock) (buf : bytes) (off : nat) (n : Z) :
  live w fd s -> 0 <= n < 2 ^ 63 -> Z.of_nat off + n <= Z.of_nat (length buf) ->
  exists rs buf', quiet rs /\
    recvn fd buf off n w =
      if n <=? Z.of_nat (length (inbuf s)) then
        (Ok (n, take off buf ++ take (Z.to_nat n) (inbuf s) ++ drop (off + Z.to_nat n) buf),
         put_sock w fd (after_recv s (Z.to_nat n) rs))
      else
        ((if at_eof s then Ok (-1, buf') else Blocked),
         put_sock w fd (after_recv s (length (inbuf s)) rs)).
Proof.
  intros Hl Hn Hb. destruct (Z.leb_spec n (Z.of_nat (length (inbuf s)))) as [Hi|Hi].
  { destruct (recvn_ok w fd s buf off n Hl Hn Hi Hb) as (rs & ? & ?). exists rs, []. done. }
  apply recvn_short; [done|lia|lia|done].
Qed.

(** A socket whose stream arrives in pieces, with interruptions. *)
Definition sample_sock : sock :=
  Sock [1; 2; 3; 4; 5] true [Chunk 0; Intr; Chunk 1; Intr] [] [Intr; Chunk 0] true.
Definition sample_world : world := World {[ 7 := sample_sock ]} [] [].

Lemma sample_live : live sample_world 7 sample_sock.
Proof. split; [reflexivity|]. split; [done|]. split; apply (bool_decide_unpack _); reflexivity. Qed.

Lemma recvn_exact_witness :
  exists rs buf', quiet rs /\
    recvn 7 [0; 0; 0; 0; 0; 0] 1 4 sample_world =
      if 4 <=? Z.of_nat (length (inbuf sample_sock)) then
        (Ok (4, take 1 [0; 0; 0; 0; 0; 0] ++ take (Z.to_nat 4) (inbuf sample_sock) ++
                drop (1 + Z.to_nat 4) [0; 0; 0; 0; 0; 0]),
         put_sock sample_world 7 (after_recv sample_sock (Z.to_nat 4) rs))
      else
        ((if at_eof sample_sock then Ok (-1, buf') else Blocked),
         put_sock sample_world 7 (after_recv sample_sock (length (inbuf sample_sock)) rs)).
Proof. apply (recvn_exact sample_world 7 sample_sock); [apply sample_live|lia|cbn; lia]. Defined.

(** C19: Exact writes. Whatever pieces the kernel accepts and however often the
    calls are interrupted, [sendn] of [n] bytes returns [n] after appending
    exactly the first [n] bytes of the buffer to the stream, once each and in
    order, and touches nothing else. *)
Theorem sendn_exact (w : world) (fd : Z) (s : sock) (buf : bytes) (n flags : Z) :
  live w fd s -> 0 <= n < 2 ^ 63 -> n <= Z.of_nat (length buf) ->
  exists ws, quiet ws /\
    sendn fd buf n flags w = (Ok n, put_sock w fd (after_send s (take (Z.to_nat n) buf) ws)).
Proof. intros. by apply sendn_ok. Qed.

Lemma sendn_exact_witness :
  exists ws, quiet ws /\
    sendn 7 [9; 8; 7] 2 0 sample_world
    = (Ok 2, put_sock sample_world 7 (after_send sample_sock (take (Z.to_nat 2) [9; 8; 7]) ws)).
Proof. apply (sendn_exact sample_world 7 sample_sock); [apply sample_live|lia|cbn; lia]. Defined.

(** A peer that no longer reads. Without [MSG_NOSIGNAL] the first [send] ends the
    process; with it [sendn] returns -1. *)
Theorem sendn_epipe (w : world) (fd : Z) (s : sock) (buf : bytes) (n flags : Z) (es : list io_event) :
  socks w !! fd = Some s -> is_open s = true -> wscript s = Epipe :: es -> 0 < n ->
  (sendn fd buf n flags w).1 = if Z.land flags MSG_NOSIGNAL =? 0 then Blocked else Ok (-1).
Proof.
  intros Hs Ho Hw Hn. unfold sendn, asks, send_fuel. rewrite (bind_ok _ _ w (S (length (wscript s) + Z.to_nat n)) w)
    by (by rewrite Hs). cbn [sendn_loop]. destruct (Z.leb_spec n 0); [lia|].
  unfold mbind, st_bind, send. rewrite Hs, Ho, Hw. cbn [negb]. by destruct (Z.land flags MSG_NOSIGNAL =? 0).
Qed.

(** ** Messages *)

Lemma packed_msg_head_length n : length (packed_msg_head n) = 12%nat.
Proof. reflexivity. Qed.

(** Message round trip. [send_msg] puts a twelve-byte head and the data on
    the wire; a receiver whose stream starts with these bytes gets exactly the
    data from [recv_msg] and is left with the rest of its stream, on any
    segmentation in either direction, for every message up to 2 GiB. *)
Theorem msg_roundtrip (junk : nat -> Z) (w1 w2 : world) (fd1 fd2 : Z) (s1 s2 : sock) (dat rest : bytes) :
  live w1 fd1 s1 -> live w2 fd2 s2 -> Z.of_nat (length dat) <= 2 ^ 31 ->
  inbuf s2 = packed_msg_head (Z.of_nat (length dat)) ++ dat ++ rest ->
  (exists ws, quiet ws /\ send_msg fd1 dat w1 =
     (Ok tt, put_sock w1 fd1 (after_send s1 (packed_msg_head (Z.of_nat (length dat)) ++ dat) ws))) /\
  (exists rs, quiet rs /\ recv_msg junk fd2 w2 =
     (Ok dat, put_sock w2 fd2 (after_recv s2 (12 + length dat) rs)) /\
     inbuf (after_recv s2 (12 + length dat) rs) = rest).
Proof.
  intros H1 H2 Hn Hi. set (h := packed_msg_head _) in *. assert (Lh : length h = 12%nat) by done. split.
  - unfold send_msg. fold h.
    destruct (sendn_ex_all (flags := MSG_NOSIGNAL) w1 fd1 s1 h 12 H1) as (ws & Hws & E); [done..|].
    rewrite (bind_ok _ _ _ _ _ E).
    destruct (sendn_ex_all (flags := MSG_NOSIGNAL) (put_sock w1 fd1 (after_send s1 h ws)) fd1 (after_send s1 h ws) dat
                (Z.of_nat (length dat))) as (ws' & Hws' & ->); [eauto with sockio|done|lia|].
    exists ws'. by rewrite put_put, after_send_send.
  - unfold recv_msg.
    destruct (recvn_ex_fill w2 fd2 s2 (le_bytes 4 msg_magic ++ malloc junk 8) 12 h (dat ++ rest) H2 Hi)
      as (rs & Hrs & E); [by len|done|done|].
    rewrite (bind_ok _ _ _ _ _ E).
    assert (E4 : take 4 h = le_bytes 4 msg_magic) by done.
    assert (E8 : drop 4 h = le_bytes 8 (Z.of_nat (length dat))) by done.
    rewrite E4, E8. clear E4 E8. change (le_val (le_bytes 4 msg_magic) =? msg_magic) with true. cbn [negb].
    rewrite le_val_bytes by (change (256 ^ Z.of_nat 8) with (2 ^ 64); lia).
    destruct (Z.ltb_spec (1024 * 1024 * 1024 * 2) (Z.of_nat (length dat))); [lia|].
    destruct (recvn_ex_fill (put_sock w2 fd2 (after_recv s2 (length h) rs)) fd2 (after_recv s2 (length h) rs)
                (replicate (Z.to_nat (Z.of_nat (length dat))) 0) (Z.of_nat (length dat)) dat rest)
      as (rs' & Hrs' & ->); [eauto with sockio| |len|done|lia|].
    + cbn [after_recv inbuf]. by rewrite Hi, drop_app_length.
    + exists rs'. split; [done|]. rewrite put_put, after_recv_recv, Lh. split; [done|].
      cbn [after_recv inbuf]. rewrite Hi, app_assoc, drop_app_length'; [done|len].
Qed.

Definition msg_sock : sock :=
  Sock (packed_msg_head 3 ++ [4; 5; 6] ++ [77]) false [Chunk 6; Intr; Chunk 0] [] [] true.

Lemma msg_live : live (World {[ 8 := msg_sock ]} [] []) 8 msg_sock.
Proof. split; [reflexivity|]. split; [done|]. split; apply (bool_decide_unpack _); reflexivity. Qed.

Lemma msg_roundtrip_witness :
  (exists ws, quiet ws /\ send_msg 7 [4; 5; 6] sample_world =
     (Ok tt, put_sock sample_world 7 (after_send sample_sock (packed_msg_head 3 ++ [4; 5; 6]) ws))) /\
  (exists rs, quiet rs /\ recv_msg (fun _ => 0) 8 (World {[ 8 := msg_sock ]} [] []) =
     (Ok [4; 5; 6], put_sock (World {[ 8 := msg_sock ]} [] []) 8 (after_recv msg_sock (12 + 3) rs)) /\
     inbuf (after_recv msg_sock (12 + 3) rs) = [77]).
Proof.
  apply (msg_roundtrip (fun _ => 0) sample_world _ 7 8 sample_sock msg_sock [4; 5; 6] [77]);
    [apply sample_live|apply msg_live|cbn; lia|reflexivity].
Defined.

(** ** [recvall] *)

(** A script with neither failures nor interruptions. *)
Definition steady (es : list io_event) : Prop := Forall (fun e => exists k, e = Chunk k) es.

Lemma steady_tail es : steady es -> steady (tail es).
Proof. destruct 1; [constructor|done]. Qed.

Lemma steady_quiet es : steady es -> quiet es.
Proof. intros H. apply (Forall_impl _ _ _ H). by intros e [k ->]. Qed.

Lemma recv_steady w fd s buf off n :
  live w fd s -> steady (rscript s) -> 0 < n -> inbuf s <> [] -> (off + Z.to_nat n <= length buf)%nat ->
  exists m, recv fd buf off n w =
       (Ok (Done (Z.of_nat m), take off buf ++ take m (inbuf s) ++ drop (off + m) buf),
        put_sock w fd (after_recv s m (tail (rscript s)))) /\
     (1 <= m <= length (inbuf s))%nat /\ (m <= Z.to_nat n)%nat.
Proof.
  intros (Hs & Ho & _) Hq Hn Hi Hb. unfold recv. rewrite Hs, Ho. cbn [negb].
  assert (Hne : (1 <= length (inbuf s))%nat) by (destruct (inbuf s); cbn; [done|lia]).
  set (limit := match rscript s with Chunk k :: _ => S k | _ => length (inbuf s) end).
  assert (Hl : (1 <= limit)%nat) by (unfold limit; destruct (rscript s) as [|[] ?]; lia).
  set (m := Z.to_nat (Z.min n (Z.of_nat (Nat.min limit (length (inbuf s)))))). exists m.
  assert (E : mem_write buf off (take m (inbuf s)) = Ok (take off buf ++ take m (inbuf s) ++ drop (off + m) buf)).
  { unfold mem_write. rewrite length_take_le by lia. by rewrite decide_True by lia. }
  split; [|lia]. destruct (Z.leb_spec n 0); [lia|].
  destruct (inbuf s) as [|b0 l0]; [done|]. clear Hl. unfold m, limit in *. destruct (rscript s) as [|e es].
  - cbv zeta. by rewrite E.
  - apply Forall_cons in Hq as [[k ->] _]. cbv zeta. by rewrite E.
Qed.

Lemma recv_steady_empty w fd s buf off n :
  live w fd s -> steady (rscript s) -> 0 < n -> inbuf s = [] ->
  recv fd buf off n w = ((if at_eof s then Ok (Done 0, buf) else Blocked), w).
Proof.
  intros Hl Hq Hn Hi. destruct (recv_empty w fd s buf off n Hl Hn Hi) as [(es & E & _ & _)|]; [|done].
  exfalso. destruct Hl as (Hs & Ho & _). unfold recv in E. rewrite Hs, Ho in E. cbn [negb] in E.
  destruct (Z.leb_spec n 0); [lia|]. rewrite Hi in E. destruct (rscript s) as [|e es'].
  - by destruct (at_eof s).
  - apply Forall_cons in Hq as [[k ->] _]. by destruct (at_eof s).
Qed.

(** The two reads of [recvall] with a fresh buffer of 1024 bytes. *)
Lemma recvall_start junk realloc_ok fd w :
  recvall junk realloc_ok fd Null 0 w =
    (r ← recv fd (malloc junk 1024) 0 512;
     match r with
     | (Done ret, vptr) =>
         if ret <? 512 then mret (ret, vptr)
         else fuel ← asks (fun w => recv_fuel w fd); recvall_loop junk realloc_ok fuel fd vptr 1024
     | (_, vptr) => mret (-1, vptr)
     end) w.
Proof. reflexivity. Qed.

(** The second read ends the loop whatever it returns. *)
Lemma recvall_second junk realloc_ok fuel w fd s vptr :
  live w fd s -> steady (rscript s) -> length vptr = 1024%nat ->
  (inbuf s = [] -> recvall_loop junk realloc_ok (S fuel) fd vptr 1024 w =
     ((if at_eof s then Ok (512, vptr) else Blocked), w)) /\
  (inbuf s <> [] -> exists m, (m <= 512)%nat /\ (m <= length (inbuf s))%nat /\
     recvall_loop junk realloc_ok (S fuel) fd vptr 1024 w =
       (Ok (Z.of_nat (512 + m), take 512 vptr ++ take m (inbuf s) ++ drop (512 + m) vptr),
        put_sock w fd (after_recv s m (tail (rscript s))))).
Proof.
  intros Hl Hq Hv. cbn [recvall_loop]. change (1024 / 2) with 512. change (Z.to_nat 512) with 512%nat. split.
  - intros Hi. pose proof (recv_steady_empty w fd s vptr 512 512 Hl Hq ltac:(lia) Hi) as E.
    destruct (at_eof s); [by rewrite (bind_ok _ _ _ _ _ E)|by rewrite (bind_blocked _ _ _ _ E)].
  - intros Hi. destruct (recv_steady w fd s vptr 512 512 Hl Hq) as (m & E & Hm & Hm'); [lia|done|lia|].
    exists m. split; [lia|]. split; [lia|]. rewrite (bind_ok _ _ _ _ _ E).
    destruct (Z.ltb_spec (Z.of_nat m) 1024); [|lia]. unfold mret, st_ret. do 3 f_equal. lia.
Qed.

Lemma recvall_piece junk realloc_ok w fd s :
  live w fd s -> steady (rscript s) ->
  (inbuf s = [] -> exists b, recvall junk realloc_ok fd Null 0 w = ((if at_eof s then Ok (0, b) else Blocked), w)) /\
  (inbuf s <> [] ->
     (exists m rs tl, (1 <= m <= 1024)%nat /\ (m <= length (inbuf s))%nat /\ steady rs /\ wf_bytes tl /\
        recvall junk realloc_ok fd Null 0 w =
          (Ok (Z.of_nat m, take m (inbuf s) ++ tl), put_sock w fd (after_recv s m rs))) \/
     (length (inbuf s) = 512%nat /\ at_eof s = false /\ exists rs,
        recvall junk realloc_ok fd Null 0 w = (Blocked, put_sock w fd (after_recv s 512 rs)))).
Proof.
  intros Hl Hq. rewrite recvall_start. set (b := malloc junk 1024).
  assert (Lb : length b = 1024%nat) by apply malloc_length.
  assert (Wb : wf_bytes b) by apply malloc_wf. clearbody b. split.
  { intros Hi. exists b. pose proof (recv_steady_empty w fd s b 0 512 Hl Hq ltac:(lia) Hi) as E.
    destruct (at_eof s); [by rewrite (bind_ok _ _ _ _ _ E)|by rewrite (bind_blocked _ _ _ _ E)]. }
  intros Hi. destruct (recv_steady w fd s b 0 512 Hl Hq) as (m & E & Hm & Hm'); [lia|done|lia|].
  change (take 0 b ++ take m (inbuf s) ++ drop (0 + m) b) with (take m (inbuf s) ++ drop m b) in E.
  set (s1 := after_recv s m (tail (rscript s))) in *.
  set (w1 := put_sock w fd s1) in *. set (b1 := take m _ ++ _) in *.
  assert (Lb1 : length b1 = 1024%nat) by (unfold b1; len).
  assert (Hl1 : live w1 fd s1) by (apply live_after_recv; [done|by apply steady_quiet, steady_tail]).
  rewrite (bind_ok _ _ _ _ _ E). destruct (Z.ltb_spec (Z.of_nat m) 512) as [Hlt|Hge].
  { left. exists m, (tail (rscript s)), (drop m b). split; [lia|]. split; [lia|]. split; [by apply steady_tail|].
    split; [auto with bytes|done]. }
  assert (m = 512%nat) as -> by lia. clear Hge Hm'.
  rewrite (bind_ok (asks _) _ w1 (recv_fuel w1 fd) w1) by done.
  unfold recv_fuel. rewrite (live_lookup _ _ _ Hl1). cbv beta.
  destruct (recvall_second junk realloc_ok (length (rscript s1) + length (inbuf s1)) w1 fd s1 b1 Hl1)
    as [Hemp Hmore]; [by apply steady_tail|done|].
  destruct (decide (inbuf s1 = [])) as [Hi1|Hi1].
  - rewrite (Hemp Hi1). cbn [at_eof s1 after_recv].
    assert (length (inbuf s) = 512)%nat by (apply (f_equal length) in Hi1; cbn in Hi1; len).
    destruct (at_eof s) eqn:He; [left|right; eauto].
    exists 512%nat, (tail (rscript s)), (drop 512 b). split; [lia|]. split; [lia|].
    split; [by apply steady_tail|]. split; [auto with bytes|done].
  - destruct (Hmore Hi1) as (m & Hm1 & Hm2 & ->). left.
    exists (512 + m)%nat, (tail (rscript s1)), (drop (512 + m) b1). cbn [inbuf s1 after_recv] in *.
    rewrite length_drop in Hm2. split; [lia|]. split; [lia|]. split; [by apply steady_tail, steady_tail|]. split.
    { unfold b1. rewrite drop_app_ge by len. auto with bytes. }
    unfold w1, s1. rewrite put_put, after_recv_recv. do 3 f_equal.
    unfold b1. rewrite take_app_length' by len. by rewrite app_assoc, take_take_drop.
Qed.

(** [quick_recvall] returns one piece of the stream. Without interruptions
    it returns the empty string exactly at the end of the stream, and otherwise
    a non-empty prefix of what has arrived, of at most 1024 bytes; the buffer
    never grows. The one exception: when exactly 512 bytes have arrived and the
    peer keeps the connection open, it can consume them and then block. *)
Lemma quick_recvall_piece (junk : nat -> Z) (realloc_ok : Z -> bool) (w : world) (fd : Z) (s : sock) :
  live w fd s -> steady (rscript s) ->
  (inbuf s = [] -> quick_recvall junk realloc_ok fd w = ((if at_eof s then Ok [] else Blocked), w)) /\
  (inbuf s <> [] ->
     (exists m rs, (1 <= m <= 1024)%nat /\ (m <= length (inbuf s))%nat /\ steady rs /\
        quick_recvall junk realloc_ok fd w = (Ok (take m (inbuf s)), put_sock w fd (after_recv s m rs))) \/
     (length (inbuf s) = 512%nat /\ at_eof s = false /\ exists rs,
        quick_recvall junk realloc_ok fd w = (Blocked, put_sock w fd (after_recv s 512 rs)))).
Proof.
  intros Hl Hq. destruct (recvall_piece junk realloc_ok w fd s Hl Hq) as [Hemp Hmore].
  unfold quick_recvall, recvall_ex. split.
  - intros Hi. destruct (Hemp Hi) as [b E]. destruct (at_eof s).
    + by rewrite (bind_ok _ _ w (0, b) w) by (by rewrite (bind_ok _ _ _ _ _ E)).
    + by rewrite (bind_blocked _ _ w w) by (by rewrite (bind_blocked _ _ _ _ E)).
  - intros Hi. destruct (Hmore Hi) as [(m & rs & tl & H1 & H2 & H3 & _ & E)|(H1 & H2 & rs & E)].
    + left. exists m, rs. do 3 (split; [done|]).
      rewrite (bind_ok _ _ w (Z.of_nat m, take m (inbuf s) ++ tl) (put_sock w fd (after_recv s m rs))).
      * cbn [fst snd]. unfold lift. rewrite mem_read_head by len. done.
      * rewrite (bind_ok _ _ _ _ _ E). cbn [fst]. by destruct (Z.eqb_spec (Z.of_nat m) (-1)); [lia|].
    + right. split; [done|]. split; [done|]. exists rs.
      rewrite (bind_blocked _ _ w (put_sock w fd (after_recv s 512 rs))); [done|].
      by rewrite (bind_blocked _ _ _ _ E).
Qed.

(** A piece of exactly 512 bytes is not delivered. When 512 bytes arrive
    together from a peer that then waits for an answer, [quick_recvall] takes
    them from the socket and blocks in its second [recv]. *)
Theorem quick_recvall_512 (junk : nat -> Z) (realloc_ok : Z -> bool) (w : world) (fd : Z) (s : sock) :
  live w fd s -> rscript s = [] -> length (inbuf s) = 512%nat -> at_eof s = false ->
  quick_recvall junk realloc_ok fd w = (Blocked, put_sock w fd (after_recv s 512 [])).
Proof.
  intros Hl Hr Hi He. assert (Hq : steady (rscript s)) by (rewrite Hr; constructor).
  assert (Hn : inbuf s <> []) by (intros E; by rewrite E in Hi).
  enough (E : recvall junk realloc_ok fd Null 0 w = (Blocked, put_sock w fd (after_recv s 512 []))).
  { unfold quick_recvall, recvall_ex.
    rewrite (bind_blocked _ _ w (put_sock w fd (after_recv s 512 []))); [done|].
    by rewrite (bind_blocked _ _ _ _ E). }
  rewrite recvall_start. set (b := malloc junk 1024). assert (Lb : length b = 1024%nat) by apply malloc_length. clearbody b.
  assert (E : recv fd b 0 512 w = (Ok (Done 512, take 512 (inbuf s) ++ drop 512 b), put_sock w fd (after_recv s 512 []))).
  { destruct Hl as (Hs & Ho & _). unfold recv. rewrite Hs, Ho, Hr. cbn [negb]. change (512 <=? 0) with false.
    destruct (inbuf s) as [|b0 l0] eqn:Ei; [done|]. rewrite <- Ei in *. rewrite Hi. cbv zeta.
    change (Z.to_nat (512 `min` Z.of_nat (512 `min` 512))) with 512%nat.
    unfold mem_write. rewrite length_take_le, decide_True by lia. done. }
  rewrite (bind_ok _ _ _ _ _ E). change (512 <? 512) with false. cbv iota. set (w1 := put_sock w fd _).
  assert (Hl1 : live w1 fd (after_recv s 512 [])) by (apply live_after_recv; [done|constructor]).
  rewrite (bind_ok (asks _) _ w1 (S (length (inbuf (after_recv s 512 [])))) w1)
    by (unfold asks, recv_fuel; by rewrite (live_lookup _ _ _ Hl1)).
  destruct (recvall_second junk realloc_ok (length (inbuf (after_recv s 512 []))) w1 fd (after_recv s 512 [])
              (take 512 (inbuf s) ++ drop 512 b) Hl1) as [Hemp _]; [constructor|len|].
  rewrite Hemp by (apply nil_length_inv; cbn [after_recv inbuf]; len). cbn [after_recv at_eof]. by rewrite He.
Qed.

Definition stuck_sock : sock := Sock (replicate 512 65) false [] [] [] true.

Lemma stuck_live : live (World {[ 9 := stuck_sock ]} [] []) 9 stuck_sock.
Proof. split; [reflexivity|]. split; [done|]. split; constructor. Qed.

Lemma quick_recvall_512_witness :
  let w := World {[ 9 := stuck_sock ]} [] [] in
  quick_recvall (fun _ => 0) (fun _ => true) 9 w = (Blocked, put_sock w 9 (after_recv stuck_sock 512 [])).
Proof.
  apply (quick_recvall_512 (fun _ => 0) (fun _ => true) (World {[ 9 := stuck_sock ]} [] []) 9 stuck_sock);
    [apply stuck_live|reflexivity..].
Defined.

(** ** Creating sockets *)

Definition opened (w : world) (fd : Z) : bool :=
  match socks w !! fd with Some s => is_open s | None => false end.

Lemma opened_socket w rp fd :
  opened (put_sock w (ai_fd rp)
    (match socks w !! ai_fd rp with Some s => set_open s true | None => Sock [] false [] [] [] true end)) fd
  = (if decide (fd = ai_fd rp) then true else opened w fd).
Proof.
  unfold opened. case_decide as H.
  - subst fd. rewrite lookup_put. by destruct (socks w !! ai_fd rp).
  - by rewrite lookup_put_ne.
Qed.

Lemma opened_close w fd fd' :
  opened (close fd w).2 fd' = (if decide (fd' = fd) then false else opened w fd').
Proof.
  unfold opened, close. destruct (socks w !! fd) as [s|] eqn:E; cbn [snd]; case_decide as H; subst.
  - by rewrite lookup_put.
  - by rewrite lookup_put_ne.
  - by rewrite E.
  - done.
Qed.

(** The candidate the loop settles on. *)
Definition usable (rp : addrinfo) : bool := negb (ai_fd rp =? -1) && ai_bind rp.

Fixpoint first_usable (l : list addrinfo) : option Z :=
  match l with
  | [] => None
  | rp :: l => if usable rp then Some (ai_fd rp) else first_usable l
  end.

Lemma try_addrs_ok l w :
  Forall (fun rp => ai_reuseaddr rp = true /\ ai_reuseport rp = true) l ->
  Forall (fun rp => opened w (ai_fd rp) = false) l ->
  exists w', try_addrs l w = (Ok (first_usable l), w') /\
    forall fd, opened w' fd = (if decide (Some fd = first_usable l) then true else opened w fd).
Proof.
  revert w. induction l as [|rp l IH]; intros w Hr Ho; [exists w; done|].
  apply Forall_cons in Hr as [[Ha Hp] Hr]. apply Forall_cons in Ho as [Hrp Ho].
  cbn [try_addrs first_usable]. unfold mbind at 1, st_bind at 1, socket, usable.
  destruct (Z.eqb_spec (ai_fd rp) (-1)) as [Hm|Hm]; [apply (IH w Hr Ho)|].
  destruct (Z.eqb_spec (ai_fd rp) (-1)); [done|]. rewrite Ha, Hp. cbn [negb andb].
  set (w1 := put_sock w (ai_fd rp) _).
  assert (H1 : forall fd, opened w1 fd = (if decide (fd = ai_fd rp) then true else opened w fd))
    by (intros; by apply opened_socket).
  destruct (ai_bind rp).
  - exists w1. split; [done|]. intros fd. rewrite H1. do 2 case_decide; congruence.
  - assert (Ew : exists w2, close (ai_fd rp) w1 = (Ok tt, w2) /\ w2 = (close (ai_fd rp) w1).2)
      by (unfold close; destruct (socks w1 !! _); eauto).
    destruct Ew as (w2 & E2 & Hw2). rewrite (bind_ok _ _ _ _ _ E2).
    assert (H2 : forall fd, opened w2 fd = opened w fd).
    { intros fd. rewrite Hw2, opened_close, H1. case_decide; [by subst|done]. }
    destruct (IH w2 Hr) as (w' & E & Hw).
    { apply (Forall_impl _ _ _ Ho). intros r. by rewrite H2. }
    exists w'. split; [done|]. intros fd. by rewrite Hw, H2.
Qed.

(** Dialling. When the socket options can be set, [quick_connect] returns
    the descriptor of the first candidate address that accepts the connection
    and throws when there is none; in both cases every descriptor it opened
    for the other candidates is closed again, and no other descriptor is
    touched. *)
Theorem quick_connect_spec (getaddrinfo : bytes -> bytes -> bool -> Z + list addrinfo)
    (addr : bytes) (port : Z) (udp : bool) (l : list addrinfo) (w : world) :
  getaddrinfo addr (to_string port) udp = inr l ->
  Forall (fun rp => ai_reuseaddr rp = true /\ ai_reuseport rp = true) l ->
  Forall (fun rp => opened w (ai_fd rp) = false) l ->
  exists w', match first_usable l with
    | Some sockfd =>
        quick_connect getaddrinfo addr port udp w = (Ok sockfd, w') /\
        forall fd, opened w' fd = (if decide (fd = sockfd) then true else opened w fd)
    | None =>
        (exists e, quick_connect getaddrinfo addr port udp w = (Throw e, w')) /\
        forall fd, opened w' fd = opened w fd
    end.
Proof.
  intros Hg Hr Ho. destruct (try_addrs_ok l w Hr Ho) as (w' & E & Hw). exists w'.
  unfold quick_connect. rewrite Hg, (bind_ok _ _ _ _ _ E). destruct (first_usable l) as [sockfd|].
  - split; [done|]. intros fd. rewrite Hw. do 2 case_decide; congruence.
  - split; [unfold throw, lift; eauto|]. intros. by rewrite Hw.
Qed.

Lemma quick_connect_spec_witness :
  let l := [AddrInfo (-1) true true true; AddrInfo 4 true true false; AddrInfo 5 true true true] in
  exists w', quick_connect (fun _ _ _ => inr l) [] 80 false (World ∅ [] []) = (Ok 5, w') /\
    forall fd, opened w' fd = (if decide (fd = 5) then true else opened (World ∅ [] []) fd).
Proof.
  apply (quick_connect_spec (fun _ _ _ => inr [AddrInfo (-1) true true true; AddrInfo 4 true true false;
           AddrInfo 5 true true true]) [] 80 false _ (World ∅ [] []) eq_refl); repeat constructor.
Defined.

(** ** Transfers neither open nor close descriptors *)

Definition keeps {A} (m : io A) : Prop := forall w fd, opened (m w).2 fd = opened w fd.

Lemma opened_put w fd fd' s s0 :
  socks w !! fd = Some s0 -> is_open s = is_open s0 -> opened (put_sock w fd s) fd' = opened w fd'.
Proof.
  intros Hs Ho. unfold opened. destruct (decide (fd = fd')) as [->|Hn].
  - by rewrite lookup_put, Hs.
  - by rewrite lookup_put_ne.
Qed.

Lemma keeps_lift {A} (o : outcome A) : keeps (lift o).
Proof. done. Qed.

Lemma keeps_throw {A} e : keeps (throw e : io A).
Proof. done. Qed.

Lemma keeps_ret {A} (a : A) : keeps (mret a).
Proof. done. Qed.

Lemma keeps_asks {A} (f : world -> A) : keeps (asks f).
Proof. done. Qed.

Lemma keeps_bind {A B} (m : io A) (k : A -> io B) : keeps m -> (forall a, keeps (k a)) -> keeps (m ≫= k).
Proof.
  intros Hm Hk w fd. unfold mbind, st_bind. specialize (Hm w fd).
  destruct (m w) as [[a| | |] w']; cbn in *; [by rewrite Hk|done..].
Qed.

Lemma keeps_if {A} (b : bool) (m1 m2 : io A) : keeps m1 -> keeps m2 -> keeps (if b then m1 else m2).
Proof. by destruct b. Qed.

Lemma keeps_recv fd buf off n : keeps (recv fd buf off n).
Proof.
  intros w fd'. unfold recv. destruct (socks w !! fd) as [s|] eqn:E; [|done].
  destruct (negb (is_open s)); [done|].
  assert (Hp : forall m es, opened (put_sock w fd (after_recv s m es)) fd' = opened w fd')
    by (intros; by eapply opened_put).
  destruct (rscript s) as [|[k| | |] es]; try apply Hp.
  all: destruct (n <=? 0); [done|]; destruct (inbuf s) as [|b0 l0]; [by destruct (at_eof s)|].
  all: cbv zeta; destruct (mem_write _ _ _); cbn; [apply Hp|done..].
Qed.

Lemma keeps_send fd buf off n flags : keeps (send fd buf off n flags).
Proof.
  intros w fd'. unfold send. destruct (socks w !! fd) as [s|] eqn:E; [|done].
  destruct (negb (is_open s)); [done|].
  assert (Hp : forall d es, opened (put_sock w fd (after_send s d es)) fd' = opened w fd')
    by (intros; by eapply opened_put).
  destruct (wscript s) as [|[k| | |] es]; try apply Hp; [..|case_match; apply Hp].
  all: destruct (n <=? 0); [done|]; destruct (Z.of_nat (length buf) <? _); [done|]; apply Hp.
Qed.

Lemma keeps_select fds : keeps (select fds).
Proof. intros w fd. unfold select. by destruct (selects w) as [|[r|] l]. Qed.

Create HintDb keeps discriminated.
#[export] Hint Resolve keeps_lift keeps_throw keeps_ret keeps_asks keeps_bind keeps_if
  keeps_recv keeps_send keeps_select : keeps.

Lemma keeps_recvn_loop fuel fd buf off n : keeps (recvn_loop fuel fd buf off n).
Proof.
  revert buf off n. induction fuel as [|fuel IH]; intros; cbn [recvn_loop]; [auto with keeps|].
  apply keeps_if; [auto with keeps|]. apply keeps_bind; [auto with keeps|].
  intros [[m| |] b]; auto with keeps.
Qed.

Lemma keeps_sendn_loop fuel fd buf off n flags : keeps (sendn_loop fuel fd buf off n flags).
Proof.
  revert off n. induction fuel as [|fuel IH]; intros; cbn [sendn_loop]; [auto with keeps|].
  apply keeps_if; [auto with keeps|]. apply keeps_bind; [auto with keeps|].
  intros [m| |]; auto with keeps.
Qed.

#[export] Hint Resolve keeps_recvn_loop keeps_sendn_loop : keeps.

Lemma keeps_recvn_ex fd buf off n : keeps (recvn_ex fd buf off n).
Proof. unfold recvn_ex, recvn. auto 10 with keeps. Qed.

Lemma keeps_sendn_ex fd buf n flags : keeps (sendn_ex fd buf n flags).
Proof. unfold sendn_ex, sendn. auto 10 with keeps. Qed.

Lemma keeps_recvall junk realloc_ok fd p n : keeps (recvall junk realloc_ok fd p n).
Proof.
  assert (Hloop : forall fuel vptr current, keeps (recvall_loop junk realloc_ok fuel fd vptr current)).
  { induction fuel as [|fuel IH]; intros; cbn [recvall_loop]; [auto with keeps|].
    apply keeps_bind; [auto with keeps|]. intros [[m| |] b]; auto with keeps. }
  unfold recvall. apply keeps_bind; [auto with keeps|]. intros vptr. apply keeps_bind; [auto with keeps|].
  intros [[m| |] b]; auto 6 with keeps.
Qed.

Lemma keeps_quick_recvall junk realloc_ok fd : keeps (quick_recvall junk realloc_ok fd).
Proof. unfold quick_recvall, recvall_ex. pose proof keeps_recvall. auto 10 with keeps. Qed.

#[export] Hint Resolve keeps_recvn_ex keeps_sendn_ex keeps_quick_recvall : keeps.

End SockIO.
