(* ===== verification/NetLib.v ===== *)
(** * Length-prefixed packets and address helpers (native/src/lib/NetLib.hpp, NetLib.cc)

    The framing used between client and server (a 32-bit length in network
    order, then the packet), the encoding of name queries as ordinary queries
    to address zero, and the printing of addresses. *)

From S2P Require Import Prelude RString ModuleApi SockIO.
Import ModuleApi SockIO.

Open Scope Z_scope.

Module NetLib.

(** ** Framing *)

Definition max_packet : Z := 64 * 1024 * 1024.

(** [sendn_ex] of the bytes behind a pointer; sending zero bytes does not
    touch the pointer. *)
Definition sendn_ptr (fd : Z) (data : option bytes) (len : Z) (flags : Z) : io unit :=
  if len =? 0 then mret tt
  else d ← lift (deref data); sendn_ex fd d len flags.

(** [throw std::invalid_argument(fmt_format(length))]: the text has no hole for
    the length, so the formatter throws first. *)
Definition refuse {A} (fmt : string) (len : Z) : io A :=
  msg ← lift (RString.format_string (bytes_of_string fmt) [to_string len]);
  throw (invalid_argument (RString.string_of_bytes msg)).

Definition send_length_and_packet (connfd : Z) (data : option bytes) (len : Z) : io unit :=
  if max_packet <? len then
    refuse "send_length_and_packet: refuse to send too large packet: length=()" len
  else
    _ ← sendn_ex connfd (le_bytes 4 (htonl len)) 4 0;
    sendn_ptr connfd data len 0.

Definition recv_length_and_packet (junk : nat -> Z) (connfd : Z) : io (bytes * Z) :=
  n ← recvn_ex connfd (malloc junk 4) 0 4;
  let len := ntohl (le_val n) in
  if max_packet <? len then
    refuse "recv_length_and_packet: refuse to recv too large packet: length=()" len
  else
    data ← recvn_ex connfd (malloc junk (Z.to_nat len)) 0 len;
    mret (data, len).

(** ** Name queries *)

Definition dns_head : bytes := bytes_of_string "__m_str_dns_head_32__snakesocks_".

Definition assemble_dns_query (junk : nat -> Z) (domain : bytes) : outcome client_query :=
  let len := u32 (32 + Z.of_nat (length domain) + 1) in
  let str := malloc junk (Z.to_nat len) in
  str ← mem_write str 0 dns_head;
  str ← mem_write str 32 domain;
  str ← mem_write str (Z.to_nat (len - 1)) [0];
  Ok (Query (replicate 16 0) 0 (Bss true len (Some str))).

Definition is_dns_query (cq : client_query) : bool :=
  forallb (fun ip_byte => ip_byte =? 0) (destination_ip cq).

(** The bytes from offset 32 up to a NUL; running off the buffer is undefined. *)
Definition get_domain_from_dns_query (cq : client_query) : outcome bytes :=
  if bss_length (payload cq) <=? 32 then Ok []
  else
    s ← deref (str (payload cq));
    if decide (0 ∈ drop 32 s) then Ok (cstr (drop 32 s)) else Undefined OobRead.

(** ** Printing addresses *)

Definition ip_array_to_str (iparr : bytes) : bytes :=
  let is_v6 := existsb (fun i => negb (nth i iparr 0 =? 0)) (seq 4 12) in
  let result := concat (map (fun cter => to_string (nth cter iparr 0) ++ [if is_v6 then 58 else 46])
                            (seq 0 (if is_v6 then 16 else 4))) in
  removelast result.

Definition printData (data : bytes) (len : nat) : outcome bytes :=
  d ← mem_read data 0 len;
  Ok (concat (map (fun b => to_string b ++ [32]) d) ++ [10]).

(** ** Resolving names *)

(** An address as [boost::asio::ip::address] holds it. *)
Inductive ip_address := V4 (a : bytes) | V6 (a : bytes).

#[global] Instance ip_address_eq_dec : EqDecision ip_address.
Proof. solve_decision. Defined.

Section Resolve.
(** The system resolver: the endpoints of a name, or the error it reports. *)
Variable resolve : bytes -> outcome (list ip_address).

Fixpoint first_matching (filter : ip_address -> bool) (l : list ip_address) : outcome ip_address :=
  match l with
  | [] => Throw (runtime_error "BOOST Failed to resolve address")
  | a :: l => if filter a then Ok a else first_matching filter l
  end.

Definition resolveDomainOnce_if (domain : bytes) (filter : ip_address -> bool) : outcome ip_address :=
  endpoints ← resolve domain;
  first_matching filter endpoints.

Definition resolveDomainOnce (domain : bytes) : outcome ip_address :=
  resolveDomainOnce_if domain (fun _ => true).

End Resolve.

(** ** Framing: what the two functions do *)

(** The bytes a packet occupies on the wire. *)
Definition frame (d : bytes) : bytes := be_bytes 4 (Z.of_nat (length d)) ++ d.

Lemma frame_length d : length (frame d) = (4 + length d)%nat.
Proof. unfold frame. len. Qed.

Lemma sendn_ptr_ok {flags} w fd s (p : binary_safe_string) :
  live w fd s -> bss_ok p ->
  exists ws, quiet ws /\
    sendn_ptr fd (str p) (bss_length p) flags w = (Ok tt, put_sock w fd (after_send s (bss_bytes p) ws)).
Proof.
  intros Hl Hp. pose proof (bss_bytes_length _ Hp) as Lb. destruct Hp as [Hb Hs]. unfold sendn_ptr.
  destruct (Z.eqb_spec (bss_length p) 0) as [Hz|Hz].
  { exists (wscript s). split; [apply Hl|]. assert (bss_bytes p = []) as -> by (apply nil_length_inv; lia).
    by rewrite after_send_nil, put_id by apply Hl. }
  unfold bss_bytes. destruct (str p) as [b|]; [|done]. destruct Hs as [Hw Hlen].
  rewrite (bind_ok (lift _) _ _ b w) by done. apply sendn_ex_ok; [done|lia|done].
Qed.

Lemma send_frame_ok w fd s (p : binary_safe_string) :
  live w fd s -> bss_ok p -> bss_length p <= max_packet ->
  exists ws, quiet ws /\
    send_length_and_packet fd (str p) (bss_length p) w =
      (Ok tt, put_sock w fd (after_send s (frame (bss_bytes p)) ws)).
Proof.
  intros Hl Hp Hn. pose proof (bss_bytes_length _ Hp) as Lb.
  unfold send_length_and_packet, frame. destruct (Z.ltb_spec max_packet (bss_length p)); [lia|].
  rewrite htonl_bytes, Lb. set (h := be_bytes 4 _).
  destruct (sendn_ex_all (flags := 0) w fd s h 4 Hl) as (ws & Hws & E); [done..|]. rewrite (bind_ok _ _ _ _ _ E).
  destruct (sendn_ptr_ok (flags := 0) (put_sock w fd (after_send s h ws)) fd (after_send s h ws) p)
    as (ws' & Hws' & ->); [eauto with sockio|done|].
  exists ws'. by rewrite put_put, after_send_send.
Qed.

Lemma recv_frame_ok junk w fd s d rest :
  live w fd s -> inbuf s = frame d ++ rest -> Z.of_nat (length d) <= max_packet ->
  exists rs, quiet rs /\
    recv_length_and_packet junk fd w =
      (Ok (d, Z.of_nat (length d)), put_sock w fd (after_recv s (length (frame d)) rs)) /\
    inbuf (after_recv s (length (frame d)) rs) = rest.
Proof.
  intros Hl Hi Hn. unfold max_packet in Hn. rewrite frame_length. unfold frame in Hi.
  rewrite <- app_assoc in Hi. set (h := be_bytes 4 _) in *.
  assert (Lh : length h = 4%nat) by done.
  unfold recv_length_and_packet.
  destruct (recvn_ex_fill w fd s (malloc junk 4) 4 h (d ++ rest) Hl Hi) as (rs & Hrs & E); [done..|].
  rewrite (bind_ok _ _ _ _ _ E).
  assert (En : ntohl (le_val h) = Z.of_nat (length d)).
  { rewrite ntohl_be by (done || apply be_bytes_wf). apply be_val_bytes.
    change (256 ^ Z.of_nat 4) with (2 ^ 32). lia. }
  rewrite En. destruct (Z.ltb_spec max_packet (Z.of_nat (length d))); [unfold max_packet in *; lia|].
  destruct (recvn_ex_fill (put_sock w fd (after_recv s (length h) rs)) fd (after_recv s (length h) rs)
              (malloc junk (Z.to_nat (Z.of_nat (length d)))) (Z.of_nat (length d)) d rest)
    as (rs' & Hrs' & E'); [eauto with sockio| |len|done|lia|].
  { cbn [after_recv inbuf]. by rewrite Hi, drop_app_length. }
  exists rs'. split; [done|]. rewrite (bind_ok _ _ _ _ _ E'), put_put, after_recv_recv, Lh. split; [done|].
  cbn [after_recv inbuf]. rewrite Hi, app_assoc, drop_app_length'; [done|len].
Qed.

(** A frame of which only a part has arrived: one of the two reads waits. *)
Lemma frame_short junk w fd s d more rest :
  live w fd s -> inbuf s ++ more = frame d ++ rest -> (length (inbuf s) < length (frame d))%nat ->
  Z.of_nat (length d) <= max_packet -> at_eof s = false ->
  (exists w', recvn_ex fd (malloc junk 4) 0 4 w = (Blocked, w')) \/
  exists w1 w', recvn_ex fd (malloc junk 4) 0 4 w = (Ok (be_bytes 4 (Z.of_nat (length d))), w1) /\
    recvn fd (malloc junk (length d)) 0 (Z.of_nat (length d)) w1 = (Blocked, w').
Proof.
  intros Hl Hi Hs Hn He. rewrite frame_length in Hs. unfold frame in Hi. rewrite <- app_assoc in Hi.
  destruct (decide (length (inbuf s) < 4)%nat) as [H4|H4].
  - left. destruct (recvn_ex_short w fd s (malloc junk 4) 0 4 Hl) as (rs & _ & E); [lia..|len|].
    rewrite He in E. eauto.
  - right. set (h := be_bytes 4 _) in *. assert (Lh : length h = 4%nat) by done.
    assert (Hi' : inbuf s = h ++ drop 4 (inbuf s)).
    { rewrite <- (take_drop 4 (inbuf s)) at 1. f_equal. apply (f_equal (take 4)) in Hi.
      rewrite (take_app_le (inbuf s)), (take_app_length' h) in Hi by lia. done. }
    destruct (recvn_ex_fill w fd s (malloc junk 4) 4 h (drop 4 (inbuf s)) Hl Hi') as (rs & Hrs & E); [done..|].
    destruct (recvn_short (put_sock w fd (after_recv s (length h) rs)) fd (after_recv s (length h) rs)
                (malloc junk (length d)) 0 (Z.of_nat (length d))) as (rs' & buf' & _ & E');
      [eauto with sockio|lia|cbn [after_recv inbuf]; rewrite length_drop; lia|len|].
    cbn [after_recv at_eof] in E'. rewrite He in E'. eauto.
Qed.

Lemma recv_frame_short junk w fd s d more rest :
  live w fd s -> inbuf s ++ more = frame d ++ rest -> (length (inbuf s) < length (frame d))%nat ->
  Z.of_nat (length d) <= max_packet -> at_eof s = false ->
  exists w', recv_length_and_packet junk fd w = (Blocked, w').
Proof.
  intros Hl Hi Hs Hn He. unfold recv_length_and_packet.
  destruct (frame_short junk w fd s d more rest Hl Hi Hs Hn He) as [[w' E]|(w1 & w' & E & E')].
  - exists w'. by apply bind_blocked.
  - exists w'. rewrite (bind_ok _ _ _ _ _ E), ntohl_be, be_val_bytes
      by (done || apply be_bytes_wf || (change (256 ^ Z.of_nat 4) with (2 ^ 32); unfold max_packet in Hn; lia)).
    destruct (Z.ltb_spec max_packet (Z.of_nat (length d))); [lia|]. rewrite Nat2Z.id.
    apply bind_blocked. unfold recvn_ex. by apply bind_blocked.
Qed.

(** C20: Frame round trip. Every packet of up to 64 MiB that one side sends with
    [send_length_and_packet] is returned whole by [recv_length_and_packet] on
    the other side, whatever the segmentation, and the receiver is left at the
    first byte after the packet. *)
Theorem frame_roundtrip (junk : nat -> Z) (w1 w2 : world) (fd1 fd2 : Z) (s1 s2 : sock)
    (p : binary_safe_string) (rest : bytes) :
  live w1 fd1 s1 -> live w2 fd2 s2 -> bss_ok p -> bss_length p <= max_packet ->
  inbuf s2 = frame (bss_bytes p) ++ rest ->
  (exists ws, quiet ws /\ send_length_and_packet fd1 (str p) (bss_length p) w1 =
     (Ok tt, put_sock w1 fd1 (after_send s1 (frame (bss_bytes p)) ws))) /\
  (exists rs, quiet rs /\ recv_length_and_packet junk fd2 w2 =
     (Ok (bss_bytes p, bss_length p), put_sock w2 fd2 (after_recv s2 (length (frame (bss_bytes p))) rs)) /\
     inbuf (after_recv s2 (length (frame (bss_bytes p))) rs) = rest).
Proof.
  intros H1 H2 Hp Hn Hi. split; [by apply send_frame_ok|].
  rewrite <- (bss_bytes_length _ Hp). apply recv_frame_ok; [done..|]. by rewrite bss_bytes_length.
Qed.

Definition framed_sock : sock :=
  Sock (frame [1; 2] ++ [5]) false [Chunk 2; Intr; Chunk 0] [] [Chunk 0; Intr] true.
Definition framed_world : world := World {[ 7 := framed_sock ]} [] [].

Lemma framed_live : live framed_world 7 framed_sock.
Proof. split; [reflexivity|]. split; [done|]. split; apply (bool_decide_unpack _); reflexivity. Qed.

Lemma frame_roundtrip_witness :
  (exists ws, quiet ws /\ send_length_and_packet 7 (Some [1; 2; 3]) 2 framed_world =
     (Ok tt, put_sock framed_world 7 (after_send framed_sock (frame [1; 2]) ws))) /\
  (exists rs, quiet rs /\ recv_length_and_packet (fun _ => 0) 7 framed_world =
     (Ok ([1; 2], 2), put_sock framed_world 7 (after_recv framed_sock (length (frame [1; 2])) rs)) /\
     inbuf (after_recv framed_sock (length (frame [1; 2])) rs) = [5]).
Proof.
  apply (frame_roundtrip (fun _ => 0) framed_world framed_world 7 7 framed_sock framed_sock
           (Bss false 2 (Some [1; 2; 3])) [5]); [apply framed_live|apply framed_live| |unfold max_packet; cbn; lia|reflexivity].
  split; [cbn; lia|]. split; [apply (bool_decide_unpack _); reflexivity|cbn; lia].
Defined.

Lemma refuse_out_of_range {A} fmt n (w : world) :
  ~ RString.occurs RString.hole (bytes_of_string fmt) ->
  @refuse A fmt n w = (Throw (RString.too_many (bytes_of_string fmt) 0 1), w).
Proof. intros H. unfold refuse. by rewrite RString.format_too_many. Qed.

(** The 64 MiB limit. A longer packet is refused with an exception (the
    formatter's [out_of_range], not the intended [invalid_argument]): the
    sender puts nothing on the wire, and the receiver of a length field above
    the limit has consumed the four bytes of that field and nothing else. *)
Theorem oversize_refused (junk : nat -> Z) (w : world) (fd : Z) (s : sock) (d : option bytes) (n : Z) (rest : bytes) :
  live w fd s -> max_packet < n < 2 ^ 32 -> inbuf s = be_bytes 4 n ++ rest ->
  (exists e, send_length_and_packet fd d n w = (Throw (out_of_range e), w)) /\
  (exists e rs, quiet rs /\ recv_length_and_packet junk fd w =
     (Throw (out_of_range e), put_sock w fd (after_recv s 4 rs))).
Proof.
  intros Hl Hn Hi. split.
  { unfold send_length_and_packet. destruct (Z.ltb_spec max_packet n); [|lia].
    rewrite refuse_out_of_range by (by apply RString.no_hole_nobrace). eauto. }
  unfold recv_length_and_packet.
  destruct (recvn_ex_fill w fd s (malloc junk 4) 4 (be_bytes 4 n) rest Hl Hi) as (rs & Hrs & E); [done..|].
  rewrite (bind_ok _ _ _ _ _ E), ntohl_be, be_val_bytes
    by (done || apply be_bytes_wf || (change (256 ^ Z.of_nat 4) with (2 ^ 32); unfold max_packet in Hn; lia)).
  destruct (Z.ltb_spec max_packet n); [|lia].
  rewrite refuse_out_of_range by (by apply RString.no_hole_nobrace). eauto.
Qed.

Definition oversize_sock : sock := Sock (be_bytes 4 (2 ^ 31) ++ [1]) false [Chunk 0] [] [] true.

Lemma oversize_refused_witness :
  let w := World {[ 3 := oversize_sock ]} [] [] in
  (exists e, send_length_and_packet 3 None (2 ^ 31) w = (Throw (out_of_range e), w)) /\
  (exists e rs, quiet rs /\ recv_length_and_packet (fun _ => 0) 3 w =
     (Throw (out_of_range e), put_sock w 3 (after_recv oversize_sock 4 rs))).
Proof.
  apply (oversize_refused (fun _ => 0) (World {[ 3 := oversize_sock ]} [] []) 3 oversize_sock None (2 ^ 31) [1]);
    [|unfold max_packet; lia|reflexivity].
  split; [reflexivity|]. split; [done|]. split; apply (bool_decide_unpack _); reflexivity.
Defined.

(** ** Name queries *)

Lemma cstr_app d l : ~ 0 ∈ d -> cstr (d ++ 0 :: l) = d.
Proof.
  induction d as [|b d IH]; intros Hd; cbn [cstr app]; [done|].
  apply not_elem_of_cons in Hd as [Hb Hd]. destruct (Z.eqb_spec b 0); [congruence|]. by rewrite IH.
Qed.

Lemma assemble_dns_query_eq junk domain :
  Z.of_nat (length domain) + 33 < 2 ^ 32 ->
  assemble_dns_query junk domain =
    Ok (Query (replicate 16 0) 0
          (Bss true (Z.of_nat (length domain) + 33) (Some (dns_head ++ domain ++ [0])))).
Proof.
  intros Hn. unfold assemble_dns_query. rewrite u32_small by lia.
  replace (32 + Z.of_nat (length domain) + 1) with (Z.of_nat (length domain) + 33) by lia.
  set (g := malloc junk _). assert (Lg : length g = (33 + length domain)%nat) by (unfold g; len). clearbody g.
  assert (Lh : length dns_head = 32%nat) by done.
  rewrite <- (take_drop 32 g), mem_write_head by len. run_ok.
  rewrite <- (take_drop (length domain) (drop 32 g)), drop_drop.
  rewrite (mem_write_mid dns_head) by len. run_ok.
  set (r := drop (32 + length domain) g). assert (Lr : length r = 1%nat) by (unfold r; len).
  rewrite (app_assoc dns_head domain r), <- (app_nil_r r) at 1.
  rewrite (mem_write_mid (dns_head ++ domain) r []) by len. run_ok. by rewrite app_nil_r, <- app_assoc.
Qed.

(** Name queries. A query built for a host name is recognised as a name
    query and yields the name back; a query is taken for a name query exactly
    when its destination address is all zeros. *)
Theorem dns_query_roundtrip (junk : nat -> Z) (domain : bytes) (q : client_query) :
  ~ 0 ∈ domain -> Z.of_nat (length domain) + 33 < 2 ^ 32 -> domain <> [] -> query_ok q ->
  (exists dq, assemble_dns_query junk domain = Ok dq /\ is_dns_query dq = true /\
              get_domain_from_dns_query dq = Ok domain) /\
  (is_dns_query q = true <-> destination_ip q = replicate 16 0).
Proof.
  intros Hd Hn Hne (Hl & _). split.
  - rewrite assemble_dns_query_eq by done. eexists. split; [done|]. split; [done|].
    unfold get_domain_from_dns_query. cbn [payload bss_length str].
    destruct (Z.leb_spec (Z.of_nat (length domain) + 33) 32); [lia|]. cbn [deref]. run_ok.
    rewrite drop_app_length' by done. rewrite decide_True; [by rewrite cstr_app|].
    apply elem_of_app. right. by apply list_elem_of_singleton.
  - unfold is_dns_query. rewrite forallb_forall. split.
    + intros H. rewrite <- Hl. apply list_eq_same_length with (length (destination_ip q)); [len|done|].
      intros i x y Hi Hx Hy. apply lookup_replicate in Hy as [-> _].
      specialize (H x). rewrite Z.eqb_eq in H. apply H. apply list_elem_of_In. by eapply list_elem_of_lookup_2.
    + intros -> x Hx. apply list_elem_of_In, elem_of_replicate in Hx as [-> _]. done.
Qed.

Lemma dns_query_roundtrip_witness :
  (exists dq, assemble_dns_query (fun _ => 7) (bytes_of_string "a.org") = Ok dq /\ is_dns_query dq = true /\
              get_domain_from_dns_query dq = Ok (bytes_of_string "a.org")) /\
  (is_dns_query (Query (replicate 16 0) 80 (Bss false 0 None)) = true <->
   destination_ip (Query (replicate 16 0) 80 (Bss false 0 None)) = replicate 16 0).
Proof.
  apply (dns_query_roundtrip (fun _ => 7) (bytes_of_string "a.org") (Query (replicate 16 0) 80 (Bss false 0 None))).
  - apply (bool_decide_unpack _). reflexivity.
  - cbn. lia.
  - done.
  - split; [done|]. split; [apply (bool_decide_unpack _); reflexivity|]. split; [cbn; lia|]. split; cbn; lia || done.
Defined.

(** ** Printed addresses *)

(** The value of a string of decimal digits, and the fields of a string
    separated by the character [c]. *)
Definition dec_val (l : bytes) : Z := foldl (fun a d => 10 * a + (d - 48)) 0 l.

Fixpoint split_on (c : Z) (l : bytes) : list bytes :=
  match l with
  | [] => [[]]
  | b :: l =>
      if b =? c then [] :: split_on c l
      else match split_on c l with p :: ps => (b :: p) :: ps | [] => [[b]] end
  end.

Lemma split_on_nonempty c l : exists p ps, split_on c l = p :: ps.
Proof.
  destruct l as [|b l]; cbn; [eauto|]. destruct (b =? c); [eauto|]. destruct (split_on c l); eauto.
Qed.

Lemma split_on_sep c a l : ~ c ∈ a -> split_on c (a ++ c :: l) = a :: split_on c l.
Proof.
  induction a as [|b a IH]; intros Ha; cbn [app split_on].
  - by rewrite Z.eqb_refl.
  - apply not_elem_of_cons in Ha as [Hb Ha]. destruct (Z.eqb_spec b c); [congruence|]. by rewrite IH.
Qed.

Lemma split_on_none c a : ~ c ∈ a -> split_on c a = [a].
Proof.
  induction a as [|b a IH]; intros Ha; cbn [split_on]; [done|].
  apply not_elem_of_cons in Ha as [Hb Ha]. destruct (Z.eqb_spec b c); [congruence|]. by rewrite IH.
Qed.

Lemma dec_val_digits fuel z :
  0 <= z < 10 ^ Z.of_nat fuel -> (1 <= fuel)%nat -> dec_val (dec_digits fuel z) = z.
Proof.
  revert z. induction fuel as [|fuel IH]; intros z Hz Hf; [lia|]. cbn [dec_digits].
  destruct (Z.ltb_spec z 10); [cbn; lia|].
  rewrite Nat2Z.inj_succ, Z.pow_succ_r in Hz by lia. destruct fuel as [|fuel]; [cbn in Hz; lia|].
  unfold dec_val in *. rewrite foldl_app, IH.
  - cbn [foldl]. pose proof (Z.div_mod z 10). lia.
  - split; [apply Z.div_pos; lia|apply Z.div_lt_upper_bound; lia].
  - lia.
Qed.

Lemma dec_val_to_string b : is_byte b -> dec_val (to_string b) = b.
Proof.
  intros Hb. unfold is_byte in Hb. unfold to_string. destruct (Z.ltb_spec b 0); [lia|].
  apply dec_val_digits; [|lia]. split; [lia|]. apply (Z.lt_le_trans _ (10 ^ 3)); [lia|].
  apply Z.pow_le_mono_r; lia.
Qed.

Lemma to_string_no_sep b c : is_byte b -> c < 48 \/ 57 < c -> ~ c ∈ to_string b.
Proof.
  intros Hb Hc Hin. unfold is_byte in Hb. destruct (to_string_bound 3 b) as [_ H]; [lia|lia|].
  rewrite Forall_forall in H. specialize (H _ Hin). cbn in H. lia.
Qed.

(** Fields joined by a separator after each, the last separator removed. *)
Lemma split_joined c l :
  c < 48 \/ 57 < c -> wf_bytes l -> l <> [] ->
  split_on c (removelast (concat (map (fun b => to_string b ++ [c]) l))) = map to_string l.
Proof.
  intros Hc Hl Hne. induction Hl as [|b l Hb Hl IH]; [done|]. cbn [map concat].
  destruct l as [|b' l'].
  - cbn [map concat]. rewrite app_nil_r, removelast_last. by apply split_on_none, to_string_no_sep.
  - rewrite removelast_app.
    + rewrite <- app_assoc. cbn [app]. rewrite split_on_sep by (by apply to_string_no_sep).
      by rewrite IH.
    + cbn [map concat]. intros E. by destruct (to_string b').
Qed.

(** Printing an address. When only the first four bytes are in use the
    result is the dotted quad of these bytes. Otherwise it is the sixteen bytes
    in decimal separated by colons; no text with sixteen fields is an IPv6
    address (RFC 4291 allows eight groups). *)
Theorem ip_array_to_str_fields (ip : bytes) :
  wf_bytes ip -> length ip = 16%nat ->
  (drop 4 ip = replicate 12 0 -> map dec_val (split_on 46 (ip_array_to_str ip)) = take 4 ip) /\
  (drop 4 ip <> replicate 12 0 -> map dec_val (split_on 58 (ip_array_to_str ip)) = ip /\
     length (split_on 58 (ip_array_to_str ip)) = 16%nat).
Proof.
  intros Hw Hl.
  assert (Hv : forall l, wf_bytes l -> map dec_val (map to_string l) = l).
  { induction 1 as [|b l Hb _ IH]; cbn; [done|]. by rewrite dec_val_to_string, IH. }
  do 16 (destruct ip as [|? ip]; [done|]). destruct ip; [|done]. unfold ip_array_to_str.
  assert (Hv6 : existsb (fun i => negb (nth i [z; z0; z1; z2; z3; z4; z5; z6; z7; z8; z9; z10; z11; z12; z13; z14] 0 =? 0)) (seq 4 12)
    = negb (bool_decide ([z3; z4; z5; z6; z7; z8; z9; z10; z11; z12; z13; z14] = replicate 12 0))).
  { case_bool_decide as H.
    - cbn in H. injection H as -> -> -> -> -> -> -> -> -> -> -> ->. done.
    - cbn [negb]. apply existsb_exists.
      destruct (decide (Forall (fun b => b = 0) [z3; z4; z5; z6; z7; z8; z9; z10; z11; z12; z13; z14])) as [Ha|Ha].
      { exfalso. apply H. rewrite !Forall_cons in Ha. destruct Ha as (-> & -> & -> & -> & -> & -> & -> & -> & -> & -> & -> & -> & _). done. }
      apply not_Forall_Exists in Ha; [|apply _]. apply Exists_exists in Ha as (x & Hx & Hx0).
      apply list_elem_of_lookup in Hx as (i & Hi). exists (4 + i)%nat.
      assert (Hii : (i < 12)%nat) by (apply lookup_lt_Some in Hi; exact Hi). split.
      + apply in_seq. lia.
      + apply nth_lookup_Some with (d := 0) in Hi.
        change (negb (nth i [z3; z4; z5; z6; z7; z8; z9; z10; z11; z12; z13; z14] 0 =? 0) = true).
        rewrite Hi. by apply negb_true_iff, Z.eqb_neq. }
  rewrite Hv6. cbn [skipn drop]. split; intros H.
  - rewrite bool_decide_true by done. cbn [negb].
    change (map _ (seq 0 4)) with (map (fun b => to_string b ++ [46]) [z; z0; z1; z2]).
    assert (wf_bytes [z; z0; z1; z2]) by (apply (wf_bytes_take 4) in Hw; exact Hw).
    rewrite split_joined; [by apply Hv|lia|done|done].
  - rewrite bool_decide_false by done. cbn [negb].
    change (map _ (seq 0 16)) with (map (fun b => to_string b ++ [58])
      [z; z0; z1; z2; z3; z4; z5; z6; z7; z8; z9; z10; z11; z12; z13; z14]).
    rewrite split_joined; [|lia|done|done]. split; [by apply Hv|done].
Qed.

Lemma ip_array_to_str_fields_witness :
  let ip := [192; 168; 0; 1] ++ replicate 12 0 in
  (drop 4 ip = replicate 12 0 -> map dec_val (split_on 46 (ip_array_to_str ip)) = take 4 ip) /\
  (drop 4 ip <> replicate 12 0 -> map dec_val (split_on 58 (ip_array_to_str ip)) = ip /\
     length (split_on 58 (ip_array_to_str ip)) = 16%nat).
Proof.
  apply (ip_array_to_str_fields ([192; 168; 0; 1] ++ replicate 12 0));
    [apply (bool_decide_unpack _); reflexivity|reflexivity].
Defined.

(** Choosing an address. [resolveDomainOnce] with a filter returns the
    first endpoint of the name that passes it, throws when none does, and
    passes on the resolver's own error. *)
Theorem resolveDomainOnce_first (resolve : bytes -> outcome (list ip_address)) (domain : bytes)
    (filter : ip_address -> bool) (eps : list ip_address) :
  resolve domain = Ok eps ->
  (forall a, resolveDomainOnce_if resolve domain filter = Ok a <->
     exists l l', eps = l ++ a :: l' /\ filter a = true /\ Forall (fun b => filter b = false) l) /\
  ((exists e, resolveDomainOnce_if resolve domain filter = Throw e) <-> Forall (fun b => filter b = false) eps).
Proof.
  intros Hr. unfold resolveDomainOnce_if. rewrite Hr. run_ok. clear Hr.
  induction eps as [|b eps [IH1 IH2]]; cbn [first_matching].
  - split; [|split; eauto]. intros a. split; [done|]. intros (l & l' & H & _). by destruct l.
  - destruct (filter b) eqn:Hb.
    + split.
      * intros a. split; [intros [= <-]; exists [], eps; done|].
        intros (l & l' & H & Ha & Hf). destruct l as [|c l]; [by injection H as -> _|].
        injection H as -> _. apply Forall_cons in Hf as [? _]. congruence.
      * split; [by intros [? ?]|]. rewrite Forall_cons. intros [? _]. congruence.
    + split.
      * intros a. rewrite IH1. split.
        -- intros (l & l' & -> & Ha & Hf). exists (b :: l), l'. by rewrite Forall_cons.
        -- intros (l & l' & H & Ha & Hf). destruct l as [|c l]; [injection H as -> _; congruence|].
           injection H as -> ->. apply Forall_cons in Hf as [_ Hf]. eauto.
      * rewrite IH2, Forall_cons. tauto.
Qed.

Lemma resolveDomainOnce_first_witness :
  let resolve := fun _ : bytes => Ok [V6 [1]; V4 [2]] in
  let filter := fun a => match a with V4 _ => true | V6 _ => false end in
  (forall a, resolveDomainOnce_if resolve [] filter = Ok a <->
     exists l l', [V6 [1]; V4 [2]] = l ++ a :: l' /\ filter a = true /\ Forall (fun b => filter b = false) l) /\
  ((exists e, resolveDomainOnce_if resolve [] filter = Throw e) <->
   Forall (fun b => filter b = false) [V6 [1]; V4 [2]]).
Proof.
  exact (resolveDomainOnce_first (fun _ : bytes => Ok [V6 [1]; V4 [2]]) []
    (fun a => match a with V4 _ => true | V6 _ => false end) [V6 [1]; V4 [2]] eq_refl).
Defined.

End NetLib.
