(* ===== verification/Tunnel.v ===== *)
(** * The tunnels (native/src/tunnel.hpp, tunnel.cc, connection.hpp)

    [outbound_tunnel] is the client's description of the server,
    [SnakeConnection] one authenticated connection to it, [inbound_tunnel] the
    server: authentication, the exchange loop of a connection, the accept
    loop.  The theorems are stated for any module that keeps its promises
    ([ModuleLaws]). *)

From S2P Require Import Prelude ModuleApi SimpleProxy SockIO NetLib.
From stdpp Require Import gmap.
Import ModuleApi SockIO NetLib.

Open Scope Z_scope.

Module Tunnel.

(** ** The client side *)

Record outbound_tunnel := Outbound {
  ot_mod : module_fns;
  serverAddr : bytes;
  serverPort : Z;
  ot_passphrase : bytes;
  nx_retry : bool;
  conv_serverAddr : bytes;
  conv_passphrase : binary_safe_string;
}.

(** What the surrounding system provides: the contents of fresh memory, the
    success of [realloc], [getaddrinfo] and the following calls, the resolver
    (whose answer depends on the attempt), and peer names. *)
Section System.
Variable junk : nat -> Z.
Variable realloc_ok : Z -> bool.
Variable getaddrinfo : bytes -> bytes -> bool -> Z + list addrinfo.
Variable sys_listen : Z -> bool.
Variable resolve : nat -> bytes -> outcome (list ip_address).
Variable getpeername : Z -> option sockaddr.
Variable inet_ntop : ss_family -> bytes -> option bytes.

(** The loop of [initCString]: the resolver's error is retried (after a pause)
    when [nx_retry] is set and rethrown otherwise. [fuel] bounds the attempts. *)
Fixpoint resolve_retry (fuel : nat) (attempt : nat) (addr : bytes) (nx_retry : bool) : outcome ip_address :=
  match fuel with
  | O => Blocked
  | S fuel =>
      match resolveDomainOnce (resolve attempt) addr with
      | Throw (system_error e) =>
          if nx_retry then resolve_retry fuel (S attempt) addr nx_retry else Throw (system_error e)
      | r => r
      end
  end.

(** Copies an address into an array of sixteen zero bytes. *)
Definition ip_to_array (ip : ip_address) : outcome bytes :=
  match ip with
  | V4 a => d ← mem_read a 0 4; mem_write (replicate 16 0) 0 d
  | V6 a => d ← mem_read a 0 16; mem_write (replicate 16 0) 0 d
  end.

Definition initCString (fuel : nat) (m : module_fns) (addr : bytes) (port : Z) (pass : bytes) (retry : bool)
    : outcome outbound_tunnel :=
  servAddr ← resolve_retry fuel 0 addr retry;
  conv ← ip_to_array servAddr;
  s ← mem_write (replicate (length pass + 1) 0) 0 pass;
  Ok (Outbound m addr port pass retry conv (Bss true (u32 (Z.of_nat (length pass))) (Some s))).

(** The move constructor runs [initCString] again, with [nx_retry] not yet
    assigned: it is read when the name does not resolve. *)
Definition outbound_move (attempt : nat) (t : outbound_tunnel) : outcome outbound_tunnel :=
  match resolveDomainOnce (resolve attempt) (serverAddr t) with
  | Throw (system_error _) => Undefined Uninitialised
  | r => servAddr ← r;
         conv ← ip_to_array servAddr;
         s ← mem_write (replicate (length (ot_passphrase t) + 1) 0) 0 (ot_passphrase t);
         Ok (Outbound (ot_mod t) (serverAddr t) (serverPort t) (ot_passphrase t) (nx_retry t) conv
               (Bss true (u32 (Z.of_nat (length (ot_passphrase t)))) (Some s)))
  end.

Definition newConnection (t : outbound_tunnel) : io Z :=
  match getaddrinfo (serverAddr t) (to_string (serverPort t)) false with
  | inl _ => throw (runtime_error "getaddrinfo failed.")
  | inr paddr =>
      r ← try_addrs paddr;
      match r with
      | Some sockfd => mret sockfd
      | None => throw (runtime_error "Failed to connect to any of these addr.")
      end
  end.

Definition outbound_doAuth (t : outbound_tunnel) (conn : connect_info) : io (bool * connect_info) :=
  let connfd := connect_fd conn in
  q ← lift (makeAuthQuery (ot_mod t) conn);
  let authdat := q.1 in
  let conn := q.2 in
  let lengthBackup := bss_length authdat in
  if 64 * 1024 * 1024 <? lengthBackup then throw (runtime_error "authQuery is too long(incorrect)")
  else
    _ ← sendn_ex connfd (le_bytes 4 (htonl lengthBackup)) 4 0;
    _ ← sendn_ptr connfd (str authdat) lengthBackup 0;
    n ← recvn_ex connfd (malloc junk 4) 0 4;
    let replyLen := ntohl (le_val n) in
    if 64 * 1024 * 1024 <? replyLen then throw (runtime_error "authReply is too long(incorrect)")
    else
      rbuf ← recvn_ex connfd (malloc junk (Z.to_nat replyLen)) 0 replyLen;
      lift (onAuthReply (ot_mod t) rbuf replyLen conn).

(** *** SnakeConnection *)

Definition set_connect_fd (c : connect_info) (fd : Z) : connect_info :=
  ConnInfo (server_ip c) (server_port c) (passphrase c) fd (additional_info c).

Definition initConnInfo (t : outbound_tunnel) : connect_info :=
  ConnInfo (conv_serverAddr t) (serverPort t) (conv_passphrase t) 0 None.

Definition connect (t : outbound_tunnel) (myConnInfo : connect_info) : io (connect_info * Z) :=
  connfd ← newConnection t;
  r ← outbound_doAuth t (set_connect_fd myConnInfo connfd);
  if r.1 : bool then mret (r.2, connfd) else throw (runtime_error "Auth failed.").

(** The constructor: the connection state and the descriptor, or an exception
    (and then the destructor does not run). *)
Definition SnakeConnection (t : outbound_tunnel) : io (connect_info * Z) :=
  connect t (initConnInfo t).

(** The transfers of an established connection. *)
Definition sc_sendn (c : connect_info * Z) (data : option bytes) (len : Z) : io unit :=
  sendn_ptr c.2 data len MSG_NOSIGNAL.

Definition sc_recvn (c : connect_info * Z) (data : bytes) (len : Z) : io bytes :=
  recvn_ex c.2 data 0 len.

Definition recvn_and_free_on_err (c : connect_info * Z) (data : bytes) (len : Z) : io bytes :=
  r ← recvn c.2 data 0 len;
  if r.1 =? -1 then throw (runtime_error "RecvnAndFree failed.") else mret r.2.

Definition destroy_SnakeConnection (t : outbound_tunnel) (c : connect_info * Z) : io unit :=
  _ ← lift (client_impl_onCloseConn (ot_mod t) c.1);
  if c.2 =? 0 then mret tt else close c.2.

(** ** The server side *)

Record inbound_tunnel := Inbound {
  in_mod : module_fns;
  bindAddr : bytes;
  bindPort : Z;
  in_passphrase : bytes;
}.

Definition inbound_doAuth (t : inbound_tunnel) (conn : connect_info) : io (bool * connect_info) :=
  let connfd := connect_fd conn in
  msg ← recv_length_and_packet junk connfd;
  r ← lift (makeAuthReply (in_mod t) conn (Bss false msg.2 (Some msg.1)));
  let authReplyMsg := r.1.1 in
  _ ← send_length_and_packet connfd (str authReplyMsg) (bss_length authReplyMsg);
  mret (negb r.1.2, r.2).

(** [nextHopConn], which the scope guards close, is the local variable. *)
Abbreviation hop_io := (st (Z * world)).

(** A packet from the client. *)
Definition on_client_data (t : inbound_tunnel) (conn : connect_info) (connfd : Z) : hop_io unit :=
  msg ← embed (recv_length_and_packet junk connfd);
  thisQuery ← lift (server_impl_decode (in_mod t) conn (Bss false msg.2 (Some msg.1)));
  if is_dns_query thisQuery then
    domainStr ← lift (get_domain_from_dns_query thisQuery);
    nextHopIp ← lift (resolveDomainOnce (resolve 0) domainStr);
    ip ← lift (ip_to_array nextHopIp);
    encoded ← lift (server_impl_encode (in_mod t) conn
                      (Query ip (destination_port thisQuery) (Bss false 0 None)));
    embed (send_length_and_packet connfd (str encoded) (bss_length encoded))
  else
    nextHopConn ← get_local;
    _ ← (if nextHopConn =? -1 then
           fd ← embed (quick_connect getaddrinfo (ip_array_to_str (destination_ip thisQuery))
                         (destination_port thisQuery) false);
           set_local fd
         else mret tt);
    nextHopConn ← get_local;
    embed (sendn_ptr nextHopConn (str (payload thisQuery)) (bss_length (payload thisQuery)) 0).

(** Data from the next hop; [false] when it has closed the connection. *)
Definition on_hop_data (t : inbound_tunnel) (conn : connect_info) (connfd : Z) : hop_io bool :=
  nextHopConn ← get_local;
  freedomData ← embed (quick_recvall junk realloc_ok nextHopConn);
  if bool_decide (freedomData = []) then mret false
  else
    pl ← lift (make_binary_safe_string junk freedomData);
    encoded ← lift (server_impl_encode (in_mod t) conn (Query (replicate 16 0) (bindPort t) pl));
    _ ← embed (send_length_and_packet connfd (str encoded) (bss_length encoded));
    mret true.

(** The [while(true)] loop: every turn calls [select], so the length of the
    script of [select] bounds the number of turns. *)
Fixpoint exchange (fuel : nat) (t : inbound_tunnel) (conn : connect_info) (connfd : Z) : hop_io unit :=
  match fuel with
  | O => lift Blocked
  | S fuel =>
      nextHopConn ← get_local;
      r ← embed (select (connfd :: if nextHopConn =? -1 then [] else [nextHopConn]));
      match r with
      | None => throw (runtime_error "Select failed")
      | Some rset =>
          _ ← (if decide (connfd ∈ rset) then on_client_data t conn connfd else mret tt);
          nextHopConn ← get_local;
          goon ← (if decide (nextHopConn <> -1 /\ nextHopConn ∈ rset) then on_hop_data t conn connfd
                  else mret true);
          if goon : bool then exchange fuel t conn connfd else mret tt
      end
  end.

Definition dealConnectionImpl (t : inbound_tunnel) (connfd : Z) : io unit :=
  pass ← lift (make_binary_safe_string junk (in_passphrase t));
  let myConnInfo := ConnInfo (replicate 16 0) (bindPort t) pass connfd None in
  a ← inbound_doAuth t myConnInfo;
  if negb a.1 then
    _ ← lift (get_peer_name getpeername inet_ntop connfd);
    throw (runtime_error "client auth failed.")
  else
    fuel ← asks (fun w => S (length (selects w)));
    with_local (-1)
      (defer (lift (server_impl_onCloseConn (in_mod t) a.2))
        (defer (nextHopConn ← get_local;
                if nextHopConn =? -1 then mret tt else embed (close nextHopConn))
          (exchange fuel t a.2 connfd))).

Definition dealConnection (t : inbound_tunnel) (connfd : Z) : io unit :=
  _ ← try_catch (dealConnectionImpl t connfd) (fun _ => mret tt);
  close connfd.

(** The accept loop; the local variable is the list of connections whose
    handler was started, in a thread of its own. *)
Fixpoint accept_loop (fuel : nat) : st (list Z * world) unit :=
  match fuel with
  | O => lift Blocked
  | S fuel =>
      connfd ← embed quick_accept;
      tasks ← get_local;
      _ ← set_local (tasks ++ [connfd]);
      accept_loop fuel
  end.

Definition listen (t : inbound_tunnel) : st (list Z * world) unit :=
  _ ← embed (quick_listen getaddrinfo sys_listen (bindAddr t) (bindPort t) false);
  fuel ← asks (fun tw => S (length (pending tw.2)));
  accept_loop fuel.

End System.

(** ** Authentication *)

(** The length field and the packet, as [outbound_doAuth] receives them. *)
Lemma recv_reply_ok junk w fd s d rest :
  live w fd s -> inbuf s = frame d ++ rest -> Z.of_nat (length d) <= max_packet ->
  exists rs rs', quiet rs' /\
    recvn_ex fd (malloc junk 4) 0 4 w =
      (Ok (be_bytes 4 (Z.of_nat (length d))), put_sock w fd (after_recv s 4 rs)) /\
    recvn_ex fd (malloc junk (length d)) 0 (Z.of_nat (length d)) (put_sock w fd (after_recv s 4 rs)) =
      (Ok d, put_sock w fd (after_recv s (length (frame d)) rs')).
Proof.
  intros Hl Hi Hn. unfold max_packet in Hn. rewrite frame_length. unfold frame in Hi. rewrite <- app_assoc in Hi.
  destruct (recvn_ex_fill w fd s (malloc junk 4) 4 _ (d ++ rest) Hl Hi) as (rs & Hrs & E); [done..|].
  destruct (recvn_ex_fill (put_sock w fd (after_recv s 4 rs)) fd (after_recv s 4 rs)
              (malloc junk (length d)) (Z.of_nat (length d)) d rest)
    as (rs' & Hrs' & E'); [eauto with sockio| |len|done|lia|].
  { cbn [after_recv inbuf]. by rewrite Hi. }
  exists rs, rs'. split; [done|]. split; [exact E|]. by rewrite E', put_put, after_recv_recv.
Qed.

Lemma ntohl_frame n : 0 <= n < 2 ^ 32 -> ntohl (le_val (be_bytes 4 n)) = n.
Proof. intros. rewrite ntohl_be by (done || apply be_bytes_wf). by apply be_val_bytes. Qed.

(** What sending [d] and receiving [m] bytes, in this order, does to a socket. *)
Definition after_send_recv (s : sock) (d : bytes) (ws : list io_event) (m : nat) (rs : list io_event) : sock :=
  after_recv (after_send s d ws) m rs.

Section Auth.
Context (m : module_fns) (fresh paired : connect_info -> connect_info -> Prop) `{!ModuleLaws m fresh paired}.

(** C6: The handshake over the wire. For every module that keeps its promises
    and every pair of fresh connection states there are a query and a reply
    such that: the client sends the query, accepts the reply and ends in a
    state paired with the server's; the server accepts the query and sends
    that reply. Both take exactly one packet from their stream and put exactly
    one on it. *)
Theorem handshake_over_wire (junk : nat -> Z) (ct : outbound_tunnel) (sv : inbound_tunnel) (cc sc : connect_info) :
  ot_mod ct = m -> in_mod sv = m -> fresh cc sc -> bss_length (passphrase cc) + 64 <= max_packet ->
  exists query reply cc' sc', paired cc' sc' /\
    (forall w s rest, live w (connect_fd cc) s -> inbuf s = frame reply ++ rest ->
       exists ws rs, quiet ws /\ quiet rs /\
         outbound_doAuth junk ct cc w =
           (Ok (true, cc'), put_sock w (connect_fd cc) (after_send_recv s (frame query) ws (length (frame reply)) rs))) /\
    (forall w s rest, live w (connect_fd sc) s -> inbuf s = frame query ++ rest ->
       exists rs ws, quiet rs /\ quiet ws /\
         inbound_doAuth junk sv sc w =
           (Ok (true, sc'), put_sock w (connect_fd sc) (after_send (after_recv s (length (frame query)) rs) (frame reply) ws))).
Proof.
  intros Hc Hs Hf Hp. destruct (handshake cc sc Hf) as (q & cc1 & r & sc1 & cc2 & E1 & (Hq & Lq) & E2 & (Hr & Lr) & E3 & Hpair).
  pose proof (bss_bytes_length _ Hq) as Bq. pose proof (bss_bytes_length _ Hr) as Br.
  exists (bss_bytes q), (bss_bytes r), cc2, sc1. split; [done|]. split.
  - intros w s rest Hl Hi. unfold outbound_doAuth. rewrite Hc.
    rewrite (bind_ok (lift _) _ w (q, cc1) w) by (unfold lift, makeAuthQuery; by rewrite E1). cbn [fst snd].
    change (64 * 1024 * 1024) with max_packet. destruct (Z.ltb_spec max_packet (bss_length q)); [lia|].
    set (fd := connect_fd cc) in *. rewrite htonl_bytes.
    destruct (sendn_ex_all (flags := 0) w fd s (be_bytes 4 (bss_length q)) 4 Hl) as (ws1 & Hw1 & S1); [done..|].
    rewrite (bind_ok _ _ _ _ _ S1). set (s1 := after_send s _ ws1). set (w1 := put_sock w fd s1).
    assert (Hl1 : live w1 fd s1) by (unfold w1, s1; eauto with sockio).
    destruct (sendn_ptr_ok (flags := 0) w1 fd s1 q Hl1 Hq) as (ws2 & Hw2 & S2). rewrite (bind_ok _ _ _ _ _ S2).
    unfold w1, s1. rewrite put_put, after_send_send. rewrite <- Bq. fold (frame (bss_bytes q)).
    set (s2 := after_send s _ ws2). set (w2 := put_sock w fd s2).
    assert (Hl2 : live w2 fd s2) by (unfold w2, s2; eauto with sockio).
    destruct (recv_reply_ok junk w2 fd s2 (bss_bytes r) rest Hl2) as (rs1 & rs2 & Hr2 & R1 & R2);
      [exact Hi|unfold max_packet; lia|].
    rewrite (bind_ok _ _ _ _ _ R1), ntohl_frame by lia.
    destruct (Z.ltb_spec max_packet (Z.of_nat (length (bss_bytes r)))); [unfold max_packet in *; lia|].
    rewrite Nat2Z.id, (bind_ok _ _ _ _ _ R2). unfold lift. rewrite Br, E3.
    exists ws2, rs2. split; [done|]. split; [done|]. unfold w2. by rewrite put_put.
  - intros w s rest Hl Hi. unfold inbound_doAuth. set (fd := connect_fd sc) in *.
    destruct (recv_frame_ok junk w fd s (bss_bytes q) rest Hl Hi) as (rs & Hrs & R & _); [lia|].
    rewrite (bind_ok _ _ _ _ _ R). cbn [fst snd]. rewrite Hs, Bq.
    rewrite (bind_ok (lift _) _ _ (r, false, sc1) (put_sock w fd (after_recv s (length (frame (bss_bytes q))) rs)))
      by (unfold lift, makeAuthReply; fold (on_wire q); by rewrite E2).
    cbn [fst snd negb]. set (s1 := after_recv s _ rs). set (w1 := put_sock w fd s1).
    assert (Hl1 : live w1 fd s1) by (unfold w1, s1; eauto with sockio).
    destruct (send_frame_ok w1 fd s1 r Hl1 Hr) as (ws & Hws & S1); [unfold max_packet; lia|].
    rewrite (bind_ok _ _ _ _ _ S1). exists rs, ws. split; [done|]. split; [done|].
    unfold w1. by rewrite put_put.
Qed.
End Auth.

(** ** The exchange loop *)

Lemma embed_ok {L A} (m : io A) (l : L) w a w' :
  m w = (Ok a, w') -> embed m (l, w) = (Ok a, (l, w')).
Proof. intros H. unfold embed. cbn. by rewrite H. Qed.

Lemma query_equiv_dns q q' : query_equiv q q' -> is_dns_query q = is_dns_query q'.
Proof. intros (H & _). unfold is_dns_query. by rewrite H. Qed.

(** The name in a query that is equivalent to the one the client built. *)
Lemma dns_domain_of q' domain prt :
  query_ok q' -> ~ 0 ∈ domain ->
  query_equiv q' (Query (replicate 16 0) prt
    (Bss true (Z.of_nat (length domain) + 33) (Some (dns_head ++ domain ++ [0])))) ->
  get_domain_from_dns_query q' = Ok domain.
Proof.
  intros (_ & _ & _ & _ & Hq') Hd (_ & _ & H3 & H4). cbn [payload] in H3, H4.
  unfold get_domain_from_dns_query. cbn [bss_length] in H3. rewrite H3 in *.
  destruct (Z.leb_spec (Z.of_nat (length domain) + 33) 32); [lia|].
  unfold bss_bytes in H4. rewrite H3 in H4. cbn [bss_length str] in H4.
  destruct (str (payload q')) as [b|]; [|lia]. cbn [deref]. run_ok.
  rewrite (firstn_all2 (dns_head ++ domain ++ [0])) in H4
    by (rewrite !length_app; change (length dns_head) with 32%nat; cbn; lia).
  rewrite <- (take_drop (Z.to_nat (Z.of_nat (length domain) + 33)) b), H4, <- !app_assoc.
  rewrite drop_app_length' by done. rewrite decide_True; [f_equal; by apply cstr_app|].
  rewrite !elem_of_app. right. left. by apply list_elem_of_singleton.
Qed.

Section Relay.
Context (m : module_fns) (fresh paired : connect_info -> connect_info -> Prop) `{!ModuleLaws m fresh paired}.
Context (junk : nat -> Z) (realloc_ok : Z -> bool).
Context (getaddrinfo : bytes -> bytes -> bool -> Z + list addrinfo).
Context (resolve : nat -> bytes -> outcome (list ip_address)).
Context (sv : inbound_tunnel) (Hmod : in_mod sv = m).
Context (cc sc : connect_info) (Hpair : paired cc sc).

(** A packet the tunnel can carry. *)
Definition carried (q : client_query) : Prop :=
  query_ok q /\ is_dns_query q = false /\ bss_length (payload q) + 64 <= max_packet.

(** Receiving and decoding one packet of the client. *)
Lemma client_packet_decoded q p w fd s rest :
  query_ok q -> bss_length (payload q) + 64 <= max_packet ->
  f_client_encode m cc q = Ok p -> live w fd s -> inbuf s = frame (bss_bytes p) ++ rest ->
  exists rs q', quiet rs /\ query_ok q' /\ query_equiv q' q /\
    recv_length_and_packet junk fd w =
      (Ok (bss_bytes p, bss_length p), put_sock w fd (after_recv s (length (frame (bss_bytes p))) rs)) /\
    inbuf (after_recv s (length (frame (bss_bytes p))) rs) = rest /\
    server_impl_decode (in_mod sv) sc (Bss false (bss_length p) (Some (bss_bytes p))) = Ok q'.
Proof.
  intros Hq Hn Hp Hl Hi.
  destruct (client_to_server cc sc q Hpair Hq) as (p' & E1 & Hp' & Lp & q' & E2 & Hq' & He).
  { unfold max_packet in Hn. lia. }
  rewrite Hp in E1. injection E1 as <-. pose proof (bss_bytes_length _ Hp') as Bp.
  destruct (recv_frame_ok junk w fd s (bss_bytes p) rest Hl Hi) as (rs & Hrs & R & Hrest); [lia|].
  rewrite Bp in R. exists rs, q'. do 5 (split; [done|]). unfold server_impl_decode. rewrite Hmod. exact E2.
Qed.

(** One data packet with the next hop connected. *)
Lemma client_data_forwarded q p w connfd s hop sh rest :
  carried q -> f_client_encode m cc q = Ok p ->
  live w connfd s -> inbuf s = frame (bss_bytes p) ++ rest ->
  live w hop sh -> hop <> connfd -> hop <> -1 ->
  exists rs ws, quiet rs /\ quiet ws /\
    on_client_data junk getaddrinfo resolve sv sc connfd (hop, w) =
      (Ok tt, (hop, put_sock (put_sock w connfd (after_recv s (length (frame (bss_bytes p))) rs)) hop
                      (after_send sh (bss_bytes (payload q)) ws))) /\
    inbuf (after_recv s (length (frame (bss_bytes p))) rs) = rest.
Proof.
  intros (Hq & Hd & Hn) Hp Hl Hi Hh Hne Hm1.
  destruct (client_packet_decoded q p w connfd s rest Hq Hn Hp Hl Hi)
    as (rs & q' & Hrs & Hq' & He & R & Hrest & Ed).
  unfold on_client_data. rewrite (bind_ok _ _ _ _ _ (embed_ok _ hop _ _ _ R)). cbn [fst snd].
  set (w1 := put_sock w connfd _). rewrite (bind_ok (lift _) _ _ q' (hop, w1)) by (unfold lift; by rewrite Ed).
  rewrite (query_equiv_dns _ _ He), Hd.
  rewrite (bind_ok get_local _ _ hop (hop, w1)) by done. destruct (Z.eqb_spec hop (-1)); [done|].
  rewrite (bind_ok (mret tt) _ _ tt (hop, w1)) by done.
  rewrite (bind_ok get_local _ _ hop (hop, w1)) by done.
  destruct (sendn_ptr_ok (flags := 0) w1 hop sh (payload q')) as (ws & Hws & S1); [unfold w1; eauto with sockio|apply Hq'|].
  destruct He as (_ & _ & _ & He). rewrite He in S1. rewrite (embed_ok _ hop _ _ _ S1). eauto 6.
Qed.

(** The first data packet, which makes the server connect. *)
Lemma client_data_first q p w connfd s hop sh rest :
  carried q -> f_client_encode m cc q = Ok p ->
  live w connfd s -> inbuf s = frame (bss_bytes p) ++ rest ->
  getaddrinfo (ip_array_to_str (destination_ip q)) (to_string (destination_port q)) false
    = inr [AddrInfo hop true true true] ->
  socks w !! hop = Some sh -> quiet (rscript sh) -> quiet (wscript sh) -> hop <> connfd -> hop <> -1 ->
  exists rs ws, quiet rs /\ quiet ws /\
    on_client_data junk getaddrinfo resolve sv sc connfd (-1, w) =
      (Ok tt, (hop, put_sock (put_sock w connfd (after_recv s (length (frame (bss_bytes p))) rs)) hop
                      (after_send (set_open sh true) (bss_bytes (payload q)) ws))) /\
    inbuf (after_recv s (length (frame (bss_bytes p))) rs) = rest.
Proof.
  intros (Hq & Hd & Hn) Hp Hl Hi Hg Hh Hr Hw Hne Hm1.
  destruct (client_packet_decoded q p w connfd s rest Hq Hn Hp Hl Hi)
    as (rs & q' & Hrs & Hq' & He & R & Hrest & Ed).
  unfold on_client_data. rewrite (bind_ok _ _ _ _ _ (embed_ok _ (-1) _ _ _ R)). cbn [fst snd].
  set (w1 := put_sock w connfd _). rewrite (bind_ok (lift _) _ _ q' (-1, w1)) by (unfold lift; by rewrite Ed).
  rewrite (query_equiv_dns _ _ He), Hd.
  rewrite (bind_ok get_local _ _ (-1) (-1, w1)) by done. change (-1 =? -1) with true. cbv iota.
  set (w2 := put_sock w1 hop (set_open sh true)).
  assert (Ec : quick_connect getaddrinfo (ip_array_to_str (destination_ip q')) (destination_port q') false w1 = (Ok hop, w2)).
  { pose proof He as (-> & -> & _). unfold quick_connect. rewrite Hg. unfold try_addrs, socket, mbind, st_bind. cbn.
    destruct (Z.eqb_spec hop (-1)); [done|]. destruct (Z.eqb_spec hop (-1)); [done|].
    unfold w2. assert (socks w1 !! hop = Some sh) as Hh1 by (unfold w1; by rewrite lookup_put_ne).
    cbn in Hh1. by rewrite Hh1. }
  rewrite (bind_ok _ _ _ tt (hop, w2)) by (by rewrite (bind_ok _ _ _ _ _ (embed_ok _ (-1) _ _ _ Ec))).
  rewrite (bind_ok get_local _ _ hop (hop, w2)) by done.
  destruct (sendn_ptr_ok (flags := 0) w2 hop (set_open sh true) (payload q')) as (ws & Hws & S1);
    [unfold w2; split; [apply lookup_put|done]|apply Hq'|].
  destruct He as (_ & _ & _ & He). rewrite He in S1. rewrite (embed_ok _ hop _ _ _ S1).
  unfold w2. rewrite put_put. eauto 6.
Qed.

(** A turn of the loop in which only the client is ready. *)
Lemma exchange_client_turn fuel connfd hop hop' w w' l :
  selects w = Some [connfd] :: l -> hop' <> connfd ->
  on_client_data junk getaddrinfo resolve sv sc connfd (hop, World (socks w) l (pending w)) = (Ok tt, (hop', w')) ->
  exchange junk realloc_ok getaddrinfo resolve (S fuel) sv sc connfd (hop, w) =
    exchange junk realloc_ok getaddrinfo resolve fuel sv sc connfd (hop', w').
Proof.
  intros Hs Hh Ho. cbn [exchange]. rewrite (bind_ok get_local _ _ hop (hop, w)) by done.
  set (fds := connfd :: _). set (rset := filter (fun fd => fd ∈ [connfd]) fds).
  rewrite (bind_ok (embed _) _ _ (Some rset) (hop, World (socks w) l (pending w)))
    by (apply embed_ok; unfold select; by rewrite Hs).
  assert (Hr : forall fd, fd ∈ rset <-> fd = connfd).
  { intros fd. unfold rset. rewrite list_elem_of_filter, list_elem_of_singleton.
    split; [tauto|]. intros ->. split; [done|]. apply list_elem_of_here. }
  rewrite decide_True by (by apply Hr). rewrite (bind_ok _ _ _ _ _ Ho).
  rewrite (bind_ok get_local _ _ hop' (hop', w')) by done.
  rewrite decide_False by (intros [_ H]; by apply Hr in H).
  by rewrite (bind_ok (mret true) _ _ true (hop', w')) by done.
Qed.

Lemma live_selects w fd s l : live w fd s -> live (World (socks w) l (pending w)) fd s.
Proof. done. Qed.

Lemma relay_connected qs ps connfd hop w s sh rest :
  Forall carried qs -> Forall2 (fun q p => f_client_encode m cc q = Ok p) qs ps ->
  live w connfd s -> inbuf s = concat (map (fun p => frame (bss_bytes p)) ps) ++ rest ->
  live w hop sh -> hop <> connfd -> hop <> -1 ->
  selects w = replicate (length qs) (Some [connfd]) ->
  exists w' s' sh',
    exchange junk realloc_ok getaddrinfo resolve (S (length qs)) sv sc connfd (hop, w) = (Blocked, (hop, w')) /\
    live w' connfd s' /\ inbuf s' = rest /\ outbuf s' = outbuf s /\
    live w' hop sh' /\ outbuf sh' = outbuf sh ++ concat (map (fun q => bss_bytes (payload q)) qs).
Proof.
  intros Hc Hp. revert w s sh Hc. induction Hp as [|q p qs ps Hqp Hp IH]; intros w s sh Hc Hl Hi Hh Hne Hm1 Hs.
  - exists w, s, sh. cbn [length exchange]. rewrite (bind_ok get_local _ _ hop (hop, w)) by done.
    cbn [map concat app]. rewrite app_nil_r. split; [|done].
    apply bind_blocked. unfold embed, select. cbn [snd fst]. by rewrite Hs.
  - apply Forall_cons in Hc as [Hq Hc]. cbn [map concat] in Hi. rewrite <- app_assoc in Hi.
    set (w0 := World (socks w) (replicate (length qs) (Some [connfd])) (pending w)).
    destruct (client_data_forwarded q p w0 connfd s hop sh (concat (map (fun p => frame (bss_bytes p)) ps) ++ rest) Hq Hqp) as (rs & ws & Hrs & Hws & Ho & Hrest);
      [done|exact Hi|done|done|done|].
    set (w1 := put_sock (put_sock w0 connfd _) hop _) in Ho.
    destruct (IH w1 (after_recv s (length (frame (bss_bytes p))) rs) (after_send sh (bss_bytes (payload q)) ws))
      as (w' & s' & sh' & E & L1 & I1 & O1 & L2 & O2);
      [done|unfold w1; eauto 6 with sockio|done|unfold w1; eauto 6 with sockio|done|done|done|].
    exists w', s', sh'. cbn [length]. rewrite (exchange_client_turn _ _ _ hop w w1 _ Hs) by done.
    do 5 (split; [done|]). rewrite O2. cbn [after_send outbuf map concat]. by rewrite <- app_assoc.
Qed.

(** What the client sends arrives. Let the client encode a non-empty
    sequence of data packets and its connection deliver their frames. Then the
    server, whatever the segmentation, connects to the destination of the first
    packet and writes to it exactly the payloads, in order and unchanged, and
    nothing else; it leaves the rest of the stream unread, sends nothing to the
    client, and goes back to wait for events. *)
Theorem upstream_relay (q : client_query) (qs : list client_query) (p : binary_safe_string)
    (ps : list binary_safe_string) (connfd hop : Z) (w : world) (s sh : sock) (rest : bytes) :
  Forall carried (q :: qs) -> Forall2 (fun q p => f_client_encode m cc q = Ok p) (q :: qs) (p :: ps) ->
  live w connfd s -> inbuf s = concat (map (fun p => frame (bss_bytes p)) (p :: ps)) ++ rest ->
  getaddrinfo (ip_array_to_str (destination_ip q)) (to_string (destination_port q)) false
    = inr [AddrInfo hop true true true] ->
  socks w !! hop = Some sh -> quiet (rscript sh) -> quiet (wscript sh) -> hop <> connfd -> hop <> -1 ->
  selects w = replicate (S (length qs)) (Some [connfd]) ->
  exists w' s' sh',
    exchange junk realloc_ok getaddrinfo resolve (S (length (selects w))) sv sc connfd (-1, w) = (Blocked, (hop, w')) /\
    live w' connfd s' /\ inbuf s' = rest /\ outbuf s' = outbuf s /\
    live w' hop sh' /\ outbuf sh' = outbuf sh ++ concat (map (fun q => bss_bytes (payload q)) (q :: qs)).
Proof.
  intros Hc Hp Hl Hi Hg Hh Hr Hw Hne Hm1 Hs.
  apply Forall_cons in Hc as [Hq Hc]. apply Forall2_cons in Hp as [Hqp Hp].
  cbn [map concat] in Hi. rewrite <- app_assoc in Hi.
  set (w0 := World (socks w) (replicate (length qs) (Some [connfd])) (pending w)).
  destruct (client_data_first q p w0 connfd s hop sh (concat (map (fun p => frame (bss_bytes p)) ps) ++ rest) Hq Hqp) as (rs & ws & Hrs & Hws & Ho & Hrest);
    [done|exact Hi|done..|].
  set (w1 := put_sock (put_sock w0 connfd _) hop _) in Ho. set (sh1 := after_send _ _ ws) in w1.
  assert (Hl1 : live w1 hop sh1) by (split; [apply lookup_put|done]).
  destruct (relay_connected qs ps connfd hop w1 (after_recv s (length (frame (bss_bytes p))) rs) sh1 rest)
    as (w' & s' & sh' & E & L1 & I1 & O1 & L2 & O2);
    [done|done|unfold w1; eauto 6 with sockio|done|done|done|done|done|].
  exists w', s', sh'. rewrite Hs. cbn [replicate length]. rewrite length_replicate.
  rewrite (exchange_client_turn _ _ _ hop w w1 _ Hs) by done.
  do 5 (split; [done|]). rewrite O2. cbn [after_send outbuf map concat sh1 set_open]. by rewrite <- app_assoc.
Qed.

(** Encoding a packet for the client, and what the client decodes. *)
Lemma server_packet q :
  query_ok q -> bss_length (payload q) + 64 <= max_packet ->
  exists p q', (bss_ok p /\ 0 < bss_length p <= max_packet) /\
    server_impl_encode (in_mod sv) sc q = Ok p /\
    f_client_decode m cc (on_wire p) = Ok q' /\ query_ok q' /\ query_equiv q' q.
Proof.
  intros Hq Hn. destruct (server_to_client cc sc q Hpair Hq) as (p & E1 & Hp & Lp & q' & E2 & Hq' & He).
  { unfold max_packet in Hn. lia. }
  exists p, q'. unfold server_impl_encode. rewrite Hmod. split; [split; [done|lia]|]. done.
Qed.

Lemma make_bss_ok d :
  wf_bytes d -> Z.of_nat (length d) < 2 ^ 32 ->
  make_binary_safe_string junk d = Ok (Bss false (Z.of_nat (length d)) (Some d)).
Proof.
  intros Hd Hn. unfold make_binary_safe_string, make_binary_safe_string_len. rewrite u32_small by lia.
  cbn [str deref null_terminated bss_length]. run_ok.
  rewrite <- (app_nil_r (malloc _ _)), mem_write_head by len. run_ok. by rewrite app_nil_r.
Qed.

(** One piece of the next hop's stream becomes one packet for the client; only
    when the next hop goes on can the call wait for more. *)
Lemma hop_piece_sent connfd hop w s sh :
  live w connfd s -> live w hop sh -> hop <> connfd -> steady (rscript sh) -> wf_bytes (inbuf sh) ->
  0 <= bindPort sv < 2 ^ 16 -> inbuf sh <> [] ->
  (at_eof sh = false /\ exists lw, on_hop_data junk realloc_ok sv sc connfd (hop, w) = (Blocked, lw)) \/
  exists (n : nat) p q' rs ws, (1 <= n <= length (inbuf sh))%nat /\ steady rs /\ quiet ws /\
    on_hop_data junk realloc_ok sv sc connfd (hop, w) =
      (Ok true, (hop, put_sock (put_sock w hop (after_recv sh n rs)) connfd (after_send s (frame (bss_bytes p)) ws))) /\
    (bss_ok p /\ 0 < bss_length p <= max_packet) /\
    f_client_decode m cc (on_wire p) = Ok q' /\ query_ok q' /\ bss_bytes (payload q') = take n (inbuf sh).
Proof.
  intros Hl Hh Hne Hst Hwf Hport Hi.
  destruct (quick_recvall_piece junk realloc_ok w hop sh Hh Hst) as [_ Hmore].
  unfold on_hop_data. rewrite !(bind_ok get_local _ _ hop (hop, w)) by done.
  destruct (Hmore Hi) as [(n & rs & Hn & Hn' & Hrs & R)|(_ & He & rs & R)]; [right|left].
  2: { split; [done|]. eexists. apply bind_blocked. unfold embed. cbn [snd fst]. by rewrite R. }
  rewrite (bind_ok _ _ _ _ _ (embed_ok _ hop _ _ _ R)).
  set (d := take n (inbuf sh)). assert (Ld : length d = n) by (unfold d; len).
  assert (Hd : wf_bytes d) by (unfold d; auto with bytes).
  rewrite bool_decide_false by (intros E; rewrite E in Ld; cbn in Ld; lia).
  set (w1 := put_sock w hop _).
  rewrite (bind_ok (lift _) _ _ (Bss false (Z.of_nat (length d)) (Some d)) (hop, w1))
    by (unfold lift; rewrite make_bss_ok; [done|done|lia]).
  set (q := Query _ _ _).
  assert (Hq : query_ok q).
  { split; [done|]. split; [apply wf_bytes_repeat; unfold is_byte; lia|]. split; [done|].
    split; cbn [payload bss_length str q]; [lia|]. by split; [|lia]. }
  destruct (server_packet q Hq) as (p & q' & Hp & E1 & E2 & Hq' & He);
    [unfold max_packet; cbn [payload bss_length q]; lia|].
  destruct (send_frame_ok w1 connfd s p) as (ws & Hws & S1); [unfold w1; eauto with sockio|apply Hp|apply Hp|].
  rewrite (bind_ok (lift _) _ _ p (hop, w1)) by (unfold lift; by rewrite E1).
  rewrite (bind_ok _ _ _ _ _ (embed_ok _ hop _ _ _ S1)).
  exists n, p, q', rs, ws. split; [lia|]. do 6 (split; [done|]).
  destruct He as (_ & _ & _ & ->). cbn [payload q]. by rewrite bss_bytes_full.
Qed.

(** A turn of the loop in which only the next hop is ready. *)
Lemma exchange_hop_turn fuel connfd hop w w' b l :
  selects w = Some [hop] :: l -> hop <> connfd -> hop <> -1 ->
  on_hop_data junk realloc_ok sv sc connfd (hop, World (socks w) l (pending w)) = (Ok b, (hop, w')) ->
  exchange junk realloc_ok getaddrinfo resolve (S fuel) sv sc connfd (hop, w) =
    if b then exchange junk realloc_ok getaddrinfo resolve fuel sv sc connfd (hop, w') else (Ok tt, (hop, w')).
Proof.
  intros Hs Hh Hm1 Ho. cbn [exchange]. rewrite (bind_ok get_local _ _ hop (hop, w)) by done.
  destruct (Z.eqb_spec hop (-1)); [done|].
  set (w0 := World (socks w) l (pending w)) in *.
  rewrite (bind_ok (embed _) _ _ (Some [hop]) (hop, w0)).
  - rewrite (decide_False (P := connfd ∈ [hop])) by (rewrite list_elem_of_singleton; congruence).
    rewrite (bind_ok (mret tt) _ _ tt (hop, w0)) by done.
    rewrite (bind_ok get_local _ _ hop (hop, w0)) by done.
    rewrite (decide_True (P := hop <> -1 /\ hop ∈ [hop])) by (split; [done|apply list_elem_of_here]).
    rewrite (bind_ok _ _ _ _ _ Ho). by destruct b.
  - apply embed_ok. unfold select. rewrite Hs.
    rewrite filter_cons, (decide_False (P := connfd ∈ [hop])) by (rewrite list_elem_of_singleton; congruence).
    rewrite filter_cons, (decide_True (P := hop ∈ [hop])) by apply list_elem_of_here. done.
Qed.

(** A packet that the client decodes to the bytes [d]. *)
Definition decodes_to (p : binary_safe_string) (d : bytes) : Prop :=
  (bss_ok p /\ 0 < bss_length p <= max_packet) /\
  exists q', f_client_decode m cc (on_wire p) = Ok q' /\ query_ok q' /\ bss_bytes (payload q') = d.

(** What the next hop sends reaches the client. Let the next hop send any
    stream of bytes and close. The server takes it piece by piece and sends the
    client one packet per piece; the client decodes the packets to the pieces,
    whose concatenation is exactly the stream; then the exchange ends. *)
Theorem downstream_relay (k : nat) connfd hop w s sh :
  live w connfd s -> live w hop sh -> hop <> connfd -> hop <> -1 -> steady (rscript sh) ->
  wf_bytes (inbuf sh) -> at_eof sh = true -> 0 <= bindPort sv < 2 ^ 16 ->
  selects w = replicate k (Some [hop]) -> (length (inbuf sh) < k)%nat ->
  exists w' s' ps ds,
    exchange junk realloc_ok getaddrinfo resolve (S k) sv sc connfd (hop, w) = (Ok tt, (hop, w')) /\
    Forall2 decodes_to ps ds /\ concat ds = inbuf sh /\
    live w' connfd s' /\ inbuf s' = inbuf s /\
    outbuf s' = outbuf s ++ concat (map (fun p => frame (bss_bytes p)) ps).
Proof.
  revert w s sh. induction k as [|k IH]; intros w s sh Hl Hh Hne Hm1 Hst Hwf He Hport Hs Hk; [lia|].
  set (w0 := World (socks w) (replicate k (Some [hop])) (pending w)).
  destruct (decide (inbuf sh = [])) as [Hi|Hi].
  - exists w0, s, [], []. cbn [map concat]. rewrite app_nil_r, Hi.
    assert (Hend : on_hop_data junk realloc_ok sv sc connfd (hop, w0) = (Ok false, (hop, w0))).
    { destruct (quick_recvall_piece junk realloc_ok w0 hop sh Hh Hst) as [Hemp _].
      specialize (Hemp Hi). rewrite He in Hemp. unfold on_hop_data.
      rewrite (bind_ok get_local _ _ hop (hop, w0)) by done.
      by rewrite (bind_ok _ _ _ _ _ (embed_ok _ hop _ _ _ Hemp)). }
    by rewrite (exchange_hop_turn _ _ _ w w0 false _ Hs Hne Hm1 Hend).
  - destruct (hop_piece_sent connfd hop w0 s sh Hl Hh Hne Hst Hwf Hport Hi)
      as [[? _]|(n & p & q' & rs & ws & Hn & Hrs & Hws & Ho & Hp & Hd & Hq' & Hpay)]; [congruence|].
    set (sh' := after_recv sh n rs) in *. set (s' := after_send s _ ws) in *.
    set (w1 := put_sock (put_sock w0 hop sh') connfd s') in *.
    assert (Hh1 : live w1 hop sh').
    { apply live_other; [done|]. apply live_after_recv; [done|by apply steady_quiet]. }
    assert (Hl1 : live w1 connfd s').
    { split; [apply lookup_put|]. destruct Hl as (_ & ? & ? & ?). done. }
    destruct (IH w1 s' sh') as (w' & s'' & ps & ds & E & F1 & F2 & F3 & F4 & F5);
      [done|done|done|done|done|cbn; auto with bytes|done|done|done|cbn; len|].
    exists w', s'', (p :: ps), (take n (inbuf sh) :: ds).
    rewrite (exchange_hop_turn _ _ _ w w1 true _ Hs Hne Hm1 Ho). split; [exact E|].
    split; [constructor; [split; eauto|done]|]. cbn [map concat]. rewrite F2. split; [apply take_drop|].
    split; [done|]. split; [done|]. rewrite F5. cbn [outbuf s' after_send]. by rewrite <- app_assoc.
Qed.

(** A well-formed address of the resolver. *)
Definition ip_ok (ip : ip_address) : Prop :=
  match ip with V4 a => length a = 4%nat /\ wf_bytes a | V6 a => length a = 16%nat /\ wf_bytes a end.

(** The address as the protocol carries it: sixteen bytes, an IPv4 address in
    the first four. *)
Definition ip_array (ip : ip_address) : bytes :=
  match ip with V4 a => a ++ replicate 12 0 | V6 a => a end.

Lemma ip_to_array_ok ip :
  ip_ok ip -> ip_to_array ip = Ok (ip_array ip) /\ length (ip_array ip) = 16%nat /\ wf_bytes (ip_array ip).
Proof.
  destruct ip as [a|a]; intros [Hl Hw]; cbn [ip_to_array ip_array].
  - rewrite mem_read_all by done. run_ok. change (replicate 16 0) with (replicate 4 0 ++ replicate 12 0).
    rewrite mem_write_head by len. split; [done|]. split; [len|].
    rewrite wf_bytes_app. split; [done|]. apply wf_bytes_repeat. unfold is_byte. lia.
  - rewrite mem_read_all by done. run_ok. rewrite <- (app_nil_r (replicate 16 0)), mem_write_head by len.
    by rewrite app_nil_r.
Qed.

(** A name query and its answer. *)
Lemma dns_packet_answered domain prt ip ips dq p :
  ~ 0 ∈ domain -> wf_bytes domain -> Z.of_nat (length domain) + 33 + 64 <= max_packet ->
  assemble_dns_query junk domain = Ok dq -> 0 <= prt < 2 ^ 16 ->
  f_client_encode m cc (Query (destination_ip dq) prt (payload dq)) = Ok p ->
  resolve 0 domain = Ok (ip :: ips) -> ip_ok ip ->
  exists r, (bss_ok r /\ 0 < bss_length r <= max_packet) /\
    (exists q', f_client_decode m cc (on_wire r) = Ok q' /\ destination_ip q' = ip_array ip) /\
    forall connfd hop w s rest, live w connfd s -> inbuf s = frame (bss_bytes p) ++ rest ->
    exists rs ws, quiet rs /\ quiet ws /\
      on_client_data junk getaddrinfo resolve sv sc connfd (hop, w) =
        (Ok tt, (hop, put_sock w connfd
           (after_send (after_recv s (length (frame (bss_bytes p))) rs) (frame (bss_bytes r)) ws))).
Proof.
  intros Hd Hw Hn Ha Hprt Hp Hr Hip. unfold max_packet in Hn.
  rewrite assemble_dns_query_eq in Ha by lia.
  assert (Edq : Query (replicate 16 0) 0 (Bss true (Z.of_nat (length domain) + 33) (Some (dns_head ++ domain ++ [0]))) = dq)
    by congruence.
  clear Ha. subst dq. cbn [destination_ip payload] in Hp. set (dq := Query _ prt _) in *.
  assert (Hq : query_ok dq).
  { split; [done|]. split; [apply wf_bytes_repeat; unfold is_byte; lia|]. split; [cbn; lia|].
    split; cbn [payload bss_length str dq]; [lia|]. change (length dns_head) with 32%nat.
    split; [|rewrite !length_app; cbn; lia]. rewrite !wf_bytes_app.
    split; [apply bytes_of_string_wf|]. split; [done|]. constructor; [unfold is_byte; lia|constructor]. }
  destruct (ip_to_array_ok ip Hip) as (Ei & Li & Wi).
  set (rq := Query (ip_array ip) prt (Bss false 0 None)).
  assert (Hrq : query_ok rq) by (split; [done|]; split; [done|]; split; [done|]; split; cbn; [lia|done]).
  destruct (server_packet rq Hrq) as (r & q2 & Hpr & E1 & E2 & _ & He2); [unfold max_packet; cbn; lia|].
  exists r. split; [done|]. split; [exists q2; split; [done|apply He2]|].
  intros connfd hop w s rest Hl Hi.
  destruct (client_packet_decoded dq p w connfd s rest Hq) as (rs & q' & Hrs & Hq' & He & R & Hrest & Ed);
    [unfold max_packet; cbn [payload bss_length dq]; lia|done|done|done|].
  unfold on_client_data. rewrite (bind_ok _ _ _ _ _ (embed_ok _ hop _ _ _ R)). cbn [fst snd].
  set (s1 := after_recv s _ rs) in *. set (w1 := put_sock w connfd s1).
  rewrite (bind_ok (lift _) _ _ q' (hop, w1)) by (unfold lift; by rewrite Ed).
  rewrite (query_equiv_dns _ _ He). change (is_dns_query dq) with true. cbv iota.
  rewrite (bind_ok (lift _) _ _ domain (hop, w1)) by (unfold lift; by rewrite (dns_domain_of q' domain prt)).
  rewrite (bind_ok (lift _) _ _ ip (hop, w1))
    by (unfold lift, resolveDomainOnce, resolveDomainOnce_if; by rewrite Hr).
  rewrite (bind_ok (lift _) _ _ (ip_array ip) (hop, w1)) by (unfold lift; by rewrite Ei).
  replace (destination_port q') with prt by (destruct He as (_ & -> & _); done). fold rq.
  rewrite (bind_ok (lift _) _ _ r (hop, w1)) by (unfold lift; by rewrite E1).
  destruct (send_frame_ok w1 connfd s1 r) as (ws & Hws & S1); [unfold w1, s1; eauto with sockio|apply Hpr|apply Hpr|].
  rewrite (embed_ok _ hop _ _ _ S1). exists rs, ws. do 2 (split; [done|]). unfold w1. by rewrite put_put.
Qed.

(** Names are resolved by the server. A name query of the client is
    answered with one packet, which the client decodes to the first address
    the server's resolver knows for exactly that name; no next hop is
    contacted. *)
Theorem dns_answered (domain : bytes) (prt : Z) (ip : ip_address) (ips : list ip_address) (dq : client_query)
    (p : binary_safe_string) :
  ~ 0 ∈ domain -> wf_bytes domain -> Z.of_nat (length domain) + 33 + 64 <= max_packet ->
  assemble_dns_query junk domain = Ok dq -> 0 <= prt < 2 ^ 16 ->
  f_client_encode m cc (Query (destination_ip dq) prt (payload dq)) = Ok p ->
  resolve 0 domain = Ok (ip :: ips) -> ip_ok ip ->
  exists r, (bss_ok r /\ 0 < bss_length r <= max_packet) /\
    (exists q', f_client_decode m cc (on_wire r) = Ok q' /\ destination_ip q' = ip_array ip) /\
    forall connfd hop w s rest, live w connfd s -> inbuf s = frame (bss_bytes p) ++ rest ->
    exists rs ws, quiet rs /\ quiet ws /\
      on_client_data junk getaddrinfo resolve sv sc connfd (hop, w) =
        (Ok tt, (hop, put_sock w connfd
           (after_send (after_recv s (length (frame (bss_bytes p))) rs) (frame (bss_bytes r)) ws))).
Proof. apply dns_packet_answered. Qed.
End Relay.

(** ** Descriptors are released *)

Lemma keeps_sendn_ptr fd p n flags : keeps (sendn_ptr fd p n flags).
Proof. unfold sendn_ptr. auto 10 with keeps. Qed.

Lemma keeps_refuse {A} fmt n : keeps (refuse fmt n : io A).
Proof. unfold refuse. auto 10 with keeps. Qed.

#[local] Hint Resolve keeps_refuse : keeps.

Lemma keeps_send_packet fd p n : keeps (send_length_and_packet fd p n).
Proof. unfold send_length_and_packet. pose proof keeps_sendn_ptr. auto 10 with keeps. Qed.

Lemma keeps_recv_packet junk fd : keeps (recv_length_and_packet junk fd).
Proof. unfold recv_length_and_packet. auto 10 with keeps. Qed.

#[local] Hint Resolve keeps_sendn_ptr keeps_send_packet keeps_recv_packet : keeps.

Section Release.
Context (junk : nat -> Z) (realloc_ok : Z -> bool).
Context (getaddrinfo : bytes -> bytes -> bool -> Z + list addrinfo).
Context (resolve : nat -> bytes -> outcome (list ip_address)).
Context (getpeername : Z -> option sockaddr) (inet_ntop : ss_family -> bytes -> option bytes).
Context (sv : inbound_tunnel).

(** The state in which the connection was accepted; socket options can be set
    and new sockets get descriptors that are not in use. *)
Context (w0 : world).
Definition fresh_candidates : Prop := forall addr port l, getaddrinfo addr port false = inr l ->
  Forall (fun rp => ai_reuseaddr rp = true /\ ai_reuseport rp = true) l /\
  Forall (fun rp => opened w0 (ai_fd rp) = false) l.
Context (Hfresh : fresh_candidates).

(** Compared with [w0], at most the next hop has been opened. *)
Definition only_hop (lw : Z * world) : Prop :=
  (lw.1 = -1 /\ forall fd, opened lw.2 fd = opened w0 fd) \/
  ((lw.1 <> -1 /\ opened w0 lw.1 = false) /\ forall fd, opened lw.2 fd = (if decide (fd = lw.1) then true else opened w0 fd)).

Definition inv {A} (m : st (Z * world) A) : Prop := forall lw, only_hop lw -> only_hop (m lw).2.

Lemma inv_embed {A} (m : io A) : keeps m -> inv (embed m).
Proof.
  intros Hm [l w] H. unfold embed. cbn [snd fst]. destruct (m w) as [o w'] eqn:E.
  assert (Ho : forall fd, opened w' fd = opened w fd) by (intros; rewrite <- (Hm w fd), E; done).
  destruct H as [[H1 H2]|[H1 H2]]; [left|right]; cbn in *; split; try done; intros; by rewrite Ho, H2.
Qed.

Lemma inv_lift {A} (o : outcome A) : inv (lift o).
Proof. by intros lw. Qed.

Lemma inv_ret {A} (a : A) : inv (mret a).
Proof. by intros lw. Qed.

Lemma inv_bind_at {A B} (m : st (Z * world) A) (k : A -> st (Z * world) B) lw :
  only_hop (m lw).2 -> (forall a, inv (k a)) -> only_hop ((m ≫= k) lw).2.
Proof.
  intros Hm Hk. unfold mbind, st_bind.
  destruct (m lw) as [[a| | |] lw']; cbn in *; [by apply Hk|done..].
Qed.

Lemma inv_bind {A B} (m : st (Z * world) A) (k : A -> st (Z * world) B) :
  inv m -> (forall a, inv (k a)) -> inv (m ≫= k).
Proof. intros Hm Hk lw H. apply inv_bind_at; auto. Qed.

Lemma inv_get_local {B} (k : Z -> st (Z * world) B) : (forall l, inv (k l)) -> inv (get_local ≫= k).
Proof. intros Hk lw H. unfold mbind, st_bind, get_local. by apply Hk. Qed.

Lemma inv_if {A} (b : bool) (m1 m2 : st (Z * world) A) : inv m1 -> inv m2 -> inv (if b then m1 else m2).
Proof. by destruct b. Qed.

Lemma first_usable_valid l fd : first_usable l = Some fd -> fd <> -1 /\ exists rp, rp ∈ l /\ ai_fd rp = fd.
Proof.
  induction l as [|rp l IH]; cbn; [done|]. unfold usable. destruct (Z.eqb_spec (ai_fd rp) (-1)) as [Hz|Hz]; cbn.
  - intros H. destruct (IH H) as (? & r & ? & ?). split; [done|]. exists r. split; [by apply list_elem_of_further|done].
  - destruct (ai_bind rp).
    + intros [= <-]. split; [done|]. exists rp. split; [apply list_elem_of_here|done].
    + intros H. destruct (IH H) as (? & r & ? & ?). split; [done|]. exists r. split; [by apply list_elem_of_further|done].
Qed.

(** Connecting the next hop keeps the invariant if there was none. *)
Lemma inv_connect addr port w :
  only_hop (-1, w) ->
  only_hop ((fd ← embed (quick_connect getaddrinfo addr port false); set_local fd) (-1, w)).2.
Proof.
  intros [[_ Hw]|[[? _] _]]; [|done]. cbn in Hw. unfold mbind, st_bind, embed. cbn [snd fst].
  unfold quick_connect. destruct (getaddrinfo addr (to_string port) false) as [z|l] eqn:Hg.
  { left. done. }
  destruct (Hfresh _ _ _ Hg) as [Hr Ho].
  destruct (try_addrs_ok l w Hr) as (w' & E & Hw').
  { apply (Forall_impl _ _ _ Ho). intros rp. by rewrite Hw. }
  rewrite (bind_ok _ _ _ _ _ E). destruct (first_usable l) as [fd|] eqn:Hf; cbn.
  - destruct (first_usable_valid _ _ Hf) as (Hfd & rp & Hin & <-).
    rewrite Forall_forall in Ho. right. cbn. split; [auto|]. intros fd. rewrite Hw', Hw.
    do 2 case_decide; congruence.
  - left. split; [done|]. intros fd. by rewrite Hw', Hw.
Qed.

Create HintDb inv discriminated.
#[local] Hint Resolve inv_embed inv_lift inv_ret inv_bind inv_get_local inv_if : inv.

Lemma inv_on_client_data conn connfd :
  inv (on_client_data junk getaddrinfo resolve sv conn connfd).
Proof.
  unfold on_client_data. apply inv_bind; [auto with inv keeps|]. intros msg.
  apply inv_bind; [auto with inv|]. intros q. apply inv_if; [auto 10 with inv keeps|].
  intros [l w] H. unfold mbind at 1, st_bind at 1, get_local. cbn [fst].
  assert (Hrest : inv (nextHopConn ← get_local;
    embed (sendn_ptr nextHopConn (str (payload q)) (bss_length (payload q)) 0))) by auto with inv keeps.
  destruct (Z.eqb_spec l (-1)) as [->|Hl].
  - apply inv_bind_at; [by apply inv_connect|done].
  - by apply Hrest.
Qed.

Lemma inv_on_hop_data conn connfd : inv (on_hop_data junk realloc_ok sv conn connfd).
Proof. unfold on_hop_data. auto 12 with inv keeps. Qed.

Lemma inv_exchange fuel conn connfd :
  inv (exchange junk realloc_ok getaddrinfo resolve fuel sv conn connfd).
Proof.
  induction fuel as [|fuel IH]; cbn [exchange]; [auto with inv|].
  apply inv_get_local. intros l. apply inv_bind; [auto with inv keeps|]. intros [rset|]; [|apply inv_lift].
  apply inv_bind; [destruct (decide _); [apply inv_on_client_data|apply inv_ret]|]. intros _.
  apply inv_get_local. intros l'.
  apply inv_bind; [destruct (decide _); [apply inv_on_hop_data|apply inv_ret]|].
  intros []; auto with inv.
Qed.

(** The exchange with its scope guards releases the next hop. *)
Lemma exchange_releases g fuel conn connfd w :
  (forall fd, opened w fd = opened w0 fd) ->
  match with_local (-1)
      (defer (lift g)
        (defer (nextHopConn ← get_local;
                if nextHopConn =? -1 then mret tt else embed (close nextHopConn))
          (exchange junk realloc_ok getaddrinfo resolve fuel sv conn connfd))) w with
  | (Ok _, w') | (Throw _, w') => forall fd, opened w' fd = opened w0 fd
  | _ => True
  end.
Proof.
  intros Hw. pose proof (inv_exchange fuel conn connfd (-1, w)) as Hinv.
  specialize (Hinv (or_introl (conj eq_refl Hw))).
  unfold with_local, defer. set (ex := exchange _ _ _ _ _ _ _ _ _) in *.
  destruct ex as [o [l w1]]. cbn [snd] in Hinv.
  assert (Hclose : exists w2, (nextHopConn ← get_local;
      if nextHopConn =? -1 then mret tt else embed (close nextHopConn)) (l, w1) = (Ok tt, (l, w2)) /\
      forall fd, opened w2 fd = opened w0 fd).
  { unfold mbind, st_bind, get_local. cbn [fst]. destruct Hinv as [[H1 H2]|[[H1 H1'] H2]]; cbn in H1, H2.
    - subst l. exists w1. done.
    - destruct (Z.eqb_spec l (-1)); [done|]. unfold embed. cbn [snd fst].
      destruct (close l w1) as [o' w2] eqn:Ec.
      assert (o' = Ok tt) as -> by (unfold close in Ec; destruct (socks w1 !! l); congruence).
      exists w2. split; [done|]. intros fd. pose proof (opened_close w1 l fd) as Ho. rewrite Ec in Ho. cbn in Ho.
      rewrite Ho, H2. case_decide; [by subst|done]. }
  destruct Hclose as (w2 & Hc & Hw2).
  destruct o as [u|e| |]; try done; rewrite (bind_ok _ _ _ _ _ (noexcept_ok _ _ _ _ Hc));
    unfold throw, lift, mret, st_ret, mbind, st_bind, noexcept; destruct g; done.
Qed.

(** C11: Connections clean up. Let every socket option that [newConnection] sets
    be settable and let new sockets get descriptors that are not in use
    ([fresh_candidates]; when [setsockopt] fails the new socket leaks). Then
    [dealConnection] never throws, and whenever it returns, whatever happened in
    between (a failed authentication, broken packets, a lost peer), the client's
    descriptor is closed and no other descriptor has been left open or closed. *)
Theorem dealConnection_releases (connfd : Z) :
  match dealConnection junk realloc_ok getaddrinfo resolve getpeername inet_ntop sv connfd w0 with
  | (Ok _, w') => forall fd, opened w' fd = (if decide (fd = connfd) then false else opened w0 fd)
  | (Throw _, _) => False
  | _ => True
  end.
Proof.
  assert (Himpl : match dealConnectionImpl junk realloc_ok getaddrinfo resolve getpeername inet_ntop sv connfd w0 with
    | (Ok _, w') | (Throw _, w') => forall fd, opened w' fd = opened w0 fd
    | _ => True end).
  { unfold dealConnectionImpl, mbind at 1, st_bind at 1, lift at 1.
    destruct (make_binary_safe_string _ _) as [pass|e|u|]; [|done..].
    set (ci := ConnInfo _ _ _ _ _). cbv zeta. unfold mbind at 1, st_bind at 1.
    assert (Hk : keeps (inbound_doAuth junk sv ci)) by (unfold inbound_doAuth; auto 10 with keeps).
    specialize (Hk w0). destruct (inbound_doAuth junk sv ci w0) as [[[ok c]|e|u|] w1]; cbn [snd] in Hk; [|done..].
    cbn [fst snd]. destruct ok; cbn [negb].
    - rewrite (bind_ok (asks _) _ w1 (S (length (selects w1))) w1) by done.
      by apply exchange_releases.
    - unfold mbind, st_bind, lift. by destruct (get_peer_name _ _ _). }
  unfold dealConnection. unfold mbind at 1, st_bind at 1, try_catch.
  destruct (dealConnectionImpl _ _ _ _ _ _ _ _ w0) as [[u|e|u|] w1]; [| |done..].
  all: unfold mret, st_ret; pose proof (opened_close w1 connfd) as Hc;
    destruct (close connfd w1) as [o w2] eqn:Ec;
    assert (o = Ok tt) as -> by (unfold close in Ec; destruct (socks w1 !! connfd); congruence);
    intros fd; rewrite Hc, Himpl; done.
Qed.
End Release.

(** ** Accepting connections *)

Lemma accept_loop_run l tasks rest w fuel :
  pending w = l ++ rest -> Forall (fun fd => fd <> -1) l -> (length l < fuel)%nat ->
  match rest with [] => True | fd :: _ => fd = -1 end ->
  exists w', (accept_loop fuel (tasks, w) =
    (match rest with [] => Blocked | _ => Throw (runtime_error "accept failed.") end, (tasks ++ l, w'))).
Proof.
  revert l tasks w. induction fuel as [|fuel IH]; intros l tasks w Hp Hl Hf Hr; [lia|]. cbn [accept_loop].
  destruct l as [|fd l].
  - rewrite app_nil_r. unfold mbind, st_bind, embed, quick_accept, accept. cbn [snd fst].
    unfold mbind, st_bind. rewrite Hp. destruct rest as [|fd rest]; cbn; [eauto|]. subst fd. eauto.
  - apply Forall_cons in Hl as [Hfd Hl]. set (w1 := World (socks w) (selects w) (l ++ rest)).
    assert (Ha : quick_accept w = (Ok fd, w1)).
    { unfold quick_accept, accept, mbind, st_bind. rewrite Hp. cbn.
      by destruct (Z.eqb_spec fd (-1)). }
    rewrite (bind_ok _ _ _ _ _ (embed_ok _ tasks _ _ _ Ha)).
    destruct (IH l (tasks ++ [fd]) w1) as (w' & E); [done|done|cbn in Hf; lia|done|].
    exists w'. rewrite <- (app_assoc tasks) in E. exact E.
Qed.

(** The accept loop of the server. Every accepted connection gets one
    handler in a thread of its own, in order, and the loop never ends by itself; but
    the first [accept] that fails throws out of [listen], and connections that
    arrive after it are never served. *)
Theorem listen_tasks (getaddrinfo : bytes -> bytes -> bool -> Z + list addrinfo) (sys_listen : Z -> bool)
    (t : inbound_tunnel) (lfd : Z) (w w1 : world) (l rest : list Z) :
  quick_listen getaddrinfo sys_listen (bindAddr t) (bindPort t) false w = (Ok lfd, w1) ->
  pending w1 = l ++ rest -> Forall (fun fd => fd <> -1) l ->
  match rest with [] => True | fd :: _ => fd = -1 end ->
  exists w', listen getaddrinfo sys_listen t ([], w) =
    (match rest with [] => Blocked | _ => Throw (runtime_error "accept failed.") end, (l, w')).
Proof.
  intros Hq Hp Hl Hr. unfold listen. rewrite (bind_ok _ _ _ _ _ (embed_ok _ [] _ _ _ Hq)).
  rewrite (bind_ok (asks _) _ _ (S (length (pending w1))) ([], w1)) by done.
  apply (accept_loop_run l []); [done|done| |done]. rewrite Hp. len.
Qed.

Lemma listen_tasks_witness :
  exists w', listen (fun _ _ _ => inr [AddrInfo 3 true true true]) (fun _ => true)
      (Inbound (SimpleProxy.simple_proxy (fun _ => 0)) [] 80 []) ([], World ∅ [] [4; 5; -1; 6]) =
    (Throw (runtime_error "accept failed."), ([4; 5], w')).
Proof.
  eapply (listen_tasks (fun _ _ _ => inr [AddrInfo 3 true true true]) (fun _ => true)
    (Inbound (SimpleProxy.simple_proxy (fun _ => 0)) [] 80 []) 3 (World ∅ [] [4; 5; -1; 6]) _ [4; 5] [-1; 6]);
    [reflexivity|reflexivity|repeat constructor; done|reflexivity].
Defined.

(** ** Resolving the server's address *)

(** Retrying. If attempts [0 .. k-1] at resolving the server's name end in
    the resolver's error and attempt [k] does not, a tunnel with [nx_retry] set
    gets the answer of attempt [k] (with any number of allowed attempts above
    [k]); without [nx_retry] the error of the first attempt is thrown. *)
Theorem resolve_retry_spec (resolve : nat -> bytes -> outcome (list ip_address)) (addr : bytes) (k fuel : nat) :
  (forall i, (i < k)%nat -> exists e, resolveDomainOnce (resolve i) addr = Throw (system_error e)) ->
  (forall e, resolveDomainOnce (resolve k) addr <> Throw (system_error e)) -> (k < fuel)%nat ->
  resolve_retry resolve fuel 0 addr true = resolveDomainOnce (resolve k) addr /\
  resolve_retry resolve fuel 0 addr false = resolveDomainOnce (resolve 0%nat) addr.
Proof.
  intros Hfail Hok Hf. split.
  - assert (H : forall j n f, (n + j = k)%nat -> (j < f)%nat ->
      resolve_retry resolve f n addr true = resolveDomainOnce (resolve k) addr).
    { induction j as [|j IH]; intros n f Hn Hjf; (destruct f as [|f]; [lia|]); cbn [resolve_retry].
      - assert (n = k) as -> by lia. destruct (resolveDomainOnce (resolve k) addr) as [|[]| |] eqn:E; try done.
        by destruct (Hok what).
      - destruct (Hfail n) as [e ->]; [lia|]. apply IH; lia. }
    apply (H k); lia.
  - destruct fuel as [|fuel]; [lia|]. cbn [resolve_retry].
    by destruct (resolveDomainOnce (resolve 0%nat) addr) as [|[]| |].
Qed.

Lemma resolve_retry_spec_witness :
  let resolve := fun (i : nat) (_ : bytes) =>
    if decide (i < 2)%nat then Throw (system_error "Host not found") else Ok [V4 [10; 0; 0; 1]] in
  resolve_retry resolve 5 0 [] true = resolveDomainOnce (resolve 2%nat) [] /\
  resolve_retry resolve 5 0 [] false = resolveDomainOnce (resolve 0%nat) [].
Proof.
  apply (resolve_retry_spec (fun (i : nat) (_ : bytes) =>
    if decide (i < 2)%nat then Throw (system_error "Host not found") else Ok [V4 [10; 0; 0; 1]]) [] 2 5).
  - intros i Hi. exists "Host not found"%string. unfold resolveDomainOnce, resolveDomainOnce_if.
    by rewrite decide_True by lia.
  - done.
  - lia.
Defined.

(** ** A connection that fails to authenticate *)

(** A rejected client keeps its socket open. When the server refuses the
    authentication, the constructor of [SnakeConnection] throws; the
    destructor does not run for a half-built object, and the connected
    descriptor stays open. *)
Theorem SnakeConnection_leak (junk : nat -> Z) (getaddrinfo : bytes -> bytes -> bool -> Z + list addrinfo)
    (t : outbound_tunnel) (fd : Z) (w w1 w2 : world) (conn : connect_info) :
  newConnection getaddrinfo t w = (Ok fd, w1) -> opened w1 fd = true ->
  outbound_doAuth junk t (set_connect_fd (initConnInfo t) fd) w1 = (Ok (false, conn), w2) ->
  exists e, SnakeConnection junk getaddrinfo t w = (Throw e, w2) /\ opened w2 fd = true.
Proof.
  intros Hn Ho Ha. unfold SnakeConnection, connect. rewrite (bind_ok _ _ _ _ _ Hn), (bind_ok _ _ _ _ _ Ha). cbn [fst].
  eexists. split; [done|].
  assert (Hk : keeps (outbound_doAuth junk t (set_connect_fd (initConnInfo t) fd)))
    by (unfold outbound_doAuth; auto 14 with keeps).
  specialize (Hk w1 fd). by rewrite Ha, Ho in Hk.
Qed.

(** ** A concrete session

    The bundled [simple_proxy] module, one packet, streams cut in pieces. *)
Module Sample.

Definition md : module_fns := SimpleProxy.simple_proxy (fun _ => 0).
Definition ct : outbound_tunnel :=
  Outbound md [] 80 [107] false (replicate 16 0) (Bss true 1 (Some [107; 0])).
Definition sv : inbound_tunnel := Inbound md [] 80 [107].
Definition cc : connect_info := ConnInfo (replicate 16 0) 80 (Bss true 1 (Some [107; 0])) 3 None.
Definition sc : connect_info := ConnInfo (replicate 16 0) 80 (Bss false 1 (Some [107])) 5 None.
Definition gai : bytes -> bytes -> bool -> Z + list addrinfo := fun _ _ _ => inr [AddrInfo 9 true true true].
Definition res : nat -> bytes -> outcome (list ip_address) := fun _ _ => Ok [V4 [10; 0; 0; 1]].

Definition q : client_query := Query ([10; 0; 0; 1] ++ replicate 12 0) 80 (Bss false 2 (Some [104; 105])).
Definition encoded (q : client_query) : binary_safe_string :=
  match f_client_encode md cc q with Ok p => p | _ => Bss false 0 None end.
Definition dq : client_query :=
  Query (replicate 16 0) 0 (Bss true 38 (Some (dns_head ++ bytes_of_string "a.org" ++ [0]))).

Definition client_sock (q : client_query) : sock :=
  Sock (frame (bss_bytes (encoded q)) ++ [77]) false [Chunk 3; Intr; Chunk 5] [] [Chunk 0] true.
Definition hop_sock (opened : bool) : sock := Sock [1; 2; 3] true [Chunk 1] [] [Intr; Chunk 0] opened.
Definition wd (q : client_query) (opened : bool) : world :=
  World (<[5 := client_sock q]> {[ 9 := hop_sock opened ]}) [Some [5]] [].

Lemma passes : SimpleProxy.same_pass cc sc.
Proof.
  split; [|split; [|split; [done|reflexivity]]]; split; cbn; (lia || (split; [apply (bool_decide_unpack _); reflexivity|lia])).
Qed.

Lemma live_client q o : live (wd q o) 5 (client_sock q).
Proof. split; [reflexivity|]. split; [done|]. split; apply (bool_decide_unpack _); reflexivity. Qed.

Lemma live_hop q : live (wd q true) 9 (hop_sock true).
Proof. split; [reflexivity|]. split; [done|]. split; apply (bool_decide_unpack _); reflexivity. Qed.

End Sample.
Import Sample.

Lemma handshake_over_wire_witness :
  exists query reply cc' sc', SimpleProxy.same_pass cc' sc' /\
    (forall w s rest, live w (connect_fd cc) s -> inbuf s = frame reply ++ rest ->
       exists ws rs, quiet ws /\ quiet rs /\
         outbound_doAuth (fun _ => 0) ct cc w =
           (Ok (true, cc'), put_sock w (connect_fd cc) (after_send_recv s (frame query) ws (length (frame reply)) rs))) /\
    (forall w s rest, live w (connect_fd sc) s -> inbuf s = frame query ++ rest ->
       exists rs ws, quiet rs /\ quiet ws /\
         inbound_doAuth (fun _ => 0) sv sc w =
           (Ok (true, sc'), put_sock w (connect_fd sc) (after_send (after_recv s (length (frame query)) rs) (frame reply) ws))).
Proof.
  apply (handshake_over_wire md SimpleProxy.same_pass SimpleProxy.same_pass (fun _ => 0) ct sv cc sc eq_refl eq_refl passes).
  unfold max_packet. cbn. lia.
Defined.

Lemma upstream_relay_witness :
  exists w' s' sh',
    exchange (fun _ => 0) (fun _ => true) gai res (S (length (selects (wd q false)))) sv sc 5 (-1, wd q false)
      = (Blocked, (9, w')) /\
    live w' 5 s' /\ inbuf s' = [77] /\ outbuf s' = [] /\
    live w' 9 sh' /\ outbuf sh' = outbuf (hop_sock false) ++ concat (map (fun q => bss_bytes (payload q)) [q]).
Proof.
  apply (upstream_relay md SimpleProxy.same_pass SimpleProxy.same_pass (fun _ => 0) (fun _ => true) gai res sv eq_refl
           cc sc passes q [] (encoded q) [] 5 9 (wd q false) (client_sock q) (hop_sock false) [77]).
  - constructor; [|constructor]. split; [|split; [reflexivity|unfold max_packet; cbn; lia]].
    split; [done|]. split; [apply (bool_decide_unpack _); reflexivity|]. split; [cbn; lia|].
    split; cbn; [lia|]. split; [apply (bool_decide_unpack _); reflexivity|lia].
  - constructor; [vm_compute; reflexivity|constructor].
  - apply live_client.
  - cbn [map concat]. by rewrite app_nil_r.
  - reflexivity.
  - reflexivity.
  - apply (bool_decide_unpack _). reflexivity.
  - apply (bool_decide_unpack _). reflexivity.
  - lia.
  - lia.
  - reflexivity.
Defined.

Definition wd_hop : world :=
  World (<[5 := client_sock q]> {[ 9 := hop_sock true ]}) (replicate 4 (Some [9])) [].

Lemma downstream_relay_witness :
  exists w' s' ps ds,
    exchange (fun _ => 0) (fun _ => true) gai res 5 sv sc 5 (9, wd_hop) = (Ok tt, (9, w')) /\
    Forall2 (decodes_to md cc) ps ds /\ concat ds = [1; 2; 3] /\
    live w' 5 s' /\ inbuf s' = inbuf (client_sock q) /\
    outbuf s' = outbuf (client_sock q) ++ concat (map (fun p => frame (bss_bytes p)) ps).
Proof.
  apply (downstream_relay md SimpleProxy.same_pass SimpleProxy.same_pass (fun _ => 0) (fun _ => true) gai res sv eq_refl
           cc sc passes 4 5 9 wd_hop (client_sock q) (hop_sock true)).
  - apply (live_client q true).
  - apply (live_hop q).
  - lia.
  - lia.
  - repeat constructor. eauto.
  - apply (bool_decide_unpack _). reflexivity.
  - reflexivity.
  - cbn. lia.
  - reflexivity.
  - cbn. lia.
Defined.

Lemma dns_answered_witness :
  exists r, (bss_ok r /\ 0 < bss_length r <= max_packet) /\
    (exists q', f_client_decode md cc (on_wire r) = Ok q' /\ destination_ip q' = ip_array (V4 [10; 0; 0; 1])) /\
    forall connfd hop w s rest, live w connfd s -> inbuf s = frame (bss_bytes (encoded dq)) ++ rest ->
    exists rs ws, quiet rs /\ quiet ws /\
      on_client_data (fun _ => 0) gai res sv sc connfd (hop, w) =
        (Ok tt, (hop, put_sock w connfd
           (after_send (after_recv s (length (frame (bss_bytes (encoded dq)))) rs) (frame (bss_bytes r)) ws))).
Proof.
  apply (dns_answered md SimpleProxy.same_pass SimpleProxy.same_pass (fun _ => 0) gai res sv eq_refl
           cc sc passes (bytes_of_string "a.org") 0 (V4 [10; 0; 0; 1]) [] dq (encoded dq)).
  - apply (bool_decide_unpack _). reflexivity.
  - apply (bool_decide_unpack _). reflexivity.
  - unfold max_packet. cbn. lia.
  - vm_compute. reflexivity.
  - lia.
  - vm_compute. reflexivity.
  - reflexivity.
  - split; [done|]. apply (bool_decide_unpack _). reflexivity.
Defined.

Lemma dealConnection_releases_witness :
  match dealConnection (fun _ => 0) (fun _ => true) gai res (fun _ => None) (fun _ _ => None) sv 5 (wd q false) with
  | (Ok _, w') => forall fd, opened w' fd = (if decide (fd = 5) then false else opened (wd q false) fd)
  | (Throw _, _) => False
  | _ => True
  end.
Proof.
  apply (dealConnection_releases (fun _ => 0) (fun _ => true) gai res (fun _ => None) (fun _ _ => None) sv (wd q false)).
  intros addr port l [= <-]. split; repeat constructor.
Defined.

(** A server that answers the authentication with a zero byte. *)
Definition refusing_world : world :=
  World {[ 9 := Sock (frame [0]) true [Chunk 0] [] [] false ]} [] [].

Lemma SnakeConnection_leak_witness :
  exists e w2, SnakeConnection (fun _ => 0) gai ct refusing_world = (Throw e, w2) /\ opened w2 9 = true.
Proof.
  edestruct (SnakeConnection_leak (fun _ => 0) gai ct 9 refusing_world) as [e He];
    [reflexivity|vm_compute; reflexivity|vm_compute; reflexivity|].
  exists e. eexists. exact He.
Defined.

End Tunnel.
