(* ===== verification/Socks5.v ===== *)
(** * The SOCKS5 front end (native/src/socks5.hpp, socks5.cc)

    What the client offers to local applications: the SOCKS5 greeting and
    request, the resolution of host names through the server, the exchange of
    data between the application and the server, the accept loop.  Log calls
    are made where the code makes them, because most of them format a message
    that is already complete and throw when it contains a hole; what they print
    is not recorded here. *)

From S2P Require Import Prelude RString Log ModuleApi SimpleProxy SockIO NetLib Tunnel.
From stdpp Require Import gmap.
Import ModuleApi SockIO NetLib Tunnel.

Open Scope Z_scope.

Module Socks5.

(** ** Addresses *)

Inductive addr_t := addr_null | addr_ipv4 | addr_ipv6 | addr_domain.

#[global] Instance addr_t_eq_dec : EqDecision addr_t.
Proof. solve_decision. Defined.

Record addr_info := AddrI { type : addr_t; data : bytes; port : Z }.

Definition set_domain (a : addr_info) (domain : bytes) : addr_info := AddrI addr_domain domain (port a).
Definition set_v4 (a : addr_info) (v4addr : bytes) : addr_info := AddrI addr_ipv4 v4addr (port a).
Definition set_v6 (a : addr_info) (v6addr : bytes) : addr_info := AddrI addr_ipv6 v6addr (port a).
Definition setport (a : addr_info) (p : Z) : addr_info := AddrI (type a) (data a) p.

(** [operator!]: the characters are summed in a [char]. *)
Definition is_invalid (a : addr_info) : bool :=
  (foldl (fun sum c => u8 (sum + c)) 0 (data a) =? 0) || bool_decide (type a = addr_null).

Definition try_6to4 {lg : Log.Rlog} (a : addr_info) : outcome addr_info :=
  if negb (bool_decide (type a = addr_ipv6)) then Log.die (bytes_of_string "incorrect type.")
  else
    let conv_ok := forallb (fun c => c =? 0) (drop 4 (data a)) in
    if conv_ok then Ok (AddrI addr_ipv4 (take 4 (data a)) (port a)) else Ok a.

Definition to_query_template {lg : Log.Rlog} (a : addr_info) : outcome client_query :=
  if bool_decide (type a = addr_null) then Log.die (bytes_of_string "convert null addr to query template.")
  else if bool_decide (type a = addr_domain) then
    Log.die (bytes_of_string "convert addr to query template before resolve its domain.")
  else if port a =? 0 then
    Log.die (bytes_of_string "convert addr to query template before assign port number.")
  else
    d ← mem_read (data a) 0 (if bool_decide (type a = addr_ipv4) then 4 else 16);
    ip ← mem_write (replicate 16 0) 0 d;
    Ok (Query ip (port a) (Bss false 0 None)).

Definition make_dns_query_body (junk : nat -> Z) (a : addr_info) : outcome client_query :=
  cq ← assemble_dns_query junk (data a);
  Ok (Query (destination_ip cq) (port a) (payload cq)).

Definition print (a : addr_info) : bytes :=
  let dump := [32] ++ concat (map (fun e => to_string (schar e) ++ [124]) (data a)) in
  match type a with
  | addr_null => bytes_of_string "null"
  | addr_ipv4 => bytes_of_string "ipv4" ++ dump
  | addr_ipv6 => bytes_of_string "ipv6" ++ dump
  | addr_domain => bytes_of_string "domain" ++ [32] ++ data a
  end.

(** ** The greeting and the request *)

Definition byte_at (buf : bytes) (i : nat) : Z := nth i buf 0.

Definition unpackConnectionPacket {lg : Log.Rlog} (junk : nat -> Z) (pkgStr : bytes) : outcome (Z * Z * addr_info) :=
  if negb (byte_at pkgStr 0 =? 5) then Log.die (bytes_of_string "Broken package. Incorrect ver.")
  else
    let CMD := byte_at pkgStr 1 in
    let ATYP := byte_at pkgStr 3 in
    let remoteInfo := AddrI addr_null [] (junk 0%nat) in
    if ATYP =? 1 then
      bArr ← mem_readz pkgStr 4 4;
      p ← mem_readz pkgStr 8 2;
      Ok (CMD, ATYP, setport (set_v4 remoteInfo bArr) (ntohs (le_val p)))
    else if ATYP =? 4 then
      bArr ← mem_readz pkgStr 4 16;
      p ← mem_readz pkgStr 20 2;
      Ok (CMD, ATYP, setport (set_v6 remoteInfo bArr) (ntohs (le_val p)))
    else if ATYP =? 3 then
      let addrlen := size_of_char (byte_at pkgStr 4) in
      p ← mem_readz pkgStr (5 + addrlen) 2;
      sbuffer ← mem_readz pkgStr 5 addrlen;
      Ok (CMD, ATYP, setport (set_domain remoteInfo (cstr (sbuffer ++ [0]))) (ntohs (le_val p)))
    else Log.die (bytes_of_string "Broken package.Invalid ATYP").

Definition handshake_pkgs {lg : Log.Rlog} (junk : nat -> Z) (m_fd : Z) : io unit :=
  let headBuf := malloc junk 258 in
  headBuf ← recvn_ex m_fd headBuf 0 2;
  if negb (byte_at headBuf 0 =? 5) then
    lift (Log.die (bytes_of_string "Broken protocol. (Incorrect protocol number)"))
  else
    let methodSize := size_of_char (byte_at headBuf 1) in
    headBuf ← recvn_ex m_fd headBuf 2 methodSize;
    let methodOk := existsb (fun c => c =? 0) (take (Z.to_nat methodSize) (drop 2 headBuf)) in
    headBuf ← lift (mem_write headBuf 0 [5; if methodOk then 0 else 255]);
    sendn_ex m_fd headBuf 2 0.

Definition connect_pkgs {lg : Log.Rlog} (junk : nat -> Z) (m_fd : Z) : io addr_info :=
  let buf := malloc junk 263 in
  buf ← recvn_ex m_fd buf 0 5;
  addrlen ← (if byte_at buf 3 =? 1 then mret 4
             else if byte_at buf 3 =? 3 then mret (u64 (size_of_char (byte_at buf 4) + 1))
             else if byte_at buf 3 =? 4 then mret 16
             else lift (Log.die (bytes_of_string "Wrong ATYP in connect packet.")));
  buf ← recvn_ex m_fd buf 5 (u64 (addrlen + 1));
  r ← lift (unpackConnectionPacket junk buf);
  let '(CMD, ATYP, remoteInfo) := r in
  if negb (CMD =? 1) then
    lift (Log.die_text (bytes_of_string "Socks5 request can not be processed.(CMD={})") [to_string (schar CMD)])
  else
    buf ← lift (mem_write buf 1 [0]);
    _ ← sendn_ex m_fd buf (u64 (addrlen + 6)) 0;
    mret remoteInfo.

(** ** Names and data *)

Section Server.
Context {lg : Log.Rlog}.
Variable junk : nat -> Z.
Variable realloc_ok : Z -> bool.
Variable getaddrinfo : bytes -> bytes -> bool -> Z + list addrinfo.
Variable skserver : outbound_tunnel.

Definition dns_pkgs (nextHop : connect_info * Z) (rawAddr : addr_info) : io addr_info :=
  if negb (bool_decide (type rawAddr = addr_domain)) then mret rawAddr
  else
    let domain_str := print rawAddr in
    pkg ← lift (make_dns_query_body junk rawAddr);
    _ ← lift (Log.rlog_call Log.DEBUG (print rawAddr) []);
    firstPack ← lift (client_impl_encode (ot_mod skserver) (payload pkg) nextHop.1 pkg);
    _ ← lift (Log.rlog_text Log.DEBUG (bytes_of_string "DNS pack to send: len={}") [to_string (bss_length firstPack)]);
    _ ← sc_sendn nextHop (Some (le_bytes 4 (htonl (bss_length firstPack)))) 4;
    _ ← sc_sendn nextHop (str firstPack) (bss_length firstPack);
    n ← sc_recvn nextHop (malloc junk 4) 4;
    let len := ntohl (le_val n) in
    d ← sc_recvn nextHop (malloc junk (Z.to_nat len)) len;
    dnsResponse ← lift (client_impl_decode (ot_mod skserver) (Bss false len (Some d)) nextHop.1);
    let goodaddr := AddrI addr_ipv6 (destination_ip dnsResponse) (port rawAddr) in
    if is_invalid goodaddr then lift (Log.die_text (bytes_of_string "Can not resolve address `{}`") [domain_str])
    else
      _ ← lift (Log.rlog_text Log.DEBUG (bytes_of_string "dns raw responce: {}") [print goodaddr]);
      goodaddr ← lift (try_6to4 goodaddr);
      _ ← lift (Log.rlog_text Log.DEBUG (bytes_of_string "dns responce: {}") [print goodaddr]);
      mret goodaddr.

(** Data from the application; [false] when it has closed the connection. *)
Definition on_local_data (nextHop : connect_info * Z) (templateQueryWithIp : client_query) (m_fd : Z) : io bool :=
  r ← readall junk realloc_ok m_fd Null 0;
  if r.1 =? 0 then mret false
  else if r.1 <? 0 then lift (Log.die (bytes_of_string "read failed"))
  else
    encodedDat ← lift (client_impl_encode (ot_mod skserver) (Bss false (u32 r.1) (Some r.2)) nextHop.1 templateQueryWithIp);
    _ ← lift (Log.rlog_text Log.DEBUG (bytes_of_string "Data pack to send: len={}") [to_string (bss_length encodedDat)]);
    _ ← sc_sendn nextHop (Some (le_bytes 4 (htonl (bss_length encodedDat)))) 4;
    _ ← sc_sendn nextHop (str encodedDat) (bss_length encodedDat);
    mret true.

(** A packet from the server; [false] for the empty packet that ends the connection. *)
Definition on_server_data (nextHop : connect_info * Z) (m_fd : Z) : io bool :=
  n ← sc_recvn nextHop (malloc junk 4) 4;
  let binLen := ntohl (le_val n) in
  if binLen =? 0 then mret false
  else
    d ← recvn_and_free_on_err nextHop (malloc junk (Z.to_nat binLen)) binLen;
    _ ← lift (Log.rlog_text Log.DEBUG (bytes_of_string "Data pack recv:len={}") [to_string binLen]);
    decoded ← lift (client_impl_decode (ot_mod skserver) (Bss false binLen (Some d)) nextHop.1);
    _ ← sendn_ptr m_fd (str (payload decoded)) (bss_length (payload decoded)) MSG_NOSIGNAL;
    mret true.

Fixpoint pass_loop (fuel : nat) (nextHop : connect_info * Z) (templateQueryWithIp : client_query) (m_fd : Z) : io unit :=
  match fuel with
  | O => lift Blocked
  | S fuel =>
      r ← select [m_fd; nextHop.2];
      match r with
      | None => lift (Log.die (bytes_of_string "Select failed"))
      | Some rset =>
          goon ← (if decide (m_fd ∈ rset) then on_local_data nextHop templateQueryWithIp m_fd else mret true);
          if negb goon then mret tt
          else
            goon ← (if decide (nextHop.2 ∈ rset) then on_server_data nextHop m_fd else mret true);
            if negb goon then mret tt
            else pass_loop fuel nextHop templateQueryWithIp m_fd
      end
  end.

Definition passData (nextHop : connect_info * Z) (resolvedAddr : addr_info) (m_fd : Z) : io unit :=
  templateQueryWithIp ← lift (to_query_template resolvedAddr);
  fuel ← asks (fun w => S (length (selects w)));
  pass_loop fuel nextHop templateQueryWithIp m_fd.

(** The body of the [try] block. *)
Definition serve (m_fd : Z) : io unit :=
  _ ← handshake_pkgs junk m_fd;
  rawAddr ← connect_pkgs junk m_fd;
  nextHop ← SnakeConnection junk getaddrinfo skserver;
  defer (destroy_SnakeConnection skserver nextHop)
    (resolvedAddr ← dns_pkgs nextHop rawAddr;
     passData nextHop resolvedAddr m_fd).

Definition launch (m_fd : Z) : io unit :=
  _ ← lift (Log.rlog_text Log.INFO (bytes_of_string "Socks5: Connection {} opened.") [to_string m_fd]);
  _ ← try_catch (serve m_fd)
    (fun e => lift (Log.rlog_text Log.ERROR
       (bytes_of_string "Exception caught from child thread: At connection {}:{}.") [to_string m_fd; what e]));
  lift (Log.rlog_text Log.INFO (bytes_of_string "Socks5: Connection {} closed.") [to_string m_fd]).

(** The connection object is a temporary: its destructor closes the descriptor.
    The function is the body of a thread: an exception that leaves it ends the
    program. *)
Definition dealConnection (connfd : Z) : io unit :=
  defer (close connfd) (launch connfd).

End Server.

(** ** The accept loop *)

Definition listen_socket {lg : Log.Rlog} (getaddrinfo : bytes -> bytes -> bool -> Z + list addrinfo) (sys_listen : Z -> bool)
    (bindIp : bytes) (bindPort : Z) : io Z :=
  match getaddrinfo bindIp (to_string bindPort) false with
  | inl r =>
      lift (Log.die_text (bytes_of_string "Failed to getaddrinfo. returnval={}, check `man getaddrinfo`'s return value.")
              [to_string r])
  | inr psaddr =>
      r ← try_addrs psaddr;
      match r with
      | None => lift (Log.die_text (bytes_of_string "Failed to bind {}:{}.") [bindIp; to_string bindPort])
      | Some listenfd =>
          if sys_listen listenfd then mret listenfd else lift (Log.die (bytes_of_string "listen failed."))
      end
  end.

(** A failing [accept] is skipped; the local variable is the list of
    connections whose handler was started, in a thread of its own. *)
Fixpoint accept_loop (fuel : nat) : st (list Z * world) unit :=
  match fuel with
  | O => lift Blocked
  | S fuel =>
      connfd ← embed accept;
      if connfd =? -1 then accept_loop fuel
      else
        tasks ← get_local;
        _ ← set_local (tasks ++ [connfd]);
        accept_loop fuel
  end.

Definition listen {lg : Log.Rlog} (getaddrinfo : bytes -> bytes -> bool -> Z + list addrinfo) (sys_listen : Z -> bool)
    (bindIp : bytes) (bindPort : Z) : st (list Z * world) unit :=
  _ ← embed (listen_socket getaddrinfo sys_listen bindIp bindPort);
  _ ← lift (Log.rlog_text Log.INFO (bytes_of_string "Socks5 listening {}:{} ...") [bindIp; to_string bindPort]);
  fuel ← asks (fun tw => S (length (pending tw.2)));
  accept_loop fuel.

(** ** Log calls *)

Definition fillable (p t : bytes) : bool := nobrace p && nobrace t && negb (bool_decide (last p = Some RString.backslash)).

(** A message with one hole that is filled with a text without braces. *)
Lemma log_one {lg : Log.Rlog} {W A} p t level fmt a (k : st W A) w :
  fmt = p ++ RString.hole ++ t -> fillable p t = true -> nobrace a = true ->
  (_ ← lift (Log.rlog_text level fmt [a]); k) w = k w.
Proof.
  unfold fillable. intros Hf [[Hp Ht]%andb_prop Hb]%andb_prop Ha. apply negb_true_iff, bool_decide_eq_false in Hb.
  unfold mbind, st_bind, lift. by rewrite (Log.rlog_text_one level fmt p t a).
Qed.

(** ** The greeting *)

Lemma size_of_char_small n : 0 <= n <= 127 -> size_of_char n = n.
Proof.
  intros H. unfold size_of_char, schar. destruct (Z.ltb_spec n 128); [|lia]. apply u64_small. lia.
Qed.

Lemma size_of_char_large n : 128 <= n < 256 -> size_of_char n = 2 ^ 64 - 256 + n.
Proof.
  intros H. unfold size_of_char, schar, u64. destruct (Z.ltb_spec n 128); [lia|].
  rewrite <- (Z.mod_unique (n - 256) (2 ^ 64) (-1) (2 ^ 64 - 256 + n)); lia.
Qed.

(** The first bytes of a message, received into an untouched buffer. *)
Lemma recv_prefix junk w fd s size (n : nat) d rest :
  live w fd s -> inbuf s = d ++ rest -> length d = n -> (n <= size)%nat -> Z.of_nat n < 2 ^ 63 ->
  exists rs, quiet rs /\
    recvn_ex fd (malloc junk size) 0 (Z.of_nat n) w =
      (Ok (d ++ drop n (malloc junk size)), put_sock w fd (after_recv s n rs)) /\
    inbuf (after_recv s n rs) = rest.
Proof.
  intros Hl Hi Hd Hn Hm.
  destruct (recvn_ex_at w fd s (malloc junk size) 0 (Z.of_nat n) Hl) as (rs & Hrs & E);
    [lia|rewrite Hi; len|len|].
  exists rs. split; [done|]. rewrite Nat2Z.id in E. split.
  - rewrite E, Hi, take_app_length' by done. done.
  - cbn [after_recv inbuf]. by rewrite Hi, drop_app_length'.
Qed.

(** The following bytes, received behind the first ones. *)
Lemma recv_behind w fd s head tl (n : nat) d rest :
  live w fd s -> inbuf s = d ++ rest -> length d = n -> (n <= length tl)%nat -> Z.of_nat n < 2 ^ 63 ->
  exists rs, quiet rs /\
    recvn_ex fd (head ++ tl) (length head) (Z.of_nat n) w =
      (Ok (head ++ d ++ drop n tl), put_sock w fd (after_recv s n rs)) /\
    inbuf (after_recv s n rs) = rest.
Proof.
  intros Hl Hi Hd Hn Hm.
  destruct (recvn_ex_at w fd s (head ++ tl) (length head) (Z.of_nat n) Hl) as (rs & Hrs & E);
    [lia|rewrite Hi; len|len|].
  exists rs. split; [done|]. rewrite Nat2Z.id in E. split.
  - rewrite E, Hi, take_app_length, take_app_length' by done. by rewrite <- drop_drop, drop_app_length.
  - cbn [after_recv inbuf]. by rewrite Hi, drop_app_length'.
Qed.

(** C17: The greeting. For every list of at most 127 methods, on any
    segmentation, the server reads exactly the greeting and answers version 5
    with method 0 if the application offers it and with 255 otherwise. *)
Theorem greeting_answered {lg : Log.Rlog} (junk : nat -> Z) (w : world) (fd : Z) (s : sock) (methods rest : bytes) :
  live w fd s -> (length methods <= 127)%nat ->
  inbuf s = [5; Z.of_nat (length methods)] ++ methods ++ rest ->
  exists rs ws, quiet rs /\ quiet ws /\
    handshake_pkgs junk fd w =
      (Ok tt, put_sock w fd (after_send (after_recv s (2 + length methods) rs)
                [5; if existsb (fun c => c =? 0) methods then 0 else 255] ws)).
Proof.
  intros Hl Hm Hi. unfold handshake_pkgs. cbv zeta.
  destruct (recv_prefix junk w fd s 258 2 _ _ Hl Hi) as (rs1 & Hr1 & E1 & I1); [done|lia|lia|].
  change (Z.of_nat 2) with 2 in E1. rewrite (bind_ok _ _ _ _ _ E1).
  set (g := drop 2 (malloc junk 258)). assert (Lg : length g = 256%nat) by (unfold g; len).
  set (n := Z.of_nat (length methods)) in *. cbn [byte_at nth app].
  change (negb (5 =? 5)) with false. cbv iota. rewrite size_of_char_small by lia.
  set (s1 := after_recv s 2 rs1) in *. set (w1 := put_sock w fd s1).
  assert (Hl1 : live w1 fd s1) by (unfold w1, s1; eauto with sockio).
  destruct (recv_behind w1 fd s1 [5; n] g (length methods) methods rest Hl1 I1) as (rs2 & Hr2 & E2 & I2);
    [done|lia|lia|].
  cbn [length app] in E2. change (Z.of_nat (length methods)) with n in E2. rewrite (bind_ok _ _ _ _ _ E2).
  unfold n. rewrite Nat2Z.id. 
  change (drop 2 (5 :: Z.of_nat (length methods) :: methods ++ drop (length methods) g)) with (methods ++ drop (length methods) g).
  rewrite take_app_length.
  set (v := if existsb _ methods then 0 else 255). set (s2 := after_recv s1 (length methods) rs2) in *.
  set (w2 := put_sock w1 fd s2).
  rewrite (bind_ok (lift _) _ _ ([5; v] ++ methods ++ drop (length methods) g) w2)
    by (unfold lift; f_equal; by apply (mem_write_head [5; Z.of_nat (length methods)] _ [5; v])).
  assert (Hl2 : live w2 fd s2) by (unfold w2, s2; eauto with sockio).
  destruct (sendn_ex_ok (flags := 0) w2 fd s2 ([5; v] ++ methods ++ drop (length methods) g) 2 Hl2) as (ws & Hws & E3);
    [lia|cbn; lia|].
  rewrite E3. exists rs2, ws. split; [done|]. split; [done|].
  unfold w2, w1, s2, s1. rewrite !put_put, after_recv_recv. done.
Qed.

Definition greeting_sock : sock :=
  Sock ([5; 2] ++ [1; 0] ++ [5; 1]) false [Chunk 0; Intr; Chunk 0] [] [Chunk 0; Intr] true.

Lemma greeting_answered_witness :
  exists rs ws, quiet rs /\ quiet ws /\
    handshake_pkgs (lg := Log.rlog_at Log.INFO) (fun _ => 7) 4 (World {[ 4 := greeting_sock ]} [] []) =
      (Ok tt, put_sock (World {[ 4 := greeting_sock ]} [] []) 4
                (after_send (after_recv greeting_sock (2 + 2) rs) [5; 0] ws)).
Proof.
  apply (greeting_answered (lg := Log.rlog_at Log.INFO) (fun _ => 7) (World {[ 4 := greeting_sock ]} [] []) 4 greeting_sock [1; 0] [5; 1]);
    [|cbn; lia|reflexivity].
  split; [reflexivity|]. split; [done|]. split; apply (bool_decide_unpack _); reflexivity.
Defined.

(** A greeting that announces 128 methods or more, which RFC 1928 allows,
    overflows the stack buffer: the count is read through a signed [char] and
    becomes a huge [size_t], so that the bytes that follow are written past the
    258 bytes of [headBuf]. *)
Theorem greeting_overflow {lg : Log.Rlog} (junk : nat -> Z) (w : world) (fd : Z) (s : sock) (n : Z) (rest : bytes) :
  live w fd s -> 128 <= n < 256 -> inbuf s = [5; n] ++ rest -> (256 < length rest)%nat ->
  exists w', handshake_pkgs junk fd w = (Undefined OobWrite, w').
Proof.
  intros Hl Hn Hi Hr. unfold handshake_pkgs. cbv zeta.
  destruct (recv_prefix junk w fd s 258 2 _ _ Hl Hi) as (rs1 & Hr1 & E1 & I1); [done|lia|lia|].
  change (Z.of_nat 2) with 2 in E1. rewrite (bind_ok _ _ _ _ _ E1).
  set (g := drop 2 (malloc junk 258)). assert (Lg : length g = 256%nat) by (unfold g; len).
  cbn [byte_at nth app]. change (negb (5 =? 5)) with false. cbv iota. rewrite size_of_char_large by lia.
  destruct (recvn_ex_overflow (put_sock w fd (after_recv s 2 rs1)) fd (after_recv s 2 rs1)
              (5 :: n :: g) 2 (2 ^ 64 - 256 + n)) as (w' & E2);
    [eauto with sockio|cbn; lia|cbn [length]; lia|rewrite I1; cbn [length]; lia|].
  exists w'. exact (bind_undefined _ _ _ _ _ E2).
Qed.

Definition flood_sock : sock := Sock ([5; 255] ++ replicate 257 1) false [Chunk 99; Intr] [] [] true.

Lemma greeting_overflow_witness :
  exists w', handshake_pkgs (lg := Log.rlog_at Log.INFO) (fun _ => 7) 4 (World {[ 4 := flood_sock ]} [] []) = (Undefined OobWrite, w').
Proof.
  apply (greeting_overflow (lg := Log.rlog_at Log.INFO) (fun _ => 7) (World {[ 4 := flood_sock ]} [] []) 4 flood_sock 255 (replicate 257 1));
    [|lia|reflexivity|rewrite length_replicate; lia].
  split; [reflexivity|]. split; [done|]. split; apply (bool_decide_unpack _); reflexivity.
Defined.

(** ** The request *)

(** The destinations of RFC 1928 and their encoding in a request. *)
Inductive target := TV4 (a : bytes) | TV6 (a : bytes) | TName (d : bytes).

Definition target_ok (t : target) : Prop :=
  match t with
  | TV4 a => length a = 4%nat
  | TV6 a => length a = 16%nat
  | TName d => (length d <= 127)%nat /\ ~ 0 ∈ d
  end.

Definition atyp (t : target) : Z := match t with TV4 _ => 1 | TV6 _ => 4 | TName _ => 3 end.

Definition target_bytes (t : target) : bytes :=
  match t with TV4 a => a | TV6 a => a | TName d => Z.of_nat (length d) :: d end.

Definition target_addr (t : target) (p : Z) : addr_info :=
  match t with
  | TV4 a => AddrI addr_ipv4 a p
  | TV6 a => AddrI addr_ipv6 a p
  | TName d => AddrI addr_domain d p
  end.

Definition request (cmd rsv : Z) (t : target) (p : Z) : bytes :=
  [5; cmd; rsv; atyp t] ++ target_bytes t ++ be_bytes 2 p.

Lemma ntohs_port p : 0 <= p < 2 ^ 16 -> ntohs (le_val (be_bytes 2 p)) = p.
Proof. intros. rewrite ntohs_be by (done || apply be_bytes_wf). by apply be_val_bytes. Qed.

Lemma cstr_nul_free d : ~ 0 ∈ d -> cstr (d ++ [0]) = d.
Proof. apply cstr_app. Qed.

Lemma unpack_target {lg : Log.Rlog} junk cmd rsv t p tl :
  target_ok t -> 0 <= p < 2 ^ 16 ->
  unpackConnectionPacket junk (request cmd rsv t p ++ tl) = Ok (cmd, atyp t, target_addr t p).
Proof.
  intros Ht Hp. unfold unpackConnectionPacket, request. rewrite <- !app_assoc.
  set (h := [5; cmd; rsv; atyp t]). cbn [byte_at nth app h]. change (negb (5 =? 5)) with false. cbv iota zeta.
  fold h. destruct t as [a|a|d]; cbn [atyp target_bytes target_ok] in *.
  - change (1 =? 1) with true. cbv iota.
    change (5 :: cmd :: rsv :: 1 :: a ++ be_bytes 2 p ++ tl) with ([5; cmd; rsv; 1] ++ a ++ be_bytes 2 p ++ tl).
    rewrite (mem_readz_mid [5; cmd; rsv; 1] a _ 4 4) by (cbn; lia). run_ok.
    rewrite app_assoc, (mem_readz_mid ([5; cmd; rsv; 1] ++ a) (be_bytes 2 p) tl 8 2) by (rewrite ?length_app; cbn; lia).
    run_ok. by rewrite ntohs_port.
  - change (4 =? 1) with false. change (4 =? 4) with true. cbv iota.
    change (5 :: cmd :: rsv :: 4 :: a ++ be_bytes 2 p ++ tl) with ([5; cmd; rsv; 4] ++ a ++ be_bytes 2 p ++ tl).
    rewrite (mem_readz_mid [5; cmd; rsv; 4] a _ 4 16) by (cbn; lia). run_ok.
    rewrite app_assoc, (mem_readz_mid ([5; cmd; rsv; 4] ++ a) (be_bytes 2 p) tl 20 2) by (rewrite ?length_app; cbn; lia).
    run_ok. by rewrite ntohs_port.
  - destruct Ht as [Ht H0]. change (3 =? 1) with false. change (3 =? 4) with false. change (3 =? 3) with true. cbv iota.
    remember (Z.of_nat (length d)) as k eqn:Hk.
    match goal with |- context [size_of_char ?b] => change b with k end.
    rewrite (size_of_char_small k) by lia.
    change (5 :: cmd :: rsv :: 3 :: (k :: d) ++ be_bytes 2 p ++ tl)
      with ([5; cmd; rsv; 3; k] ++ d ++ be_bytes 2 p ++ tl).
    rewrite (mem_readz_mid [5; cmd; rsv; 3; k] d _ 5 k) by (cbn; lia).
    rewrite (app_assoc _ d), (mem_readz_mid _ (be_bytes 2 p) tl (5 + k) 2) by (rewrite ?length_app; cbn; lia).
    run_ok. rewrite ntohs_port by done. by rewrite cstr_nul_free.
Qed.

(** The value of [addrlen] after the [switch], for a given destination. *)
Definition addrlen_of (t : target) : Z :=
  match t with TV4 _ => 4 | TV6 _ => 16 | TName d => Z.of_nat (length d) + 1 end.

(** The request splits into the five bytes read first and the others. *)
Lemma request_split cmd rsv t p :
  target_ok t -> 0 <= p < 2 ^ 16 ->
  exists x tb, request cmd rsv t p = [5; cmd; rsv; atyp t; x] ++ (tb ++ be_bytes 2 p) /\
    Z.of_nat (length (tb ++ be_bytes 2 p)) = addrlen_of t + 1 /\ addrlen_of t <= 128 /\ 0 <= addrlen_of t /\
    (forall A (f : Z -> A) (e : A),
       (if atyp t =? 1 then f 4 else if atyp t =? 3 then f (u64 (size_of_char x + 1))
        else if atyp t =? 4 then f 16 else e) = f (addrlen_of t)).
Proof.
  intros Ht Hp. unfold request. destruct t as [a|a|d]; cbn [target_ok target_bytes atyp addrlen_of] in *.
  - destruct a as [|x a]; [done|]. exists x, a. cbn in Ht. rewrite length_app, be_bytes_length. split; [done|]. split; [lia|]. done.
  - destruct a as [|x a]; [done|]. exists x, a. cbn in Ht. rewrite length_app, be_bytes_length. split; [done|]. split; [lia|]. done.
  - exists (Z.of_nat (length d)), d. rewrite length_app, be_bytes_length. split; [done|]. split; [lia|]. split; [lia|].
    split; [lia|]. intros A f e. change (3 =? 1) with false. change (3 =? 3) with true. cbv iota.
    rewrite size_of_char_small, u64_small by lia. done.
Qed.

(** C16: The request. For a CONNECT request to any IPv4 or IPv6 address, or to
    any host name of at most 127 characters, on any segmentation: the server
    reads exactly the request, answers with a copy of it in which the command
    byte is replaced by the success code, and continues with the requested
    address and port. *)
Theorem request_accepted {lg : Log.Rlog} (junk : nat -> Z) (w : world) (fd : Z) (s : sock) (rsv : Z) (t : target) (p : Z) (rest : bytes) :
  live w fd s -> target_ok t -> 0 <= p < 2 ^ 16 -> inbuf s = request 1 rsv t p ++ rest ->
  exists rs ws, quiet rs /\ quiet ws /\
    connect_pkgs junk fd w =
      (Ok (target_addr t p),
       put_sock w fd (after_send (after_recv s (length (request 1 rsv t p)) rs) (request 0 rsv t p) ws)).
Proof.
  intros Hl Ht Hp Hi. destruct (request_split 1 rsv t p Ht Hp) as (x & tb & Er & Lr & La & La' & Hsw).
  set (tb' := tb ++ be_bytes 2 p) in *. rewrite Er, <- app_assoc in Hi.
  unfold connect_pkgs. cbv zeta.
  destruct (recv_prefix junk w fd s 263 5 _ _ Hl Hi) as (rs1 & Hr1 & E1 & I1); [done|lia|lia|].
  change (Z.of_nat 5) with 5 in E1. rewrite (bind_ok _ _ _ _ _ E1).
  set (g := drop 5 (malloc junk 263)). assert (Lg : length g = 258%nat) by (unfold g; len).
  set (s1 := after_recv s 5 rs1) in *. set (w1 := put_sock w fd s1).
  assert (Hl1 : live w1 fd s1) by (unfold w1, s1; eauto with sockio).
  set (h := [5; 1; rsv; atyp t; x]). change (byte_at (h ++ g) 3) with (atyp t). change (byte_at (h ++ g) 4) with x.
  rewrite (Hsw (io Z) mret _), (bind_ok (mret _) _ w1 (addrlen_of t) w1) by done.
  rewrite !u64_small by lia. rewrite <- Lr.
  destruct (recv_behind w1 fd s1 h g (length tb') tb' rest Hl1 I1) as (rs2 & Hr2 & E2 & I2); [done|lia|lia|].
  change (length h) with 5%nat in E2. rewrite (bind_ok _ _ _ _ _ E2).
  set (s2 := after_recv s1 (length tb') rs2) in *. set (w2 := put_sock w1 fd s2).
  assert (Hl2 : live w2 fd s2) by (unfold w2, s2; eauto with sockio).
  set (g' := drop (length tb') g).
  assert (Eu : unpackConnectionPacket junk (h ++ tb' ++ g') = Ok (1, atyp t, target_addr t p)).
  { rewrite app_assoc. fold h in Er. rewrite <- Er. by apply unpack_target. }
  rewrite (bind_ok (lift _) _ w2 (1, atyp t, target_addr t p) w2) by (unfold lift; by rewrite Eu).
  change (negb (1 =? 1)) with false. cbv iota.
  assert (Er0 : request 0 rsv t p ++ g' = [5] ++ [0] ++ [rsv; atyp t; x] ++ tb' ++ g').
  { unfold request in Er |- *. cbn [app] in Er. injection Er as Er. cbn [app].
    do 4 f_equal. by rewrite Er. }
  rewrite (bind_ok (lift _) _ w2 (request 0 rsv t p ++ g') w2)
    by (unfold lift; f_equal; rewrite Er0; by apply (mem_write_mid [5] [1] _ 1 [0])).
  destruct (sendn_ex_ok (flags := 0) w2 fd s2 (request 0 rsv t p ++ g') (addrlen_of t + 6) Hl2) as (ws & Hws & E3).
  { lia. }
  { rewrite Er0. cbn [app length]. rewrite length_app. lia. }
  rewrite (bind_ok _ _ _ _ _ E3). exists rs2, ws. split; [done|]. split; [done|].
  assert (Lq : length (request 1 rsv t p) = (5 + length tb')%nat) by (rewrite Er; done).
  assert (Lq0 : length (request 0 rsv t p) = (5 + length tb')%nat) by (rewrite <- Lq; done).
  rewrite take_app_length' by lia. unfold w2, w1, s2, s1. rewrite !put_put, after_recv_recv, Lq. done.
Qed.

Definition request_sock : sock :=
  Sock (request 1 0 (TName (bytes_of_string "a.org")) 443 ++ [9]) false [Chunk 2; Intr; Chunk 4] [] [] true.

Lemma request_accepted_witness :
  exists rs ws, quiet rs /\ quiet ws /\
    connect_pkgs (lg := Log.rlog_at Log.INFO) (fun _ => 7) 4 (World {[ 4 := request_sock ]} [] []) =
      (Ok (target_addr (TName (bytes_of_string "a.org")) 443),
       put_sock (World {[ 4 := request_sock ]} [] []) 4
         (after_send (after_recv request_sock (length (request 1 0 (TName (bytes_of_string "a.org")) 443)) rs)
            (request 0 0 (TName (bytes_of_string "a.org")) 443) ws)).
Proof.
  apply (request_accepted (lg := Log.rlog_at Log.INFO) (fun _ => 7) (World {[ 4 := request_sock ]} [] []) 4 request_sock 0
           (TName (bytes_of_string "a.org")) 443 [9]); [| |lia|reflexivity].
  - split; [reflexivity|]. split; [done|]. split; apply (bool_decide_unpack _); reflexivity.
  - split; [cbn; lia|]. apply (bool_decide_unpack _). reflexivity.
Defined.

(** A name of 128 characters or more overflows the buffer of the request. *)
Lemma request_overflow {lg : Log.Rlog} junk w fd s cmd rsv n rest :
  live w fd s -> 128 <= n <= 253 -> inbuf s = [5; cmd; rsv; 3; n] ++ rest -> (258 < length rest)%nat ->
  exists w', connect_pkgs junk fd w = (Undefined OobWrite, w').
Proof.
  intros Hl Hn Hi Hr. unfold connect_pkgs. cbv zeta.
  destruct (recv_prefix junk w fd s 263 5 _ _ Hl Hi) as (rs1 & Hr1 & E1 & I1); [done|lia|lia|].
  change (Z.of_nat 5) with 5 in E1. rewrite (bind_ok _ _ _ _ _ E1).
  set (g := drop 5 (malloc junk 263)). assert (Lg : length g = 258%nat) by (unfold g; len).
  set (h := [5; cmd; rsv; 3; n]). change (byte_at (h ++ g) 3) with 3. change (byte_at (h ++ g) 4) with n.
  change (3 =? 1) with false. change (3 =? 3) with true. cbv iota.
  rewrite size_of_char_large by lia. rewrite u64_small by lia.
  rewrite (bind_ok (mret _) _ _ (2 ^ 64 - 256 + n + 1) (put_sock w fd (after_recv s 5 rs1))) by done.
  rewrite (u64_small (2 ^ 64 - 256 + n + 1 + 1)) by lia.
  destruct (recvn_ex_overflow (put_sock w fd (after_recv s 5 rs1)) fd (after_recv s 5 rs1)
              (h ++ g) 5 (2 ^ 64 - 256 + n + 1 + 1)) as (w' & E2);
    [eauto with sockio|rewrite length_app, Lg; cbn [length h]; lia|rewrite length_app, Lg; cbn [length h]; lia|rewrite I1, length_app, Lg; cbn [length h]; lia|].
  exists w'. exact (bind_undefined _ _ _ _ _ E2).
Qed.

(** ** Validity of an address *)

Lemma sum_chars l acc : foldl (fun sum c => u8 (sum + c)) (acc mod 256) l = (acc + foldr Z.add 0 l) mod 256.
Proof.
  revert acc. induction l as [|c l IH]; intros acc; cbn [foldl foldr]; [by rewrite Z.add_0_r|].
  rewrite u8_mod, Zplus_mod_idemp_l, IH. f_equal. lia.
Qed.

(** When an address counts as invalid. [operator!] adds the bytes up in a
    [char]; besides the null address it rejects every address whose bytes sum
    to a multiple of 256, for instance 128.128.0.0, so that a host with such an
    address is reported as impossible to resolve. *)
Theorem is_invalid_checksum (a : bytes) (p : Z) (t : addr_t) :
  (is_invalid (AddrI t a p) = true <-> foldr Z.add 0 a mod 256 = 0 \/ t = addr_null) /\
  is_invalid (AddrI addr_ipv6 ([128; 128; 0; 0] ++ replicate 12 0) p) = true.
Proof.
  split; [|done]. unfold is_invalid. cbn [data type]. rewrite orb_true_iff, bool_decide_eq_true, Z.eqb_eq.
  change 0 with (0 mod 256) at 1. by rewrite (sum_chars a 0).
Qed.

(** ** The client's end of a tunnel *)

Section Client.
Context {lg : Log.Rlog}.
Context (m : module_fns) (fresh paired : connect_info -> connect_info -> Prop) `{!ModuleLaws m fresh paired}.
Context (junk : nat -> Z) (realloc_ok : Z -> bool).
Context (ct : outbound_tunnel) (Hct : ot_mod ct = m).
Context (cc sc : connect_info) (Hpair : paired cc sc).
(** The descriptor of the connection to the server. *)
Context (fd2 : Z).

(** A template without payload for a destination. *)
Definition template_ok (q0 : client_query) : Prop :=
  query_ok q0 /\ payload q0 = Bss false 0 None /\ is_dns_query q0 = false.

(** Encoding a query and sending it to the server, as two writes. *)
Lemma packet_to_server q w s2 :
  query_ok q -> bss_length (payload q) + 64 <= max_packet -> live w fd2 s2 ->
  exists p ws, quiet ws /\ f_client_encode m cc q = Ok p /\ bss_ok p /\
    exists w1, sc_sendn (cc, fd2) (Some (le_bytes 4 (htonl (bss_length p)))) 4 w = (Ok tt, w1) /\
      sc_sendn (cc, fd2) (str p) (bss_length p) w1 =
        (Ok tt, put_sock w fd2 (after_send s2 (frame (bss_bytes p)) ws)).
Proof.
  intros Hq Hn Hl. unfold max_packet in Hn.
  destruct (client_to_server cc sc q Hpair Hq) as (p & E1 & Hp & Lp & _); [lia|].
  pose proof (bss_bytes_length _ Hp) as Lb.
  assert (Hh : bss_ok (Bss false 4 (Some (be_bytes 4 (bss_length p)))))
    by (split; cbn [bss_length str]; [lia|split; [apply be_bytes_wf|by rewrite be_bytes_length]]).
  destruct (sendn_ptr_ok (flags := MSG_NOSIGNAL) w fd2 s2 _ Hl Hh) as (ws1 & Hw1 & S1).
  rewrite bss_bytes_full in S1 by done. cbn [str bss_length] in S1.
  destruct (sendn_ptr_ok (flags := MSG_NOSIGNAL) (put_sock w fd2 (after_send s2 (be_bytes 4 (bss_length p)) ws1)) fd2
              (after_send s2 (be_bytes 4 (bss_length p)) ws1) p) as (ws2 & Hw2 & S2); [eauto with sockio|done|].
  exists p, ws2. do 3 (split; [done|]). eexists. split; [unfold sc_sendn; rewrite htonl_bytes; exact S1|].
  unfold sc_sendn. cbn [snd]. rewrite S2, put_put, after_send_send. unfold frame. by rewrite Lb.
Qed.

(** One piece of the application's stream becomes one packet; only when the
    application goes on can the call wait for more. *)
Lemma local_piece_sent q0 m_fd w s s2 :
  template_ok q0 -> live w m_fd s -> live w fd2 s2 -> m_fd <> fd2 ->
  steady (rscript s) -> wf_bytes (inbuf s) -> inbuf s <> [] ->
  (at_eof s = false /\ exists w', on_local_data junk realloc_ok ct (cc, fd2) q0 m_fd w = (Blocked, w')) \/
  exists (n : nat) q p rs ws, (1 <= n <= length (inbuf s))%nat /\ steady rs /\ quiet ws /\
    carried q /\ destination_ip q = destination_ip q0 /\ destination_port q = destination_port q0 /\
    bss_bytes (payload q) = take n (inbuf s) /\ f_client_encode m cc q = Ok p /\
    on_local_data junk realloc_ok ct (cc, fd2) q0 m_fd w =
      (Ok true, put_sock (put_sock w m_fd (after_recv s n rs)) fd2 (after_send s2 (frame (bss_bytes p)) ws)).
Proof.
  intros ((Hq1 & Hq2 & Hq3 & _) & Hq4 & Hdns) Hl Hl2 Hne Hst Hwf Hi.
  destruct (recvall_piece junk realloc_ok w m_fd s Hl Hst) as [_ Hmore].
  destruct (Hmore Hi) as [(n & rs & tl & H1 & H2 & H3 & Htl & E)|(_ & He & rs & E)]; [right|left].
  2: { split; [done|]. eexists. unfold on_local_data. apply (bind_blocked (readall _ _ _ _ _) _ _ _ E). }
  set (q := set_payload q0 (Bss false (Z.of_nat n) (Some (take n (inbuf s) ++ tl)))).
  assert (Hq : query_ok q).
  { split; [done|]. split; [done|]. split; [done|]. split; cbn [payload q set_payload bss_length str]; [lia|].
    split; [apply wf_bytes_app; auto with bytes|len]. }
  set (w1 := put_sock w m_fd (after_recv s n rs)).
  destruct (packet_to_server q w1 s2) as (p & ws & Hws & E1 & Hp & w2 & S1 & S2);
    [done|unfold max_packet; cbn [payload q set_payload bss_length]; lia|unfold w1; eauto with sockio|].
  exists n, q, p, rs, ws. split; [lia|]. split; [done|]. split; [done|]. split.
  { split; [done|]. split; [exact Hdns|]. unfold max_packet. cbn [payload q set_payload bss_length]. lia. }
  do 2 (split; [done|]). split.
  { unfold bss_bytes. cbn [payload q set_payload bss_length str]. by rewrite Nat2Z.id, take_app_length' by len. }
  split; [done|]. unfold on_local_data. rewrite (bind_ok (readall _ _ _ _ _) _ _ _ _ E). cbn [fst snd].
  destruct (Z.eqb_spec (Z.of_nat n) 0); [lia|]. destruct (Z.ltb_spec (Z.of_nat n) 0); [lia|].
  rewrite (bind_ok (lift _) _ w1 p w1).
  - rewrite (log_one (bytes_of_string "Data pack to send: len=") []) by (done || apply to_string_nobrace).
    rewrite (bind_ok _ _ _ _ _ S1), (bind_ok _ _ _ _ _ S2). done.
  - unfold lift, client_impl_encode. rewrite u32_small by lia. cbn [bss_length].
    destruct (Z.eqb_spec (Z.of_nat n) 0); [lia|]. fold q. by rewrite Hct, E1.
Qed.

(** A turn of the loop in which only the application is ready. *)
Lemma pass_local_turn fuel q0 m_fd w w' b l :
  selects w = Some [m_fd] :: l -> m_fd <> fd2 ->
  on_local_data junk realloc_ok ct (cc, fd2) q0 m_fd (World (socks w) l (pending w)) = (Ok b, w') ->
  pass_loop junk realloc_ok ct (S fuel) (cc, fd2) q0 m_fd w =
    if b then pass_loop junk realloc_ok ct fuel (cc, fd2) q0 m_fd w' else (Ok tt, w').
Proof.
  intros Hs Hne Ho. cbn [pass_loop snd].
  rewrite (bind_ok (select _) _ _ (Some [m_fd]) (World (socks w) l (pending w))).
  - rewrite (decide_True (P := m_fd ∈ [m_fd])) by apply list_elem_of_here. rewrite (bind_ok _ _ _ _ _ Ho).
    destruct b; cbn [negb]; [|done].
    rewrite (decide_False (P := fd2 ∈ [m_fd])) by (rewrite list_elem_of_singleton; congruence).
    by rewrite (bind_ok (mret true) _ w' true w') by done.
  - unfold select. rewrite Hs. rewrite filter_cons, decide_True by apply list_elem_of_here.
    rewrite filter_cons, decide_False by (rewrite list_elem_of_singleton; congruence). done.
Qed.

(** The whole stream of an application that then closes its end. *)
Lemma pass_local_all (k : nat) q0 m_fd w s s2 :
  template_ok q0 -> live w m_fd s -> live w fd2 s2 -> m_fd <> fd2 ->
  steady (rscript s) -> at_eof s = true -> wf_bytes (inbuf s) ->
  selects w = replicate k (Some [m_fd]) -> (length (inbuf s) < k)%nat ->
  exists w' s2' qs ps,
    pass_loop junk realloc_ok ct (S k) (cc, fd2) q0 m_fd w = (Ok tt, w') /\
    Forall2 (fun q p => f_client_encode m cc q = Ok p) qs ps /\ Forall carried qs /\
    Forall (fun q => destination_ip q = destination_ip q0 /\ destination_port q = destination_port q0) qs /\
    concat (map (fun q => bss_bytes (payload q)) qs) = inbuf s /\
    live w' fd2 s2' /\ inbuf s2' = inbuf s2 /\
    outbuf s2' = outbuf s2 ++ concat (map (fun p => frame (bss_bytes p)) ps).
Proof.
  intros Hq0. revert w s s2. induction k as [|k IH]; intros w s s2 Hl Hl2 Hne Hst He Hwf Hs Hk; [lia|].
  set (w0 := World (socks w) (replicate k (Some [m_fd])) (pending w)).
  destruct (decide (inbuf s = [])) as [Hi|Hi].
  - exists w0, s2, [], []. cbn [map concat]. rewrite app_nil_r, Hi.
    assert (Hend : on_local_data junk realloc_ok ct (cc, fd2) q0 m_fd w0 = (Ok false, w0)).
    { destruct (recvall_piece junk realloc_ok w0 m_fd s Hl Hst) as [Hemp _].
      destruct (Hemp Hi) as (b & E). rewrite He in E. unfold on_local_data.
      by rewrite (bind_ok (readall _ _ _ _ _) _ _ _ _ E). }
    rewrite (pass_local_turn (S k) q0 m_fd w w0 false _ Hs Hne Hend). done.
  - destruct (local_piece_sent q0 m_fd w0 s s2 Hq0 Hl Hl2 Hne Hst Hwf Hi)
      as [[? _]|(n & q & p & rs & ws & Hn & Hrs & Hws & Hc & Hip & Hport & Hpay & Hp & Ho)]; [congruence|].
    set (s' := after_recv s n rs) in *. set (s2' := after_send s2 _ ws) in *.
    set (w1 := put_sock (put_sock w0 m_fd s') fd2 s2') in *.
    assert (Hl' : live w1 m_fd s').
    { apply live_other; [done|]. apply live_after_recv; [done|by apply steady_quiet]. }
    assert (Hl2' : live w1 fd2 s2').
    { split; [apply lookup_put|]. destruct Hl2 as (_ & ? & ? & ?). done. }
    destruct (IH w1 s' s2') as (w' & s2'' & qs & ps & E & F1 & F2 & F3 & F4 & F5 & F6 & F7);
      [done|done|done|done|done|cbn; auto with bytes|done|cbn; len|].
    exists w', s2'', (q :: qs), (p :: ps).
    rewrite (pass_local_turn (S k) q0 m_fd w w1 true _ Hs Hne Ho). split; [exact E|].
    split; [by constructor|]. split; [by constructor|]. split; [by constructor|]. cbn [map concat].
    rewrite F4, Hpay. split; [apply take_drop|]. split; [done|]. split; [done|].
    rewrite F7. cbn [outbuf s2' after_send]. by rewrite <- app_assoc.
Qed.
(** Receiving the length field and the packet, in two reads. *)
Lemma packet_from_server w s2 d rest :
  live w fd2 s2 -> inbuf s2 = frame d ++ rest -> Z.of_nat (length d) <= max_packet ->
  exists rs w1, quiet rs /\
    sc_recvn (cc, fd2) (malloc junk 4) 4 w = (Ok (be_bytes 4 (Z.of_nat (length d))), w1) /\
    sc_recvn (cc, fd2) (malloc junk (length d)) (Z.of_nat (length d)) w1 =
      (Ok d, put_sock w fd2 (after_recv s2 (length (frame d)) rs)) /\
    recvn_and_free_on_err (cc, fd2) (malloc junk (length d)) (Z.of_nat (length d)) w1 =
      (Ok d, put_sock w fd2 (after_recv s2 (length (frame d)) rs)).
Proof.
  intros Hl Hi Hn. destruct (recv_reply_ok junk w fd2 s2 d rest Hl Hi Hn) as (rs & rs' & Hrs & E1 & E2).
  exists rs', (put_sock w fd2 (after_recv s2 4 rs)). do 3 (split; [done|]).
  unfold recvn_and_free_on_err. unfold recvn_ex in E2. cbn [snd].
  set (r := recvn fd2 _ _ _) in *. unfold mbind, st_bind in *. destruct (r _) as [[v|e|u|] w2]; [|done..].
  destruct (v.1 =? -1); done.
Qed.

(** One packet of the server is written to the application. *)
Lemma server_packet_delivered p d m_fd w s s2 rest :
  decodes_to m cc p d -> live w m_fd s -> live w fd2 s2 -> m_fd <> fd2 ->
  inbuf s2 = frame (bss_bytes p) ++ rest ->
  exists rs ws, quiet rs /\ quiet ws /\
    on_server_data junk ct (cc, fd2) m_fd w =
      (Ok true, put_sock (put_sock w fd2 (after_recv s2 (length (frame (bss_bytes p))) rs)) m_fd (after_send s d ws)) /\
    inbuf (after_recv s2 (length (frame (bss_bytes p))) rs) = rest.
Proof.
  intros ((Hp & Hn) & q' & Hd & Hq' & Hpay) Hl Hl2 Hne Hi. pose proof (bss_bytes_length _ Hp) as Lb.
  destruct (packet_from_server w s2 (bss_bytes p) rest Hl2 Hi) as (rs & w1 & Hrs & E1 & _ & E2); [lia|].
  unfold on_server_data. rewrite (bind_ok _ _ _ _ _ E1), ntohl_frame by (unfold max_packet in Hn; lia).
  destruct (Z.eqb_spec (Z.of_nat (length (bss_bytes p))) 0); [lia|].
  rewrite Nat2Z.id, (bind_ok _ _ _ _ _ E2).
  rewrite (log_one (bytes_of_string "Data pack recv:len=") []) by (done || apply to_string_nobrace). set (w2 := put_sock w fd2 _).
  rewrite (bind_ok (lift _) _ w2 q' w2)
    by (unfold lift, client_impl_decode; rewrite Hct, Lb; fold (on_wire p); cbn [fst]; by rewrite Hd).
  destruct (sendn_ptr_ok (flags := MSG_NOSIGNAL) w2 m_fd s (payload q')) as (ws & Hws & S1); [unfold w2; eauto with sockio|apply Hq'|].
  rewrite (bind_ok _ _ _ _ _ S1), Hpay. exists rs, ws. split; [done|]. split; [done|]. split; [done|].
  cbn [after_recv inbuf]. by rewrite Hi, drop_app_length.
Qed.

Lemma pass_server_turn fuel q0 m_fd w w' b l :
  selects w = Some [fd2] :: l -> m_fd <> fd2 ->
  on_server_data junk ct (cc, fd2) m_fd (World (socks w) l (pending w)) = (Ok b, w') ->
  pass_loop junk realloc_ok ct (S fuel) (cc, fd2) q0 m_fd w =
    if b then pass_loop junk realloc_ok ct fuel (cc, fd2) q0 m_fd w' else (Ok tt, w').
Proof.
  intros Hs Hne Ho. cbn [pass_loop snd]. set (w0 := World (socks w) l (pending w)) in *.
  rewrite (bind_ok (select _) _ _ (Some [fd2]) w0).
  - rewrite (decide_False (P := m_fd ∈ [fd2])) by (rewrite list_elem_of_singleton; congruence).
    rewrite (bind_ok (mret true) _ w0 true w0) by done. cbn [negb].
    rewrite (decide_True (P := fd2 ∈ [fd2])) by apply list_elem_of_here.
    rewrite (bind_ok _ _ _ _ _ Ho). by destruct b.
  - unfold select. rewrite Hs.
    rewrite filter_cons, (decide_False (P := m_fd ∈ [fd2])) by (rewrite list_elem_of_singleton; congruence).
    rewrite filter_cons, (decide_True (P := fd2 ∈ [fd2])) by apply list_elem_of_here. done.
Qed.

(** All packets of the server, one per turn. *)
Lemma pass_server_all q0 m_fd w s s2 ps ds rest :
  Forall2 (decodes_to m cc) ps ds -> live w m_fd s -> live w fd2 s2 -> m_fd <> fd2 ->
  inbuf s2 = concat (map (fun p => frame (bss_bytes p)) ps) ++ rest ->
  selects w = replicate (length ps) (Some [fd2]) ->
  exists w' s' s2',
    pass_loop junk realloc_ok ct (S (length ps)) (cc, fd2) q0 m_fd w = (Blocked, w') /\
    live w' m_fd s' /\ outbuf s' = outbuf s ++ concat ds /\ live w' fd2 s2' /\ inbuf s2' = rest.
Proof.
  intros Hf. revert w s s2. induction Hf as [|p d ps ds Hd Hf IH]; intros w s s2 Hl Hl2 Hne Hi Hs.
  - exists w, s, s2. cbn [concat map app length] in *. rewrite app_nil_r. split; [|done].
    cbn [pass_loop]. apply bind_blocked. unfold select. by rewrite Hs.
  - cbn [concat map] in Hi. rewrite <- app_assoc in Hi.
    set (w0 := World (socks w) (replicate (length ps) (Some [fd2])) (pending w)).
    destruct (server_packet_delivered p d m_fd w0 s s2 (concat (map (fun p => frame (bss_bytes p)) ps) ++ rest) Hd)
      as (rs & ws & Hrs & Hws & Ho & Hrest); [done..|].
    set (w1 := put_sock (put_sock w0 fd2 _) m_fd _) in Ho.
    destruct (IH w1 (after_send s d ws) (after_recv s2 (length (frame (bss_bytes p))) rs))
      as (w' & s' & s2' & E & F1 & F2 & F3 & F4);
      [unfold w1; eauto 6 with sockio| |done|done|done|].
    { apply live_other; [done|]. unfold w0. eauto with sockio. }
    exists w', s', s2'. cbn [length concat]. rewrite (pass_server_turn _ q0 m_fd w w1 true _ Hs Hne Ho).
    split; [exact E|]. split; [done|]. rewrite F2. cbn [outbuf after_send]. by rewrite <- app_assoc.
Qed.
End Client.

Section EndToEnd.
Context {lg : Log.Rlog} `{!Log.RlogLaws}.
Context (m : module_fns) (fresh paired : connect_info -> connect_info -> Prop) `{!ModuleLaws m fresh paired}.
Context (junkc junks : nat -> Z) (realloc_c realloc_s : Z -> bool).
Context (getaddrinfo : bytes -> bytes -> bool -> Z + list addrinfo).
Context (resolve : nat -> bytes -> outcome (list ip_address)).
Context (ct : outbound_tunnel) (Hct : ot_mod ct = m) (sv : inbound_tunnel) (Hsv : in_mod sv = m).
Context (cc sc : connect_info) (Hpair : paired cc sc).

(** C1: From the application to the destination. Let an application that asked
    for the address of the template send a non-empty stream of bytes and then
    close, and let no call on its socket be interrupted or fail. The client ends
    normally, having cut the stream into packets. If the server resolves the
    destination to one candidate it can connect to and no call on its sockets
    fails, the server that receives these packets connects to the requested
    address and port and writes to it exactly the application's bytes. This holds
    for every module that keeps its promises, every segmentation on both
    connections and every way the application's data arrive. (On a connection
    that stays open a piece of exactly 512 bytes waits in the client, see
    [quick_recvall_512].) *)
Theorem application_to_destination (addr : addr_info) (q0 : client_query) (k : nat) (m_fd fd2 : Z)
    (w : world) (s s2 : sock) :
  to_query_template addr = Ok q0 -> template_ok q0 ->
  live w m_fd s -> live w fd2 s2 -> m_fd <> fd2 -> steady (rscript s) -> at_eof s = true ->
  wf_bytes (inbuf s) -> inbuf s <> [] -> selects w = replicate k (Some [m_fd]) -> (length (inbuf s) < k)%nat ->
  exists frames n w',
    passData junkc realloc_c ct (cc, fd2) addr m_fd w = (Ok tt, w') /\
    (exists s2', live w' fd2 s2' /\ outbuf s2' = outbuf s2 ++ frames) /\
    forall connfd hop wS sS sh rest,
      live wS connfd sS -> inbuf sS = frames ++ rest ->
      getaddrinfo (ip_array_to_str (destination_ip q0)) (to_string (port addr)) false
        = inr [AddrInfo hop true true true] ->
      socks wS !! hop = Some sh -> quiet (rscript sh) -> quiet (wscript sh) -> hop <> connfd -> hop <> -1 ->
      selects wS = replicate n (Some [connfd]) ->
      exists wS' sS' sh',
        exchange junks realloc_s getaddrinfo resolve (S n) sv sc connfd (-1, wS) = (Blocked, (hop, wS')) /\
        live wS' connfd sS' /\ inbuf sS' = rest /\ live wS' hop sh' /\ outbuf sh' = outbuf sh ++ inbuf s.
Proof.
  intros Ht Hq0 Hl Hl2 Hne Hst He Hwf Hi Hs Hk.
  assert (Hport : destination_port q0 = port addr).
  { unfold to_query_template in Ht. repeat case_bool_decide; try done.
    all: try (by apply Log.die_not_ok in Ht).
    all: destruct (port addr =? 0); [by apply Log.die_not_ok in Ht|].
    all: destruct (mem_read _ _ _) as [d| | |]; [|done..]; run_ok in Ht;
      destruct (mem_write _ _ _) as [ip| | |]; [|done..]; run_ok in Ht; by injection Ht as <-. }
  destruct (pass_local_all m fresh paired junkc realloc_c ct Hct cc sc Hpair fd2 k q0 m_fd w s s2)
    as (w' & s2' & qs & ps & E & F1 & F2 & F3 & F4 & F5 & F6 & F7); [done..|].
  exists (concat (map (fun p => frame (bss_bytes p)) ps)), (length qs), w'. split; [|split].
  - unfold passData. rewrite (bind_ok (lift _) _ w q0 w) by (unfold lift; by rewrite Ht).
    rewrite (bind_ok (asks _) _ w (S k) w) by (unfold asks; by rewrite Hs, length_replicate). exact E.
  - eauto.
  - intros connfd hop wS sS sh rest HlS HiS Hg Hh Hr Hw Hhc Hm1 HsS.
    destruct F1 as [|q p qs ps Hqp F1]; [by cbn in F4; rewrite <- F4 in Hi|].
    apply Forall_cons in F3 as [[Hip Hqport] _].
    destruct (upstream_relay m fresh paired junks realloc_s getaddrinfo resolve sv Hsv cc sc Hpair
                q qs p ps connfd hop wS sS sh rest) as (wS' & sS' & sh' & ES & G1 & G2 & _ & G4 & G5);
      [done|by constructor|done|done|by rewrite Hip, Hqport, Hport|done..|].
    rewrite HsS, length_replicate in ES. exists wS', sS', sh'. rewrite <- F4. done.
Qed.

(** C2: From the destination back to the application. Let the destination send
    any stream of bytes and then close, and let no call on its socket be
    interrupted or fail. The server turns the stream into packets and ends the
    exchange; the client that receives these packets, on sockets of which no call
    fails, writes to the application exactly the destination's bytes, in order. *)
Theorem destination_to_application (q0 : client_query) (k : nat) (connfd hop m_fd fd2 : Z)
    (wS : world) (sS sh : sock) :
  live wS connfd sS -> live wS hop sh -> hop <> connfd -> hop <> -1 -> steady (rscript sh) ->
  wf_bytes (inbuf sh) -> at_eof sh = true -> 0 <= bindPort sv < 2 ^ 16 ->
  selects wS = replicate k (Some [hop]) -> (length (inbuf sh) < k)%nat -> m_fd <> fd2 ->
  exists frames n wS',
    exchange junks realloc_s getaddrinfo resolve (S k) sv sc connfd (hop, wS) = (Ok tt, (hop, wS')) /\
    (exists sS', live wS' connfd sS' /\ outbuf sS' = outbuf sS ++ frames) /\
    forall w s s2 rest,
      live w m_fd s -> live w fd2 s2 -> inbuf s2 = frames ++ rest -> selects w = replicate n (Some [fd2]) ->
      exists w' s' s2',
        pass_loop junkc realloc_c ct (S n) (cc, fd2) q0 m_fd w = (Blocked, w') /\
        live w' m_fd s' /\ outbuf s' = outbuf s ++ inbuf sh /\ live w' fd2 s2' /\ inbuf s2' = rest.
Proof.
  intros H1 H2 H3 H4 H5 H6 H7 H8 H9 H10 Hne.
  destruct (downstream_relay m fresh paired junks realloc_s getaddrinfo resolve sv Hsv cc sc Hpair k connfd hop wS sS sh)
    as (wS' & sS' & ps & ds & E & F1 & F2 & F3 & F4 & F5); [done..|].
  exists (concat (map (fun p => frame (bss_bytes p)) ps)), (length ps), wS'. split; [done|]. split; [eauto|].
  intros w s s2 rest Hl Hl2 Hi Hs. rewrite <- F2.
  by apply (pass_server_all m junkc realloc_c ct Hct cc fd2 q0 m_fd w s s2 ps ds rest).
Qed.

(** The address [dns_pkgs] makes of the server's answer. *)
Definition resolved_addr (ip : ip_address) (p : Z) : addr_info :=
  match ip with
  | V4 a => AddrI addr_ipv4 a p
  | V6 a => if forallb (fun c => c =? 0) (drop 4 a) then AddrI addr_ipv4 (take 4 a) p else AddrI addr_ipv6 a p
  end.

Lemma print_nobrace a : type a <> addr_domain -> nobrace (print a) = true.
Proof.
  assert (Hdump : nobrace (concat (map (fun e => to_string (schar e) ++ [124]) (data a))) = true).
  { induction (data a) as [|b l IH]; [done|]. cbn [map concat]. by rewrite !nobrace_app, to_string_nobrace, IH. }
  unfold print. destruct (type a); intros Hd; [done|..|done]; by rewrite !nobrace_app, Hdump.
Qed.

Lemma print_domain_no_hole domain p :
  ~ RString.occurs RString.hole domain -> ~ RString.occurs RString.hole (print (AddrI addr_domain domain p)).
Proof. intros Hd. unfold print. cbn [type data]. rewrite app_assoc. by apply RString.no_hole_pre. Qed.

Lemma die_unresolved {A} domain p :
  ~ RString.occurs RString.hole domain ->
  Log.die_text (A := A) (bytes_of_string "Can not resolve address `{}`") [print (AddrI addr_domain domain p)] =
    Throw (runtime_error (RString.string_of_bytes
      (Log.err_prefix ++ bytes_of_string "Can not resolve address `" ++ (bytes_of_string "domain " ++ domain) ++ [96]))).
Proof.
  intros Hd. unfold Log.die_text.
  change (bytes_of_string "Can not resolve address `{}`")
    with (bytes_of_string "Can not resolve address `" ++ RString.hole ++ [96]).
  rewrite RString.format_one by first [done | by apply RString.no_hole_nobrace]. run_ok.
  rewrite Log.die_plain; [done|]. apply RString.no_hole_pre; [done|].
  apply RString.no_hole_app; [by apply print_domain_no_hole|by apply RString.no_hole_nobrace|done].
Qed.

Lemma try_6to4_array ip p :
  ip_ok ip -> try_6to4 (AddrI addr_ipv6 (ip_array ip) p) = Ok (resolved_addr ip p).
Proof.
  destruct ip as [a|a]; intros [Hl Hw]; unfold try_6to4; cbn [type data port ip_array resolved_addr].
  - rewrite bool_decide_true by done. cbn [negb].
    rewrite drop_app_length', take_app_length' by done. done.
  - rewrite bool_decide_true by done. cbn [negb]. by destruct (forallb _ _).
Qed.

(** The exception for a name that can not be resolved. *)
Definition not_resolved (domain : bytes) : exn :=
  runtime_error (RString.string_of_bytes
    (Log.err_prefix ++ bytes_of_string "Can not resolve address `" ++ (bytes_of_string "domain " ++ domain) ++ [96])).

(** The query for a name. *)
Lemma dns_query_ok domain prt :
  wf_bytes domain -> Z.of_nat (length domain) + 33 < 2 ^ 32 -> 0 <= prt < 2 ^ 16 ->
  query_ok (Query (replicate 16 0) prt (Bss true (Z.of_nat (length domain) + 33) (Some (dns_head ++ domain ++ [0])))).
Proof.
  intros Hw Hn Hp. split; [done|]. split; [apply wf_bytes_repeat; unfold is_byte; lia|]. split; [cbn; lia|].
  split; cbn [payload bss_length str]; [lia|]. change (length dns_head) with 32%nat.
  split; [|rewrite !length_app; cbn; lia]. rewrite !wf_bytes_app.
  split; [apply bytes_of_string_wf|]. split; [done|]. constructor; [unfold is_byte; lia|constructor].
Qed.

(** What the client makes of the address in the answer. *)
Lemma dns_answer_used domain ip prt (w : world) :
  ~ RString.occurs RString.hole domain -> ip_ok ip ->
  (let goodaddr := AddrI addr_ipv6 (ip_array ip) prt in
   if is_invalid goodaddr then
     lift (Log.die_text (bytes_of_string "Can not resolve address `{}`") [print (AddrI addr_domain domain prt)])
   else
     _ ← lift (Log.rlog_text Log.DEBUG (bytes_of_string "dns raw responce: {}") [print goodaddr]);
     goodaddr ← lift (try_6to4 goodaddr);
     _ ← lift (Log.rlog_text Log.DEBUG (bytes_of_string "dns responce: {}") [print goodaddr]);
     mret goodaddr) w =
  ((if is_invalid (AddrI addr_ipv6 (ip_array ip) prt) then Throw (not_resolved domain) else Ok (resolved_addr ip prt)), w).
Proof.
  intros Hh Hip. cbv zeta. destruct (is_invalid _); [unfold lift; by rewrite die_unresolved|].
  rewrite (log_one (bytes_of_string "dns raw responce: ") []) by (done || by apply print_nobrace).
  rewrite (bind_ok (lift _) _ _ (resolved_addr ip prt) w) by (unfold lift; by rewrite try_6to4_array).
  rewrite (log_one (bytes_of_string "dns responce: ") []); [done..|].
  apply print_nobrace. destruct ip; [done|]. cbn [resolved_addr]. by destruct (forallb _ _).
Qed.

(** C5: Name resolution end to end. To reach a host by name, the client sends
    the server one packet; the server looks the name up and answers with one
    packet; from this answer the client gets the first address the server's
    resolver returned, with the port the application asked for, or reports
    failure when the address passes for invalid.  This holds at every log
    level, for names without a hole. *)
Theorem name_resolution (domain : bytes) (prt : Z) (ip : ip_address) (ips : list ip_address) (fd2 : Z) :
  ~ RString.occurs RString.hole domain ->
  ~ 0 ∈ domain -> wf_bytes domain -> Z.of_nat (length domain) + 97 <= max_packet -> 0 <= prt < 2 ^ 16 ->
  resolve 0%nat domain = Ok (ip :: ips) -> ip_ok ip ->
  exists query reply,
    (forall connfd hop wS sS rest, live wS connfd sS -> inbuf sS = frame query ++ rest ->
       exists rs ws, quiet rs /\ quiet ws /\
         on_client_data junks getaddrinfo resolve sv sc connfd (hop, wS) =
           (Ok tt, (hop, put_sock wS connfd (after_send (after_recv sS (length (frame query)) rs) (frame reply) ws)))) /\
    (forall w s2 rest, live w fd2 s2 -> inbuf s2 = frame reply ++ rest ->
       exists rs ws, quiet rs /\ quiet ws /\
         dns_pkgs junkc ct (cc, fd2) (AddrI addr_domain domain prt) w =
           ((if is_invalid (AddrI addr_ipv6 (ip_array ip) prt) then Throw (not_resolved domain)
             else Ok (resolved_addr ip prt)),
            put_sock w fd2 (after_send_recv s2 (frame query) ws (length (frame reply)) rs))).
Proof.
  intros Hh Hd Hw Hn Hprt Hr Hip. unfold max_packet in Hn.
  set (pl := Bss true (Z.of_nat (length domain) + 33) (Some (dns_head ++ domain ++ [0]))).
  assert (Ha : forall junk, assemble_dns_query junk domain = Ok (Query (replicate 16 0) 0 pl))
    by (intros; apply assemble_dns_query_eq; lia).
  set (pkg := Query (replicate 16 0) prt pl).
  assert (Hq : query_ok pkg) by (apply dns_query_ok; (done || lia)).
  destruct (client_to_server cc sc pkg Hpair Hq) as (p & Ep & Hp & Lp & _); [cbn [payload bss_length pkg pl]; lia|].
  destruct (dns_packet_answered m fresh paired junks getaddrinfo resolve sv Hsv cc sc Hpair domain prt ip ips
              (Query (replicate 16 0) 0 pl) p) as (r & (Hrok & Hrl) & (q' & Hdec & Hdst) & Hserver);
    [done|done|unfold max_packet; lia|done|done|exact Ep|done|done|].
  exists (bss_bytes p), (bss_bytes r). split; [exact Hserver|].
  intros w s2 rest Hl Hi. pose proof (bss_bytes_length _ Hrok) as Lr.
  unfold dns_pkgs. cbn [type]. rewrite bool_decide_true by done. cbn [negb].
  rewrite (bind_ok (lift _) _ w pkg w) by (unfold lift, make_dns_query_body; cbn [data port]; by rewrite Ha).
  rewrite (bind_ok (lift (Log.rlog_call _ _ _)) _ w tt w)
    by (unfold lift; by rewrite Log.rlog_call_plain by (by apply print_domain_no_hole)).
  rewrite (bind_ok (lift _) _ w p w).
  2: { unfold lift, client_impl_encode. cbn [payload pkg pl bss_length fst].
       destruct (Z.eqb_spec (Z.of_nat (length domain) + 33) 0); [lia|]. by rewrite Hct, <- Ep. }
  destruct (packet_to_server m fresh paired cc sc Hpair fd2 pkg w s2) as (p' & ws & Hws & Ep' & _ & w1 & S1 & S2);
    [done|unfold max_packet; cbn [payload bss_length pkg pl]; lia|done|].
  rewrite Ep in Ep'. injection Ep' as <-.
  rewrite (log_one (bytes_of_string "DNS pack to send: len=") []) by (done || apply to_string_nobrace).
  rewrite (bind_ok _ _ _ _ _ S1), (bind_ok _ _ _ _ _ S2).
  set (s3 := after_send s2 _ ws). set (w3 := put_sock w fd2 s3).
  destruct (packet_from_server junkc cc fd2 w3 s3 (bss_bytes r) rest) as (rs & w4 & Hrs & R1 & R2 & _);
    [unfold w3, s3; eauto with sockio|exact Hi|lia|].
  rewrite (bind_ok _ _ _ _ _ R1), ntohl_frame by (unfold max_packet in Hrl; lia).
  rewrite Nat2Z.id, (bind_ok _ _ _ _ _ R2). set (w5 := put_sock w3 fd2 _).
  rewrite (bind_ok (lift _) _ w5 q' w5)
    by (unfold lift, client_impl_decode; rewrite Hct, Lr; fold (on_wire r); cbn [fst]; by rewrite Hdec).
  rewrite Hdst. cbn [port]. exists rs, ws. split; [done|]. split; [done|].
  unfold w5, w3. rewrite put_put. by apply dns_answer_used.
Qed.
End EndToEnd.

(** ** A concrete session *)

Definition app_sock : sock := Sock [71; 69; 84] true [Chunk 1] [] [Chunk 0] true.
Definition up_sock : sock := Sock [] false [] [] [Intr; Chunk 0] true.
Definition app_world : world := World (<[4 := app_sock]> {[ 3 := up_sock ]}) (replicate 5 (Some [4])) [].
Definition app_addr : addr_info := AddrI addr_ipv4 [10; 0; 0; 1] 80.

Lemma application_to_destination_witness :
  exists frames n w',
    passData (lg := Log.rlog_at Log.INFO) (fun _ => 0) (fun _ => true) Sample.ct (Sample.cc, 3) app_addr 4 app_world = (Ok tt, w') /\
    (exists s2', live w' 3 s2' /\ outbuf s2' = outbuf up_sock ++ frames) /\
    forall connfd hop wS sS sh rest,
      live wS connfd sS -> inbuf sS = frames ++ rest ->
      Sample.gai (ip_array_to_str ([10; 0; 0; 1] ++ replicate 12 0)) (to_string 80) false
        = inr [AddrInfo hop true true true] ->
      socks wS !! hop = Some sh -> quiet (rscript sh) -> quiet (wscript sh) -> hop <> connfd -> hop <> -1 ->
      selects wS = replicate n (Some [connfd]) ->
      exists wS' sS' sh',
        exchange (fun _ => 0) (fun _ => true) Sample.gai Sample.res (S n) Sample.sv Sample.sc connfd (-1, wS)
          = (Blocked, (hop, wS')) /\
        live wS' connfd sS' /\ inbuf sS' = rest /\ live wS' hop sh' /\ outbuf sh' = outbuf sh ++ [71; 69; 84].
Proof.
  apply (application_to_destination (lg := Log.rlog_at Log.INFO) Sample.md SimpleProxy.same_pass SimpleProxy.same_pass (fun _ => 0) (fun _ => 0)
           (fun _ => true) (fun _ => true) Sample.gai Sample.res Sample.ct eq_refl Sample.sv eq_refl
           Sample.cc Sample.sc Sample.passes app_addr (Query ([10; 0; 0; 1] ++ replicate 12 0) 80 (Bss false 0 None))
           5 4 3 app_world app_sock up_sock).
  - reflexivity.
  - split; [|done]. split; [done|]. split; [apply (bool_decide_unpack _); reflexivity|]. split; [cbn; lia|].
    split; cbn; lia || done.
  - split; [reflexivity|]. split; [done|]. split; apply (bool_decide_unpack _); reflexivity.
  - split; [reflexivity|]. split; [done|]. split; apply (bool_decide_unpack _); reflexivity.
  - lia.
  - repeat constructor. eauto.
  - reflexivity.
  - apply (bool_decide_unpack _). reflexivity.
  - done.
  - reflexivity.
  - cbn. lia.
Defined.

Lemma destination_to_application_witness :
  exists frames n wS',
    exchange (fun _ => 0) (fun _ => true) Sample.gai Sample.res 5 Sample.sv Sample.sc 5 (9, wd_hop) = (Ok tt, (9, wS')) /\
    (exists sS', live wS' 5 sS' /\ outbuf sS' = outbuf (Sample.client_sock Sample.q) ++ frames) /\
    forall w s s2 rest,
      live w 4 s -> live w 3 s2 -> inbuf s2 = frames ++ rest -> selects w = replicate n (Some [3]) ->
      exists w' s' s2',
        pass_loop (lg := Log.rlog_at Log.INFO) (fun _ => 0) (fun _ => true) Sample.ct (S n) (Sample.cc, 3) Sample.q 4 w = (Blocked, w') /\
        live w' 4 s' /\ outbuf s' = outbuf s ++ [1; 2; 3] /\ live w' 3 s2' /\ inbuf s2' = rest.
Proof.
  apply (destination_to_application (lg := Log.rlog_at Log.INFO) Sample.md SimpleProxy.same_pass SimpleProxy.same_pass (fun _ => 0) (fun _ => 0)
           (fun _ => true) (fun _ => true) Sample.gai Sample.res Sample.ct eq_refl Sample.sv eq_refl
           Sample.cc Sample.sc Sample.passes Sample.q 4 5 9 4 3 wd_hop
           (Sample.client_sock Sample.q) (Sample.hop_sock true)).
  - apply (Sample.live_client Sample.q true).
  - apply (Sample.live_hop Sample.q).
  - lia.
  - lia.
  - repeat constructor. eauto.
  - apply (bool_decide_unpack _). reflexivity.
  - reflexivity.
  - cbn. lia.
  - reflexivity.
  - cbn. lia.
  - lia.
Defined.

Lemma name_resolution_witness :
  exists query reply,
    (forall connfd hop wS sS rest, live wS connfd sS -> inbuf sS = frame query ++ rest ->
       exists rs ws, quiet rs /\ quiet ws /\
         on_client_data (fun _ => 0) Sample.gai Sample.res Sample.sv Sample.sc connfd (hop, wS) =
           (Ok tt, (hop, put_sock wS connfd (after_send (after_recv sS (length (frame query)) rs) (frame reply) ws)))) /\
    (forall w s2 rest, live w 3 s2 -> inbuf s2 = frame reply ++ rest ->
       exists rs ws, quiet rs /\ quiet ws /\
         dns_pkgs (lg := Log.rlog_at Log.INFO) (fun _ => 0) Sample.ct (Sample.cc, 3) (AddrI addr_domain (bytes_of_string "a.org") 80) w =
           (Ok (AddrI addr_ipv4 [10; 0; 0; 1] 80),
            put_sock w 3 (after_send_recv s2 (frame query) ws (length (frame reply)) rs))).
Proof.
  apply (name_resolution (lg := Log.rlog_at Log.INFO) Sample.md SimpleProxy.same_pass SimpleProxy.same_pass (fun _ => 0) (fun _ => 0)
           Sample.gai Sample.res Sample.ct eq_refl Sample.sv eq_refl Sample.cc Sample.sc Sample.passes
           (bytes_of_string "a.org") 80 (V4 [10; 0; 0; 1]) [] 3).
  - by apply RString.no_hole_nobrace.
  - apply (bool_decide_unpack _). reflexivity.
  - apply (bool_decide_unpack _). reflexivity.
  - unfold max_packet. cbn. lia.
  - lia.
  - reflexivity.
  - split; [done|]. apply (bool_decide_unpack _). reflexivity.
Defined.

(** ** The accept loop and the end of a connection *)

Lemma socks5_accept_run l tasks w fuel :
  pending w = l -> (length l < fuel)%nat ->
  exists w', accept_loop fuel (tasks, w) = (Blocked, (tasks ++ filter (fun fd => fd <> -1) l, w')).
Proof.
  revert l tasks w. induction fuel as [|fuel IH]; intros l tasks w Hp Hf; [lia|]. cbn [accept_loop].
  destruct l as [|fd l].
  - rewrite app_nil_r. exists w. apply bind_blocked. unfold embed, accept. cbn [snd fst]. by rewrite Hp.
  - set (w1 := World (socks w) (selects w) l).
    rewrite (bind_ok _ _ _ fd (tasks, w1)) by (apply embed_ok; unfold accept; by rewrite Hp).
    cbn [length] in Hf. rewrite filter_cons. destruct (Z.eqb_spec fd (-1)) as [->|Hn].
    + rewrite decide_False by (intros H; by apply H). apply (IH l tasks w1); [done|lia].
    + rewrite decide_True by done. destruct (IH l (tasks ++ [fd]) w1) as (w' & E); [done|lia|].
      exists w'. rewrite <- app_assoc in E. exact E.
Qed.

(** The accept loop of the front end. Once the socket is bound, every
    connection that [accept] returns gets a handler in a thread of its own,
    in order; failing calls are skipped and the loop goes on for ever. *)
Theorem socks5_listen_tasks {lg : Log.Rlog} (getaddrinfo : bytes -> bytes -> bool -> Z + list addrinfo)
    (sys_listen : Z -> bool) (bindIp : bytes) (bindPort lfd : Z) (w w1 : world) :
  nobrace bindIp = true -> listen_socket getaddrinfo sys_listen bindIp bindPort w = (Ok lfd, w1) ->
  exists w', listen getaddrinfo sys_listen bindIp bindPort ([], w) =
    (Blocked, (filter (fun fd => fd <> -1) (pending w1), w')).
Proof.
  intros Hb Hs. unfold listen. rewrite (bind_ok _ _ _ _ _ (embed_ok _ [] _ _ _ Hs)).
  rewrite (Log.rlog_text_two Log.INFO _ (bytes_of_string "Socks5 listening ") [58] (bytes_of_string " ...")) by done.
  rewrite Log.rlog_call_plain.
  2: { apply RString.no_hole_nobrace. fold (nobrace (bytes_of_string "Socks5 listening " ++ bindIp ++ [58] ++
         to_string bindPort ++ bytes_of_string " ...")). by rewrite !nobrace_app, Hb, to_string_nobrace. }
  rewrite (bind_ok (lift _) _ _ tt ([], w1)) by done.
  rewrite (bind_ok (asks _) _ _ (S (length (pending w1))) ([], w1)) by done.
  apply (socks5_accept_run (pending w1) []); [done|lia].
Qed.

Lemma socks5_listen_tasks_witness :
  exists w', listen (lg := Log.rlog_at Log.INFO) Sample.gai (fun _ => true) [] 1080 ([], World ∅ [] [4; -1; 6]) =
    (Blocked, ([4; 6], w')).
Proof.
  apply (socks5_listen_tasks (lg := Log.rlog_at Log.INFO) Sample.gai (fun _ => true) [] 1080 9 (World ∅ [] [4; -1; 6])
           (World {[ 9 := Sock [] false [] [] [] true ]} [] [4; -1; 6])); reflexivity.
Defined.

(** ** The end of a connection *)

Section Thread.
Context {lg : Log.Rlog}.
Context (junk : nat -> Z) (realloc_ok : Z -> bool) (getaddrinfo : bytes -> bytes -> bool -> Z + list addrinfo).
Context (ct : outbound_tunnel).

(** What [launch] does with the outcome of the [try] block. *)
Definition handler_text (m_fd : Z) (e : exn) : bytes :=
  (bytes_of_string "Exception caught from child thread: At connection " ++ to_string m_fd ++ [58]) ++ what e ++ [46].

Lemma launch_ok m_fd w w1 :
  serve junk realloc_ok getaddrinfo ct m_fd w = (Ok tt, w1) ->
  launch junk realloc_ok getaddrinfo ct m_fd w = (Ok tt, w1).
Proof.
  intros Hs. unfold launch.
  rewrite (log_one (bytes_of_string "Socks5: Connection ") (bytes_of_string " opened."))
    by (done || apply to_string_nobrace).
  unfold try_catch, mbind at 1, st_bind at 1. rewrite Hs. unfold lift.
  by rewrite (Log.rlog_text_one _ _ (bytes_of_string "Socks5: Connection ") (bytes_of_string " closed."))
    by (done || apply to_string_nobrace).
Qed.

Lemma launch_throws m_fd w e w1 :
  serve junk realloc_ok getaddrinfo ct m_fd w = (Throw e, w1) ->
  launch junk realloc_ok getaddrinfo ct m_fd w = (Log.rlog_call Log.ERROR (handler_text m_fd e) [], w1).
Proof.
  intros Hs. unfold launch.
  rewrite (log_one (bytes_of_string "Socks5: Connection ") (bytes_of_string " opened."))
    by (done || apply to_string_nobrace).
  unfold try_catch, mbind at 1, st_bind at 1. rewrite Hs. unfold lift.
  rewrite (Log.rlog_text_two Log.ERROR _ (bytes_of_string "Exception caught from child thread: At connection ") [58] [46])
    by done.
  unfold handler_text. rewrite <- !app_assoc. destruct (Log.rlog_call _ _ _) as [[]| | |]; [|done..].
  by rewrite (Log.rlog_text_one _ _ (bytes_of_string "Socks5: Connection ") (bytes_of_string " closed."))
    by (done || apply to_string_nobrace).
Qed.

Lemma launch_undefined m_fd w u w1 :
  serve junk realloc_ok getaddrinfo ct m_fd w = (Undefined u, w1) ->
  launch junk realloc_ok getaddrinfo ct m_fd w = (Undefined u, w1).
Proof.
  intros Es. unfold launch. rewrite (log_one (bytes_of_string "Socks5: Connection ") (bytes_of_string " opened."))
    by (done || apply to_string_nobrace). apply bind_undefined. unfold try_catch. by rewrite Es.
Qed.

Lemma launch_blocked m_fd w w1 :
  serve junk realloc_ok getaddrinfo ct m_fd w = (Blocked, w1) ->
  launch junk realloc_ok getaddrinfo ct m_fd w = (Blocked, w1).
Proof.
  intros Es. unfold launch. rewrite (log_one (bytes_of_string "Socks5: Connection ") (bytes_of_string " opened."))
    by (done || apply to_string_nobrace). apply bind_blocked. unfold try_catch. by rewrite Es.
Qed.

Lemma handler_nobrace m_fd :
  nobrace (bytes_of_string "Exception caught from child thread: At connection " ++ to_string m_fd ++ [58]) = true.
Proof. by rewrite !nobrace_app, to_string_nobrace. Qed.

(** The destructor closes the descriptor, however [launch] ends. *)
Lemma dealConnection_after m_fd w o w1 :
  launch junk realloc_ok getaddrinfo ct m_fd w = (o, w1) ->
  match o with
  | Ok _ | Throw _ => exists w', dealConnection junk realloc_ok getaddrinfo ct m_fd w = (o, w') /\ opened w' m_fd = false
  | _ => dealConnection junk realloc_ok getaddrinfo ct m_fd w = (o, w1)
  end.
Proof.
  intros Hl. unfold dealConnection, defer. rewrite Hl.
  pose proof (opened_close w1 m_fd m_fd) as Ho. rewrite decide_True in Ho by done.
  assert (Hc : (close m_fd w1).1 = Ok tt) by (unfold close; by destruct (socks w1 !! m_fd)).
  destruct (close m_fd w1) as [oc w2] eqn:Ec. cbn [fst snd] in *. subst oc.
  destruct o as [[]|e|u|]; [| |done..]; exists w2; by rewrite (bind_ok _ _ _ _ _ (noexcept_ok _ _ _ _ Ec)).
Qed.

End Thread.

(** C29: A connection of the front end does not take the program down by an
    exception, provided the text of the exception that ends it has no hole.
    Whenever serving the application returns or throws, the thread's function
    returns and the application's descriptor is closed. The two other ends of
    serving it are those of the thread: undefined behaviour (which a greeting or a
    request that overflows its buffer causes, see [greeting_overflow] and
    [request_overflow]) and a call that does not return, because it waits or
    because [SIGPIPE] ends the process. *)
Theorem dealConnection_contained {lg : Log.Rlog} junk realloc_ok getaddrinfo ct connfd w :
  (forall e w1, serve junk realloc_ok getaddrinfo ct connfd w = (Throw e, w1) ->
     ~ RString.occurs RString.hole (what e)) ->
  match serve junk realloc_ok getaddrinfo ct connfd w with
  | (Ok _, _) | (Throw _, _) =>
      exists w', dealConnection junk realloc_ok getaddrinfo ct connfd w = (Ok tt, w') /\ opened w' connfd = false
  | (Undefined u, _) => (dealConnection junk realloc_ok getaddrinfo ct connfd w).1 = Undefined u
  | (Blocked, _) => (dealConnection junk realloc_ok getaddrinfo ct connfd w).1 = Blocked
  end.
Proof.
  intros He. destruct (serve junk realloc_ok getaddrinfo ct connfd w) as [[[]|e|u|] w1] eqn:Es.
  - exact (dealConnection_after _ _ _ _ _ _ _ _ (launch_ok _ _ _ _ _ _ _ Es)).
  - pose proof (launch_throws _ _ _ _ _ _ _ _ Es) as El. rewrite Log.rlog_call_plain in El.
    2: { apply RString.no_hole_pre; [apply handler_nobrace|]. apply RString.no_hole_app; [by eapply He|by apply RString.no_hole_nobrace|done]. }
    exact (dealConnection_after _ _ _ _ _ _ _ _ El).
  - by rewrite (dealConnection_after _ _ _ _ _ _ _ _ (launch_undefined _ _ _ _ _ _ _ _ Es)).
  - by rewrite (dealConnection_after _ _ _ _ _ _ _ _ (launch_blocked _ _ _ _ _ _ _ Es)).
Qed.

(** The text of the formatter's exception repeats the message. *)
Lemma what_not_enough fmt n m :
  wf_bytes fmt -> exists suf, what (RString.not_enough fmt n m) =
    bytes_of_string "format_string: not enough arguments for format string `" ++ fmt ++ suf.
Proof.
  intros Hf. eexists. unfold RString.not_enough, what. apply RString.bytes_of_string_of_bytes.
  rewrite !wf_bytes_app. split_and!; try apply bytes_of_string_wf; try apply to_string_wf; done.
Qed.

(** A host name with a hole ends the client: at the level [DEBUG] the log
    call of [dns_pkgs] throws, the text of that exception contains the name, so
    the handler in [launch] throws as well and the exception leaves the thread. *)
Theorem hole_in_name_ends_client {lg : Log.Rlog} junk realloc_ok getaddrinfo ct m_fd w w1 w2 w3 w4 nextHop (a b : bytes) prt :
  Log.DEBUG <= Log.cur_level -> wf_bytes (a ++ RString.hole ++ b) ->
  ~ RString.occurs RString.hole a -> last a <> Some RString.backslash ->
  Z.of_nat (length (a ++ RString.hole ++ b)) + 33 < 2 ^ 32 ->
  handshake_pkgs junk m_fd w = (Ok tt, w1) ->
  connect_pkgs junk m_fd w1 = (Ok (AddrI addr_domain (a ++ RString.hole ++ b) prt), w2) ->
  SnakeConnection junk getaddrinfo ct w2 = (Ok nextHop, w3) ->
  destroy_SnakeConnection ct nextHop w3 = (Ok tt, w4) ->
  exists e w', dealConnection junk realloc_ok getaddrinfo ct m_fd w = (Throw (out_of_range e), w') /\
    opened w' m_fd = false.
Proof.
  intros Hl Hwf Ha Hb Hn H1 H2 H3 H4. set (d := a ++ RString.hole ++ b) in *.
  set (text := print (AddrI addr_domain d prt)).
  assert (Et : text = (bytes_of_string "domain " ++ a) ++ RString.hole ++ b).
  { unfold text, print, d. cbn [type data]. by rewrite <- !app_assoc. }
  assert (Hpa : ~ RString.occurs RString.hole (bytes_of_string "domain " ++ a)) by (by apply RString.no_hole_pre).
  assert (Hpb : last (bytes_of_string "domain " ++ a) <> Some RString.backslash).
  { rewrite last_app. destruct (last a) as [c|] eqn:El; [congruence|done]. }
  set (err := RString.not_enough text 1 0).
  assert (Es : serve junk realloc_ok getaddrinfo ct m_fd w = (Throw err, w4)).
  { unfold serve. rewrite (bind_ok _ _ _ _ _ H1), (bind_ok _ _ _ _ _ H2), (bind_ok _ _ _ _ _ H3). unfold defer.
    assert (Ed : dns_pkgs junk ct nextHop (AddrI addr_domain d prt) w3 = (Throw err, w3)).
    { unfold dns_pkgs. cbn [type]. rewrite bool_decide_true by done. cbn [negb].
      rewrite (bind_ok (lift _) _ w3 (Query (replicate 16 0) prt (Bss true (Z.of_nat (length d) + 33)
        (Some (dns_head ++ d ++ [0]))))) with (w' := w3)
        by (unfold lift, make_dns_query_body; cbn [data port]; by rewrite assemble_dns_query_eq).
      apply bind_throw. unfold lift. fold text. unfold err. rewrite Et. rewrite Log.rlog_call_hole; [done| |done|done].
      unfold Log.FATAL, Log.DEBUG in *. lia. }
    rewrite (bind_throw _ _ _ _ _ Ed). by rewrite (bind_ok _ _ _ _ _ (noexcept_ok _ _ _ _ H4)). }
  pose proof (launch_throws _ _ _ _ _ _ _ _ Es) as El.
  destruct (what_not_enough text 1 0) as [suf Ew].
  { unfold text, print. cbn [type data]. apply wf_bytes_app. split; [apply bytes_of_string_wf|].
    apply wf_bytes_app. split; [|done]. constructor; [unfold is_byte; lia|constructor]. }
  assert (Eh : exists p t, handler_text m_fd err = p ++ RString.hole ++ t /\ ~ RString.occurs RString.hole p /\
                 last p <> Some RString.backslash).
  { exists ((bytes_of_string "Exception caught from child thread: At connection " ++ to_string m_fd ++ [58]) ++
            bytes_of_string "format_string: not enough arguments for format string `" ++ bytes_of_string "domain " ++ a),
      (b ++ suf ++ [46]).
    split; [unfold handler_text, err; rewrite Ew, Et, <- !app_assoc; reflexivity|]. split.
    - apply RString.no_hole_pre; [apply handler_nobrace|]. by apply RString.no_hole_pre.
    - rewrite app_assoc, last_app. destruct (last (bytes_of_string "domain " ++ a)) as [c|] eqn:Elast; [congruence|by apply last_None in Elast]. }
  destruct Eh as (p & t & Eh & Hp & Hbs). rewrite Eh, Log.rlog_call_hole in El;
    [|unfold Log.FATAL, Log.ERROR, Log.DEBUG in *; lia|done|done].
  destruct (dealConnection_after _ _ _ _ _ _ _ _ El) as (w' & Ew' & Ho). eexists _, w'. split; [exact Ew'|exact Ho].
Qed.

(** An application that asks for the host "{}", and a server that accepts. *)
Definition hole_world : world :=
  World (<[4 := Sock ([5; 1; 0] ++ request 1 0 (TName RString.hole) 80) false [] [] [] true]>
           {[ 9 := Sock (frame [1]) false [] [] [] false ]}) [] [].

Lemma hole_in_name_ends_client_witness :
  exists e w', dealConnection (lg := Log.rlog_at Log.DEBUG) (fun _ => 0) (fun _ => true) Sample.gai Sample.ct 4 hole_world
      = (Throw (out_of_range e), w') /\ opened w' 4 = false.
Proof.
  eapply (hole_in_name_ends_client (lg := Log.rlog_at Log.DEBUG) _ _ _ _ 4 hole_world _ _ _ _ _ [] [] 80).
  - reflexivity.
  - apply (bool_decide_unpack _). reflexivity.
  - by apply RString.no_hole_nobrace.
  - done.
  - reflexivity.
  - vm_compute. reflexivity.
  - vm_compute. reflexivity.
  - vm_compute. reflexivity.
  - vm_compute. reflexivity.
Defined.

Lemma dealConnection_contained_witness :
  let w := World {[ 4 := Sock [4; 1; 0] false [] [] [] true ]} [] [] in
  exists e w1 w', serve (lg := Log.rlog_at Log.DEBUG) (fun _ => 0) (fun _ => true) Sample.gai Sample.ct 4 w = (Throw e, w1) /\
    dealConnection (lg := Log.rlog_at Log.DEBUG) (fun _ => 0) (fun _ => true) Sample.gai Sample.ct 4 w = (Ok tt, w') /\
    opened w' 4 = false.
Proof.
  intros w. pose proof (dealConnection_contained (lg := Log.rlog_at Log.DEBUG) (fun _ => 0) (fun _ => true) Sample.gai Sample.ct 4 w) as H.
  destruct (serve (lg := Log.rlog_at Log.DEBUG) (fun _ => 0) (fun _ => true) Sample.gai Sample.ct 4 w) as [[[]|e|u|] w1] eqn:Es;
    [vm_compute in Es; discriminate Es| |vm_compute in Es; discriminate Es..].
  destruct H as (w' & H1 & H2).
  - intros e' w2 [= <- <-]. vm_compute in Es. injection Es as <- _. apply RString.no_hole_nobrace. reflexivity.
  - exists e, w1, w'. split; [reflexivity|]. split; [exact H1|exact H2].
Defined.

End Socks5.
