(* ===== verification/Duplex.v ===== *)
(** * Client and server together (native/src/socks5.cc, tunnel.cc)

    The relay loop of the client ([Socks5.pass_loop]) and that of the server
    ([Tunnel.exchange]) as two processes joined by a connection that delivers
    bytes late and in pieces, while the application and the destination write
    and close whenever they like.  A step of a process is one part of a turn of
    its loop: it waits in [select], or handles one of the two descriptors.  A
    part that would wait for more bytes is not taken before they are there. *)

From S2P Require Import Prelude RString Log ModuleApi SimpleProxy SockIO NetLib Tunnel Socks5.
From stdpp Require Import gmap.
Import ModuleApi SockIO NetLib Tunnel Socks5.

Open Scope Z_scope.

Module Duplex.

(** ** The parts of a turn *)

Section Turn.
Context {lg : Log.Rlog}.
Variable junk : nat -> Z.
Variable realloc_ok : Z -> bool.
Variable getaddrinfo : bytes -> bytes -> bool -> Z + list addrinfo.
Variable resolve : nat -> bytes -> outcome (list ip_address).

(** The two [if]s in the body of the loop of [passData]. *)
Definition pass_first (skserver : outbound_tunnel) (nextHop : connect_info * Z) (templateQueryWithIp : client_query)
    (m_fd : Z) (rset : list Z) : io bool :=
  if decide (m_fd ∈ rset) then on_local_data junk realloc_ok skserver nextHop templateQueryWithIp m_fd else mret true.

Definition pass_second (skserver : outbound_tunnel) (nextHop : connect_info * Z) (m_fd : Z) (rset : list Z) : io bool :=
  if decide (nextHop.2 ∈ rset) then on_server_data junk skserver nextHop m_fd else mret true.

Lemma pass_loop_turn skserver fuel nextHop q0 m_fd :
  pass_loop junk realloc_ok skserver (S fuel) nextHop q0 m_fd =
    (r ← select [m_fd; nextHop.2];
     match r with
     | None => lift (Log.die (bytes_of_string "Select failed"))
     | Some rset =>
         goon ← pass_first skserver nextHop q0 m_fd rset;
         if negb goon then mret tt
         else
           goon ← pass_second skserver nextHop m_fd rset;
           if negb goon then mret tt else pass_loop junk realloc_ok skserver fuel nextHop q0 m_fd
     end).
Proof. reflexivity. Qed.

(** The two [if]s in the body of the loop of [dealConnectionImpl]. *)
Definition exchange_fds (connfd nextHopConn : Z) : list Z :=
  connfd :: if nextHopConn =? -1 then [] else [nextHopConn].

Definition exchange_first (t : inbound_tunnel) (conn : connect_info) (connfd : Z) (rset : list Z) : st (Z * world) unit :=
  if decide (connfd ∈ rset) then on_client_data junk getaddrinfo resolve t conn connfd else mret tt.

Definition exchange_second (t : inbound_tunnel) (conn : connect_info) (connfd : Z) (rset : list Z) : st (Z * world) bool :=
  nextHopConn ← get_local;
  if decide (nextHopConn <> -1 /\ nextHopConn ∈ rset) then on_hop_data junk realloc_ok t conn connfd else mret true.

Lemma exchange_turn fuel t conn connfd lw :
  exchange junk realloc_ok getaddrinfo resolve (S fuel) t conn connfd lw =
    (nextHopConn ← get_local;
     r ← embed (select (exchange_fds connfd nextHopConn));
     match r with
     | None => throw (runtime_error "Select failed")
     | Some rset =>
         _ ← exchange_first t conn connfd rset;
         goon ← exchange_second t conn connfd rset;
         if goon : bool then exchange junk realloc_ok getaddrinfo resolve fuel t conn connfd else mret tt
     end) lw.
Proof. reflexivity. Qed.

End Turn.

(** ** The system *)

(** Where a process is: in [select], before the first or the second handler of
    a turn, or past its loop: the loop was left, an exception was thrown, or
    the behaviour is undefined. *)
Inductive pc := At_select | In_first (rset : list Z) | In_second (rset : list Z) | Returned | Raised | Broken.

Definition ended (p : pc) : bool := match p with Returned | Raised | Broken => true | _ => false end.

(** [up] and [down]: how much of what each side has written to the connection
    has reached the other.  [app_sent] and [dest_sent] record what the
    application and the destination have written. *)
Record system := Sys {
  c_pc : pc;
  c_world : world;
  s_pc : pc;
  s_hop : Z;
  s_world : world;
  up : nat;
  down : nat;
  app_sent : bytes;
  dest_sent : bytes;
}.

Inductive action :=
| App_write (d : bytes) | App_close
| Dest_write (d : bytes) | Dest_close
| Link_up (k : nat) | Link_down (k : nat)
| Up_eof | Down_eof
| Client_select (ready : list Z) | Client_run
| Server_select (ready : list Z) | Server_run.

(** Bytes arrive on a socket; its peer closes. *)
Definition arrive (s : sock) (d : bytes) : sock :=
  Sock (inbuf s ++ d) (at_eof s) (rscript s) (outbuf s) (wscript s) (is_open s).
Definition shut (s : sock) : sock :=
  Sock (inbuf s) true (rscript s) (outbuf s) (wscript s) (is_open s).

Definition at_sock (w : world) (fd : Z) (f : sock -> option sock) : option world :=
  s ← socks w !! fd; s' ← f s; Some (put_sock w fd s').

(** The result of [select] when the descriptors [ready] have something. *)
Definition selected (fds : list Z) (ready : list Z) (w : world) : option pc :=
  match select fds (World (socks w) [Some ready] (pending w)) with
  | (Ok (Some rset), _) => Some (In_first rset)
  | _ => None
  end.

(** Where a part of a turn leads; a part that waits is not taken. *)
Definition settle (o : outcome bool) (next : pc) : option pc :=
  match o with
  | Ok true => Some next
  | Ok false => Some Returned
  | Throw _ => Some Raised
  | Undefined _ => Some Broken
  | Blocked => None
  end.

Section System.
Context {lg : Log.Rlog}.
Context (junkc junks : nat -> Z) (realloc_c realloc_s : Z -> bool).
Context (getaddrinfo : bytes -> bytes -> bool -> Z + list addrinfo).
Context (resolve : nat -> bytes -> outcome (list ip_address)).
Context (ct : outbound_tunnel) (sv : inbound_tunnel) (cc sc : connect_info) (q0 : client_query).
(** The client's sockets to the application and to the server, the server's
    to the client and to the destination. *)
Context (m_fd fd2 connfd hfd : Z).

Definition client_run (p : pc) (w : world) : option (pc * world) :=
  match p with
  | In_first rset =>
      let '(o, w') := pass_first junkc realloc_c ct (cc, fd2) q0 m_fd rset w in
      p' ← settle o (In_second rset); Some (p', w')
  | In_second rset =>
      let '(o, w') := pass_second junkc ct (cc, fd2) m_fd rset w in
      p' ← settle o At_select; Some (p', w')
  | _ => None
  end.

Definition server_run (p : pc) (lw : Z * world) : option (pc * (Z * world)) :=
  match p with
  | In_first rset =>
      let '(o, lw') := (_ ← exchange_first junks getaddrinfo resolve sv sc connfd rset; mret true) lw in
      p' ← settle o (In_second rset); Some (p', lw')
  | In_second rset =>
      let '(o, lw') := exchange_second junks realloc_s sv sc connfd rset lw in
      p' ← settle o At_select; Some (p', lw')
  | _ => None
  end.

Definition act (a : action) (x : system) : option system :=
  let '(Sys cp wC sp hop wS u v asent dsent) := x in
  match a with
  | App_write d =>
      wC' ← at_sock wC m_fd (fun s => if negb (at_eof s) && bool_decide (wf_bytes d) then Some (arrive s d) else None);
      Some (Sys cp wC' sp hop wS u v (asent ++ d) dsent)
  | App_close => wC' ← at_sock wC m_fd (fun s => Some (shut s)); Some (Sys cp wC' sp hop wS u v asent dsent)
  | Dest_write d =>
      if hop =? -1 then None
      else wS' ← at_sock wS hop (fun s => if negb (at_eof s) && bool_decide (wf_bytes d) then Some (arrive s d) else None);
           Some (Sys cp wC sp hop wS' u v asent (dsent ++ d))
  | Dest_close =>
      if hop =? -1 then None
      else wS' ← at_sock wS hop (fun s => Some (shut s)); Some (Sys cp wC sp hop wS' u v asent dsent)
  | Link_up k =>
      s2 ← socks wC !! fd2; let d := take k (drop u (outbuf s2)) in
      wS' ← at_sock wS connfd (fun s => Some (arrive s d)); Some (Sys cp wC sp hop wS' (u + length d) v asent dsent)
  | Link_down k =>
      sC ← socks wS !! connfd; let d := take k (drop v (outbuf sC)) in
      wC' ← at_sock wC fd2 (fun s => Some (arrive s d)); Some (Sys cp wC' sp hop wS u (v + length d) asent dsent)
  | Up_eof =>
      s2 ← socks wC !! fd2;
      if ended cp && (u =? length (outbuf s2))%nat then
        wS' ← at_sock wS connfd (fun s => Some (shut s)); Some (Sys cp wC sp hop wS' u v asent dsent)
      else None
  | Down_eof =>
      sC ← socks wS !! connfd;
      if ended sp && (v =? length (outbuf sC))%nat then
        wC' ← at_sock wC fd2 (fun s => Some (shut s)); Some (Sys cp wC' sp hop wS u v asent dsent)
      else None
  | Client_select ready =>
      match cp with
      | At_select => cp' ← selected [m_fd; fd2] ready wC; Some (Sys cp' wC sp hop wS u v asent dsent)
      | _ => None
      end
  | Client_run =>
      r ← client_run cp wC; let '(cp', wC') := r in Some (Sys cp' wC' sp hop wS u v asent dsent)
  | Server_select ready =>
      match sp with
      | At_select => sp' ← selected (exchange_fds connfd hop) ready wS; Some (Sys cp wC sp' hop wS u v asent dsent)
      | _ => None
      end
  | Server_run =>
      r ← server_run sp (hop, wS); let '(sp', (hop', wS')) := r in Some (Sys cp wC sp' hop' wS' u v asent dsent)
  end.

Fixpoint run (l : list action) (x : system) : option system :=
  match l with
  | [] => Some x
  | a :: l => x' ← act a x; run l x'
  end.

End System.

(** ** One direction of the connection

    [src]: bytes that have arrived on the source's socket and are not read yet;
    [out]: what was written to the connection, of which [n] bytes have been
    delivered; [inb]: delivered and not read yet; [dst]: what was written to the
    target's socket; [total]: all that the source has written. *)
Definition frames (ps : list binary_safe_string) : bytes := concat (map (fun p => frame (bss_bytes p)) ps).

Definition flow (ok : binary_safe_string -> bytes -> Prop) (src out : bytes) (n : nat) (inb dst total : bytes) : Prop :=
  exists ps ds, Forall2 ok ps ds /\ (n <= length out)%nat /\ inb ++ drop n out = frames ps /\
    total = dst ++ concat ds ++ src.

Section Flow.
Context (ok : binary_safe_string -> bytes -> Prop).

Lemma flow_write src out n inb dst total d :
  flow ok src out n inb dst total -> flow ok (src ++ d) out n inb dst (total ++ d).
Proof. intros (ps & ds & ? & ? & ? & ->). exists ps, ds. split_and!; [done..|]. by rewrite <- !app_assoc. Qed.

Lemma flow_send src out n inb dst total (k : nat) p :
  ok p (take k src) -> flow ok src out n inb dst total ->
  flow ok (drop k src) (out ++ frame (bss_bytes p)) n inb dst total.
Proof.
  intros Hp (ps & ds & Hf & Hn & Hi & ->). exists (ps ++ [p]), (ds ++ [take k src]).
  split; [by apply Forall2_app; [|constructor]|]. split; [len|]. split.
  - unfold frames in *. rewrite drop_app_le, map_app, concat_app, app_assoc, Hi by done. cbn [map concat].
    by rewrite app_nil_r.
  - rewrite concat_app. cbn [concat]. rewrite app_nil_r, <- !app_assoc. by rewrite take_drop.
Qed.

Lemma flow_move src out n inb dst total (k : nat) :
  flow ok src out n inb dst total ->
  let d := take k (drop n out) in flow ok src out (n + length d) (inb ++ d) dst total.
Proof.
  intros (ps & ds & Hf & Hn & Hi & ->) d. exists ps, ds. split; [done|]. unfold d. split; [len|]. split; [|done].
  rewrite <- Hi, <- app_assoc. f_equal. rewrite <- drop_drop. set (l := drop n out).
  rewrite length_take. destruct (decide (k <= length l)%nat).
  - replace (k `min` length l)%nat with k by lia. apply take_drop.
  - rewrite (take_ge l), drop_ge by lia. apply app_nil_r.
Qed.

(** What the reader finds: nothing on its way, the first packet in part, or
    the first packet complete. *)
Lemma flow_head src out n inb dst total :
  flow ok src out n inb dst total ->
  (inb = [] /\ drop n out = [] /\ total = dst ++ src) \/
  exists p d, ok p d /\
    (((length inb < length (frame (bss_bytes p)))%nat /\ exists rest, inb ++ drop n out = frame (bss_bytes p) ++ rest) \/
     exists rest, inb = frame (bss_bytes p) ++ rest /\ flow ok src out n rest (dst ++ d) total).
Proof.
  intros (ps & ds & Hf & Hn & Hi & ->). destruct Hf as [|p d ps ds Hp Hf].
  - left. cbn in Hi. apply app_eq_nil in Hi as [-> ->]. done.
  - right. exists p, d. split; [done|]. unfold frames in Hi. cbn [map concat] in Hi.
    destruct (decide (length inb < length (frame (bss_bytes p)))%nat) as [Hl|Hl]; [left; split; [done|]; eauto|right].
    set (f := frame (bss_bytes p)) in *. exists (drop (length f) inb).
    assert (Ei : inb = f ++ drop (length f) inb).
    { rewrite <- (take_drop (length f) inb) at 1. f_equal. apply (f_equal (take (length f))) in Hi.
      by rewrite take_app_le, take_app_length in Hi by lia. }
    split; [done|]. exists ps, ds. split; [done|]. split; [done|]. split.
    + apply (f_equal (drop (length f))) in Hi. by rewrite drop_app_le, drop_app_length in Hi by lia.
    + cbn [concat]. by rewrite <- !app_assoc.
Qed.

(** What has been written to the target is a prefix of what the source has
    written; the rest is on its way, and nothing else. *)
Lemma flow_prefix src out n inb dst total : flow ok src out n inb dst total -> dst `prefix_of` total.
Proof. intros (ps & ds & _ & _ & _ & ->). by eexists. Qed.

(** With everything delivered only complete packets are found. *)
Lemma flow_complete src out inb dst total :
  flow ok src out (length out) inb dst total ->
  (inb = [] /\ total = dst ++ src) \/
  exists p d rest, ok p d /\ inb = frame (bss_bytes p) ++ rest /\ flow ok src out (length out) rest (dst ++ d) total.
Proof.
  intros H. destruct (flow_head _ _ _ _ _ _ H) as [(-> & _ & ->)|(p & d & Hp & [(Hl & rest & Hi)|(rest & Hi & Hf)])];
    [by left| |right; by eauto 6].
  exfalso. rewrite drop_ge, app_nil_r in Hi by lia. rewrite Hi in Hl. len.
Qed.

Lemma flow_drained src out n dst total :
  flow ok src out n [] dst total -> n = length out -> total = dst ++ src.
Proof.
  intros H ->. destruct (flow_complete _ _ _ _ _ H) as [[_ ->]|(p & d & rest & _ & Hi & _)]; [done|].
  by destruct (frame (bss_bytes p)) eqn:E.
Qed.
End Flow.

(** The sockets of one direction: that of the source, the two ends of the
    connection and that of the target.  The end of the stream is reported only
    when the process [p] that feeds the connection is past its loop and all has
    been delivered. *)
Definition dir (ok : binary_safe_string -> bytes -> Prop) (p : pc) (src out inn dst : sock) (n : nat) (total : bytes) : Prop :=
  flow ok (inbuf src) (outbuf out) n (inbuf inn) (outbuf dst) total /\
  (at_eof inn = true -> ended p = true /\ n = length (outbuf out)) /\
  steady (rscript src) /\ wf_bytes (inbuf src).

Section Dir.
Context (ok : binary_safe_string -> bytes -> Prop) (p : pc) (src out inn dst : sock) (n : nat) (total : bytes).
Context (H : dir ok p src out inn dst n total).

Lemma dir_write d : wf_bytes d -> dir ok p (arrive src d) out inn dst n (total ++ d).
Proof.
  destruct H as (Hf & He & Hs & Hw). intros Hd. split; [by apply flow_write|]. split; [done|]. split; [done|].
  by apply wf_bytes_app.
Qed.

Lemma dir_move (k : nat) :
  let d := take k (drop n (outbuf out)) in
  dir ok p src out (arrive inn d) dst (n + length d) total /\ (at_eof inn = true -> arrive inn d = inn).
Proof.
  destruct H as (Hf & He & Hs). intros d.
  assert (Hd : at_eof inn = true -> d = []) by (intros E; unfold d; by rewrite drop_ge, take_nil by (apply He in E; lia)).
  split; [split; [by apply flow_move|split; [|done]]|].
  - intros E. rewrite (Hd E), Nat.add_0_r. by apply He.
  - intros E. rewrite (Hd E). unfold arrive. rewrite app_nil_r. by destruct inn.
Qed.

Lemma dir_eof : ended p = true -> n = length (outbuf out) -> dir ok p src out (shut inn) dst n total.
Proof. intros Hp Hn. destruct H as (Hf & _ & Hs). done. Qed.

Lemma dir_pc p' : ended p = false \/ ended p' = true -> dir ok p' src out inn dst n total.
Proof. intros Hp. destruct H as (Hf & He & Hs). split; [done|]. split; [|done]. intros E. apply He in E as []. split; [|done]. by destruct Hp; [congruence|]. Qed.

(** The feeding process turns a piece of the source's bytes into a packet. *)
Lemma dir_send (k : nat) pk rs ws :
  ended p = false -> steady rs -> ok pk (take k (inbuf src)) ->
  dir ok p (after_recv src k rs) (after_send out (frame (bss_bytes pk)) ws) inn dst n total.
Proof.
  intros Hp Hr Hk. destruct H as (Hf & He & _ & Hw). split; [by apply flow_send|]. split.
  - intros E. apply He in E as []. congruence.
  - split; [done|]. cbn. auto with bytes.
Qed.

(** The other process takes a packet and writes its contents to the target. *)
Lemma dir_recv pk d rest rs ws :
  inbuf inn = frame (bss_bytes pk) ++ rest -> flow ok (inbuf src) (outbuf out) n rest (outbuf dst ++ d) total ->
  dir ok p src out (after_recv inn (length (frame (bss_bytes pk))) rs) (after_send dst d ws) n total.
Proof.
  intros Hi Hf. destruct H as (_ & He & Hs). split; [|done]. cbn [after_recv after_send inbuf outbuf].
  by rewrite Hi, drop_app_length.
Qed.

(** What the other process finds. *)
Lemma dir_head :
  inbuf inn = [] \/
  exists pk d, ok pk d /\
    ((at_eof inn = false /\ (length (inbuf inn) < length (frame (bss_bytes pk)))%nat /\
        exists more rest, inbuf inn ++ more = frame (bss_bytes pk) ++ rest) \/
     exists rest, inbuf inn = frame (bss_bytes pk) ++ rest /\
       flow ok (inbuf src) (outbuf out) n rest (outbuf dst ++ d) total).
Proof.
  destruct H as (Hf & He & _). destruct (flow_head _ _ _ _ _ _ _ Hf) as [(-> & _)|(pk & d & Hk & Hc)]; [by left|right].
  exists pk, d. split; [done|]. destruct Hc as [(Hl & rest & Hi)|Hc]; [left|by right].
  split; [|eauto]. destruct (at_eof inn); [|done]. destruct He as [_ Hn]; [done|].
  rewrite (drop_ge (outbuf out)), app_nil_r in Hi by lia. rewrite Hi in Hl. len.
Qed.
End Dir.

(** How a process can end: its local peer has closed and has been read to the
    end, or it has met the end of the connection, after the other process has
    left its loop. *)
Definition end_ok (p peer : pc) (local link : sock) : Prop :=
  match p with
  | Returned => inbuf local = [] /\ at_eof local = true
  | Raised => peer = Returned /\ inbuf link = [] /\ at_eof link = true
  | Broken => False
  | _ => True
  end.

Lemma end_ok_peer p peer peer' local link :
  end_ok p peer local link -> ended peer = false -> end_ok p peer' local link.
Proof. intros H Hp. destruct p; try done. destruct H as (-> & _). done. Qed.

Lemma live_arrive w fd s d : live w fd s -> live (put_sock w fd (arrive s d)) fd (arrive s d).
Proof. intros (_ & H). split; [apply lookup_put|done]. Qed.

Lemma live_shut w fd s : live w fd s -> live (put_sock w fd (shut s)) fd (shut s).
Proof. intros (_ & H). split; [apply lookup_put|done]. Qed.

Lemma at_sock_some w fd s f w' :
  socks w !! fd = Some s -> at_sock w fd f = Some w' -> exists s', f s = Some s' /\ w' = put_sock w fd s'.
Proof.
  unfold at_sock. intros ->. cbn. destruct (f s) as [s'|]; [|done]. intros [= <-]. eauto.
Qed.

#[local] Hint Resolve live_arrive live_shut steady_quiet : sockio.

(** ** The handlers *)

Section Joint.
Context {lg : Log.Rlog}.
Context (m : module_fns) (fresh paired : connect_info -> connect_info -> Prop) `{!ModuleLaws m fresh paired}.
Context (junkc junks : nat -> Z) (realloc_c realloc_s : Z -> bool).
Context (getaddrinfo : bytes -> bytes -> bool -> Z + list addrinfo).
Context (resolve : nat -> bytes -> outcome (list ip_address)).
Context (ct : outbound_tunnel) (Hct : ot_mod ct = m) (sv : inbound_tunnel) (Hsv : in_mod sv = m).
Context (cc sc : connect_info) (Hpair : paired cc sc).
Context (q0 : client_query) (Hq0 : template_ok q0) (Hport : 0 <= bindPort sv < 2 ^ 16).
Context (m_fd fd2 connfd hfd : Z) (Hc : m_fd <> fd2) (Hs : hfd <> connfd) (Hh : hfd <> -1).
(** The address that was asked for leads to the descriptor [hfd]. *)
Context (Hgai : getaddrinfo (ip_array_to_str (destination_ip q0)) (to_string (destination_port q0)) false
                  = inr [AddrInfo hfd true true true]).

(** A packet of the client that carries the bytes [d] to the destination. *)
Definition carries (p : binary_safe_string) (d : bytes) : Prop :=
  exists q, carried q /\ f_client_encode m cc q = Ok p /\
    destination_ip q = destination_ip q0 /\ destination_port q = destination_port q0 /\ bss_bytes (payload q) = d.

Lemma carries_size p d : carries p d -> Z.of_nat (length (bss_bytes p)) <= max_packet.
Proof.
  intros (q & (Hq & _ & Hn) & Hp & _). destruct (client_to_server cc sc q Hpair Hq) as (p' & E1 & Hp' & Lp & _).
  { unfold max_packet in Hn. lia. }
  rewrite Hp in E1. injection E1 as <-. rewrite (bss_bytes_length _ Hp'). lia.
Qed.

(** The application's data. *)
Lemma local_part w s s2 :
  live w m_fd s -> live w fd2 s2 -> steady (rscript s) -> wf_bytes (inbuf s) ->
  let r := on_local_data junkc realloc_c ct (cc, fd2) q0 m_fd w in
  (at_eof s = false /\ exists w', r = (Blocked, w')) \/
  (r = (Ok false, w) /\ inbuf s = [] /\ at_eof s = true) \/
  exists (n : nat) p rs ws, (1 <= n <= length (inbuf s))%nat /\ steady rs /\ quiet ws /\ carries p (take n (inbuf s)) /\
    r = (Ok true, put_sock (put_sock w m_fd (after_recv s n rs)) fd2 (after_send s2 (frame (bss_bytes p)) ws)).
Proof.
  intros Hl Hl2 Hst Hw r. destruct (decide (inbuf s = [])) as [Hi|Hi].
  - destruct (recvall_piece junkc realloc_c w m_fd s Hl Hst) as [Hemp _]. destruct (Hemp Hi) as (b & E).
    unfold r, on_local_data. destruct (at_eof s) eqn:He.
    + right. left. by rewrite (bind_ok (readall _ _ _ _ _) _ _ _ _ E).
    + left. split; [done|]. exists w. by rewrite (bind_blocked (readall _ _ _ _ _) _ _ _ E).
  - destruct (local_piece_sent m fresh paired junkc realloc_c ct Hct cc sc Hpair fd2 q0 m_fd w s s2 Hq0 Hl Hl2 Hc Hst Hw Hi)
      as [[He H]|(n & q & p & rs & ws & Hn & Hrs & Hws & Hq & Hip & Hprt & Hpay & Hp & E)]; [by left|].
    right. right. exists n, p, rs, ws. split; [done|]. split; [done|]. split; [done|]. split; [exists q; done|done].
Qed.

(** A packet from the server, on a connection in the state [dir] describes. *)
Lemma server_part w s s2 src out p n total :
  live w m_fd s -> live w fd2 s2 -> dir (decodes_to m cc) p src out s2 s n total ->
  let r := on_server_data junkc ct (cc, fd2) m_fd w in
  (exists w', r = (Blocked, w')) \/
  (exists e rs, quiet rs /\ r = (Throw e, put_sock w fd2 (after_recv s2 0 rs)) /\ inbuf s2 = [] /\ at_eof s2 = true) \/
  exists pk d rs ws rest, quiet rs /\ quiet ws /\ inbuf s2 = frame (bss_bytes pk) ++ rest /\
    flow (decodes_to m cc) (inbuf src) (outbuf out) n rest (outbuf s ++ d) total /\
    r = (Ok true, put_sock (put_sock w fd2 (after_recv s2 (length (frame (bss_bytes pk))) rs)) m_fd (after_send s d ws)).
Proof.
  intros Hl Hl2 Hd r. unfold r, on_server_data, sc_recvn. cbn [snd].
  destruct (dir_head _ _ _ _ _ _ _ _ Hd) as [Hi|(pk & d & Hk & [(He & Hlt & more & rest & Hi)|(rest & Hi & Hf)])].
  - destruct (recvn_ex_short w fd2 s2 (malloc junkc 4) 0 4 Hl2) as (rs & Hrs & E); [lia|by rewrite Hi|done|].
    rewrite Hi in E. destruct (at_eof s2); [right; left; eexists _, rs|left; eexists; by apply bind_blocked].
    split; [done|]. split; [by apply bind_throw|done].
  - left. pose proof Hk as ((Hok & Hn) & _). pose proof (bss_bytes_length _ Hok) as Lb.
    destruct (frame_short junkc w fd2 s2 (bss_bytes pk) more rest) as [[w' E]|(w1 & w' & E & E')];
      [done|done|done|lia|done|exists w'; by apply bind_blocked|].
    exists w'. rewrite (bind_ok _ _ _ _ _ E), ntohl_frame by (unfold max_packet in Hn; lia).
    destruct (Z.eqb_spec (Z.of_nat (length (bss_bytes pk))) 0); [lia|]. rewrite Nat2Z.id.
    apply bind_blocked. unfold recvn_and_free_on_err. by apply bind_blocked.
  - right. right. destruct (server_packet_delivered m junkc ct Hct cc fd2 pk d m_fd w s s2 rest Hk Hl Hl2 Hc Hi)
      as (rs & ws & Hrs & Hws & E & _). exists pk, d, rs, ws, rest. done.
Qed.

(** The next hop as the server has it: connected or not yet. *)
Definition hop_ready (hop : Z) (sh : sock) : Prop := (hop = hfd /\ is_open sh = true) \/ hop = -1.

(** A packet of the client is taken. *)
Lemma client_taken hop w sC sh pk d rest :
  live w connfd sC -> socks w !! hfd = Some sh -> quiet (rscript sh) -> quiet (wscript sh) -> hop_ready hop sh ->
  carries pk d -> inbuf sC = frame (bss_bytes pk) ++ rest ->
  exists rs ws, quiet rs /\ quiet ws /\
    on_client_data junks getaddrinfo resolve sv sc connfd (hop, w) =
      (Ok tt, (hfd, put_sock (put_sock w connfd (after_recv sC (length (frame (bss_bytes pk))) rs)) hfd
                      (after_send (set_open sh true) d ws))).
Proof.
  intros Hl Hsh Hr Hw Hop (q & Hq & Hp & Hip & Hprt & <-) Hi. destruct Hop as [[-> Ho]| ->].
  - replace (set_open sh true) with sh by (unfold set_open; rewrite <- Ho; by destruct sh).
    destruct (client_data_forwarded m fresh paired junks getaddrinfo resolve sv Hsv cc sc Hpair q pk w connfd sC hfd sh rest)
      as (rs & ws & Hrs & Hws & E & _); [done..|]. exists rs, ws. done.
  - destruct (client_data_first m fresh paired junks getaddrinfo resolve sv Hsv cc sc Hpair q pk w connfd sC hfd sh rest)
      as (rs & ws & Hrs & Hws & E & _); [done|done|done|done|by rewrite Hip, Hprt|done..|]. exists rs, ws. done.
Qed.

(** A packet from the client. *)
Lemma client_part hop w sC sh src out p n total :
  live w connfd sC -> socks w !! hfd = Some sh -> quiet (rscript sh) -> quiet (wscript sh) -> hop_ready hop sh ->
  dir carries p src out sC sh n total ->
  let r := on_client_data junks getaddrinfo resolve sv sc connfd (hop, w) in
  (exists lw, r = (Blocked, lw)) \/
  (exists e rs, quiet rs /\ r = (Throw e, (hop, put_sock w connfd (after_recv sC 0 rs))) /\ inbuf sC = [] /\ at_eof sC = true) \/
  exists pk d rs ws rest, quiet rs /\ quiet ws /\ inbuf sC = frame (bss_bytes pk) ++ rest /\
    flow carries (inbuf src) (outbuf out) n rest (outbuf sh ++ d) total /\
    r = (Ok tt, (hfd, put_sock (put_sock w connfd (after_recv sC (length (frame (bss_bytes pk))) rs)) hfd
                        (after_send (set_open sh true) d ws))).
Proof.
  intros Hl Hsh Hr Hw Hop Hd r. unfold r, on_client_data.
  destruct (dir_head _ _ _ _ _ _ _ _ Hd) as [Hi|(pk & d & Hk & [(He & Hlt & more & rest & Hi)|(rest & Hi & Hf)])].
  - destruct (recvn_ex_short w connfd sC (malloc junks 4) 0 4 Hl) as (rs & Hrs & E); [lia|by rewrite Hi|done|].
    rewrite Hi in E. set (w' := put_sock w connfd _) in E.
    assert (E' : recv_length_and_packet junks connfd w =
              ((if at_eof sC then Throw (runtime_error "recvn failed.") else Blocked), w'))
      by (unfold recv_length_and_packet; destruct (at_eof sC); [by apply bind_throw|by apply bind_blocked]).
    destruct (at_eof sC); [right; left; eexists _, rs|left; eexists].
    + split; [done|]. split; [|done]. apply bind_throw. unfold embed. cbn [fst snd]. by rewrite E'.
    + apply bind_blocked. unfold embed. cbn [fst snd]. by rewrite E'.
  - left. destruct (recv_frame_short junks w connfd sC (bss_bytes pk) more rest) as [w' E];
      [done|done|done|by eapply carries_size|done|].
    eexists. apply bind_blocked. unfold embed. cbn [fst snd]. by rewrite E.
  - right. right. destruct (client_taken hop w sC sh pk d rest Hl Hsh Hr Hw Hop Hk Hi) as (rs & ws & Hrs & Hws & E).
    exists pk, d, rs, ws, rest. done.
Qed.

(** Data from the destination. *)
Lemma hop_part w sC sh :
  live w connfd sC -> live w hfd sh -> steady (rscript sh) -> wf_bytes (inbuf sh) ->
  let r := on_hop_data junks realloc_s sv sc connfd (hfd, w) in
  (exists lw, r = (Blocked, lw)) \/
  (r = (Ok false, (hfd, w)) /\ inbuf sh = [] /\ at_eof sh = true) \/
  exists (n : nat) p rs ws, steady rs /\ quiet ws /\ decodes_to m cc p (take n (inbuf sh)) /\
    r = (Ok true, (hfd, put_sock (put_sock w hfd (after_recv sh n rs)) connfd (after_send sC (frame (bss_bytes p)) ws))).
Proof.
  intros Hl Hl2 Hst Hw r. destruct (decide (inbuf sh = [])) as [Hi|Hi].
  - destruct (quick_recvall_piece junks realloc_s w hfd sh Hl2 Hst) as [Hemp _]. specialize (Hemp Hi).
    unfold r, on_hop_data. rewrite (bind_ok get_local _ _ hfd (hfd, w)) by done. destruct (at_eof sh) eqn:He.
    + right. left. by rewrite (bind_ok _ _ _ _ _ (embed_ok _ hfd _ _ _ Hemp)).
    + left. eexists. apply bind_blocked. unfold embed. cbn [fst snd]. by rewrite Hemp.
  - destruct (hop_piece_sent m fresh paired junks realloc_s sv Hsv cc sc Hpair connfd hfd w sC sh Hl Hl2 Hs Hst Hw Hport Hi)
      as [[_ H]|(n & p & q' & rs & ws & _ & Hrs & Hws & E & Hp & Hd & Hq' & Hpay)]; [by left|].
    right. right. exists n, p, rs, ws. split; [done|]. split; [done|]. split; [split; eauto|done].
Qed.

(** ** The invariant *)

Section Invariant.
(** What had been written to the destination and to the application before. *)
Context (o_dest o_app : bytes).

Record inv (x : system) (s s2 sC sh : sock) : Prop := Inv {
  i_app : live (c_world x) m_fd s;
  i_link : live (c_world x) fd2 s2;
  i_conn : live (s_world x) connfd sC;
  i_dest : socks (s_world x) !! hfd = Some sh;
  i_quiet : quiet (wscript sh);
  i_hop : hop_ready (s_hop x) sh;
  i_up : dir carries (c_pc x) s s2 sC sh (up x) (o_dest ++ app_sent x);
  i_down : dir (decodes_to m cc) (s_pc x) sh sC s2 s (down x) (o_app ++ dest_sent x);
  i_cend : end_ok (c_pc x) (s_pc x) s s2;
  i_send : end_ok (s_pc x) (c_pc x) sh sC;
}.

Abbreviation act' := (act junkc junks realloc_c realloc_s getaddrinfo resolve ct sv cc sc q0 m_fd fd2 connfd).

Lemma inv_app_write x x' d s s2 sC sh :
  inv x s s2 sC sh -> act' (App_write d) x = Some x' -> inv x' (arrive s d) s2 sC sh.
Proof.
  intros [A L C D Q H U V EC ES] Hx. destruct x as [cp wC sp hop wS u v asent dsent]. cbn in *.
  destruct (at_sock wC m_fd _) as [wC'|] eqn:Ea; [|done]. injection Hx as <-.
  apply (at_sock_some _ _ s) in Ea as (s' & Hs' & ->); [|apply A].
  destruct (at_eof s) eqn:He; [done|]. case_bool_decide as Hd; [|done]. injection Hs' as <-.
  split; cbn; try done; eauto with sockio.
  - rewrite app_assoc. by apply dir_write.
  - destruct cp; try done. destruct EC. congruence.
Qed.

Lemma inv_app_close x x' s s2 sC sh :
  inv x s s2 sC sh -> act' App_close x = Some x' -> inv x' (shut s) s2 sC sh.
Proof.
  intros [A L C D Q H U V EC ES] Hx. destruct x as [cp wC sp hop wS u v asent dsent]. cbn in *.
  destruct (at_sock wC m_fd _) as [wC'|] eqn:Ea; [|done]. injection Hx as <-.
  apply (at_sock_some _ _ s) in Ea as (s' & [= <-] & ->); [|apply A].
  split; cbn; try done; eauto with sockio.
  destruct cp; try done. by destruct EC.
Qed.

Lemma hop_live x s s2 sC sh : inv x s s2 sC sh -> s_hop x <> -1 -> s_hop x = hfd /\ live (s_world x) hfd sh.
Proof.
  intros [A L C D Q [[-> Ho]|H] U V EC ES] Hn; [|done]. split; [done|]. destruct V as (_ & _ & Hr & _).
  split; [done|]. eauto with sockio.
Qed.

Lemma inv_dest_write x x' d s s2 sC sh :
  inv x s s2 sC sh -> act' (Dest_write d) x = Some x' -> inv x' s s2 sC (arrive sh d).
Proof.
  intros I Hx. pose proof (hop_live _ _ _ _ _ I) as Hl. destruct I as [A L C D Q H U V EC ES].
  destruct x as [cp wC sp hop wS u v asent dsent]. cbn in *.
  destruct (Z.eqb_spec hop (-1)) as [|Hn]; [done|]. destruct (Hl Hn) as [-> Hlive].
  destruct (at_sock wS hfd _) as [wS'|] eqn:Ea; [|done]. injection Hx as <-.
  apply (at_sock_some _ _ sh) in Ea as (s' & Hs' & ->); [|done].
  destruct (at_eof sh) eqn:He; [done|]. case_bool_decide as Hd; [|done]. injection Hs' as <-.
  split; cbn; try done; eauto with sockio.
  - apply lookup_insert_eq.
  - rewrite app_assoc. by apply dir_write.
  - destruct sp; try done. destruct ES. congruence.
Qed.

Lemma inv_dest_close x x' s s2 sC sh :
  inv x s s2 sC sh -> act' Dest_close x = Some x' -> inv x' s s2 sC (shut sh).
Proof.
  intros I Hx. pose proof (hop_live _ _ _ _ _ I) as Hl. destruct I as [A L C D Q H U V EC ES].
  destruct x as [cp wC sp hop wS u v asent dsent]. cbn in *.
  destruct (Z.eqb_spec hop (-1)) as [|Hn]; [done|]. destruct (Hl Hn) as [-> Hlive].
  destruct (at_sock wS hfd _) as [wS'|] eqn:Ea; [|done]. injection Hx as <-.
  apply (at_sock_some _ _ sh) in Ea as (s' & [= <-] & ->); [|done].
  split; cbn; try done; eauto with sockio.
  - apply lookup_insert_eq.
  - destruct sp; try done. by destruct ES.
Qed.

Lemma inv_link_up x x' k s s2 sC sh :
  inv x s s2 sC sh -> act' (Link_up k) x = Some x' -> exists sC', inv x' s s2 sC' sh.
Proof.
  intros [A L C D Q H U V EC ES] Hx. destruct x as [cp wC sp hop wS u v asent dsent]. cbn in *.
  rewrite (live_lookup _ _ _ L) in Hx. cbn in Hx.
  destruct (at_sock wS connfd _) as [wS'|] eqn:Ea; [|done]. injection Hx as <-.
  apply (at_sock_some _ _ sC) in Ea as (s' & [= <-] & ->); [|apply C].
  destruct (dir_move _ _ _ _ _ _ _ _ U k) as [U' Hsame]. set (d := take k _) in *.
  exists (arrive sC d). split; cbn; try done; eauto with sockio.
  - by rewrite lookup_insert_ne.
  - destruct sp; try done. destruct ES as (? & ? & He). by rewrite (Hsame He).
Qed.

Lemma inv_link_down x x' k s s2 sC sh :
  inv x s s2 sC sh -> act' (Link_down k) x = Some x' -> exists s2', inv x' s s2' sC sh.
Proof.
  intros [A L C D Q H U V EC ES] Hx. destruct x as [cp wC sp hop wS u v asent dsent]. cbn in *.
  rewrite (live_lookup _ _ _ C) in Hx. cbn in Hx.
  destruct (at_sock wC fd2 _) as [wC'|] eqn:Ea; [|done]. injection Hx as <-.
  apply (at_sock_some _ _ s2) in Ea as (s' & [= <-] & ->); [|apply L].
  destruct (dir_move _ _ _ _ _ _ _ _ V k) as [V' Hsame]. set (d := take k _) in *.
  exists (arrive s2 d). split; cbn; try done; eauto with sockio.
  destruct cp; try done. destruct EC as (? & ? & He). by rewrite (Hsame He).
Qed.

Lemma inv_eofs x x' s s2 sC sh :
  inv x s s2 sC sh ->
  (act' Up_eof x = Some x' -> inv x' s s2 (shut sC) sh) /\ (act' Down_eof x = Some x' -> inv x' s (shut s2) sC sh).
Proof.
  intros [A L C D Q H U V EC ES]. destruct x as [cp wC sp hop wS u v asent dsent]. cbn in *.
  rewrite (live_lookup _ _ _ L), (live_lookup _ _ _ C). cbn. split; intros Hx.
  - destruct (ended cp && _) eqn:Hg; [|done]. apply andb_prop in Hg as [He Hn%Nat.eqb_eq].
    destruct (at_sock wS connfd _) as [wS'|] eqn:Ea; [|done]. injection Hx as <-.
    apply (at_sock_some _ _ sC) in Ea as (s' & [= <-] & ->); [|apply C].
    split; cbn; try done; eauto with sockio.
    + by rewrite lookup_insert_ne.
    + by apply dir_eof.
    + destruct sp; try done. by destruct ES as (? & ? & _).
  - destruct (ended sp && _) eqn:Hg; [|done]. apply andb_prop in Hg as [He Hn%Nat.eqb_eq].
    destruct (at_sock wC fd2 _) as [wC'|] eqn:Ea; [|done]. injection Hx as <-.
    apply (at_sock_some _ _ s2) in Ea as (s' & [= <-] & ->); [|apply L].
    split; cbn; try done; eauto with sockio.
    + by apply dir_eof.
    + destruct cp; try done. by destruct EC as (? & ? & _).
Qed.

(** A process that is not past its loop goes on. *)
Lemma inv_client_goes cp cp' wC sp hop wS u v asent dsent s s2 sC sh :
  inv (Sys cp wC sp hop wS u v asent dsent) s s2 sC sh -> ended cp = false -> end_ok cp' sp s s2 ->
  inv (Sys cp' wC sp hop wS u v asent dsent) s s2 sC sh.
Proof.
  intros [A L C D Q H U V EC ES] He Hok. split; cbn in *; try done.
  - apply (dir_pc _ _ _ _ _ _ _ _ U). by left.
  - by apply (end_ok_peer _ _ _ _ _ ES).
Qed.

Lemma inv_server_goes cp wC sp sp' hop wS u v asent dsent s s2 sC sh :
  inv (Sys cp wC sp hop wS u v asent dsent) s s2 sC sh -> ended sp = false -> end_ok sp' cp sh sC ->
  inv (Sys cp wC sp' hop wS u v asent dsent) s s2 sC sh.
Proof.
  intros [A L C D Q H U V EC ES] He Hok. split; cbn in *; try done.
  - apply (dir_pc _ _ _ _ _ _ _ _ V). by left.
  - by apply (end_ok_peer _ _ _ _ _ EC).
Qed.

(** A process that meets the end of the connection: the other one is past its
    loop, and left it normally. *)
Lemma eof_peer ok p peer src out inn dst n total local link :
  dir ok peer src out inn dst n total -> end_ok peer p local link -> ended p = false -> at_eof inn = true ->
  peer = Returned.
Proof. intros (_ & He & _) Hok Hp Hi. apply He in Hi as [Hi _]. destruct peer; try done. destruct Hok as (-> & _). done. Qed.

Lemma inv_client_first rset wC wC' cp' sp hop wS u v asent dsent s s2 sC sh :
  inv (Sys (In_first rset) wC sp hop wS u v asent dsent) s s2 sC sh ->
  client_run junkc realloc_c ct cc q0 m_fd fd2 (In_first rset) wC = Some (cp', wC') ->
  exists s' s2', inv (Sys cp' wC' sp hop wS u v asent dsent) s' s2' sC sh.
Proof.
  intros I. cbn [client_run]. unfold pass_first. destruct (decide (m_fd ∈ rset)) as [_|_].
  2: { intros [= <- <-]. exists s, s2. by eapply inv_client_goes. }
  pose proof I as [A L C D Q H U V EC ES]. cbn in A, L, C, D, U, V, EC, ES.
  destruct (local_part wC s s2 A L) as [(_ & w' & ->)|[(-> & Hi & He)|(n & pk & rs & ws & _ & Hrs & Hws & Hk & ->)]];
    [apply U..|done| |]; cbn; intros [= <- <-].
  - exists s, s2. by eapply inv_client_goes.
  - exists (after_recv s n rs), (after_send s2 (frame (bss_bytes pk)) ws).
    apply (inv_client_goes (In_first rset)); [|done|done]. split; cbn; try done.
    + apply live_other; [done|]. eauto with sockio.
    + apply live_after_send; [|done]. by apply live_other.
    + by apply dir_send.
Qed.

Lemma inv_client_second rset wC wC' cp' sp hop wS u v asent dsent s s2 sC sh :
  inv (Sys (In_second rset) wC sp hop wS u v asent dsent) s s2 sC sh ->
  client_run junkc realloc_c ct cc q0 m_fd fd2 (In_second rset) wC = Some (cp', wC') ->
  exists s' s2', inv (Sys cp' wC' sp hop wS u v asent dsent) s' s2' sC sh.
Proof.
  intros I. cbn [client_run]. unfold pass_second. cbn [snd]. destruct (decide (fd2 ∈ rset)) as [_|_].
  2: { intros [= <- <-]. exists s, s2. by eapply inv_client_goes. }
  pose proof I as [A L C D Q H U V EC ES]. cbn in A, L, C, D, U, V, EC, ES.
  destruct (server_part wC s s2 sh sC sp v (o_app ++ dsent) A L V)
    as [(w' & ->)|[(e & rs & Hrs & -> & Hi & He)|(pk & d & rs & ws & rest & Hrs & Hws & Hi & Hf & ->)]];
    [done| |]; cbn; intros [= <- <-].
  - exists s, (after_recv s2 0 rs). apply (inv_client_goes (In_second rset)); [split; cbn|done|]; try done.
    + by apply live_other.
    + by apply live_after_recv.
    + split; [|done]. by eapply eof_peer.
  - exists (after_send s d ws), (after_recv s2 (length (frame (bss_bytes pk))) rs).
    apply (inv_client_goes (In_second rset)); [|done|done]. split; cbn; try done.
    + apply live_after_send; [|done]. by apply live_other.
    + apply live_other; [done|]. by apply live_after_recv.
    + by eapply dir_recv.
Qed.

Lemma inv_server_first rset cp wC sp' hop hop' wS wS' u v asent dsent s s2 sC sh :
  inv (Sys cp wC (In_first rset) hop wS u v asent dsent) s s2 sC sh ->
  server_run junks realloc_s getaddrinfo resolve sv sc connfd (In_first rset) (hop, wS) = Some (sp', (hop', wS')) ->
  exists sC' sh', inv (Sys cp wC sp' hop' wS' u v asent dsent) s s2 sC' sh'.
Proof.
  intros I. cbn [server_run]. unfold exchange_first. destruct (decide (connfd ∈ rset)) as [_|_].
  2: { intros [= <- <- <-]. exists sC, sh. by eapply inv_server_goes. }
  pose proof I as [A L C D Q H U V EC ES]. cbn in A, L, C, D, H, U, V, EC, ES. unfold mbind at 1, st_bind at 1.
  destruct (client_part hop wS sC sh s s2 cp u (o_dest ++ asent) C D)
    as [(w' & ->)|[(e & rs & Hrs & -> & Hi & He)|(pk & d & rs & ws & rest & Hrs & Hws & Hi & Hf & ->)]];
    [by apply steady_quiet, V|done..| |]; cbn; intros [= <- <- <-].
  - exists (after_recv sC 0 rs), sh. apply (inv_server_goes _ _ (In_first rset)); [split; cbn|done|]; try done.
    + by apply live_after_recv.
    + by rewrite lookup_insert_ne.
    + split; [|done]. by eapply eof_peer.
  - exists (after_recv sC (length (frame (bss_bytes pk))) rs), (after_send (set_open sh true) d ws).
    apply (inv_server_goes _ _ (In_first rset)); [|done|done]. split; cbn; try done.
    + apply live_other; [done|]. by apply live_after_recv.
    + apply lookup_insert_eq.
    + by left.
    + by eapply dir_recv.
Qed.

Lemma inv_server_second rset cp wC sp' hop hop' wS wS' u v asent dsent s s2 sC sh :
  inv (Sys cp wC (In_second rset) hop wS u v asent dsent) s s2 sC sh ->
  server_run junks realloc_s getaddrinfo resolve sv sc connfd (In_second rset) (hop, wS) = Some (sp', (hop', wS')) ->
  exists sC' sh', inv (Sys cp wC sp' hop' wS' u v asent dsent) s s2 sC' sh'.
Proof.
  intros I. cbn [server_run]. unfold exchange_second. rewrite (bind_ok get_local _ _ hop (hop, wS)) by done.
  destruct (decide (hop <> -1 /\ hop ∈ rset)) as [[Hn _]|_].
  2: { intros [= <- <- <-]. exists sC, sh. by eapply inv_server_goes. }
  destruct (hop_live _ _ _ _ _ I Hn) as [E Hl]. cbn in E, Hl. subst hop.
  pose proof I as [A L C D Q H U V EC ES]. cbn in A, L, C, D, U, V, EC, ES.
  destruct (hop_part wS sC sh C Hl) as [(w' & ->)|[(-> & Hi & He)|(n & pk & rs & ws & Hrs & Hws & Hk & ->)]];
    [apply V..|done| |]; cbn; intros [= <- <- <-].
  - exists sC, sh. by eapply inv_server_goes.
  - exists (after_send sC (frame (bss_bytes pk)) ws), (after_recv sh n rs).
    apply (inv_server_goes _ _ (In_second rset)); [|done|done]. split; cbn; try done.
    + apply live_after_send; [|done]. by apply live_other.
    + rewrite lookup_insert_ne by done. apply lookup_insert_eq.
    + by apply dir_send.
Qed.

Lemma inv_act a x x' s s2 sC sh :
  inv x s s2 sC sh -> act' a x = Some x' -> exists s' s2' sC' sh', inv x' s' s2' sC' sh'.
Proof.
  intros I Hx. destruct a.
  - do 4 eexists. by eapply inv_app_write.
  - do 4 eexists. by eapply inv_app_close.
  - do 4 eexists. by eapply inv_dest_write.
  - do 4 eexists. by eapply inv_dest_close.
  - destruct (inv_link_up x x' k _ _ _ _ I Hx) as [sC' I']. eauto.
  - destruct (inv_link_down x x' k _ _ _ _ I Hx) as [s2' I']. eauto.
  - destruct (inv_eofs x x' _ _ _ _ I) as [Hu _]. eauto 6.
  - destruct (inv_eofs x x' _ _ _ _ I) as [_ Hd]. eauto 6.
  - destruct x as [cp wC sp hop wS u v asent dsent]. destruct cp; try done. injection Hx as <-.
    exists s, s2, sC, sh. by eapply inv_client_goes.
  - destruct x as [cp wC sp hop wS u v asent dsent]. cbn in Hx.
    destruct (client_run _ _ _ _ _ _ _ _ _) as [[cp' wC']|] eqn:E; [|done]. injection Hx as <-.
    destruct cp; try done.
    + destruct (inv_client_first _ _ _ _ _ _ _ _ _ _ _ _ _ _ _ I E) as (s' & s2' & I'). eauto.
    + destruct (inv_client_second _ _ _ _ _ _ _ _ _ _ _ _ _ _ _ I E) as (s' & s2' & I'). eauto.
  - destruct x as [cp wC sp hop wS u v asent dsent]. destruct sp; try done. injection Hx as <-.
    exists s, s2, sC, sh. by eapply inv_server_goes.
  - destruct x as [cp wC sp hop wS u v asent dsent]. cbn in Hx.
    destruct (server_run _ _ _ _ _ _ _ _ _) as [[sp' [hop' wS']]|] eqn:E; [|done]. injection Hx as <-.
    destruct sp; try done.
    + destruct (inv_server_first _ _ _ _ _ _ _ _ _ _ _ _ _ _ _ _ I E) as (sC' & sh' & I'). eauto.
    + destruct (inv_server_second _ _ _ _ _ _ _ _ _ _ _ _ _ _ _ _ I E) as (sC' & sh' & I'). eauto.
Qed.

Abbreviation run' := (run junkc junks realloc_c realloc_s getaddrinfo resolve ct sv cc sc q0 m_fd fd2 connfd).

Lemma inv_run l x x' s s2 sC sh :
  inv x s s2 sC sh -> run' l x = Some x' -> exists s' s2' sC' sh', inv x' s' s2' sC' sh'.
Proof.
  revert x s s2 sC sh. induction l as [|a l IH]; intros x s s2 sC sh I Hx.
  - injection Hx as <-. eauto.
  - cbn [run] in Hx. destruct (act' a x) as [x1|] eqn:E; [|done].
    destruct (inv_act _ _ _ _ _ _ _ I E) as (s1 & s21 & sC1 & sh1 & I1). by eapply IH.
Qed.

Lemma run_app l l' x y z : run' l x = Some y -> run' l' y = Some z -> run' (l ++ l') x = Some z.
Proof.
  revert x. induction l as [|a l IH]; intros x H1 H2; [by injection H1 as ->|].
  cbn [run app] in *. destruct (act' a x) as [x1|]; [|done]. by apply IH.
Qed.

Lemma selected_one fd fds w :
  fd ∈ fds -> exists rset, selected fds [fd] w = Some (In_first rset) /\ forall fd', fd' ∈ rset <-> fd' = fd.
Proof.
  intros Hin. exists (filter (fun fd' => fd' ∈ [fd]) fds). split; [done|].
  intros fd'. rewrite list_elem_of_filter, list_elem_of_singleton. split; [tauto|]. by intros ->.
Qed.

(** ** Progress *)

(** Once the application has closed, the client can run until it has turned all
    of its bytes into packets and has left the loop. *)
Lemma client_drains (k : nat) wC sp hop wS u v asent dsent s s2 sC sh :
  inv (Sys At_select wC sp hop wS u v asent dsent) s s2 sC sh -> at_eof s = true -> (length (inbuf s) <= k)%nat ->
  exists l wC' s' s2', run' l (Sys At_select wC sp hop wS u v asent dsent) = Some (Sys Returned wC' sp hop wS u v asent dsent) /\
    inv (Sys Returned wC' sp hop wS u v asent dsent) s' s2' sC sh.
Proof.
  revert wC s s2. induction k as [|k IH]; intros wC s s2 I He Hk.
  all: destruct (selected_one m_fd [m_fd; fd2] wC) as (rset & Hsel & Hr); [apply list_elem_of_here|].
  all: assert (Ha : act' (Client_select [m_fd]) (Sys At_select wC sp hop wS u v asent dsent) =
                 Some (Sys (In_first rset) wC sp hop wS u v asent dsent)) by (cbn [act]; by rewrite Hsel).
  all: assert (I1 : inv (Sys (In_first rset) wC sp hop wS u v asent dsent) s s2 sC sh) by (by eapply inv_client_goes).
  all: pose proof I as [A L C D Q H U V EC ES]; cbn in A, L, C, D, U, V, EC, ES.
  all: destruct (local_part wC s s2 A L) as [(? & _)|[(E & Hi & _)|(n & pk & rs & ws & Hn & Hrs & Hws & Hpk & E)]];
    [apply U..|congruence| |].
  1, 3: exists [Client_select [m_fd]; Client_run], wC, s, s2; cbn [run]; rewrite Ha; cbn;
    unfold pass_first; rewrite decide_True by (by apply Hr); rewrite E; cbn; split; [done|by eapply inv_client_goes].
  1: lia.
  set (s' := after_recv s n rs) in *. set (s2' := after_send s2 _ ws) in *.
  set (wC1 := put_sock (put_sock wC m_fd s') fd2 s2') in *.
  assert (I2 : inv (Sys At_select wC1 sp hop wS u v asent dsent) s' s2' sC sh).
  { split; cbn; try done.
    - apply live_other; [done|]. unfold s'. eauto with sockio.
    - apply live_after_send; [|done]. by apply live_other.
    - by apply dir_send. }
  destruct (IH wC1 s' s2' I2) as (l & wC' & s3 & s4 & E3 & I3); [done|cbn; len|].
  exists ([Client_select [m_fd]; Client_run; Client_run] ++ l), wC', s3, s4. split; [|done].
  eapply run_app; [|exact E3]. cbn [run]. rewrite Ha. cbn. unfold pass_first.
  rewrite decide_True by (by apply Hr). rewrite E. cbn. unfold pass_second. cbn [snd].
  rewrite decide_False; [done|]. intros Hin. apply Hr in Hin. done.
Qed.

(** With all packets delivered, the server can run until it has written their
    contents to the destination. *)
Lemma server_drains (k : nat) cp wC hop wS u v asent dsent s s2 sC sh :
  inv (Sys cp wC At_select hop wS u v asent dsent) s s2 sC sh -> u = length (outbuf s2) ->
  (length (inbuf sC) <= k)%nat ->
  exists l hop' wS' sC' sh', run' l (Sys cp wC At_select hop wS u v asent dsent) =
      Some (Sys cp wC At_select hop' wS' u v asent dsent) /\
    inv (Sys cp wC At_select hop' wS' u v asent dsent) s s2 sC' sh' /\ inbuf sC' = [].
Proof.
  revert hop wS sC sh. induction k as [|k IH]; intros hop wS sC sh I Hu Hk.
  { exists [], hop, wS, sC, sh. split; [done|]. split; [done|]. apply nil_length_inv. lia. }
  pose proof I as [A L C D Q H U V EC ES]; cbn in A, L, C, D, H, U, V, EC, ES.
  pose proof U as (Hf & _). rewrite Hu in Hf.
  destruct (flow_complete _ _ _ _ _ _ Hf) as [[Hi _]|(pk & d & rest & Hpk & Hi & Hf')].
  { exists [], hop, wS, sC, sh. done. }
  destruct (client_taken hop wS sC sh pk d rest C D) as (rs & ws & Hrs & Hws & E); [by apply steady_quiet, V|done..|].
  set (sC1 := after_recv sC _ rs) in *. set (sh1 := after_send _ d ws) in *.
  set (wS1 := put_sock (put_sock wS connfd sC1) hfd sh1) in *.
  assert (I2 : inv (Sys cp wC At_select hfd wS1 u v asent dsent) s s2 sC1 sh1).
  { split; cbn; try done.
    - apply live_other; [done|]. by apply live_after_recv.
    - apply lookup_insert_eq.
    - by left.
    - rewrite Hu in *. by eapply dir_recv. }
  destruct (IH hfd wS1 sC1 sh1 I2 Hu) as (l & hop' & wS' & sC' & sh' & E3 & I3).
  { cbn [sC1 after_recv inbuf]. rewrite Hi, drop_app_length. rewrite Hi, length_app, frame_length in Hk. lia. }
  destruct (selected_one connfd (exchange_fds connfd hop) wS) as (rset & Hsel & Hr); [apply list_elem_of_here|].
  exists ([Server_select [connfd]; Server_run; Server_run] ++ l), hop', wS', sC', sh'. split; [|done].
  eapply run_app; [|exact E3].
  assert (E1 : (_ ← exchange_first junks getaddrinfo resolve sv sc connfd rset; mret true) (hop, wS) = (Ok true, (hfd, wS1)))
    by (unfold exchange_first; rewrite decide_True by (by apply Hr); by rewrite (bind_ok _ _ _ _ _ E)).
  assert (E2 : exchange_second junks realloc_s sv sc connfd rset (hfd, wS1) = (Ok true, (hfd, wS1))).
  { unfold exchange_second. rewrite (bind_ok get_local _ _ hfd (hfd, wS1)) by done. rewrite decide_False; [done|].
    intros [_ Hin]. apply Hr in Hin. done. }
  assert (A1 : act' Server_run (Sys cp wC (In_first rset) hop wS u v asent dsent) =
            Some (Sys cp wC (In_second rset) hfd wS1 u v asent dsent)) by (cbn [act server_run]; by rewrite E1).
  assert (A2 : act' Server_run (Sys cp wC (In_second rset) hfd wS1 u v asent dsent) =
            Some (Sys cp wC At_select hfd wS1 u v asent dsent)) by (cbn [act server_run]; by rewrite E2).
  cbn [run act]. rewrite Hsel. cbn [mbind option_bind]. rewrite A1. cbn [mbind option_bind]. by rewrite A2.
Qed.

End Invariant.

(** Both relays have just been started: nothing is on its way between them, the
    server has not connected yet, and the scripts of the sockets allow every
    segmentation. *)
Record starts (x : system) (s s2 sC sh : sock) : Prop := Starts {
  st_pcs : c_pc x = At_select /\ s_pc x = At_select /\ s_hop x = -1;
  st_app : live (c_world x) m_fd s;
  st_link : live (c_world x) fd2 s2;
  st_conn : live (s_world x) connfd sC;
  st_dest : socks (s_world x) !! hfd = Some sh /\ quiet (wscript sh);
  st_steady : steady (rscript s) /\ steady (rscript sh);
  st_wf : wf_bytes (inbuf s) /\ wf_bytes (inbuf sh);
  st_empty : inbuf s2 = [] /\ at_eof s2 = false /\ inbuf sC = [] /\ at_eof sC = false;
  st_sent : app_sent x = inbuf s /\ dest_sent x = inbuf sh;
  st_counts : up x = length (outbuf s2) /\ down x = length (outbuf sC);
}.

Lemma dir_start ok p src out inn dst n total :
  steady (rscript src) -> wf_bytes (inbuf src) -> inbuf inn = [] -> at_eof inn = false -> n = length (outbuf out) ->
  total = outbuf dst ++ inbuf src -> dir ok p src out inn dst n total.
Proof.
  intros Hst Hw Hi He -> ->. split; [|rewrite He; done]. exists [], []. split; [done|]. split; [done|].
  by rewrite Hi, drop_ge.
Qed.

Lemma starts_inv x s s2 sC sh : starts x s s2 sC sh -> inv (outbuf sh) (outbuf s) x s s2 sC sh.
Proof.
  intros [(Ec & Es & Eh) A L C (D & Q) (S1 & S2) (W1 & W2) (I1 & I2 & I3 & I4) (T1 & T2) (N1 & N2)].
  split; try done; rewrite ?Ec, ?Es, ?T1, ?T2; try done; try by apply dir_start. by right.
Qed.

(** C3: Client and server together. Let the two relays run over a connection
    that delivers bytes late and in pieces, both directions at once, while the
    application and the destination write and close at any time, in any
    interleaving. At every moment what the destination has been given is a
    prefix of what the application has written, and the other way round; all
    that is missing is still unread or on its way in packets, so when nothing is
    on its way nothing is missing. Neither relay ever does anything undefined.
    A relay is ended by an exception only at the end of the connection, after
    the other one has been ended by its own peer; that peer's bytes have all
    been delivered by then. *)
Theorem duplex_relay (l : list action) (x0 x : system) (s s2 sC sh : sock) :
  starts x0 s s2 sC sh ->
  run junkc junks realloc_c realloc_s getaddrinfo resolve ct sv cc sc q0 m_fd fd2 connfd l x0 = Some x ->
  exists s' s2' sC' sh',
    (socks (c_world x) !! m_fd = Some s' /\ socks (c_world x) !! fd2 = Some s2' /\
     socks (s_world x) !! connfd = Some sC' /\ socks (s_world x) !! hfd = Some sh') /\
    outbuf sh' `prefix_of` outbuf sh ++ app_sent x /\ outbuf s' `prefix_of` outbuf s ++ dest_sent x /\
    (up x = length (outbuf s2') -> inbuf sC' = [] -> outbuf sh ++ app_sent x = outbuf sh' ++ inbuf s') /\
    (down x = length (outbuf sC') -> inbuf s2' = [] -> outbuf s ++ dest_sent x = outbuf s' ++ inbuf sh') /\
    (c_pc x <> Broken /\ s_pc x <> Broken) /\
    (c_pc x = Raised -> s_pc x = Returned /\ outbuf s' = outbuf s ++ dest_sent x) /\
    (s_pc x = Raised -> c_pc x = Returned /\ outbuf sh' = outbuf sh ++ app_sent x).
Proof.
  intros Hx0 Hrun. destruct (inv_run _ _ _ _ _ _ _ _ _ (starts_inv _ _ _ _ _ Hx0) Hrun) as (s' & s2' & sC' & sh' & I).
  destruct I as [A L C D Q H (U & Ue & _) (V & Ve & _) EC ES]. exists s', s2', sC', sh'.
  split; [split_and!; [apply A|apply L|apply C|done]|].
  split; [by eapply flow_prefix|]. split; [by eapply flow_prefix|].
  split; [intros Hn Hi; rewrite Hi in U; by eapply flow_drained|].
  split; [intros Hn Hi; rewrite Hi in V; by eapply flow_drained|].
  split; [split; intros E; [by rewrite E in EC|by rewrite E in ES]|]. split; intros E.
  - rewrite E in EC. destruct EC as (Ep & Hi & He). split; [done|]. rewrite Ep in ES. destruct ES as [Hl _].
    rewrite Hi, Hl in V. destruct (Ve He) as [_ Hn]. by rewrite (flow_drained _ _ _ _ _ _ V Hn), app_nil_r.
  - rewrite E in ES. destruct ES as (Ep & Hi & He). split; [done|]. rewrite Ep in EC. destruct EC as [Hl _].
    rewrite Hi, Hl in U. destruct (Ue He) as [_ Hn]. by rewrite (flow_drained _ _ _ _ _ _ U Hn), app_nil_r.
Qed.

(** C4: The relays do not get stuck with the application's bytes. Whenever, after
    any run, the application has closed and both relays wait in [select], they
    can go on (with no further help from outside) until the client has left its
    loop and the destination has been given everything the application wrote. *)
Theorem duplex_delivers (l : list action) (x0 x : system) (s s2 sC sh sa : sock) :
  starts x0 s s2 sC sh ->
  run junkc junks realloc_c realloc_s getaddrinfo resolve ct sv cc sc q0 m_fd fd2 connfd l x0 = Some x ->
  c_pc x = At_select -> s_pc x = At_select -> socks (c_world x) !! m_fd = Some sa -> at_eof sa = true ->
  exists l' x' sh',
    run junkc junks realloc_c realloc_s getaddrinfo resolve ct sv cc sc q0 m_fd fd2 connfd l' x = Some x' /\
    c_pc x' = Returned /\ app_sent x' = app_sent x /\ dest_sent x' = dest_sent x /\
    socks (s_world x') !! hfd = Some sh' /\ outbuf sh' = outbuf sh ++ app_sent x.
Proof.
  intros Hx0 Hrun Hcp Hsp Hsa He.
  destruct (inv_run _ _ _ _ _ _ _ _ _ (starts_inv _ _ _ _ _ Hx0) Hrun) as (s' & s2' & sC' & sh' & I).
  destruct x as [cp wC sp hop wS u v asent dsent]. cbn [c_pc s_pc c_world app_sent dest_sent] in *. subst cp sp.
  assert (s' = sa) as -> by (destruct I as [(A & _) _ _ _ _ _ _ _ _ _]; cbn in A; congruence).
  destruct (client_drains _ _ _ _ _ _ _ _ _ _ _ _ _ _ _ I He (le_n _)) as (l1 & wC1 & s1 & s21 & R1 & I1).
  pose proof I1 as [_ L C _ _ _ (U & _) _ [Hi _] _]. cbn in L, C, U, Hi.
  set (d := take (length (outbuf s21)) (drop u (outbuf s21))).
  assert (R2 : act junkc junks realloc_c realloc_s getaddrinfo resolve ct sv cc sc q0 m_fd fd2 connfd
      (Link_up (length (outbuf s21))) (Sys Returned wC1 At_select hop wS u v asent dsent) =
      Some (Sys Returned wC1 At_select hop (put_sock wS connfd (arrive sC' d)) (u + length d) v asent dsent)).
  { cbn [act]. rewrite (live_lookup _ _ _ L). unfold at_sock. cbn [mbind option_bind].
    by rewrite (live_lookup _ _ _ C). }
  destruct (inv_link_up _ _ _ _ _ _ _ _ _ I1 R2) as [sC2 I2].
  assert (Hu : (u + length d)%nat = length (outbuf s21)).
  { destruct U as (_ & _ & _ & Hn & _). unfold d. len. }
  destruct (server_drains _ _ _ _ _ _ _ _ _ _ _ _ _ _ _ I2 Hu (le_n _)) as (l3 & hop3 & wS3 & sC3 & sh3 & R3 & I3 & Hi3).
  eexists (l1 ++ Link_up (length (outbuf s21)) :: l3), _, sh3. split.
  { eapply run_app; [exact R1|]. cbn [run]. rewrite R2. exact R3. }
  destruct I3 as [_ _ _ D3 _ _ (U3 & _) _ _ _]. cbn in D3, U3 |- *. do 4 (split; [done|]).
  rewrite Hi3, Hi in U3. by rewrite (flow_drained _ _ _ _ _ _ U3 Hu), app_nil_r.
Qed.

End Joint.

(** ** Half-closed connections *)

Section HalfClose.
Context {lg : Log.Rlog}.
Context (junkc junks : nat -> Z) (realloc_c realloc_s : Z -> bool).
Context (getaddrinfo : bytes -> bytes -> bool -> Z + list addrinfo).
Context (resolve : nat -> bytes -> outcome (list ip_address)).
Context (ct : outbound_tunnel) (sv : inbound_tunnel) (cc sc : connect_info) (q0 : client_query).
Context (m_fd fd2 connfd : Z) (Hc : m_fd <> fd2).

Definition given (x : system) : option bytes := outbuf <$> socks (c_world x) !! m_fd.

Lemma at_sock_given w fd f w' :
  at_sock w fd f = Some w' -> (forall s s', f s = Some s' -> fd = m_fd -> outbuf s' = outbuf s) ->
  outbuf <$> socks w' !! m_fd = outbuf <$> socks w !! m_fd.
Proof.
  unfold at_sock. intros H Hf. destruct (socks w !! fd) as [s|] eqn:E; [|done]. cbn in H.
  destruct (f s) as [s'|] eqn:Es; [|done]. injection H as <-. destruct (decide (fd = m_fd)) as [->|Hn].
  - rewrite lookup_put, E. cbn. f_equal. by apply (Hf s).
  - by rewrite lookup_put_ne.
Qed.

Lemma act_after_return a x x' :
  act junkc junks realloc_c realloc_s getaddrinfo resolve ct sv cc sc q0 m_fd fd2 connfd a x = Some x' ->
  c_pc x = Returned -> c_pc x' = Returned /\ given x' = given x.
Proof.
  destruct x as [cp wC sp hop wS u v asent dsent]. cbn [c_pc]. intros H ->. unfold given. cbn [c_world].
  destruct a; cbn [act client_run] in H; try (destruct (hop =? -1); [done|]); try done.
  - destruct (at_sock wC m_fd _) as [w|] eqn:E; [|done]. injection H as <-. split; [done|]. apply (at_sock_given _ _ _ _ E).
    intros s s' Hs' _. destruct (negb _ && _); [|done]. by injection Hs' as <-.
  - destruct (at_sock wC m_fd _) as [w|] eqn:E; [|done]. injection H as <-. split; [done|]. apply (at_sock_given _ _ _ _ E).
    intros s s' Hs' _. by injection Hs' as <-.
  - destruct (at_sock wS hop _) as [w|] eqn:E; [|done]. by injection H as <-.
  - destruct (at_sock wS hop _) as [w|] eqn:E; [|done]. by injection H as <-.
  - destruct (socks wC !! fd2) as [s2|]; [|done]. cbn in H.
    destruct (at_sock wS connfd _) as [w|]; [|done]. by injection H as <-.
  - destruct (socks wS !! connfd) as [sC|]; [|done]. cbn in H.
    destruct (at_sock wC fd2 _) as [w|] eqn:E; [|done]. injection H as <-. split; [done|]. by apply (at_sock_given _ _ _ _ E).
  - destruct (socks wC !! fd2) as [s2|]; [|done]. cbn in H. destruct (u =? _)%nat; [|done].
    destruct (at_sock wS connfd _) as [w|]; [|done]. by injection H as <-.
  - destruct (socks wS !! connfd) as [sC|]; [|done]. cbn in H. destruct (ended sp && _); [|done].
    destruct (at_sock wC fd2 _) as [w|] eqn:E; [|done]. injection H as <-. split; [done|]. by apply (at_sock_given _ _ _ _ E).
  - destruct sp; try done. cbn in H. by injection H as <-.
  - destruct (server_run _ _ _ _ _ _ _ _ _) as [[sp' [hop' wS']]|]; [|done]. by injection H as <-.
Qed.

(** An application that closes its writing end and waits for the answer does
    not get it. The client leaves its loop when it reads the end of the
    application's stream, and from then on, whatever the destination still
    sends, the application is given nothing. *)
Theorem half_close_loses (l : list action) (x x' : system) :
  run junkc junks realloc_c realloc_s getaddrinfo resolve ct sv cc sc q0 m_fd fd2 connfd l x = Some x' ->
  c_pc x = Returned -> given x' = given x.
Proof.
  revert x. induction l as [|a l IH]; intros x H Hx; [by injection H as <-|].
  cbn [run] in H. destruct (act _ _ _ _ _ _ _ _ _ _ _ _ _ _ a x) as [x1|] eqn:E; [|done].
  destruct (act_after_return _ _ _ E Hx) as [H1 <-]. by apply IH.
Qed.
End HalfClose.

(** ** A concrete session

    A request, a late end of the connection, an answer: the bundled
    [simple_proxy] module, with partial transfers and interruptions. *)
Module Session.

Definition app : sock := Sock [] false [Chunk 1] [5; 0] [Chunk 0] true.
Definition link : sock := Sock [] false [Chunk 2; Intr] [7] [Intr; Chunk 0] true.
Definition conn : sock := Sock [] false [Chunk 3; Intr] [1] [Chunk 1] true.
Definition dest : sock := Sock [] false [] [] [Chunk 0] false.

Definition q0 : client_query := Query ([10; 0; 0; 1] ++ replicate 12 0) 80 (Bss false 0 None).

Definition start : system :=
  Sys At_select (World (<[4 := app]> {[ 3 := link ]}) [] []) At_select (-1) (World (<[5 := conn]> {[ 9 := dest ]}) [] [])
    1 1 [] [].

Definition exec : list action -> system -> option system :=
  run (lg := Log.rlog_at Log.INFO) (fun _ => 0) (fun _ => 0) (fun _ => true) (fun _ => true) Sample.gai Sample.res
    Sample.ct Sample.sv Sample.cc Sample.sc q0 4 3 5.

Definition script : list action :=
  [App_write [71; 69; 84]; Client_select [4]; Client_run; Client_run; Link_up 5; Server_select [5]; Link_up 100;
   App_write [10]; Server_run; Server_run; Dest_write [79; 75]; Server_select [9]; Server_run; Server_run; Link_down 100;
   Client_select [3]; Client_run; Client_run; App_close].

Definition finish : system := match exec script start with Some x => x | None => start end.

Lemma template : template_ok q0.
Proof.
  split; [|done]. split; [done|]. split; [apply (bool_decide_unpack _); reflexivity|]. split; [cbn; lia|].
  split; cbn; lia || done.
Qed.

Lemma started : starts 4 3 5 9 start app link conn dest.
Proof.
  split; try done; try (split; [reflexivity|split; [done|split; apply (bool_decide_unpack _); reflexivity]]).
  - split; [reflexivity|]. apply (bool_decide_unpack _). reflexivity.
  - split; repeat constructor; eauto.
  - split; constructor.
Qed.

(** Two bytes of the request are with the destination and the answer is with
    the application; the other two bytes have arrived but are not read yet. *)
Example finish_state :
  outbuf <$> (socks (s_world finish) !! 9) = Some [71; 69] /\
  outbuf <$> (socks (c_world finish) !! 4) = Some [5; 0; 79; 75] /\
  inbuf <$> (socks (c_world finish) !! 4) = Some [84; 10].
Proof. vm_compute. done. Qed.

(** The application closes its writing end; the answer is delivered to the
    client's socket and no further. *)
Definition half_closed : list action :=
  [App_write [71]; Client_select [4]; Client_run; Client_run; App_close; Client_select [4]; Client_run; Link_up 100;
   Server_select [5]; Server_run; Server_run; Dest_write [79; 75]; Server_select [9]; Server_run; Server_run; Link_down 100].

Example half_closed_state :
  (fun x => (c_pc x, given 4 x, dest_sent x)) <$> exec half_closed start = Some (Returned, Some [5; 0], [79; 75]).
Proof. vm_compute. done. Qed.

End Session.

Lemma duplex_relay_witness :
  let x := Session.finish in
  exists s' s2' sC' sh',
    (socks (c_world x) !! 4 = Some s' /\ socks (c_world x) !! 3 = Some s2' /\
     socks (s_world x) !! 5 = Some sC' /\ socks (s_world x) !! 9 = Some sh') /\
    outbuf sh' `prefix_of` [] ++ app_sent x /\ outbuf s' `prefix_of` [5; 0] ++ dest_sent x /\
    (up x = length (outbuf s2') -> inbuf sC' = [] -> [] ++ app_sent x = outbuf sh' ++ inbuf s') /\
    (down x = length (outbuf sC') -> inbuf s2' = [] -> [5; 0] ++ dest_sent x = outbuf s' ++ inbuf sh') /\
    (c_pc x <> Broken /\ s_pc x <> Broken) /\
    (c_pc x = Raised -> s_pc x = Returned /\ outbuf s' = [5; 0] ++ dest_sent x) /\
    (s_pc x = Raised -> c_pc x = Returned /\ outbuf sh' = [] ++ app_sent x).
Proof.
  apply (duplex_relay (lg := Log.rlog_at Log.INFO) Sample.md SimpleProxy.same_pass SimpleProxy.same_pass (fun _ => 0) (fun _ => 0)
           (fun _ => true) (fun _ => true) Sample.gai Sample.res Sample.ct eq_refl Sample.sv eq_refl
           Sample.cc Sample.sc Sample.passes Session.q0 Session.template ltac:(cbn; lia) 4 3 5 9 ltac:(lia) ltac:(lia)
           ltac:(lia) eq_refl Session.script Session.start Session.finish Session.app Session.link Session.conn Session.dest).
  - apply Session.started.
  - vm_compute. reflexivity.
Defined.

Lemma duplex_delivers_witness :
  exists l' x' sh', Session.exec l' Session.finish = Some x' /\
    c_pc x' = Returned /\ app_sent x' = [71; 69; 84; 10] /\ dest_sent x' = [79; 75] /\
    socks (s_world x') !! 9 = Some sh' /\ outbuf sh' = [] ++ [71; 69; 84; 10].
Proof.
  eapply (duplex_delivers (lg := Log.rlog_at Log.INFO) Sample.md SimpleProxy.same_pass SimpleProxy.same_pass (fun _ => 0) (fun _ => 0)
           (fun _ => true) (fun _ => true) Sample.gai Sample.res Sample.ct eq_refl Sample.sv eq_refl
           Sample.cc Sample.sc Sample.passes Session.q0 Session.template ltac:(cbn; lia) 4 3 5 9 ltac:(lia) ltac:(lia)
           ltac:(lia) eq_refl Session.script Session.start Session.finish Session.app Session.link Session.conn Session.dest).
  - apply Session.started.
  - vm_compute. reflexivity.
  - vm_compute. reflexivity.
  - vm_compute. reflexivity.
  - vm_compute. reflexivity.
  - reflexivity.
Defined.

End Duplex.
