(* ===== verification/Opt.v ===== *)
(** * Command-line options: [rlib/opt.hpp]

    [opt_parser] as the arguments not yet read.  Every reader returns its value
    and the parser without the arguments it used.  The second half says what
    the readers give on a command line written as a list of options. *)

From stdpp Require Import sets.
From S2P Require Import Prelude RString.
Open Scope Z_scope.

Module Opt.
Import RString.

Record opt_parser := Parser { args : list bytes; arg0 : bytes }.

(** [argv] as an array of pointers: [None] is a null pointer. *)
Fixpoint copy_args (argv : list (option bytes)) (cter arglen : nat) (acc : list bytes) : outcome (list bytes) :=
  match (arglen - cter)%nat with
  | O => Ok acc
  | S _ =>
      match argv with
      | [] => Undefined OobRead
      | None :: _ => Undefined NullDeref
      | Some a :: argv => copy_args argv (S cter) arglen (acc ++ [a])
      end
  end.

Definition new_opt_parser (arglen : nat) (argv : list (option bytes)) : outcome opt_parser :=
  match argv with
  | [] => Undefined OobRead
  | None :: _ => Throw (runtime_error "Invalid argv passed to rlib::opt_parser. argv[0] is nullptr.")
  | Some a0 :: argv => l ← copy_args argv 1 arglen []; Ok (Parser l a0)
  end.

Definition getSubCommand (p : opt_parser) : outcome (bytes * opt_parser) :=
  match args p with
  | [] => Throw (runtime_error "No sub-command available.")
  | cmd :: l => Ok (cmd, Parser l (arg0 p))
  end.

Definition getSubCommand_def (def : bytes) (p : opt_parser) : outcome (bytes * opt_parser) :=
  match args p with
  | [] => Ok (def, p)
  | cmd :: l => Ok (cmd, Parser l (arg0 p))
  end.

Definition getSelf (p : opt_parser) : bytes := arg0 p.

(** The predicate of [std::find_if]: whether the element matches, and whether
    by an equals sign. *)
Definition arg_match (argName ele : bytes) : option bool :=
  if bool_decide (ele = argName) then Some false
  else if (length argName <? length ele)%nat && bool_decide (take (length argName + 1) ele = argName ++ [61])
  then Some true
  else None.

Fixpoint find_arg (argName : bytes) (l : list bytes) (pos : nat) : option (nat * bool) :=
  match l with
  | [] => None
  | ele :: l =>
      match arg_match argName ele with
      | Some useEqualSym => Some (pos, useEqualSym)
      | None => find_arg argName l (S pos)
      end
  end.

(** [args.erase(pos)]: erasing [end()] is undefined. *)
Definition vec_erase (l : list bytes) (pos : nat) : outcome (list bytes) :=
  if decide (pos < length l)%nat then Ok (take pos l ++ drop (S pos) l) else Undefined InvalidIterator.

(** The deferred removal of what was read. *)
Definition erase_read (useEqualSym : bool) (pos : nat) (p : opt_parser) : outcome opt_parser :=
  l ← (if useEqualSym then Ok (args p) else vec_erase (args p) (pos + 1));
  l ← vec_erase l pos;
  Ok (Parser l (arg0 p)).

(** [getValueArg(argName, required, def)]; the removal runs before the
    exception of a missing value leaves the function. *)
Definition getValueArg (argName : bytes) (required : bool) (def : bytes) (p : opt_parser)
    : outcome (bytes * opt_parser) :=
  match find_arg argName (args p) 0 with
  | None =>
      if required then
        msg ← format_string (bytes_of_string "Required argument '{}' not provided.") [argName];
        Throw (invalid_argument (string_of_bytes msg))
      else Ok (def, p)
  | Some (pos, useEqualSym) =>
      if useEqualSym : bool then
        v ← substr (nth pos (args p) []) (length argName + 1) (length (nth pos (args p) []));
        p ← erase_read true pos p;
        Ok (v, p)
      else
        match args p !! S pos with
        | None =>
            msg ← format_string (bytes_of_string "Argument '{}' must provide value.") [argName];
            _ ← erase_read false pos p;
            Throw (invalid_argument (string_of_bytes msg))
        | Some v => p ← erase_read false pos p; Ok (v, p)
        end
  end.

(** [getBoolArg(argName)] *)
Fixpoint find_eq (argName : bytes) (l : list bytes) (pos : nat) : option nat :=
  match l with
  | [] => None
  | ele :: l => if bool_decide (ele = argName) then Some pos else find_eq argName l (S pos)
  end.

Definition getBoolArg (argName : bytes) (p : opt_parser) : outcome (bool * opt_parser) :=
  match find_eq argName (args p) 0 with
  | None => Ok (false, p)
  | Some pos => l ← vec_erase (args p) pos; Ok (true, Parser l (arg0 p))
  end.

(** [getValueArg(longName, shortName, required, def)]: both names are read, the
    long one wins, an empty value counts as absent. *)
Definition getValueArg2 (longName shortName : bytes) (required : bool) (def : bytes) (p : opt_parser)
    : outcome (bytes * opt_parser) :=
  r ← getValueArg longName false [] p;
  let '(valueL, p) := r in
  r ← getValueArg shortName false [] p;
  let '(valueS, p) := r in
  let value := match valueL with [] => valueS | _ => valueL end in
  match value with
  | [] =>
      if required then
        msg ← format_string (bytes_of_string "Required argument '{}/{}' not provided.") [longName; shortName];
        Throw (invalid_argument (string_of_bytes msg))
      else Ok (def, p)
  | _ => Ok (value, p)
  end.

(** [getBoolArg(longName, shortName)]: [||] does not look for the short name
    when the long one is there. *)
Definition getBoolArg2 (longName shortName : bytes) (p : opt_parser) : outcome (bool * opt_parser) :=
  r ← getBoolArg longName p;
  let '(b, p) := r in
  if b : bool then Ok (true, p) else getBoolArg shortName p.

Definition allArgDone (p : opt_parser) : bool := match args p with [] => true | _ => false end.

(** ** One reader *)

Lemma copy_args_all l cter acc :
  copy_args (map Some l) cter (cter + length l) acc = Ok (acc ++ l).
Proof.
  revert cter acc. induction l as [|a l IH]; intros cter acc; cbn [map length copy_args].
  - rewrite Nat.add_0_r, Nat.sub_diag. by rewrite app_nil_r.
  - destruct (cter + S (length l) - cter)%nat eqn:E; [lia|].
    replace (cter + S (length l))%nat with (S cter + length l)%nat by lia.
    rewrite IH. by rewrite <- app_assoc.
Qed.

Lemma new_opt_parser_all a0 l : new_opt_parser (S (length l)) (Some a0 :: map Some l) = Ok (Parser l a0).
Proof. unfold new_opt_parser. pose proof (copy_args_all l 1 []) as H. cbn [app Nat.add] in H. by rewrite H. Qed.

Lemma arg_match_sep n : arg_match n n = Some false.
Proof. unfold arg_match. by rewrite bool_decide_eq_true_2. Qed.

Lemma arg_match_eq n v : arg_match n (n ++ 61 :: v) = Some true.
Proof.
  unfold arg_match. rewrite bool_decide_eq_false_2.
  2: { intros H. apply (f_equal length) in H. len. }
  destruct (Nat.ltb_spec (length n) (length (n ++ 61 :: v))); [|len]. cbn [andb].
  rewrite bool_decide_eq_true_2; [done|].
  rewrite cons_middle, app_assoc. by rewrite take_app_length' by len.
Qed.

Lemma find_arg_skip n pre l pos :
  Forall (fun e => arg_match n e = None) pre ->
  find_arg n (pre ++ l) pos = find_arg n l (pos + length pre).
Proof.
  intros H. revert pos. induction H as [|e pre He Hp IH]; intros pos; cbn [app find_arg length].
  - by rewrite Nat.add_0_r.
  - rewrite He, IH. f_equal. lia.
Qed.

Lemma vec_erase_mid (a : list bytes) x b pos : pos = length a -> vec_erase (a ++ x :: b) pos = Ok (a ++ b).
Proof.
  intros ->. unfold vec_erase. rewrite decide_True by len.
  rewrite take_app_length. replace (S (length a)) with (length (a ++ [x])) by len.
  replace (a ++ x :: b) with ((a ++ [x]) ++ b) by (by rewrite <- app_assoc). by rewrite drop_app_length.
Qed.

Section Reader.
Context (n : bytes) (pre : list bytes) (Hpre : Forall (fun e => arg_match n e = None) pre).
Context (required : bool) (def a0 : bytes).

Lemma getValueArg_sep v post :
  getValueArg n required def (Parser (pre ++ n :: v :: post) a0) = Ok (v, Parser (pre ++ post) a0).
Proof using Hpre.
  unfold getValueArg. cbn [args]. rewrite find_arg_skip by done. cbn [find_arg Nat.add].
  rewrite arg_match_sep. cbv beta iota.
  rewrite (lookup_app_r pre) by lia. replace (S (length pre) - length pre)%nat with 1%nat by lia.
  cbn [lookup list_lookup]. unfold erase_read. cbn [args arg0].
  replace (pre ++ n :: v :: post) with ((pre ++ [n]) ++ v :: post) by (by rewrite <- app_assoc).
  rewrite vec_erase_mid by len. run_ok. rewrite <- app_assoc. cbn [app].
  rewrite vec_erase_mid by done. done.
Qed.

Lemma getValueArg_eq v post :
  getValueArg n required def (Parser (pre ++ (n ++ 61 :: v) :: post) a0) = Ok (v, Parser (pre ++ post) a0).
Proof using Hpre.
  unfold getValueArg. cbn [args]. rewrite find_arg_skip by done. cbn [find_arg Nat.add].
  rewrite arg_match_eq. cbv beta iota. rewrite nth_middle.
  replace (n ++ 61 :: v) with ((n ++ [61]) ++ v) by (by rewrite <- app_assoc).
  replace (length n + 1)%nat with (length (n ++ [61])) by len. rewrite substr_tail by len. run_ok.
  unfold erase_read. run_ok. cbn [args arg0]. rewrite vec_erase_mid by done. done.
Qed.

Lemma getValueArg_absent :
  getValueArg n false def (Parser pre a0) = Ok (def, Parser pre a0).
Proof using Hpre.
  unfold getValueArg. cbn [args]. rewrite <- (app_nil_r pre) at 1. by rewrite find_arg_skip.
Qed.

Lemma getValueArg_no_value :
  ~ occurs hole n ->
  getValueArg n required def (Parser (pre ++ [n]) a0) = Undefined InvalidIterator.
Proof using Hpre.
  intros Hn. unfold getValueArg. cbn [args]. rewrite find_arg_skip by done. cbn [find_arg Nat.add].
  rewrite arg_match_sep. cbv beta iota. rewrite lookup_ge_None_2 by len.
  change (bytes_of_string "Argument '{}' must provide value.")
    with (bytes_of_string "Argument '" ++ hole ++ bytes_of_string "' must provide value.").
  rewrite format_one by (done || by apply no_hole_nobrace). run_ok.
  unfold erase_read, vec_erase. cbn [args]. rewrite decide_False by len. done.
Qed.

End Reader.

(** Reading an option that the arguments before it do not match: its value
    is found in the next argument or after an equals sign and exactly the
    option is removed; an absent option gives the default, or throws when
    required; an option in last place without its value erases [end()]. *)
Theorem getValueArg_spec n pre required def a0 :
  Forall (fun e => arg_match n e = None) pre -> ~ occurs hole n ->
  (forall v post, getValueArg n required def (Parser (pre ++ n :: v :: post) a0)
     = Ok (v, Parser (pre ++ post) a0)) /\
  (forall v post, getValueArg n required def (Parser (pre ++ (n ++ 61 :: v) :: post) a0)
     = Ok (v, Parser (pre ++ post) a0)) /\
  getValueArg n required def (Parser pre a0) =
    (if required
     then Throw (invalid_argument (string_of_bytes (bytes_of_string "Required argument '" ++ n ++ bytes_of_string "' not provided.")))
     else Ok (def, Parser pre a0)) /\
  getValueArg n required def (Parser (pre ++ [n]) a0) = Undefined InvalidIterator.
Proof.
  intros Hp Hn. split; [|split; [|split]].
  - intros. by apply getValueArg_sep.
  - intros. by apply getValueArg_eq.
  - destruct required; [|by apply getValueArg_absent].
    unfold getValueArg. cbn [args]. rewrite <- (app_nil_r pre) at 1. rewrite find_arg_skip by done.
    cbn [find_arg].
    change (bytes_of_string "Required argument '{}' not provided.")
      with (bytes_of_string "Required argument '" ++ hole ++ bytes_of_string "' not provided.").
    rewrite format_one by (done || by apply no_hole_nobrace). done.
  - by apply getValueArg_no_value.
Qed.

Lemma getValueArg_spec_witness :
  Forall (fun e => arg_match [45; 99] e = None) [[45; 100]] /\ ~ occurs hole [45; 99] /\
  getValueArg [45; 99] false [] (Parser ([[45; 100]] ++ [45; 99] :: [120] :: [[121]]) [])
    = Ok ([120], Parser ([[45; 100]] ++ [[121]]) []).
Proof.
  assert (H1 : Forall (fun e => arg_match [45; 99] e = None) [[45; 100]]) by (repeat constructor).
  assert (H2 : ~ occurs hole [45; 99]) by (by apply no_hole_nobrace).
  split; [exact H1|]. split; [exact H2|].
  exact (proj1 (getValueArg_spec [45; 99] [[45; 100]] false [] [] H1 H2) [120] [[121]]).
Defined.

(** ** Command lines *)

(** An option as a user writes it. *)
Inductive item :=
| Flag (n : bytes)
| Sep (n v : bytes)   (** [-n v] *)
| Equ (n v : bytes).  (** [-n=v] *)

Definition tokens1 (i : item) : list bytes :=
  match i with
  | Flag n => [n]
  | Sep n v => [n; v]
  | Equ n v => [n ++ 61 :: v]
  end.

Definition tokens (l : list item) : list bytes := concat (map tokens1 l).

(** The value of the first option called [n], and the options without it. *)
Fixpoint value_of (n : bytes) (l : list item) : bytes :=
  match l with
  | [] => []
  | Flag _ :: l => value_of n l
  | Sep m v :: l | Equ m v :: l => if bool_decide (m = n) then v else value_of n l
  end.

Fixpoint del_value (n : bytes) (l : list item) : list item :=
  match l with
  | [] => []
  | Flag f :: l => Flag f :: del_value n l
  | Sep m v :: l => if bool_decide (m = n) then l else Sep m v :: del_value n l
  | Equ m v :: l => if bool_decide (m = n) then l else Equ m v :: del_value n l
  end.

Fixpoint has_flag (n : bytes) (l : list item) : bool :=
  match l with
  | [] => false
  | Flag f :: l => bool_decide (f = n) || has_flag n l
  | _ :: l => has_flag n l
  end.

Fixpoint del_flag (n : bytes) (l : list item) : list item :=
  match l with
  | [] => []
  | Flag f :: l => if bool_decide (f = n) then l else Flag f :: del_flag n l
  | i :: l => i :: del_flag n l
  end.

Definition no_equals (n : bytes) : Prop := Forall (fun c => c <> 61) n.

(** A command line that can be read without ambiguity, given the names of the
    flags and of the options with a value: names contain no equals sign, and
    a value given as a separate argument does not look like an option. *)
Record unambiguous (flags values : list bytes) (l : list item) : Prop := {
  ua_names : Forall no_equals (flags ++ values);
  ua_disjoint : forall n, n ∈ flags -> n ∉ values;
  ua_items : Forall (fun i =>
    match i with
    | Flag f => f ∈ flags
    | Sep n v => n ∈ values /\ (v ∉ flags) /\ Forall (fun m => arg_match m v = None) values
    | Equ n _ => n ∈ values
    end) l
}.

Lemma take_no_equals (m n : bytes) rest :
  no_equals m -> no_equals n -> take (length m + 1) (n ++ 61 :: rest) = m ++ [61] -> m = n.
Proof.
  revert n. induction m as [|a m IH]; intros [|b n] Hm Hn H; cbn in H.
  - done.
  - injection H as ->. inversion Hn; congruence.
  - injection H as <- _. inversion Hm; congruence.
  - injection H as -> H. inversion Hm; inversion Hn; subst. f_equal. by apply IH.
Qed.

Lemma arg_match_name m n : no_equals n -> m <> n -> arg_match m n = None.
Proof.
  intros Hn Hne. unfold arg_match. rewrite bool_decide_eq_false_2 by congruence.
  destruct (Nat.ltb_spec (length m) (length n)); [|done]. cbn [andb].
  rewrite bool_decide_eq_false_2; [done|]. intros H'.
  assert (H61 : 61 ∈ take (length m + 1) n) by (rewrite H'; set_solver).
  unfold no_equals in Hn. rewrite Forall_forall in Hn. destruct (Hn 61); [|done].
  rewrite <- (take_drop (length m + 1) n). set_solver.
Qed.

Lemma arg_match_equ m n v : no_equals m -> no_equals n -> m <> n -> arg_match m (n ++ 61 :: v) = None.
Proof.
  intros Hm Hn Hne. unfold arg_match. rewrite bool_decide_eq_false_2.
  2: { intros <-. unfold no_equals in Hm. apply Forall_app in Hm as [_ Hm]. inversion Hm. congruence. }
  destruct (_ <? _)%nat; [|done]. cbn [andb]. rewrite bool_decide_eq_false_2; [done|].
  intros H. by apply take_no_equals in H.
Qed.

Section CommandLine.
Context (flags values : list bytes).

Lemma ua_name_ok l n : unambiguous flags values l -> n ∈ flags \/ n ∈ values -> no_equals n.
Proof.
  intros [H _ _] Hn. rewrite Forall_forall in H. apply H. set_solver.
Qed.

Lemma ua_cons i l : unambiguous flags values (i :: l) -> unambiguous flags values l.
Proof. intros [H1 H2 H3]. inversion H3. by split. Qed.

(** An option with another name is not mistaken for [n]. *)
Lemma tokens1_no_match n i l :
  unambiguous flags values (i :: l) -> n ∈ values ->
  match i with Flag _ => True | Sep m _ | Equ m _ => m <> n end ->
  Forall (fun e => arg_match n e = None) (tokens1 i).
Proof.
  intros Hu Hn Hi. assert (Hname := fun n => ua_name_ok _ n Hu).
  destruct Hu as [_ Hd Hit]. inversion Hit as [|? ? Hok _]; subst.
  destruct i as [f|m v|m v]; cbn [tokens1].
  - constructor; [|constructor]. apply arg_match_name; [auto|]. intros ->. by apply (Hd f).
  - destruct Hok as (Hm & _ & Hv). rewrite Forall_forall in Hv.
    constructor; [apply arg_match_name; [auto|congruence]|]. constructor; [auto|constructor].
  - constructor; [|constructor]. apply arg_match_equ; auto.
Qed.

(** On a command line written option by option, in any order and in either
    notation, reading an option gives its first value (the default if it is not
    there) and leaves the command line without it. *)
Lemma getValueArg_items n l a0 :
  unambiguous flags values l -> n ∈ values ->
  getValueArg n false [] (Parser (tokens l) a0) = Ok (value_of n l, Parser (tokens (del_value n l)) a0).
Proof.
  intros Hu Hn.
  cut (forall pre, Forall (fun e => arg_match n e = None) pre ->
    getValueArg n false [] (Parser (pre ++ tokens l) a0)
      = Ok (value_of n l, Parser (pre ++ tokens (del_value n l)) a0)).
  { intros H. apply (H []). constructor. }
  induction l as [|i l IH]; intros pre Hp.
  - cbn. rewrite app_nil_r. by apply getValueArg_absent.
  - specialize (IH (ua_cons _ _ Hu)).
    assert (Hdec : Decision (match i with Flag _ => True | Sep m _ | Equ m _ => m <> n end))
      by (destruct i; apply _).
    destruct Hdec as [Hi|Hi].
    + assert (Ht := tokens1_no_match n i l Hu Hn Hi).
      specialize (IH (pre ++ tokens1 i)). rewrite <- !app_assoc in IH.
      rewrite Forall_app in IH. specialize (IH (conj Hp Ht)).
      destruct i as [f|m v|m v]; cbn [value_of del_value tokens1];
        rewrite ?(bool_decide_eq_false_2 (m = n)) by done; exact IH.
    + destruct i as [f|m v|m v]; [by destruct Hi| |]; apply dec_stable in Hi; subst m;
        cbn [value_of del_value]; rewrite bool_decide_eq_true_2 by done; cbn [tokens map tokens1 concat app].
      * by apply getValueArg_sep.
      * by apply getValueArg_eq.
Qed.

Lemma find_eq_skip n pre l pos :
  n ∉ pre -> find_eq n (pre ++ l) pos = find_eq n l (pos + length pre).
Proof.
  revert pos. induction pre as [|e pre IH]; intros pos H; cbn [app find_eq length].
  - by rewrite Nat.add_0_r.
  - rewrite bool_decide_eq_false_2 by set_solver. rewrite IH by set_solver. f_equal. lia.
Qed.

Lemma tokens1_not_flag n i l :
  unambiguous flags values (i :: l) -> n ∈ flags ->
  match i with Flag f => f <> n | _ => True end -> n ∉ tokens1 i.
Proof.
  intros Hu Hn Hi. assert (Hname := fun n => ua_name_ok _ n Hu).
  destruct Hu as [_ Hd Hit]. inversion Hit as [|? ? Hok _]; subst.
  destruct i as [f|m v|m v]; cbn [tokens1].
  - set_solver.
  - destruct Hok as (Hm & Hv & _). specialize (Hd n Hn). set_solver.
  - rewrite list_elem_of_singleton. intros ->. assert (Hq : no_equals (m ++ 61 :: v)) by auto.
    apply Forall_app in Hq as [_ Hq]. inversion Hq. congruence.
Qed.

Lemma getBoolArg_items n l a0 :
  unambiguous flags values l -> n ∈ flags ->
  getBoolArg n (Parser (tokens l) a0) = Ok (has_flag n l, Parser (tokens (del_flag n l)) a0).
Proof.
  intros Hu Hn.
  cut (forall pre, n ∉ pre -> getBoolArg n (Parser (pre ++ tokens l) a0)
      = Ok (has_flag n l, Parser (pre ++ tokens (del_flag n l)) a0)).
  { intros H. apply (H []). set_solver. }
  induction l as [|i l IH]; intros pre Hp.
  - cbn. rewrite app_nil_r. unfold getBoolArg. cbn [args].
    rewrite <- (app_nil_r pre), find_eq_skip by done. cbn. by rewrite app_nil_r.
  - specialize (IH (ua_cons _ _ Hu)).
    assert (Hdec : Decision (match i with Flag f => f <> n | _ => True end)) by (destruct i; apply _).
    destruct Hdec as [Hi|Hi].
    + assert (Ht := tokens1_not_flag n i l Hu Hn Hi).
      specialize (IH (pre ++ tokens1 i)). rewrite <- !app_assoc in IH.
      destruct i as [f|m v|m v]; cbn [has_flag del_flag tokens1];
        rewrite ?(bool_decide_eq_false_2 (f = n)) by done; apply IH; set_solver.
    + destruct i as [f|m v|m v]; [|by destruct Hi..]. apply dec_stable in Hi. subst f.
      cbn [has_flag del_flag]. rewrite bool_decide_eq_true_2 by done. cbn [orb tokens map tokens1 concat app].
      unfold getBoolArg. cbn [args arg0]. rewrite find_eq_skip by done. cbn [find_eq Nat.add].
      rewrite bool_decide_eq_true_2 by done. by rewrite vec_erase_mid.
Qed.

Lemma ua_del_value n l : unambiguous flags values l -> unambiguous flags values (del_value n l).
Proof.
  intros [H1 H2 H3]. split; [done..|]. induction H3 as [|i l Hi Hl IH]; [constructor|].
  destruct i; cbn [del_value]; [by constructor| |]; case_bool_decide; by try constructor.
Qed.

Lemma ua_del_flag n l : unambiguous flags values l -> unambiguous flags values (del_flag n l).
Proof.
  intros [H1 H2 H3]. split; [done..|]. induction H3 as [|i l Hi Hl IH]; [constructor|].
  destruct i; cbn [del_flag]; [case_bool_decide| |]; by try constructor.
Qed.

(** The pairs of a long and a short name. *)
Definition value2_of (long short : bytes) (l : list item) : bytes :=
  match value_of long l with [] => value_of short (del_value long l) | v => v end.

Definition del_value2 (long short : bytes) (l : list item) : list item :=
  del_value short (del_value long l).

Definition has_flag2 (long short : bytes) (l : list item) : bool := has_flag long l || has_flag short l.

Definition del_flag2 (long short : bytes) (l : list item) : list item :=
  if has_flag long l then del_flag long l else del_flag short l.

Lemma getValueArg2_items long short l a0 :
  unambiguous flags values l -> long ∈ values -> short ∈ values ->
  getValueArg2 long short false [] (Parser (tokens l) a0)
    = Ok (value2_of long short l, Parser (tokens (del_value2 long short l)) a0).
Proof.
  intros Hu Hl Hs. unfold getValueArg2. rewrite getValueArg_items by done. run_ok.
  rewrite getValueArg_items by auto using ua_del_value. run_ok. unfold value2_of.
  destruct (value_of long l); [|done]. by destruct (value_of short (del_value long l)).
Qed.

Lemma del_flag_none n l : has_flag n l = false -> del_flag n l = l.
Proof.
  induction l as [|i l IH]; [done|]. destruct i as [f| |]; cbn [has_flag del_flag].
  - case_bool_decide; [done|]. cbn [orb]. intros. by rewrite IH.
  - intros. by rewrite IH.
  - intros. by rewrite IH.
Qed.

Lemma getBoolArg2_items long short l a0 :
  unambiguous flags values l -> long ∈ flags -> short ∈ flags ->
  getBoolArg2 long short (Parser (tokens l) a0)
    = Ok (has_flag2 long short l, Parser (tokens (del_flag2 long short l)) a0).
Proof.
  intros Hu Hl Hs. unfold getBoolArg2. rewrite getBoolArg_items by done. run_ok.
  unfold has_flag2, del_flag2. destruct (has_flag long l) eqn:E; [done|].
  rewrite del_flag_none by done. by apply getBoolArg_items.
Qed.

Lemma ua_del_value2 long short l :
  unambiguous flags values l -> unambiguous flags values (del_value2 long short l).
Proof. intros. by do 2 apply ua_del_value. Qed.

Lemma ua_del_flag2 long short l :
  unambiguous flags values l -> unambiguous flags values (del_flag2 long short l).
Proof. intros. unfold del_flag2. destruct (has_flag long l); by apply ua_del_flag. Qed.

End CommandLine.

(** ** Reading one option does not disturb another *)

Lemma value_of_del_value n m l : n <> m -> value_of n (del_value m l) = value_of n l.
Proof.
  intros Hne. induction l as [|[f|k v|k v] l IH]; cbn [value_of del_value]; [done|done|..];
    destruct (bool_decide_reflect (k = m)) as [->|Hk]; cbn [value_of];
    rewrite ?(bool_decide_eq_false_2 (m = n)) by congruence; by rewrite ?IH.
Qed.

Lemma value_of_del_flag n m l : value_of n (del_flag m l) = value_of n l.
Proof.
  induction l as [|[f|k v|k v] l IH]; cbn [value_of del_flag]; [done|..].
  - by case_bool_decide.
  - by rewrite IH.
  - by rewrite IH.
Qed.

Lemma has_flag_del_value n m l : has_flag n (del_value m l) = has_flag n l.
Proof.
  induction l as [|[f|k v|k v] l IH]; cbn [has_flag del_value]; [done|by rewrite IH|..];
    by case_bool_decide.
Qed.

Lemma has_flag_del_flag n m l : n <> m -> has_flag n (del_flag m l) = has_flag n l.
Proof.
  intros Hne. induction l as [|[f|k v|k v] l IH]; cbn [has_flag del_flag]; [done| |done|done].
  destruct (bool_decide_reflect (f = m)) as [->|Hf]; cbn [has_flag];
    rewrite ?(bool_decide_eq_false_2 (m = n)) by congruence; [done|by rewrite IH].
Qed.

(** The setting an option with two names gives: the long name wins. *)
Definition setting (long short : bytes) (l : list item) : bytes :=
  match value_of long l with [] => value_of short l | v => v end.

Lemma value2_setting long short l : long <> short -> value2_of long short l = setting long short l.
Proof. intros. unfold value2_of, setting. by rewrite value_of_del_value. Qed.

Lemma setting_del_value2 long short m k l :
  long <> m -> long <> k -> short <> m -> short <> k ->
  setting long short (del_value2 m k l) = setting long short l.
Proof. intros. unfold setting, del_value2. by rewrite !value_of_del_value. Qed.

Lemma setting_del_flag long short m l : setting long short (del_flag m l) = setting long short l.
Proof. unfold setting. by rewrite !value_of_del_flag. Qed.

Lemma setting_del_flag2 long short m k l : setting long short (del_flag2 m k l) = setting long short l.
Proof. unfold del_flag2. destruct (has_flag m l); apply setting_del_flag. Qed.

Lemma has_flag2_del_flag2 long short m k l :
  long <> m -> long <> k -> short <> m -> short <> k ->
  has_flag2 long short (del_flag2 m k l) = has_flag2 long short l.
Proof. intros. unfold has_flag2, del_flag2. destruct (has_flag m l); by rewrite !has_flag_del_flag. Qed.

Lemma has_flag_del_flag2 n m k l : n <> m -> n <> k -> has_flag n (del_flag2 m k l) = has_flag n l.
Proof. intros. unfold del_flag2. destruct (has_flag m l); by rewrite !has_flag_del_flag. Qed.

Create Rewrite HintDb opts.
#[export] Hint Rewrite setting_del_flag setting_del_flag2 : opts.
#[export] Hint Rewrite setting_del_value2 has_flag2_del_flag2 has_flag_del_flag2 value2_setting
  using (vm_compute; discriminate) : opts.

Create HintDb opts discriminated.
#[export] Hint Resolve ua_del_value ua_del_value2 ua_del_flag ua_del_flag2 : opts.

(** ** A command line read to its end *)

Definition item_name (i : item) : bytes := match i with Flag n | Sep n _ | Equ n _ => n end.

Section ReadFully.
Context (flags values : list bytes).

(** What is left of a command line that gives no name twice, after the names
    in [seen] were read. *)
Definition unread (seen : list bytes) (l : list item) : Prop :=
  unambiguous flags values l /\ NoDup (map item_name l) /\ Forall (fun i => item_name i ∉ seen) l.

Lemma filter_name_absent n l : n ∉ map item_name l -> filter (fun i => item_name i <> n) l = l.
Proof.
  induction l as [|i l IH]; [done|]. cbn [map]. intros [Hi Hl]%not_elem_of_cons.
  rewrite filter_cons_True by congruence. by rewrite IH.
Qed.

Lemma sublist_names l l' : l `sublist_of` l' -> map item_name l `sublist_of` map item_name l'.
Proof. induction 1; cbn [map]; by constructor. Qed.

Lemma del_value_left n l :
  unambiguous flags values l -> n ∈ values -> NoDup (map item_name l) ->
  del_value n l = filter (fun i => item_name i <> n) l.
Proof.
  intros Hu Hn Hd. induction l as [|i l IH]; [done|].
  cbn [map] in Hd. apply NoDup_cons in Hd as [Hi Hd]. specialize (IH (ua_cons _ _ _ _ Hu) Hd).
  destruct Hu as [_ Hdis Hit]. inversion Hit as [|? ? Hok _]; subst.
  rewrite filter_cons. destruct i as [f|m v|m v]; cbn [del_value item_name] in *.
  - rewrite decide_True by (intros ->; by apply (Hdis n)). by rewrite IH.
  - case_bool_decide; case_decide; subst; try done; [by rewrite filter_name_absent|by rewrite IH].
  - case_bool_decide; case_decide; subst; try done; [by rewrite filter_name_absent|by rewrite IH].
Qed.

Lemma del_flag_left n l :
  unambiguous flags values l -> n ∈ flags -> NoDup (map item_name l) ->
  del_flag n l = filter (fun i => item_name i <> n) l.
Proof.
  intros Hu Hn Hd. induction l as [|i l IH]; [done|].
  cbn [map] in Hd. apply NoDup_cons in Hd as [Hi Hd]. specialize (IH (ua_cons _ _ _ _ Hu) Hd).
  destruct Hu as [_ Hdis Hit]. inversion Hit as [|? ? Hok _]; subst.
  rewrite filter_cons. destruct i as [f|m v|m v]; cbn [del_flag item_name] in *.
  - case_bool_decide; case_decide; subst; try done; [by rewrite filter_name_absent|by rewrite IH].
  - rewrite decide_True by (intros ->; destruct Hok; by apply (Hdis n)). by rewrite IH.
  - rewrite decide_True by (intros ->; by apply (Hdis n)). by rewrite IH.
Qed.

Lemma unread_filter n seen l l' :
  unread seen l -> unambiguous flags values l' -> l' = filter (fun i => item_name i <> n) l -> unread (n :: seen) l'.
Proof.
  intros (_ & Hd & Hs) Hu' ->. split; [done|]. split.
  - eapply sublist_NoDup; [exact Hd|]. apply sublist_names, sublist_filter.
  - apply Forall_forall. intros i [Hi Hl]%list_elem_of_filter. rewrite Forall_forall in Hs. set_solver.
Qed.

Lemma unread_value n seen l : unread seen l -> n ∈ values -> unread (n :: seen) (del_value n l).
Proof.
  intros H Hn. assert (H' := H). destruct H' as (Hu & Hd & _).
  apply (unread_filter n seen l); auto using ua_del_value, del_value_left.
Qed.

Lemma unread_value2 long short seen l :
  unread seen l -> long ∈ values -> short ∈ values -> unread (short :: long :: seen) (del_value2 long short l).
Proof. intros. by do 2 (apply unread_value; [|done]). Qed.

Lemma unread_flag n seen l : unread seen l -> n ∈ flags -> unread (n :: seen) (del_flag n l).
Proof.
  intros H Hn. assert (H' := H). destruct H' as (Hu & Hd & _).
  apply (unread_filter n seen l); auto using ua_del_flag, del_flag_left.
Qed.

(** A flag given by none of its names needs no reading. *)
Lemma unread_no_flag n seen l : unread seen l -> n ∈ flags -> has_flag n l = false -> unread (n :: seen) l.
Proof.
  intros H Hn Hf. rewrite <- (del_flag_none n l Hf). by apply unread_flag.
Qed.

Lemma unread_flag2 long short seen l :
  unread seen l -> long ∈ flags -> short ∈ flags -> long <> short ->
  has_flag long l && has_flag short l = false -> unread (short :: long :: seen) (del_flag2 long short l).
Proof.
  intros H Hl Hs Hne Hb. unfold del_flag2. destruct (has_flag long l) eqn:E.
  - apply unread_no_flag; [by apply unread_flag|done|]. by rewrite has_flag_del_flag by congruence.
  - apply unread_flag; [|done]. by apply unread_no_flag.
Qed.

Lemma unread_all seen l : unread seen l -> Forall (fun n => n ∈ seen) (flags ++ values) -> l = [].
Proof.
  intros ([_ _ Hit] & _ & Hs) Hsub. rewrite Forall_forall in Hsub. destruct l as [|i l]; [done|].
  inversion Hit; inversion Hs; subst. destruct i; cbn [item_name] in *; set_solver.
Qed.

End ReadFully.

End Opt.
