(* ===== verification/Config.v ===== *)
(** * Configuration files: [config.hpp]

    The client's and the server's configuration, loaded from and saved to an
    INI file through [boost::property_tree].  The library is not part of the
    sources: it is the interface [PropertyTree], whose laws are what its
    documentation promises of [get], [put], [read_ini] and [write_ini]. *)

From stdpp Require Import gmap.
From S2P Require Import Prelude RString.
Open Scope Z_scope.

Module Config.
Import RString.

(** ** The property tree *)

(** [ini_value]: the values an INI file can carry unchanged (one line, without
    surrounding white space).  [to_u16] and [to_int] are the translators behind
    [get<uint16_t>] and [get<int>]. *)
Class PropertyTree := {
  ptree : Type;
  file_system : Type;
  empty_tree : ptree;
  pt_get : ptree -> string -> option bytes;
  pt_put : ptree -> string -> bytes -> ptree;
  read_ini : file_system -> bytes -> outcome ptree;
  write_ini : file_system -> bytes -> ptree -> outcome file_system;
  to_u16 : bytes -> option Z;
  to_int : bytes -> option Z;
  ini_value : bytes -> Prop
}.

(** The paths that [config.hpp] uses, each a key in a section. *)
Definition config_keys : list string :=
  ["server.ip"; "server.port"; "server.passphrase"; "socks5.ip"; "socks5.port";
   "core.module"; "core.nx_retry"; "core.debugLevel"; "core.logFile";
   "core.ip"; "core.port"; "core.passphrase"; "extra.debugLevel"; "extra.logFile"].

(** The trees that [put] makes with these paths. *)
Inductive made `{!PropertyTree} : ptree -> Prop :=
| made_empty : made empty_tree
| made_put t k v : made t -> k ∈ config_keys -> made (pt_put t k v).

(** What the library promises of these paths and of the trees made with them:
    none of the paths leads to or through the node of another. *)
Class PropertyTreeLaws `{!PropertyTree} := {
  get_empty k : k ∈ config_keys -> pt_get empty_tree k = None;
  get_put_same t k v : made t -> k ∈ config_keys -> pt_get (pt_put t k v) k = Some v;
  get_put_other t k k' v :
    made t -> k ∈ config_keys -> k' ∈ config_keys -> k <> k' -> pt_get (pt_put t k v) k' = pt_get t k';
  read_written fs fs' path t :
    made t -> write_ini fs path t = Ok fs' -> (forall k v, k ∈ config_keys -> pt_get t k = Some v -> ini_value v) ->
    exists t', read_ini fs' path = Ok t' /\ forall k, k ∈ config_keys -> pt_get t' k = pt_get t k;
  to_u16_text z : 0 <= z < 2 ^ 16 -> to_u16 (to_string z) = Some z;
  to_int_text z : - 2 ^ 31 <= z < 2 ^ 31 -> to_int (to_string z) = Some z
}.

(** A member of a class type without initialiser, before and after its first
    assignment; reading it before is undefined. *)
Definition init {A} (m : option A) : outcome A :=
  match m with Some a => Ok a | None => Undefined Uninitialised end.

Record client_config := ClientConfig {
  serverIp : bytes;
  serverPort : option Z;
  passphrase : bytes;
  bindIp : bytes;
  bindPort : option Z;
  modulePath : bytes;
  retryResolve : option bool;
  debugLevel : option Z;
  logFile : bytes
}.

(** [client_config conf;] *)
Definition new_client_config : client_config := ClientConfig [] None [] [] None [] None None [].

Record server_config := ServerConfig {
  srv_bindIp : bytes;
  srv_bindPort : option Z;
  srv_passphrase : bytes;
  srv_modulePath : bytes;
  srv_debugLevel : option Z;
  srv_logFile : bytes
}.

Definition new_server_config : server_config := ServerConfig [] None [] [] None [].

Section Files.
Context `{!PropertyTree}.

(** [tree.get<std::string>(path)] *)
Definition get_string (t : ptree) (path : string) : outcome bytes :=
  match pt_get t path with
  | Some v => Ok v
  | None => Throw (runtime_error (String.append "No such node " path))
  end.

(** [tree.get<uint16_t>(path)] *)
Definition get_u16 (t : ptree) (path : string) : outcome Z :=
  v ← get_string t path;
  match to_u16 v with
  | Some z => Ok z
  | None => Throw (runtime_error "conversion of data failed")
  end.

(** [tree.get(path, def)] for a string and for an [int]. *)
Definition get_string_def (t : ptree) (path : string) (def : bytes) : bytes := default def (pt_get t path).
Definition get_int_def (t : ptree) (path : string) (def : Z) : Z :=
  default def (v ← pt_get t path; to_int v).

(** [client_config::load] *)
Definition client_load (fs : file_system) (confPath : bytes) : outcome client_config :=
  tree ← read_ini fs confPath;
  serverIp ← get_string tree "server.ip";
  serverPort ← get_u16 tree "server.port";
  passphrase ← get_string tree "server.passphrase";
  bindIp ← get_string tree "socks5.ip";
  bindPort ← get_u16 tree "socks5.port";
  modulePath ← get_string tree "core.module";
  nx_retry ← get_string tree "core.nx_retry";
  mret (ClientConfig serverIp (Some serverPort) passphrase bindIp (Some bindPort) modulePath
          (Some (bool_decide (nx_retry = bytes_of_string "true")))
          (Some (get_int_def tree "core.debugLevel" 1))
          (get_string_def tree "core.logFile" [])).

(** [client_config::save] *)
Definition client_save (fs : file_system) (c : client_config) (confPath : bytes) : outcome file_system :=
  port ← init (serverPort c);
  bport ← init (bindPort c);
  retry ← init (retryResolve c);
  level ← init (debugLevel c);
  let tree := pt_put empty_tree "server.ip" (serverIp c) in
  let tree := pt_put tree "server.port" (to_string port) in
  let tree := pt_put tree "server.passphrase" (passphrase c) in
  let tree := pt_put tree "socks5.ip" (bindIp c) in
  let tree := pt_put tree "socks5.port" (to_string bport) in
  let tree := pt_put tree "core.module" (modulePath c) in
  let tree := pt_put tree "core.nx_retry" (bytes_of_string (if retry : bool then "true" else "false")) in
  let tree := pt_put tree "core.debugLevel" (to_string level) in
  let tree := pt_put tree "core.logFile" (logFile c) in
  write_ini fs confPath tree.

(** [server_config::load] *)
Definition server_load (fs : file_system) (confPath : bytes) : outcome server_config :=
  tree ← read_ini fs confPath;
  let bindIp := get_string_def tree "core.ip" (bytes_of_string "::0") in
  bindPort ← get_u16 tree "core.port";
  passphrase ← get_string tree "core.passphrase";
  modulePath ← get_string tree "core.module";
  mret (ServerConfig bindIp (Some bindPort) passphrase modulePath
          (Some (get_int_def tree "extra.debugLevel" 1))
          (get_string_def tree "extra.logFile" [])).

(** [server_config::save] *)
Definition server_save (fs : file_system) (c : server_config) (confPath : bytes) : outcome file_system :=
  bport ← init (srv_bindPort c);
  level ← init (srv_debugLevel c);
  let tree := pt_put empty_tree "core.ip" (srv_bindIp c) in
  let tree := pt_put tree "core.port" (to_string bport) in
  let tree := pt_put tree "core.passphrase" (srv_passphrase c) in
  let tree := pt_put tree "core.module" (srv_modulePath c) in
  let tree := pt_put tree "extra.debugLevel" (to_string level) in
  let tree := pt_put tree "extra.logFile" (srv_logFile c) in
  write_ini fs confPath tree.

End Files.

(** ** Saved configurations load again *)

Section RoundTrip.
Context {PT : PropertyTree} {PL : PropertyTreeLaws}.

(** Settings that are initialised, of their width, and printable to a file. *)
Definition client_ok (c : client_config) : Prop :=
  (exists p q r d, serverPort c = Some p /\ bindPort c = Some q /\ retryResolve c = Some r /\
     debugLevel c = Some d /\ 0 <= p < 2 ^ 16 /\ 0 <= q < 2 ^ 16 /\ - 2 ^ 31 <= d < 2 ^ 31 /\
     ini_value (to_string p) /\ ini_value (to_string q) /\ ini_value (to_string d) /\
     ini_value (bytes_of_string (if r : bool then "true" else "false"))) /\
  ini_value (serverIp c) /\ ini_value (passphrase c) /\ ini_value (bindIp c) /\
  ini_value (modulePath c) /\ ini_value (logFile c).

Definition server_ok (c : server_config) : Prop :=
  (exists q d, srv_bindPort c = Some q /\ srv_debugLevel c = Some d /\
     0 <= q < 2 ^ 16 /\ - 2 ^ 31 <= d < 2 ^ 31 /\ ini_value (to_string q) /\ ini_value (to_string d)) /\
  ini_value (srv_bindIp c) /\ ini_value (srv_passphrase c) /\ ini_value (srv_modulePath c) /\
  ini_value (srv_logFile c).

(** A tree made with values that an INI file can carry. *)
Definition printable (t : ptree) : Prop :=
  made t /\ forall k v, k ∈ config_keys -> pt_get t k = Some v -> ini_value v.

Lemma printable_put t k v : printable t -> k ∈ config_keys -> ini_value v -> printable (pt_put t k v).
Proof using PL.
  intros [Hm Ht] Hk Hv. split; [by constructor|]. intros k' v' Hk'. destruct (decide (k = k')) as [<-|Hne].
  - rewrite get_put_same by done. by intros [= <-].
  - rewrite get_put_other by done. by apply Ht.
Qed.

Lemma printable_empty : printable empty_tree.
Proof using PL. split; [constructor|]. intros k v Hk. by rewrite get_empty. Qed.

(** The value of a path in a tree built by a list of [put]s, and the tree. *)
Definition puts (l : list (string * bytes)) : ptree := foldl (fun t kv => pt_put t kv.1 kv.2) empty_tree l.

Lemma puts_snoc l k v : puts (l ++ [(k, v)]) = pt_put (puts l) k v.
Proof. unfold puts. by rewrite foldl_app. Qed.

Lemma puts_printable l :
  Forall (fun kv => kv.1 ∈ config_keys /\ ini_value kv.2) l -> printable (puts l).
Proof using PL.
  induction l as [|[k v] l IH] using rev_ind; [intros; apply printable_empty|].
  intros [Hl Hkv]%Forall_app. apply Forall_singleton in Hkv as [Hk Hv]. rewrite puts_snoc. by apply printable_put; [apply IH|..].
Qed.

Lemma puts_get l k :
  Forall (fun kv => kv.1 ∈ config_keys /\ ini_value kv.2) l -> k ∈ config_keys ->
  pt_get (puts l) k = foldl (fun r kv => if decide (kv.1 = k) then Some kv.2 else r) None l.
Proof using PL.
  intros Hl Hk. induction l as [|[k' v] l IH] using rev_ind; [by apply get_empty|].
  pose proof Hl as [Hl0 Hkv]%Forall_app. apply Forall_singleton in Hkv as [Hk' Hv].
  rewrite puts_snoc, foldl_app. cbn [foldl fst snd]. destruct (puts_printable l Hl0) as [Hm _]. case_decide as E.
  - cbn in E. subst. by rewrite get_put_same.
  - by rewrite get_put_other, IH.
Qed.

(** What was written comes back. *)
Lemma written_puts fs fs' path l :
  Forall (fun kv => kv.1 ∈ config_keys /\ ini_value kv.2) l -> write_ini fs path (puts l) = Ok fs' ->
  exists t, read_ini fs' path = Ok t /\ forall k, k ∈ config_keys ->
    pt_get t k = foldl (fun r kv => if decide (kv.1 = k) then Some kv.2 else r) None l.
Proof using PL.
  intros Hl Hw. destruct (puts_printable l Hl) as [Hm Hv].
  destruct (read_written fs fs' path (puts l) Hm Hw Hv) as (t & Hr & Ht).
  exists t. split; [done|]. intros k Hk. by rewrite Ht, puts_get.
Qed.

(** Decide which [put]s were of the path looked up. *)
Ltac pick_key := repeat first [rewrite decide_True by done | rewrite decide_False by done].
Ltac is_key := apply (bool_decide_unpack _); vm_compute; reflexivity.

(** C27: what [save] writes [load] reads back, setting by setting, for the
    client's configuration and for the server's. *)
Theorem config_roundtrip fs path :
  (forall c fs', client_ok c -> client_save fs c path = Ok fs' -> client_load fs' path = Ok c) /\
  (forall c fs', server_ok c -> server_save fs c path = Ok fs' -> server_load fs' path = Ok c).
Proof using PL.
  split.
  - intros [ip p0 pass bip q0 md r0 d0 lf] fs'.
    intros [(p & q & r & d & Hp0 & Hq0 & Hr0 & Hd0 & Hp & Hq & Hd & Vp & Vq & Vd & Vr) (V1 & V2 & V3 & V4 & V5)].
    cbn [serverIp serverPort passphrase bindIp bindPort modulePath retryResolve debugLevel logFile] in *. subst.
    unfold client_save. cbn [serverIp serverPort passphrase bindIp bindPort modulePath retryResolve
      debugLevel logFile init mbind outcome_bind]. intros Hw.
    destruct (written_puts fs fs' path
      [("server.ip", ip); ("server.port", to_string p); ("server.passphrase", pass); ("socks5.ip", bip);
       ("socks5.port", to_string q); ("core.module", md); ("core.nx_retry", bytes_of_string (if r : bool then "true" else "false"));
       ("core.debugLevel", to_string d); ("core.logFile", lf)]) as (t' & Hread & Ht');
      [repeat (constructor; [split; [is_key|assumption]|]); constructor|exact Hw|].
    unfold client_load, get_u16, get_int_def, get_string_def, get_string. rewrite Hread. run_ok.
    rewrite !Ht' by is_key. cbn [foldl fst snd]. pick_key. run_ok. rewrite !to_u16_text by done. run_ok.
    cbn. rewrite to_int_text by done. do 2 f_equal. f_equal. by destruct r.
  - intros [bip q0 pass md d0 lf] fs'.
    intros [(q & d & Hq0 & Hd0 & Hq & Hd & Vq & Vd) (V1 & V2 & V3 & V4)].
    cbn [srv_bindIp srv_bindPort srv_passphrase srv_modulePath srv_debugLevel srv_logFile] in *. subst.
    unfold server_save. cbn [srv_bindIp srv_bindPort srv_passphrase srv_modulePath srv_debugLevel
      srv_logFile init mbind outcome_bind]. intros Hw.
    destruct (written_puts fs fs' path
      [("core.ip", bip); ("core.port", to_string q); ("core.passphrase", pass); ("core.module", md);
       ("extra.debugLevel", to_string d); ("extra.logFile", lf)]) as (t' & Hread & Ht');
      [repeat (constructor; [split; [is_key|assumption]|]); constructor|exact Hw|].
    unfold server_load, get_u16, get_int_def, get_string_def, get_string. rewrite Hread. run_ok.
    rewrite !Ht' by is_key. cbn [foldl fst snd]. pick_key. run_ok. rewrite !to_u16_text by done. run_ok.
    cbn. by rewrite to_int_text by done.
Qed.

End RoundTrip.

(** ** A property tree *)

(** A path up to its first dot, and after it. *)
Fixpoint split_path (k : string) : string * option string :=
  match k with
  | EmptyString => (EmptyString, None)
  | String c k =>
      if decide (c = Ascii.ascii_of_nat 46) then (EmptyString, Some k)
      else let '(a, b) := split_path k in (String c a, b)
  end.

Lemma config_keys_paths k : k ∈ config_keys -> exists a b, split_path k = (a, Some b).
Proof.
  intros Hk. assert (H : Forall (fun k => bool_decide (is_Some (split_path k).2)) config_keys)
    by (repeat constructor).
  apply (proj1 (Forall_forall _ _) H), bool_decide_unpack in Hk as [b Hb].
  exists (split_path k).1, b. destruct (split_path k). cbn in *. by rewrite Hb.
Qed.

Lemma config_keys_inj k k' : k ∈ config_keys -> k' ∈ config_keys -> split_path k = split_path k' -> k = k'.
Proof.
  assert (H : Forall (fun k => Forall (fun k' => split_path k = split_path k' -> k = k') config_keys) config_keys)
    by (apply (bool_decide_unpack _); vm_compute; reflexivity).
  intros Hk Hk'. apply (proj1 (Forall_forall _ _) H) in Hk. by apply (proj1 (Forall_forall _ _) Hk).
Qed.

(** A tree of sections, which have a value of their own besides their keys;
    [put] makes the section of a key.  A file keeps the tree written to it. *)
Abbreviation section_map := (gmap string (bytes * gmap string bytes)).

Definition sections_get (t : section_map) (k : string) : option bytes :=
  match split_path k with
  | (a, None) => fst <$> t !! a
  | (a, Some b) => s ← t !! a; s.2 !! b
  end.

Definition sections_put (t : section_map) (k : string) (v : bytes) : section_map :=
  match split_path k with
  | (a, None) => <[a := (v, (default ([], ∅) (t !! a)).2)]> t
  | (a, Some b) => let s := default ([], ∅) (t !! a) in <[a := (s.1, <[b := v]> s.2)]> t
  end.

#[export] Instance section_tree : PropertyTree := {
  ptree := section_map;
  file_system := gmap bytes section_map;
  empty_tree := ∅;
  pt_get := sections_get;
  pt_put := sections_put;
  read_ini fs path := match fs !! path with Some t => Ok t | None => Throw (runtime_error "cannot open file") end;
  write_ini fs path t := Ok (<[path := t]> fs);
  to_u16 b := match stoi b with Ok z => if (0 <=? z) && (z <? 2 ^ 16) then Some z else None | _ => None end;
  to_int b := match stoi b with Ok z => Some z | _ => None end;
  ini_value v := 10 ∉ v
}.

#[export] Instance section_tree_laws : PropertyTreeLaws.
Proof.
  split.
  - intros k Hk. cbn. unfold sections_get. by destruct (config_keys_paths k Hk) as (a & b & ->).
  - intros t k v _ Hk. cbn. unfold sections_get, sections_put. destruct (config_keys_paths k Hk) as (a & b & ->).
    rewrite lookup_insert_eq. cbn. by rewrite lookup_insert_eq.
  - intros t k k' v _ Hk Hk' Hne. cbn in t |- *. unfold sections_get, sections_put.
    assert (Hs : split_path k <> split_path k') by (intros E; by apply Hne, config_keys_inj).
    destruct (config_keys_paths k Hk) as (a & b & E), (config_keys_paths k' Hk') as (a' & b' & E'). rewrite E, E' in *.
    destruct (decide (a = a')) as [<-|]; [|by rewrite lookup_insert_ne].
    rewrite lookup_insert_eq. cbn. rewrite lookup_insert_ne by congruence. destruct (t !! a); [done|apply lookup_empty].
  - intros fs fs' path t _ [= <-] _. exists t. split; [cbn; by rewrite lookup_insert_eq|done].
  - intros z Hz. cbn. unfold stoi, stox. rewrite strtol_to_string by lia.
    destruct (Z.ltb_spec z 0); [lia|]. rewrite Z.abs_eq by lia.
    destruct (Z.leb_spec (- 2 ^ 31) z); [|lia]. destruct (Z.leb_spec z (2 ^ 31 - 1)); [|lia]. cbn [andb].
    destruct (Z.leb_spec 0 z); [|lia]. by destruct (Z.ltb_spec z (2 ^ 16)); [|lia].
  - intros z Hz. cbn. unfold stoi, stox. rewrite strtol_to_string by lia.
    replace (if z <? 0 then - Z.abs z else Z.abs z) with z by (destruct (Z.ltb_spec z 0); lia).
    destruct (Z.leb_spec (- 2 ^ 31) z); [|lia]. by destruct (Z.leb_spec z (2 ^ 31 - 1)); [|lia].
Qed.

Definition sample_conf : client_config :=
  ClientConfig [49] (Some 443) [107] [108] (Some 1080) [109] (Some true) (Some 2) [].

Lemma sample_conf_ok : client_ok sample_conf.
Proof.
  split.
  - exists 443, 1080, true, 2. repeat split; try lia; by apply (bool_decide_unpack _).
  - repeat split; by apply (bool_decide_unpack _).
Qed.

Lemma config_roundtrip_witness :
  client_ok sample_conf /\
  (fs' ← client_save ∅ sample_conf [99]; client_load fs' [99]) = Ok sample_conf.
Proof.
  split; [exact sample_conf_ok|].
  destruct (client_save ∅ sample_conf [99]) as [fs'| | |] eqn:E; [|discriminate E..].
  exact (proj1 (config_roundtrip ∅ [99]) sample_conf fs' sample_conf_ok E).
Defined.

End Config.
