(* ===== verification/Usage.v ===== *)
(** * The usage texts: [display_usage] of [client.cc] and [server.cc]

    The texts as the preprocessor puts them together, and [documented], which
    reads the options off a text, as a user does. *)

From stdpp Require Import sets list.
From S2P Require Import Prelude RString.
Open Scope Z_scope.

Module Usage.

Definition newline : Z := 10.
Definition line (s : string) : bytes := bytes_of_string s ++ [newline].

Section Texts.
(** The macros [SK_VERSION] and [COMPILE_TIME], where the build defines them,
    and whether [RLIB_OS_ID] is [OS_WINDOWS]. *)
Context (SK_VERSION COMPILE_TIME : option bytes) (windows : bool).

Definition ifdef (m : option bytes) (pre : string) (post : bytes) : bytes :=
  match m with Some v => bytes_of_string pre ++ v ++ post | None => [] end.

(** Both texts begin with the name and the build. *)
Definition banner (name : string) : bytes :=
  bytes_of_string name ++ ifdef SK_VERSION " " [] ++
  (if windows then bytes_of_string " Windows Edition" else []) ++ [newline] ++
  ifdef COMPILE_TIME "Compiled at UTC " [newline] ++ [newline].

Definition client_options : bytes :=
  line "Usage: skcli [OPTION...]" ++
  line "A extensible proxy which supports module-defined protocol behavior." ++
  line "You can install and run module easily from configuration file," ++
  line "to determine how packets are encrypted, transmitted, etc." ++ [newline] ++
  line "Options:" ++
  line "-s --server <server address>    Server ip or domain" ++
  line "-p --server-port <server port>  Server listening port" ++
  line "-k --passphrase <passphrase>    Passphrase" ++
  line "-L --listen <listen address>    Local address that socks5 server listens on" ++
  line "-P --listen-port <listen port>  Local port that socks5 server listens on" ++
  line "-D --debug <debug level>        Debug level to set (0/1/2/3/4)" ++
  line "-m --mod <path to module>       Module path" ++
  line "   --retry                      Retry infinitely if a domain cannot be resolved" ++
  (if windows then
     line "-c --conf <config file path>    Path to config file(default: conf\client.conf)" ++
     line "                                    Use '-c NULL' to prevent me looking for client.conf"
   else
     line "-c --conf <config file path>    Path to config file (default: /etc/snakesocks/conf/client.conf)" ++
     line "                                    Use '-c NULL' to prevent me looking for client.conf" ++
     line "-d --daemon                     Run client as daemon" ++
     line "-l --log <log file name>        Log file for daemon mode, use stdout if not set") ++
  line "-h --help                       Show this message" ++ [newline] ++
  line "Published on GNU license V2.".

Definition client_usage : bytes := banner "SnakeSocks client" ++ client_options.

Definition server_options : bytes :=
  line "Usage: sksrv [OPTION...]" ++
  line "A extensible proxy which supports module-defined protocol behavior." ++
  line "You can install and run module easily from configuration file," ++
  line "to determine how packets are encrypted, transmitted, etc." ++ [newline] ++
  line "Options:" ++
  line "-L --listen <listen address>    Local address that socks5 server listens on (default ::0)" ++
  line "-P --listen-port <listen port>  Local port that socks5 server listens on" ++
  line "-k --passphrase <passphrase>    Passphrase" ++
  line "-D --debug <debug level>        Debug level to set (0/1/2/3/4)" ++
  line "-m --mod <path to module>       Module path" ++ [newline] ++
  (if windows then
     line "-c --conf <config file path>    Path to config file(default: conf\server.conf)" ++
     line "                                    Use '-c NULL' to prevent me looking for server.conf"
   else
     line "-c --conf <config file path>    Path to config file(default: /etc/snakesocks/conf/server.conf)" ++
     line "                                    Use '-c NULL' to prevent me looking for server.conf" ++
     line "-d --daemon                     Run server as daemon" ++
     line "-l --log <log file name>        Log file for daemon mode, use stdout if not set") ++
  line "-h --help                       Show this message" ++ [newline] ++
  line "Published on GNU license V2.".

Definition server_usage : bytes := banner "SnakeSocks server" ++ server_options.

End Texts.

(** ** The options a text documents *)

(** A text cut at the character [c]. *)
Fixpoint pieces (c : Z) (cur l : bytes) : list bytes :=
  match l with
  | [] => [cur]
  | x :: l => if x =? c then cur :: pieces c [] l else pieces c (cur ++ [x]) l
  end.

Definition words (l : bytes) : list bytes := filter (fun w => w <> []) (pieces 32 [] l).

(** A line documents an option when its first words begin with a dash: these
    are the names; a word in angle brackets after them stands for a value. *)
Definition begins (c : Z) (w : bytes) : bool := match w with x :: _ => x =? c | [] => false end.

Fixpoint names_of (ws : list bytes) : list bytes * bool :=
  match ws with
  | [] => ([], false)
  | w :: ws => if begins 45 w then let '(ns, v) := names_of ws in (w :: ns, v) else ([], begins 60 w)
  end.

(** The flags and the options with a value, in the order of the text. *)
Fixpoint documented_in (ls : list bytes) : list bytes * list bytes :=
  match ls with
  | [] => ([], [])
  | l :: ls =>
      let '(ns, v) := names_of (words l) in
      let '(flags, values) := documented_in ls in
      if v : bool then (flags, ns ++ values) else (ns ++ flags, values)
  end.

Definition documented (text : bytes) : list bytes * list bytes := documented_in (pieces newline [] text).

(** ** Reading the texts *)

Lemma pieces_line l cur rest :
  newline ∉ l -> pieces newline cur (l ++ newline :: rest) = (cur ++ l) :: pieces newline [] rest.
Proof.
  revert cur. induction l as [|x l IH]; intros cur Hl; cbn [app pieces].
  - by rewrite app_nil_r.
  - apply not_elem_of_cons in Hl as [Hx Hl]. destruct (Z.eqb_spec x newline); [congruence|].
    rewrite IH by done. by rewrite <- app_assoc.
Qed.

Lemma pieces_head c cur l : exists w ws, pieces c cur l = (cur ++ w) :: ws.
Proof.
  revert cur. induction l as [|x l IH]; intros cur; cbn [pieces].
  - exists [], []. by rewrite app_nil_r.
  - destruct (x =? c).
    + exists [], (pieces c [] l). by rewrite app_nil_r.
    + destruct (IH (cur ++ [x])) as (w & ws & ->). exists (x :: w), ws. by rewrite <- app_assoc.
Qed.

(** A line that begins with a letter names no option. *)
Lemma names_of_text x l : x <> 45 -> x <> 60 -> x <> 32 -> names_of (words (x :: l)) = ([], false).
Proof.
  intros H1 H2 H3. unfold words. cbn [pieces app]. destruct (Z.eqb_spec x 32); [done|].
  destruct (pieces_head 32 [x] l) as (w & ws & ->). rewrite filter_cons_True by done.
  cbn [app names_of begins]. by destruct (Z.eqb_spec x 45), (Z.eqb_spec x 60).
Qed.

Lemma documented_line x l rest :
  newline ∉ x :: l -> x <> 45 -> x <> 60 -> x <> 32 ->
  documented ((x :: l) ++ newline :: rest) = documented rest.
Proof.
  intros Hn H1 H2 H3. unfold documented. rewrite pieces_line by done. cbn [app documented_in].
  rewrite names_of_text by done. by destruct (documented_in _).
Qed.

Lemma documented_empty rest : documented (newline :: rest) = documented rest.
Proof. unfold documented. cbn. by destruct (documented_in _). Qed.

(** The build's macros expand to text within a line. *)
Definition one_line (m : option bytes) : Prop := match m with Some v => newline ∉ v | None => True end.

Lemma documented_ifdef m x s rest :
  newline ∉ x :: bytes_of_string s -> x <> 45 -> x <> 60 -> x <> 32 -> one_line m ->
  documented (match m with Some v => (x :: bytes_of_string s) ++ v ++ [newline] | None => [] end ++ rest)
  = documented rest.
Proof.
  intros Hs H1 H2 H3 Hm. destruct m as [v|]; [|done].
  rewrite <- !app_assoc. cbn [app]. rewrite app_comm_cons, app_assoc, <- app_comm_cons.
  rewrite documented_line; [done| |done..]. cbn [one_line] in Hm. set_solver.
Qed.

Lemma documented_banner ver tm win s rest :
  one_line ver -> one_line tm -> bool_decide (newline ∉ bytes_of_string s) = true ->
  match bytes_of_string s with x :: _ => x <> 45 /\ x <> 60 /\ x <> 32 | [] => False end ->
  documented (banner ver tm win s ++ rest) = documented rest.
Proof.
  intros Hv Ht Hs Hx. apply bool_decide_eq_true in Hs. unfold banner.
  destruct (bytes_of_string s) as [|x l]; [done|]. destruct Hx as (H1 & H2 & H3).
  set (W := if win then _ else _). rewrite <- !app_assoc.
  transitivity (documented ((x :: l ++ ifdef ver " " [] ++ W) ++
    newline :: (ifdef tm "Compiled at UTC " [newline] ++ newline :: rest))).
  { f_equal. cbn [app]. by rewrite <- !app_assoc. }
  rewrite documented_line; [|clear H1 H2 H3|done..].
  - unfold ifdef. change (bytes_of_string "Compiled at UTC ") with (67 :: bytes_of_string "ompiled at UTC ").
    rewrite documented_ifdef; [apply documented_empty| |done..].
    by apply (bool_decide_unpack _).
  - rewrite app_comm_cons, !elem_of_app. intros [Hin|[Hin|Hin]]; [done|..].
    + destruct ver as [v|]; cbn [ifdef one_line] in *; [|by apply elem_of_nil in Hin].
      rewrite app_nil_r in Hin. set_solver.
    + revert Hin. subst W. destruct win; by apply (bool_decide_unpack _).
Qed.

End Usage.
