(* ===== verification/Programs.v ===== *)
(** * The two programs: [client.cc], [server.cc] and [syserr.hpp]

    [main] of the client and of the server: reading the command line, merging
    it with the configuration file, detaching, redirecting the log, and
    starting the listener of [Socks5] or of [Tunnel]. *)

From stdpp Require Import gmap.
From S2P Require Import Prelude ModuleApi SockIO NetLib Tunnel Socks5 RString Log Opt Config Usage.
Open Scope Z_scope.

Module Programs.
Import ModuleApi SockIO NetLib RString.

(** ** State and environment *)

(** The output streams and the logger [rlog], whether the process detached, and
    the network with the tasks started on it. *)
Record prog := Prog {
  plog : Log.log_world;
  rlog : Log.logger;
  detached : bool;
  net : list Z * world
}.

Section Program.
Context {PT : Config.PropertyTree}.

(** What the build and the system provide: the macros [SK_VERSION] and
    [COMPILE_TIME], the clock, the text [die] puts before its message
    (file, line and errno), the files, the results of [daemon] and of opening a
    log file (with the number of the new stream), the dynamic loader, and the
    calls of the network components. *)
Record env := Env {
  macros : option bytes * option bytes;
  strftime : Z -> bytes;
  now : Z;
  die_prefix : bytes;
  fs : Config.file_system;
  daemon_ok : bool;
  opens : bytes -> bool;
  new_stream : Z;
  dlopen : string -> option dylib;
  getaddrinfo : bytes -> bytes -> bool -> Z + list addrinfo;
  sys_listen : Z -> bool;
  resolve : nat -> bytes -> outcome (list ip_address);
  attempts : nat
}.

Variable e : env.

Definition say (level : Z) (msg : bytes) (args : list bytes) : st prog unit := fun p =>
  let '(o, w) := Log.log (strftime e) (now e) (rlog p) level msg args (plog p) in
  (o, Prog w (rlog p) (detached p) (net p)).

Definition set_rlog (l : Log.logger) : st prog unit := fun p =>
  (Ok tt, Prog (plog p) l (detached p) (net p)).

Definition set_level (level : Z) : st prog unit := fun p =>
  set_rlog (Log.set_log_level (rlog p) level) p.

(** [rlib::print(text)]: the text goes to [std::cout] as it is. *)
Definition print (text : bytes) : st prog unit := fun p =>
  (Ok tt, Prog (Log.print_to Log.cout text (plog p)) (rlog p) (detached p) (net p)).

(** [display_usage] of the client and of the server. *)
Definition client_display_usage : st prog unit := print (Usage.client_usage (macros e).1 (macros e).2 false).
Definition server_display_usage : st prog unit := print (Usage.server_usage (macros e).1 (macros e).2 false).

Definition run_net {A} (m : st (list Z * world) A) : st prog A := fun p =>
  let '(o, n) := m (net p) in (o, Prog (plog p) (rlog p) (detached p) n).

(** A component that logs: it sees the level of the program's logger. *)
Definition run_logging {A} (m : Log.Rlog -> st (list Z * world) A) : st prog A := fun p =>
  run_net (m {| Log.cur_level := Log.log_level (rlog p); Log.err_prefix := die_prefix e |}) p.

(** The macros [die] and [sysdie]. *)
Definition die {A} (msg : bytes) : st prog A :=
  let errmsg := die_prefix e ++ msg in
  _ ← say Log.FATAL errmsg [];
  throw (runtime_error (string_of_bytes errmsg)).

Definition call_daemon : st prog unit := fun p =>
  if daemon_ok e then (Ok tt, Prog (plog p) (rlog p) true (net p))
  else die (bytes_of_string "Failed to launch daemon.") p.

(** [rlog = rlib::logger(f)] *)
Definition open_log (f : bytes) : st prog unit := fun p =>
  let '(o, w) := Log.logger_file (new_stream e) (opens e f) f (plog p) in
  (l ← lift o; set_rlog (Log.logger_assign (rlog p) l).1) (Prog w (rlog p) (detached p) (net p)).

(** [rlog.info("Log redirected to {}."_format(f)); rlog = rlib::logger(f);] *)
Definition redirect_log (f : bytes) : st prog unit :=
  msg ← lift (format_string (bytes_of_string "Log redirected to {}.") [f]);
  _ ← say Log.INFO msg [];
  open_log f.

(** [if(!logFile.empty()) {...}] *)
Definition redirect_if (f : bytes) : st prog unit :=
  match f with [] => mret tt | _ => redirect_log f end.

(** The [switch] on the debug level in [skcli_main] and [sksrv_main]. *)
Definition set_debug_level (debugLevel : Z) : st prog unit :=
  if debugLevel =? 0 then set_level Log.FATAL
  else if debugLevel =? 1 then set_level Log.ERROR
  else if debugLevel =? 2 then set_level Log.INFO
  else if (debugLevel =? 3) || (debugLevel =? 4) then set_level Log.DEBUG
  else
    msg ← lift (format_string (bytes_of_string "Unknown log_level {}.") [to_string debugLevel]);
    die msg.

Definition opt (s : string) : bytes := bytes_of_string s.

(** [(uint16_t)stoi(s)] *)
Definition port_of (s : bytes) : outcome Z := z ← stoi s; mret (u16 z).

(** ** The client *)

(** The tunnel is a temporary that [Socks5Server] moves into its member. *)
Definition skcli_main (conf : Config.client_config) : st prog Z :=
  level ← lift (Config.init (Config.debugLevel conf));
  _ ← set_debug_level level;
  mod_ ← lift (loadSo (dlopen e) (string_of_bytes (Config.modulePath conf)));
  port ← lift (Config.init (Config.serverPort conf));
  bport ← lift (Config.init (Config.bindPort conf));
  retry ← lift (Config.init (Config.retryResolve conf));
  sks ← lift (Tunnel.initCString (resolve e) (attempts e) mod_ (Config.serverIp conf) port
                (Config.passphrase conf) retry);
  _ ← lift (Tunnel.outbound_move (resolve e) (attempts e) sks);
  _ ← run_logging (fun lg => Socks5.listen (lg := lg) (getaddrinfo e) (sys_listen e) (Config.bindIp conf) bport);
  mret 0.

(** What the client reads from its command line, lines 104 to 114. *)
Record client_opts := ClientOpts {
  asDaemon : bool;
  o_retry : bool;
  confPath : bytes;
  logFilePath : bytes;
  serverAddr : bytes;
  o_serverPort : bytes;
  passP : bytes;
  listenAddr : bytes;
  listenPort : bytes;
  debugLev : bytes;
  modPath : bytes
}.

Definition read_value (long short : string) (p : Opt.opt_parser) : outcome (bytes * Opt.opt_parser) :=
  Opt.getValueArg2 (opt long) (opt short) false [] p.

Definition read_client_opts (p : Opt.opt_parser) : outcome (client_opts * Opt.opt_parser) :=
  r ← Opt.getBoolArg2 (opt "--daemon") (opt "-d") p; let '(daemon, p) := r in
  r ← Opt.getBoolArg (opt "--retry") p; let '(retry, p) := r in
  r ← read_value "--conf" "-c" p; let '(conf, p) := r in
  r ← read_value "--log" "-l" p; let '(log, p) := r in
  r ← read_value "--server" "-s" p; let '(server, p) := r in
  r ← read_value "--server-port" "-p" p; let '(sport, p) := r in
  r ← read_value "--passphrase" "-k" p; let '(pass, p) := r in
  r ← read_value "--listen" "-L" p; let '(listen, p) := r in
  r ← read_value "--listen-port" "-P" p; let '(lport, p) := r in
  r ← read_value "--debug" "-D" p; let '(dbg, p) := r in
  r ← read_value "--mod" "-m" p; let '(md, p) := r in
  Ok (ClientOpts daemon retry conf log server sport pass listen lport dbg md, p).

(** [if(v.empty()) die(msg); ... conv(v)] *)
Definition need (v : bytes) (msg : string) : st prog bytes :=
  match v with [] => die (bytes_of_string msg) | _ => mret v end.

(** The configuration without a file, lines 122 to 131. *)
Definition client_conf_null (o : client_opts) : st prog Config.client_config :=
  _ ← say Log.INFO (bytes_of_string "No config mode.") [];
  let c := Config.new_client_config in
  serverIp ← need (serverAddr o) "servAddr not set.";
  sp ← need (o_serverPort o) "servPort not set."; sport ← lift (port_of sp);
  pass ← need (passP o) "passphrase not set.";
  bip ← need (listenAddr o) "bindAddr not set.";
  lp ← need (listenPort o) "bindPort not set."; bport ← lift (port_of lp);
  dl ← need (debugLev o) "debugLevel not set."; level ← lift (stoi dl);
  md ← need (modPath o) "modulePath not set.";
  mret (Config.ClientConfig serverIp (Some sport) pass bip (Some bport) md
          (Config.retryResolve c) (Some level) (logFilePath o)).

(** [if(!v.empty()) member = conv(v);] *)
Definition override {A} (v : bytes) (conv : bytes -> outcome A) (old : A) : outcome A :=
  match v with [] => Ok old | _ => conv v end.

Definition some_of {A} (conv : bytes -> outcome A) (v : bytes) : outcome (option A) := z ← conv v; mret (Some z).

(** The configuration from a file, lines 138 to 147. *)
Definition client_conf_file (o : client_opts) : outcome Config.client_config :=
  c ← Config.client_load (fs e)
        (match confPath o with [] => opt "/etc/snakesocks/conf/client.conf" | path => path end);
  lf ← override (logFilePath o) Ok (Config.logFile c);
  ip ← override (serverAddr o) Ok (Config.serverIp c);
  sport ← override (o_serverPort o) (some_of port_of) (Config.serverPort c);
  pass ← override (passP o) Ok (Config.passphrase c);
  bip ← override (listenAddr o) Ok (Config.bindIp c);
  bport ← override (listenPort o) (some_of port_of) (Config.bindPort c);
  level ← override (debugLev o) (some_of stoi) (Config.debugLevel c);
  md ← override (modPath o) Ok (Config.modulePath c);
  mret (Config.ClientConfig ip sport pass bip bport md (Config.retryResolve c) level lf).

Definition force_retry (b : bool) (c : Config.client_config) : Config.client_config :=
  if b then Config.ClientConfig (Config.serverIp c) (Config.serverPort c) (Config.passphrase c)
    (Config.bindIp c) (Config.bindPort c) (Config.modulePath c) (Some true) (Config.debugLevel c)
    (Config.logFile c) else c.

(** Lines 119 to 165: from the options to the running client. *)
Definition client_start (o : client_opts) : st prog Z :=
  conf ← (if bool_decide (confPath o = opt "NULL") then client_conf_null o else lift (client_conf_file o));
  let conf := force_retry (o_retry o) conf in
  _ ← (if asDaemon o then call_daemon else mret tt);
  _ ← redirect_if (Config.logFile conf);
  skcli_main conf.

(** [wrapped_main] of the client *)
Definition client_wrapped_main (arglen : nat) (argv : list (option bytes)) : st prog Z :=
  p ← lift (Opt.new_opt_parser arglen argv);
  r ← lift (Opt.getBoolArg2 (opt "--help") (opt "-h") p);
  let '(help, p) := r in
  if help : bool then _ ← client_display_usage; mret 0 else
  r ← lift (read_client_opts p);
  let '(o, p) := r in
  _ ← (if Opt.allArgDone p then mret tt
       else say Log.WARNING (bytes_of_string "Some ill formed arguments are ignored.") []);
  client_start o.

(** ** The server *)

Definition sksrv_main (conf : Config.server_config) : st prog Z :=
  level ← lift (Config.init (Config.srv_debugLevel conf));
  _ ← set_debug_level level;
  mod_ ← lift (loadSo (dlopen e) (string_of_bytes (Config.srv_modulePath conf)));
  bport ← lift (Config.init (Config.srv_bindPort conf));
  let skInbound := Tunnel.Inbound mod_ (Config.srv_bindIp conf) bport (Config.srv_passphrase conf) in
  _ ← run_net (Tunnel.listen (getaddrinfo e) (sys_listen e) skInbound);
  mret 0.

Record server_opts := ServerOpts {
  s_asDaemon : bool;
  s_confPath : bytes;
  s_logFilePath : bytes;
  s_listenAddr : bytes;
  s_listenPort : bytes;
  s_passP : bytes;
  s_debugLev : bytes;
  s_modPath : bytes
}.

Definition read_server_opts (p : Opt.opt_parser) : outcome (server_opts * Opt.opt_parser) :=
  r ← Opt.getBoolArg2 (opt "--daemon") (opt "-d") p; let '(daemon, p) := r in
  r ← read_value "--conf" "-c" p; let '(conf, p) := r in
  r ← read_value "--log" "-l" p; let '(log, p) := r in
  r ← read_value "--listen" "-L" p; let '(listen, p) := r in
  r ← read_value "--listen-port" "-P" p; let '(lport, p) := r in
  r ← read_value "--passphrase" "-k" p; let '(pass, p) := r in
  r ← read_value "--debug" "-D" p; let '(dbg, p) := r in
  r ← read_value "--mod" "-m" p; let '(md, p) := r in
  Ok (ServerOpts daemon conf log listen lport pass dbg md, p).

Definition server_conf_null (o : server_opts) : st prog Config.server_config :=
  _ ← say Log.INFO (bytes_of_string "No config mode.") [];
  bip ← need (s_listenAddr o) "bindAddr not set.";
  lp ← need (s_listenPort o) "bindPort not set."; bport ← lift (port_of lp);
  pass ← need (s_passP o) "passphrase not set.";
  dl ← need (s_debugLev o) "debugLevel not set."; level ← lift (stoi dl);
  md ← need (s_modPath o) "modulePath not set.";
  mret (Config.ServerConfig bip (Some bport) pass md (Some level) (s_logFilePath o)).

Definition server_conf_file (o : server_opts) : outcome Config.server_config :=
  c ← Config.server_load (fs e)
        (match s_confPath o with [] => opt "/etc/snakesocks/conf/server.conf" | path => path end);
  lf ← override (s_logFilePath o) Ok (Config.srv_logFile c);
  bip ← override (s_listenAddr o) Ok (Config.srv_bindIp c);
  bport ← override (s_listenPort o) (some_of port_of) (Config.srv_bindPort c);
  pass ← override (s_passP o) Ok (Config.srv_passphrase c);
  level ← override (s_debugLev o) (some_of stoi) (Config.srv_debugLevel c);
  md ← override (s_modPath o) Ok (Config.srv_modulePath c);
  mret (Config.ServerConfig bip bport pass md level lf).

(** Lines 113 to 153: from the options to the running server. *)
Definition server_start (o : server_opts) : st prog Z :=
  conf ← (if bool_decide (s_confPath o = opt "NULL") then server_conf_null o else lift (server_conf_file o));
  _ ← (if s_asDaemon o then call_daemon else mret tt);
  _ ← redirect_if (Config.srv_logFile conf);
  sksrv_main conf.

(** [wrapped_main] of the server *)
Definition server_wrapped_main (arglen : nat) (argv : list (option bytes)) : st prog Z :=
  p ← lift (Opt.new_opt_parser arglen argv);
  r ← lift (Opt.getBoolArg2 (opt "--help") (opt "-h") p);
  let '(help, p) := r in
  if help : bool then _ ← server_display_usage; mret 0 else
  r ← lift (read_server_opts p);
  let '(o, p) := r in
  _ ← (if Opt.allArgDone p then mret tt
       else say Log.WARNING (bytes_of_string "Some ill formed arguments are ignored.") []);
  server_start o.

(** ** [main] *)

(** [main] around the [wrapped_main] of either program; an exception of the
    handler leaves [main]. *)
Definition main_with (wrapped_main : nat -> list (option bytes) -> st prog Z)
    (arglen : nat) (argv : list (option bytes)) : st prog Z :=
  _ ← set_level Log.DEBUG;
  try_catch (_ ← wrapped_main arglen argv; mret 0)
    (fun x =>
       msg ← lift (format_string (bytes_of_string "Uncaught Exception: {}") [what x]);
       _ ← say Log.FATAL msg [];
       mret 2).

Definition client_main := main_with client_wrapped_main.
Definition server_main := main_with server_wrapped_main.

End Program.

(** ** Command lines *)

Import Opt.

Definition client_flags : list bytes := map opt ["--help"; "-h"; "--daemon"; "-d"; "--retry"]%string.
Definition client_values : list bytes :=
  map opt ["--conf"; "-c"; "--log"; "-l"; "--server"; "-s"; "--server-port"; "-p"; "--passphrase"; "-k";
           "--listen"; "-L"; "--listen-port"; "-P"; "--debug"; "-D"; "--mod"; "-m"]%string.

(** The option values on a command line. *)
Definition pick (long short : string) (l : list Opt.item) : bytes := Opt.setting (opt long) (opt short) l.

Definition client_opts_of (l : list Opt.item) : client_opts :=
  ClientOpts (Opt.has_flag2 (opt "--daemon") (opt "-d") l) (Opt.has_flag (opt "--retry") l)
    (pick "--conf" "-c" l) (pick "--log" "-l" l) (pick "--server" "-s" l) (pick "--server-port" "-p" l)
    (pick "--passphrase" "-k" l) (pick "--listen" "-L" l) (pick "--listen-port" "-P" l)
    (pick "--debug" "-D" l) (pick "--mod" "-m" l).

(** Decide facts about the closed lists of names. *)
Ltac names := lazymatch goal with
  | |- Opt.unambiguous _ _ _ => auto 20 with opts
  | |- _ ∈ _ => apply (bool_decide_unpack _); vm_compute; exact I
  | |- _ <> _ => apply (bool_decide_unpack _); vm_compute; exact I
  end.

Lemma read_value_items flags values long short l a0 :
  Opt.unambiguous flags values l -> opt long ∈ values -> opt short ∈ values -> opt long <> opt short ->
  read_value long short (Opt.Parser (Opt.tokens l) a0)
    = Ok (pick long short l, Opt.Parser (Opt.tokens (Opt.del_value2 (opt long) (opt short) l)) a0).
Proof.
  intros Hu Hl Hs Hne. unfold read_value, pick.
  by rewrite (Opt.getValueArg2_items flags values), Opt.value2_setting.
Qed.

(** The names of the flag read first, and the daemon flag given by one of its
    names: [getBoolArg] does not look for the short name when it finds the long. *)
Definition help_names : list bytes := [opt "--help"; opt "-h"].
Definition daemon_once (l : list Opt.item) : Prop :=
  Opt.has_flag (opt "--daemon") l && Opt.has_flag (opt "-d") l = false.

(** Nothing is left once every name was read. *)
Ltac reads_all :=
  let Hu := fresh in let Hd := fresh in
  intros Hu Hd;
  lazymatch type of Hu with Opt.unread ?flags ?values _ _ => eapply (Opt.unread_all flags values) end;
  [ repeat (apply Opt.unread_value2; [|names|names]);
    try (apply Opt.unread_flag; [|names]);
    apply Opt.unread_flag2; [exact Hu|names..|exact Hd]
  | apply (bool_decide_unpack _); vm_compute; exact I ].

Lemma read_client_opts_items l a0 :
  Opt.unambiguous client_flags client_values l ->
  exists l', read_client_opts (Opt.Parser (Opt.tokens l) a0)
    = Ok (client_opts_of l, Opt.Parser (Opt.tokens l') a0) /\
    (Opt.unread client_flags client_values help_names l -> daemon_once l -> l' = []).
Proof.
  intros Hu. unfold read_client_opts.
  rewrite (Opt.getBoolArg2_items client_flags client_values) by names. run_ok.
  rewrite (Opt.getBoolArg_items client_flags client_values) by names. run_ok.
  do 9 (rewrite (read_value_items client_flags client_values) by names; run_ok).
  unfold pick. autorewrite with opts. eexists. split; [reflexivity|]. reads_all.
Qed.

Definition server_flags : list bytes := map opt ["--help"; "-h"; "--daemon"; "-d"]%string.
Definition server_values : list bytes :=
  map opt ["--conf"; "-c"; "--log"; "-l"; "--listen"; "-L"; "--listen-port"; "-P"; "--passphrase"; "-k";
           "--debug"; "-D"; "--mod"; "-m"]%string.

Definition server_opts_of (l : list Opt.item) : server_opts :=
  ServerOpts (Opt.has_flag2 (opt "--daemon") (opt "-d") l)
    (pick "--conf" "-c" l) (pick "--log" "-l" l) (pick "--listen" "-L" l) (pick "--listen-port" "-P" l)
    (pick "--passphrase" "-k" l) (pick "--debug" "-D" l) (pick "--mod" "-m" l).

Lemma read_server_opts_items l a0 :
  Opt.unambiguous server_flags server_values l ->
  exists l', read_server_opts (Opt.Parser (Opt.tokens l) a0)
    = Ok (server_opts_of l, Opt.Parser (Opt.tokens l') a0) /\
    (Opt.unread server_flags server_values help_names l -> daemon_once l -> l' = []).
Proof.
  intros Hu. unfold read_server_opts.
  rewrite (Opt.getBoolArg2_items server_flags server_values) by names. run_ok.
  do 7 (rewrite (read_value_items server_flags server_values) by names; run_ok).
  unfold pick. autorewrite with opts. eexists. split; [reflexivity|]. reads_all.
Qed.

(** ** Settings *)

(** An option's text overrides the old value of a text setting, of a port (the
    number is reduced to 16 bits) and of the debug level. *)
Definition prefer (v old : bytes) : bytes := match v with [] => old | _ => v end.

Definition port_given (v : bytes) (old new : option Z) : Prop :=
  (v = [] /\ new = old) \/
  exists z, v = to_string z /\ - 2 ^ 31 <= z < 2 ^ 31 /\ new = Some (z mod 2 ^ 16).

Definition level_given (v : bytes) (old new : option Z) : Prop :=
  (v = [] /\ new = old) \/ exists z, v = to_string z /\ - 2 ^ 31 <= z < 2 ^ 31 /\ new = Some z.

(** [c] is [c0] with the options [o] applied. *)
Definition overrides (o : client_opts) (c0 c : Config.client_config) : Prop :=
  port_given (o_serverPort o) (Config.serverPort c0) (Config.serverPort c) /\
  port_given (listenPort o) (Config.bindPort c0) (Config.bindPort c) /\
  level_given (debugLev o) (Config.debugLevel c0) (Config.debugLevel c) /\
  c = Config.ClientConfig (prefer (serverAddr o) (Config.serverIp c0)) (Config.serverPort c)
        (prefer (passP o) (Config.passphrase c0)) (prefer (listenAddr o) (Config.bindIp c0))
        (Config.bindPort c) (prefer (modPath o) (Config.modulePath c0))
        (if o_retry o then Some true else Config.retryResolve c0)
        (Config.debugLevel c) (prefer (logFilePath o) (Config.logFile c0)).

Lemma stoi_text z : - 2 ^ 31 <= z < 2 ^ 31 -> stoi (to_string z) = Ok z.
Proof.
  intros Hz. unfold stoi, stox. rewrite strtol_to_string by lia.
  replace (if z <? 0 then - Z.abs z else Z.abs z) with z by (destruct (Z.ltb_spec z 0); lia).
  destruct (Z.leb_spec (- 2 ^ 31) z); [|lia]. by destruct (Z.leb_spec z (2 ^ 31 - 1)); [|lia].
Qed.

Lemma port_text z : - 2 ^ 31 <= z < 2 ^ 31 -> port_of (to_string z) = Ok (z mod 2 ^ 16).
Proof. intros. unfold port_of. by rewrite stoi_text. Qed.

Lemma override_text {A} (conv : bytes -> outcome A) z old a :
  - 2 ^ 31 <= z < 2 ^ 31 -> conv (to_string z) = Ok a ->
  override (to_string z) (some_of conv) old = Ok (Some a).
Proof.
  intros Hz Hc. unfold override. destruct (to_string z) as [|x l] eqn:E.
  - by apply to_string_nonempty in E; [|lia].
  - unfold some_of. by rewrite Hc.
Qed.

Lemma override_port v old new : port_given v old new -> override v (some_of port_of) old = Ok new.
Proof.
  intros [[-> ->]|(z & -> & Hz & ->)]; [done|]. by rewrite (override_text _ _ _ (z mod 2 ^ 16)) by auto using port_text.
Qed.

Lemma override_level v old new : level_given v old new -> override v (some_of stoi) old = Ok new.
Proof.
  intros [[-> ->]|(z & -> & Hz & ->)]; [done|]. by rewrite (override_text _ _ _ z) by auto using stoi_text.
Qed.

Lemma override_same v old : override v Ok old = Ok (prefer v old).
Proof. by destruct v. Qed.

Section Runs.
Context {PT : Config.PropertyTree} (e : env).

(** The state after printing, detaching or redirecting the log. *)
Definition same_net (p p' : prog) : Prop := net p' = net p.

Lemma say_plain level msg p : ~ occurs hole msg ->
  exists p', say e level msg [] p = (Ok tt, p') /\ same_net p p' /\ detached p' = detached p.
Proof.
  intros Hm. unfold say.
  destruct (Log.log_plain (strftime e) (now e) (rlog p) level msg (plog p) Hm) as (w & ->).
  eexists. split; [done|]. by repeat split.
Qed.

Lemma bind_step {A B} (m : st prog A) (k : A -> st prog B) p a p' :
  m p = (Ok a, p') -> (m ≫= k) p = k a p'.
Proof. intros H. unfold mbind, st_bind. by rewrite H. Qed.

Lemma redirect_log_ok f p : ~ occurs hole f -> opens e f = true ->
  exists p', redirect_log e f p = (Ok tt, p') /\ same_net p p' /\ detached p' = detached p.
Proof.
  intros Hf Ho. unfold redirect_log.
  change (bytes_of_string "Log redirected to {}.")
    with (bytes_of_string "Log redirected to " ++ hole ++ bytes_of_string ".").
  rewrite format_one by (done || by apply no_hole_nobrace).
  set (msg := bytes_of_string "Log redirected to " ++ f ++ bytes_of_string ".").
  assert (Hm : ~ occurs hole msg).
  { unfold msg. apply no_hole_pre; [done|]. apply no_hole_app; [done|by apply no_hole_nobrace|done]. }
  rewrite (bind_step _ _ p msg p) by done.
  destruct (say_plain Log.INFO msg p Hm) as (p' & Hs & Hn & Hd).
  rewrite (bind_step _ _ p tt p') by done.
  unfold open_log, Log.logger_file. rewrite Ho. eexists. split; [done|]. by repeat split.
Qed.

Lemma client_conf_file_ok o c0 c :
  overrides o c0 c ->
  Config.client_load (fs e) (prefer (confPath o) (opt "/etc/snakesocks/conf/client.conf")) = Ok c0 ->
  exists c1, client_conf_file e o = Ok c1 /\ force_retry (o_retry o) c1 = c.
Proof.
  intros (Hp & Hq & Hd & Hc) Hload. unfold client_conf_file.
  replace (match confPath o with [] => _ | _ => _ end)
    with (prefer (confPath o) (opt "/etc/snakesocks/conf/client.conf")) by (by destruct (confPath o)).
  rewrite Hload. run_ok. rewrite !override_same. run_ok.
  rewrite (override_port _ _ _ Hp), (override_port _ _ _ Hq), (override_level _ _ _ Hd). run_ok.
  eexists. split; [done|]. rewrite Hc. unfold force_retry. by destruct (o_retry o).
Qed.

(** The part of [wrapped_main] after the configuration is known. *)
Lemma start_ok {A} (daemon : bool) (f : bytes) (k : st prog A) p :
  ~ occurs hole f -> (f <> [] -> opens e f = true) -> (daemon = true -> daemon_ok e = true) ->
  exists p', (_ ← (if daemon then call_daemon e else mret tt);
              _ ← redirect_if e f;
              k) p = k p' /\ same_net p p' /\ detached p' = detached p || daemon.
Proof.
  intros Hf Ho Hd.
  assert (exists p1, (if daemon then call_daemon e else mret tt) p = (Ok tt, p1) /\ same_net p p1 /\
      detached p1 = detached p || daemon) as (p1 & E1 & Hn1 & Hd1).
  { destruct daemon.
    - unfold call_daemon. rewrite Hd by done. eexists. split; [done|]. repeat split. by rewrite orb_true_r.
    - exists p. repeat split. by rewrite orb_false_r. }
  rewrite (bind_step _ _ p tt p1 E1).
  destruct f as [|x f].
  - exists p1. by repeat split.
  - destruct (redirect_log_ok (x :: f) p1 Hf) as (p2 & E2 & Hn2 & Hd2); [by apply Ho|].
    rewrite (bind_step _ _ p1 tt p2 E2). exists p2. repeat split; congruence.
Qed.

Lemma warn_ok (b : bool) p :
  exists p', (if b then mret tt
              else say e Log.WARNING (bytes_of_string "Some ill formed arguments are ignored.") []) p = (Ok tt, p')
    /\ same_net p p' /\ detached p' = detached p.
Proof.
  destruct b; [exists p; by repeat split|]. apply say_plain. by apply no_hole_nobrace.
Qed.

Lemma client_prologue l a0 p :
  unambiguous client_flags client_values l ->
  has_flag2 (opt "--help") (opt "-h") l = false ->
  exists p1, client_wrapped_main e (S (length (tokens l))) (Some a0 :: map Some (tokens l)) p
      = client_start e (client_opts_of l) p1 /\ same_net p p1 /\ detached p1 = detached p.
Proof.
  intros Hu Hh. unfold client_wrapped_main. rewrite new_opt_parser_all.
  rewrite (bind_step _ _ p (Parser (tokens l) a0) p) by done.
  rewrite (getBoolArg2_items client_flags client_values) by names. rewrite Hh.
  erewrite bind_step by done. cbv beta iota.
  destruct (read_client_opts_items (del_flag2 (opt "--help") (opt "-h") l) a0) as (l' & -> & _); [names|].
  erewrite bind_step by done. cbv beta iota.
  assert (client_opts_of (del_flag2 (opt "--help") (opt "-h") l) = client_opts_of l) as ->.
  { unfold client_opts_of, pick. autorewrite with opts. done. }
  destruct (warn_ok (allArgDone (Parser (tokens l') a0)) p) as (p1 & E1 & Hn & Hd).
  rewrite (bind_step _ _ p tt p1 E1). by exists p1.
Qed.

(** C10: on a command line that can be read without ambiguity, in any order and
    notation of its options, the client starts with the settings of its
    configuration file overridden by the options given (ports reduced to 16
    bits), detached if asked to, and has not touched the network before. *)
Theorem client_command_line l a0 p c0 c :
  let o := client_opts_of l in
  unambiguous client_flags client_values l ->
  has_flag2 (opt "--help") (opt "-h") l = false ->
  confPath o <> opt "NULL" ->
  Config.client_load (fs e) (prefer (confPath o) (opt "/etc/snakesocks/conf/client.conf")) = Ok c0 ->
  overrides o c0 c ->
  ~ occurs hole (Config.logFile c) -> (Config.logFile c <> [] -> opens e (Config.logFile c) = true) ->
  (asDaemon o = true -> daemon_ok e = true) ->
  exists p', client_wrapped_main e (S (length (tokens l))) (Some a0 :: map Some (tokens l)) p = skcli_main e c p' /\
    same_net p p' /\ detached p' = detached p || asDaemon o.
Proof.
  intros o Hu Hh Hnull Hload Hov Hlf Hopen Hd.
  destruct (client_conf_file_ok o c0 c Hov Hload) as (c1 & Hc1 & Hc).
  destruct (client_prologue l a0 p Hu Hh) as (p1 & -> & Hn1 & Hd1).
  unfold client_start. fold o. rewrite bool_decide_eq_false_2 by done.
  rewrite Hc1. erewrite bind_step by done. cbv zeta. rewrite Hc.
  destruct (start_ok (asDaemon o) (Config.logFile c) (skcli_main e c) p1 Hlf Hopen Hd)
    as (p2 & E2 & Hn2 & Hd2).
  exists p2. rewrite E2. repeat split; congruence.
Qed.

(** ** Without a configuration file *)

Lemma need_some v msg p : v <> [] -> need e v msg p = (Ok v, p).
Proof. by destruct v. Qed.

(** Every setting that has an option was given. *)
Definition all_given (o : client_opts) : Prop :=
  serverAddr o <> [] /\ o_serverPort o <> [] /\ passP o <> [] /\ listenAddr o <> [] /\
  listenPort o <> [] /\ debugLev o <> [] /\ modPath o <> [].

Lemma given_port v old new : port_given v old new -> v <> [] -> exists z, port_of v = Ok z /\ new = Some z.
Proof. intros [[-> _]|(z & -> & Hz & ->)] Hv; [done|]. eauto using port_text. Qed.

Lemma given_level v old new : level_given v old new -> v <> [] -> exists z, stoi v = Ok z /\ new = Some z.
Proof. intros [[-> _]|(z & -> & Hz & ->)] Hv; [done|]. eauto using stoi_text. Qed.

Lemma prefer_given v old : v <> [] -> prefer v old = v.
Proof. by destruct v. Qed.

Lemma client_conf_null_ok o c p :
  all_given o -> overrides o Config.new_client_config c ->
  exists c1 p', client_conf_null e o p = (Ok c1, p') /\ force_retry (o_retry o) c1 = c /\
    same_net p p' /\ detached p' = detached p.
Proof.
  intros (G1 & G2 & G3 & G4 & G5 & G6 & G7) (Hp & Hq & Hd & Hc).
  destruct (given_port _ _ _ Hp G2) as (z1 & E1 & F1), (given_port _ _ _ Hq G5) as (z2 & E2 & F2),
    (given_level _ _ _ Hd G6) as (z3 & E3 & F3).
  rewrite !prefer_given in Hc by done. unfold client_conf_null.
  destruct (say_plain Log.INFO (bytes_of_string "No config mode.") p) as (p' & Hs & Hn & Hdt);
    [by apply no_hole_nobrace|].
  rewrite (bind_step _ _ p tt p' Hs). cbv zeta.
  rewrite (bind_step _ _ p' _ p' (need_some _ "servAddr not set." p' G1)).
  rewrite (bind_step _ _ p' _ p' (need_some _ "servPort not set." p' G2)). rewrite E1.
  erewrite bind_step by done.
  rewrite (bind_step _ _ p' _ p' (need_some _ "passphrase not set." p' G3)).
  rewrite (bind_step _ _ p' _ p' (need_some _ "bindAddr not set." p' G4)).
  rewrite (bind_step _ _ p' _ p' (need_some _ "bindPort not set." p' G5)). rewrite E2.
  erewrite bind_step by done.
  rewrite (bind_step _ _ p' _ p' (need_some _ "debugLevel not set." p' G6)). rewrite E3.
  erewrite bind_step by done.
  rewrite (bind_step _ _ p' _ p' (need_some _ "modulePath not set." p' G7)).
  do 2 eexists. split; [done|]. split; [|done].
  rewrite Hc, F1, F2, F3. unfold force_retry. cbn [Config.retryResolve Config.new_client_config prefer].
  destruct (logFilePath o), (o_retry o); done.
Qed.

Lemma client_null_run l a0 p c :
  let o := client_opts_of l in
  unambiguous client_flags client_values l ->
  has_flag2 (opt "--help") (opt "-h") l = false ->
  confPath o = opt "NULL" -> all_given o -> overrides o Config.new_client_config c ->
  ~ occurs hole (Config.logFile c) -> (Config.logFile c <> [] -> opens e (Config.logFile c) = true) ->
  (asDaemon o = true -> daemon_ok e = true) ->
  exists p', client_wrapped_main e (S (length (tokens l))) (Some a0 :: map Some (tokens l)) p = skcli_main e c p' /\
    same_net p p' /\ detached p' = detached p || asDaemon o.
Proof.
  intros o Hu Hh Hnull Hall Hov Hlf Hopen Hd.
  destruct (client_prologue l a0 p Hu Hh) as (p1 & -> & Hn1 & Hd1).
  unfold client_start. fold o. rewrite bool_decide_eq_true_2 by done.
  destruct (client_conf_null_ok o c p1 Hall Hov) as (c1 & p2 & E2 & Hc & Hn2 & Hd2).
  rewrite (bind_step _ _ p1 c1 p2 E2). cbv zeta. rewrite Hc.
  destruct (start_ok (asDaemon o) (Config.logFile c) (skcli_main e c) p2 Hlf Hopen Hd)
    as (p3 & E3 & Hn3 & Hd3).
  exists p3. rewrite E3. repeat split; congruence.
Qed.

Lemma set_debug_level_ok z p : 0 <= z <= 4 -> exists p', set_debug_level e z p = (Ok tt, p') /\ net p' = net p.
Proof.
  intros Hz. unfold set_debug_level.
  assert (z = 0 \/ z = 1 \/ z = 2 \/ z = 3 \/ z = 4) as [->|[->|[->|[->| ->]]]] by lia;
    cbn [Z.eqb Pos.eqb orb]; (eexists; split; [done|done]).
Qed.

(** A client told to use no configuration file and given every other
    setting, but not [--retry], reads the member [retryResolve] of its
    configuration before anything was stored in it. *)
Theorem client_null_reads_uninitialised l a0 p c m :
  let o := client_opts_of l in
  unambiguous client_flags client_values l ->
  has_flag2 (opt "--help") (opt "-h") l = false ->
  confPath o = opt "NULL" -> all_given o -> overrides o Config.new_client_config c ->
  Config.logFile c = [] -> (asDaemon o = true -> daemon_ok e = true) ->
  o_retry o = false ->
  (exists z, Config.debugLevel c = Some z /\ 0 <= z <= 4) ->
  loadSo (dlopen e) (string_of_bytes (Config.modulePath c)) = Ok m ->
  (client_wrapped_main e (S (length (tokens l))) (Some a0 :: map Some (tokens l)) p).1
    = Undefined Uninitialised.
Proof.
  intros o Hu Hh Hnull Hall Hov Hlf Hd Hr (z & Hz & Hz4) Hmod.
  destruct (client_null_run l a0 p c Hu Hh Hnull Hall Hov) as (p' & -> & _).
  { rewrite Hlf. by apply no_hole_nobrace. }
  { by rewrite Hlf. }
  { done. }
  destruct Hall as (G1 & G2 & G3 & G4 & G5 & G6 & G7). destruct Hov as (Hp & Hq & _ & Hc).
  destruct (given_port _ _ _ Hp G2) as (z1 & _ & F1), (given_port _ _ _ Hq G5) as (z2 & _ & F2).
  assert (Hrc : Config.retryResolve c = None) by (rewrite Hc; by rewrite Hr).
  unfold skcli_main. rewrite Hz. erewrite bind_step by done.
  destruct (set_debug_level_ok z p' Hz4) as (p2 & E & _). rewrite (bind_step _ _ p' tt p2 E).
  rewrite Hmod, F1, F2, Hrc. done.
Qed.

(** ** The server *)

Definition srv_overrides (o : server_opts) (c0 c : Config.server_config) : Prop :=
  port_given (s_listenPort o) (Config.srv_bindPort c0) (Config.srv_bindPort c) /\
  level_given (s_debugLev o) (Config.srv_debugLevel c0) (Config.srv_debugLevel c) /\
  c = Config.ServerConfig (prefer (s_listenAddr o) (Config.srv_bindIp c0)) (Config.srv_bindPort c)
        (prefer (s_passP o) (Config.srv_passphrase c0)) (prefer (s_modPath o) (Config.srv_modulePath c0))
        (Config.srv_debugLevel c) (prefer (s_logFilePath o) (Config.srv_logFile c0)).

Lemma server_prologue l a0 p :
  unambiguous server_flags server_values l ->
  has_flag2 (opt "--help") (opt "-h") l = false ->
  exists p1, server_wrapped_main e (S (length (tokens l))) (Some a0 :: map Some (tokens l)) p
      = server_start e (server_opts_of l) p1 /\ same_net p p1 /\ detached p1 = detached p.
Proof.
  intros Hu Hh. unfold server_wrapped_main. rewrite new_opt_parser_all.
  rewrite (bind_step _ _ p (Parser (tokens l) a0) p) by done.
  rewrite (getBoolArg2_items server_flags server_values) by names. rewrite Hh.
  erewrite bind_step by done. cbv beta iota.
  destruct (read_server_opts_items (del_flag2 (opt "--help") (opt "-h") l) a0) as (l' & -> & _); [names|].
  erewrite bind_step by done. cbv beta iota.
  assert (server_opts_of (del_flag2 (opt "--help") (opt "-h") l) = server_opts_of l) as ->.
  { unfold server_opts_of, pick. autorewrite with opts. done. }
  destruct (warn_ok (allArgDone (Parser (tokens l') a0)) p) as (p1 & E1 & Hn & Hd).
  rewrite (bind_step _ _ p tt p1 E1). by exists p1.
Qed.

Lemma server_conf_file_ok o c0 c :
  srv_overrides o c0 c ->
  Config.server_load (fs e) (prefer (s_confPath o) (opt "/etc/snakesocks/conf/server.conf")) = Ok c0 ->
  server_conf_file e o = Ok c.
Proof.
  intros (Hq & Hd & Hc) Hload. unfold server_conf_file.
  replace (match s_confPath o with [] => _ | _ => _ end)
    with (prefer (s_confPath o) (opt "/etc/snakesocks/conf/server.conf")) by (by destruct (s_confPath o)).
  rewrite Hload. run_ok. rewrite !override_same. run_ok.
  rewrite (override_port _ _ _ Hq), (override_level _ _ _ Hd). run_ok. by rewrite Hc.
Qed.

(** The server starts with the settings of its configuration file
    overridden by the options on its command line, and has not touched the
    network before. *)
Theorem server_command_line l a0 p c0 c :
  let o := server_opts_of l in
  unambiguous server_flags server_values l ->
  has_flag2 (opt "--help") (opt "-h") l = false ->
  s_confPath o <> opt "NULL" ->
  Config.server_load (fs e) (prefer (s_confPath o) (opt "/etc/snakesocks/conf/server.conf")) = Ok c0 ->
  srv_overrides o c0 c ->
  ~ occurs hole (Config.srv_logFile c) ->
  (Config.srv_logFile c <> [] -> opens e (Config.srv_logFile c) = true) ->
  (s_asDaemon o = true -> daemon_ok e = true) ->
  exists p', server_wrapped_main e (S (length (tokens l))) (Some a0 :: map Some (tokens l)) p = sksrv_main e c p' /\
    same_net p p' /\ detached p' = detached p || s_asDaemon o.
Proof.
  intros o Hu Hh Hnull Hload Hov Hlf Hopen Hd.
  destruct (server_prologue l a0 p Hu Hh) as (p1 & -> & Hn1 & Hd1).
  unfold server_start. fold o. rewrite bool_decide_eq_false_2 by done.
  rewrite (server_conf_file_ok o c0 c Hov Hload). erewrite bind_step by done.
  destruct (start_ok (s_asDaemon o) (Config.srv_logFile c) (sksrv_main e c) p1 Hlf Hopen Hd)
    as (p2 & E2 & Hn2 & Hd2).
  exists p2. rewrite E2. repeat split; congruence.
Qed.

(** ** [main] *)

(** [main] returns 2 on an exception whose text has no hole, after printing
    it; on one whose text has a hole, the handler's own message is read as a
    format string and [out_of_range] leaves [main]. *)
Theorem main_on_exception (wrapped : nat -> list (option bytes) -> st prog Z) n argv p p1 x :
  wrapped n argv (set_level Log.DEBUG p).2 = (Throw x, p1) ->
  (~ occurs hole (what x) -> (main_with e wrapped n argv p).1 = Ok 2) /\
  (forall a b, what x = a ++ hole ++ b -> ~ occurs hole a -> last a <> Some backslash ->
     1 <= Log.log_level (rlog p1) ->
     exists msg, (main_with e wrapped n argv p).1 = Throw (out_of_range msg)).
Proof.
  intros Hw. unfold main_with. rewrite (bind_step _ _ p tt (set_level Log.DEBUG p).2) by done.
  unfold try_catch.
  assert (((_ ← wrapped n argv; mret 0) : st prog Z) (set_level Log.DEBUG p).2 = (Throw x, p1)) as E.
  { unfold mbind, st_bind. by rewrite Hw. }
  rewrite E.
  change (bytes_of_string "Uncaught Exception: {}")
    with (bytes_of_string "Uncaught Exception: " ++ hole ++ []).
  assert (Hnil : ~ occurs hole []) by (by apply no_hole_nobrace).
  rewrite format_one by (done || by apply no_hole_nobrace). erewrite bind_step by done.
  split.
  - intros Hx. rewrite app_nil_r.
    destruct (say_plain Log.FATAL (bytes_of_string "Uncaught Exception: " ++ what x) p1) as (p2 & E2 & _).
    { by apply no_hole_pre. }
    by rewrite (bind_step _ _ p1 tt p2 E2).
  - intros a b Hx Ha Hb Hl. rewrite app_nil_r, Hx, app_assoc. eexists.
    unfold say. cbv beta. unfold mbind at 1, st_bind at 1.
    rewrite Log.log_enabled, format_hole_throws; [done| | |].
    + by apply no_hole_pre.
    + rewrite last_app. destruct (last a) as [y|] eqn:E3; [congruence|]. by vm_compute.
    + left. unfold Log.FATAL. lia.
Qed.

(** ** The usage texts *)

(** The usage text of either program, whatever the build's version and time,
    documents exactly the options the program reads, flags as flags and options
    with a value as such. *)
Theorem usage_documents ver tm :
  Usage.one_line ver -> Usage.one_line tm ->
  let c := Usage.documented (Usage.client_usage ver tm false) in
  let s := Usage.documented (Usage.server_usage ver tm false) in
  c.1 ≡ₚ client_flags /\ c.2 ≡ₚ client_values /\ s.1 ≡ₚ server_flags /\ s.2 ≡ₚ server_values.
Proof.
  intros Hv Ht c s. subst c s. unfold Usage.client_usage, Usage.server_usage.
  rewrite !Usage.documented_banner by done.
  split_and!; apply (bool_decide_unpack _); vm_compute; exact I.
Qed.

(** With the help flag, wherever it stands, the client prints its usage text to
    the standard output and returns 0; nothing else changes. *)
Theorem help_prints_usage l a0 p :
  unambiguous client_flags client_values l -> has_flag2 (opt "--help") (opt "-h") l = true ->
  client_wrapped_main e (S (length (tokens l))) (Some a0 :: map Some (tokens l)) p =
    (Ok 0, Prog (Log.print_to Log.cout (Usage.client_usage (macros e).1 (macros e).2 false) (plog p))
             (rlog p) (detached p) (net p)).
Proof.
  intros Hu Hh. unfold client_wrapped_main. rewrite new_opt_parser_all.
  rewrite (bind_step _ _ p (Parser (tokens l) a0) p) by done.
  rewrite (getBoolArg2_items client_flags client_values) by names. rewrite Hh.
  by erewrite bind_step by done.
Qed.

(** A command line of documented options, each name at most once, is read to its
    end: the client starts with the settings it gives and without the warning
    about ill formed arguments. *)
Theorem documented_line_read l a0 p :
  unambiguous client_flags client_values l -> NoDup (map item_name l) ->
  has_flag2 (opt "--help") (opt "-h") l = false -> daemon_once l ->
  client_wrapped_main e (S (length (tokens l))) (Some a0 :: map Some (tokens l)) p
    = client_start e (client_opts_of l) p.
Proof.
  intros Hu Hd Hh Hb. unfold client_wrapped_main. rewrite new_opt_parser_all.
  rewrite (bind_step _ _ p (Parser (tokens l) a0) p) by done.
  rewrite (getBoolArg2_items client_flags client_values) by names. rewrite Hh.
  erewrite bind_step by done. cbv beta iota. apply orb_false_iff in Hh as [Hl Hs].
  assert (del_flag2 (opt "--help") (opt "-h") l = l) as ->.
  { unfold del_flag2. rewrite Hl. by apply del_flag_none. }
  destruct (read_client_opts_items l a0 Hu) as (l' & -> & Hall).
  rewrite Hall; [done| |done]. do 2 (apply unread_no_flag; [|names|done]).
  split; [done|]. split; [done|]. apply Forall_true. intros i. apply not_elem_of_nil.
Qed.

End Runs.

(** ** Concrete runs *)

Definition sample_fs : @Config.file_system Config.section_tree :=
  match @Config.client_save Config.section_tree ∅ Config.sample_conf [99] with
  | Ok f =>
      match @Config.server_save Config.section_tree f (Config.ServerConfig [58] (Some 9) [107] [109] (Some 2) []) [115] with
      | Ok f => f | _ => ∅ end
  | _ => ∅ end.

Definition sample_env : env (PT := Config.section_tree) :=
  Env (Some [49], None) (fun _ => [84]) 0 [] sample_fs true (fun _ => true) 7
    (fun _ => Some (Dylib required_symbols Tunnel.Sample.md)) Tunnel.Sample.gai (fun _ => true)
    Tunnel.Sample.res 1.

Definition p0 : prog := Prog Log.w0 (Log.logger_stream Log.cout) false ([], World ∅ [] []).

Lemma names_ok flags values :
  bool_decide (Forall (Forall (fun c => c <> 61)) (flags ++ values)) = true ->
  bool_decide (Forall (fun n => n ∉ values) flags) = true ->
  Forall no_equals (flags ++ values) /\ forall n, n ∈ flags -> n ∉ values.
Proof.
  intros H1 H2. apply bool_decide_eq_true in H1, H2. rewrite Forall_forall in H2. by split.
Qed.

Definition sample_line : list item :=
  [Sep (opt "-c") [99]; Flag (opt "-d"); Equ (opt "--server-port") (opt "70000")].

Lemma sample_line_ok : unambiguous client_flags client_values sample_line.
Proof.
  destruct (names_ok client_flags client_values) as [H1 H2]; [by vm_compute..|].
  split; [exact H1|exact H2|].
  constructor; [|constructor; [|constructor; [|constructor]]].
  - split; [by apply (bool_decide_unpack _)|]. split; by apply (bool_decide_unpack _).
  - by apply (bool_decide_unpack _).
  - by apply (bool_decide_unpack _).
Qed.

Lemma client_command_line_witness :
  exists p', client_wrapped_main sample_env 5 (Some [] :: map Some (tokens sample_line)) p0
    = skcli_main sample_env
        (Config.ClientConfig [49] (Some 4464) [107] [108] (Some 1080) [109] (Some true) (Some 2) []) p'
    /\ same_net p0 p' /\ detached p' = true.
Proof.
  apply (client_command_line sample_env sample_line [] p0 Config.sample_conf
    (Config.ClientConfig [49] (Some 4464) [107] [108] (Some 1080) [109] (Some true) (Some 2) [])).
  - exact sample_line_ok.
  - reflexivity.
  - by vm_compute.
  - by vm_compute.
  - split; [right; exists 70000; repeat split; lia|]. split; [by left|]. split; [by left|]. reflexivity.
  - by apply no_hole_nobrace.
  - done.
  - done.
Defined.

Definition sample_null_line : list item :=
  [Sep (opt "-c") (opt "NULL"); Sep (opt "-s") [49]; Sep (opt "-p") (opt "443"); Sep (opt "-k") [107];
   Sep (opt "-L") [108]; Sep (opt "-P") (opt "1080"); Sep (opt "-D") (opt "2"); Sep (opt "-m") [109]].

Lemma sample_null_line_ok : unambiguous client_flags client_values sample_null_line.
Proof.
  destruct (names_ok client_flags client_values) as [H1 H2]; [by vm_compute..|].
  split; [exact H1|exact H2|].
  do 8 (constructor; [split; [by apply (bool_decide_unpack _)|split; by apply (bool_decide_unpack _)]|]).
  constructor.
Qed.

Lemma client_null_reads_uninitialised_witness :
  (client_wrapped_main sample_env 17 (Some [] :: map Some (tokens sample_null_line)) p0).1
    = Undefined Uninitialised.
Proof.
  apply (client_null_reads_uninitialised sample_env sample_null_line [] p0
    (Config.ClientConfig [49] (Some 443) [107] [108] (Some 1080) [109] None (Some 2) []) Tunnel.Sample.md).
  - exact sample_null_line_ok.
  - reflexivity.
  - reflexivity.
  - repeat split; by vm_compute.
  - split; [right; exists 443; repeat split; lia|]. split; [right; exists 1080; repeat split; lia|].
    split; [right; exists 2; repeat split; lia|]. reflexivity.
  - reflexivity.
  - done.
  - reflexivity.
  - exists 2. split; [done|lia].
  - unfold loadSo. cbn [dlopen sample_env].
    assert (load_symbols (Dylib required_symbols Tunnel.Sample.md) required_symbols = Ok tt) as ->
      by (by vm_compute). reflexivity.
Defined.

Definition sample_server_line : list item := [Equ (opt "--conf") [115]; Sep (opt "-P") (opt "8388")].

Lemma sample_server_line_ok : unambiguous server_flags server_values sample_server_line.
Proof.
  destruct (names_ok server_flags server_values) as [H1 H2]; [by vm_compute..|].
  split; [exact H1|exact H2|]. constructor; [|constructor; [|constructor]].
  - by apply (bool_decide_unpack _).
  - split; [by apply (bool_decide_unpack _)|]. split; by apply (bool_decide_unpack _).
Qed.

Lemma server_command_line_witness :
  exists p', server_wrapped_main sample_env 4 (Some [] :: map Some (tokens sample_server_line)) p0
    = sksrv_main sample_env (Config.ServerConfig [58] (Some 8388) [107] [109] (Some 2) []) p'
    /\ same_net p0 p' /\ detached p' = false.
Proof.
  apply (server_command_line sample_env sample_server_line [] p0
    (Config.ServerConfig [58] (Some 9) [107] [109] (Some 2) [])
    (Config.ServerConfig [58] (Some 8388) [107] [109] (Some 2) [])).
  - exact sample_server_line_ok.
  - reflexivity.
  - by vm_compute.
  - by vm_compute.
  - split; [right; exists 8388; repeat split; lia|]. split; [by left|]. reflexivity.
  - by apply no_hole_nobrace.
  - done.
  - done.
Defined.

(** The log file's name is printed through a format string, so [-l '{}'] makes
    the program throw [out_of_range] out of [main]. *)
Lemma main_on_exception_witness :
  exists msg, (client_main sample_env 19
    (Some [] :: map Some (tokens (Sep (opt "-l") hole :: sample_null_line))) p0).1 = Throw (out_of_range msg).
Proof.
  set (argv := Some [] :: map Some (tokens (Sep (opt "-l") hole :: sample_null_line))).
  destruct (client_wrapped_main sample_env 19 argv (set_level Log.DEBUG p0).2) as [o p1] eqn:E.
  assert (Hlev : bool_decide (1 <= Log.log_level (rlog p1)) = true).
  { transitivity (bool_decide (1 <= Log.log_level (rlog
      (client_wrapped_main sample_env 19 argv (set_level Log.DEBUG p0).2).2)));
      [by rewrite E|vm_compute; reflexivity]. }
  destruct o as [z|x|u|]; [exfalso; vm_compute in E; discriminate| |exfalso; vm_compute in E; discriminate..].
  pose (a := bytes_of_string "format_string: not enough arguments for format string `Log redirected to ").
  assert (Hx : what x = a ++ hole ++ drop (length (a ++ hole)) (what x)).
  { assert (Ex : Throw x = (client_wrapped_main sample_env 19 argv (set_level Log.DEBUG p0).2).1) by (by rewrite E).
    vm_compute in Ex. injection Ex as ->. vm_compute. reflexivity. }
  apply (proj2 (main_on_exception sample_env (client_wrapped_main sample_env) 19 argv p0 p1 x E) a
    (drop (length (a ++ hole)) (what x)) Hx).
  - by apply no_hole_nobrace.
  - by vm_compute.
  - by apply bool_decide_eq_true in Hlev.
Defined.

(** The texts of a build with a version, and the help flag of the sample client. *)
Lemma usage_documents_witness :
  (Usage.documented (Usage.client_usage (Some [49]) None false)).1 ≡ₚ client_flags.
Proof.
  apply (usage_documents (Some [49]) None); [|exact I]. by apply (bool_decide_unpack _).
Defined.

Example help_shown :
  (client_main sample_env 2 [Some []; Some (opt "-h")] p0).1 = Ok 0 /\
  Log.out (plog (client_main sample_env 2 [Some []; Some (opt "-h")] p0).2) !! Log.cout
    = Some (Usage.client_usage (Some [49]) None false).
Proof. split; vm_compute; reflexivity. Qed.

Lemma documented_line_read_witness :
  client_wrapped_main sample_env 5 (Some [] :: map Some (tokens sample_line)) p0
    = client_start sample_env (client_opts_of sample_line) p0.
Proof.
  apply (documented_line_read sample_env sample_line []); [exact sample_line_ok| |reflexivity|reflexivity].
  apply (bool_decide_unpack _). vm_compute. exact I.
Defined.

(** The daemon flag by both of its names leaves one of them unread, and the client warns. *)
Example both_names_warn :
  match read_client_opts (Parser [opt "-d"; opt "--daemon"] []) with
  | Ok (_, rest) => allArgDone rest = false | _ => False end.
Proof. vm_compute. reflexivity. Qed.

(** The usage text of the server gives a default listen address; without a
    configuration file there is none and the server stops. *)
Example server_no_default_address :
  let l := [Sep (opt "-c") (opt "NULL"); Sep (opt "-P") (opt "8388"); Sep (opt "-k") [107];
            Sep (opt "-D") [49]; Sep (opt "-m") [109]] in
  (server_wrapped_main sample_env 11 (Some [] :: map Some (tokens l)) p0).1
    = Throw (runtime_error "bindAddr not set.").
Proof. vm_compute. reflexivity. Qed.

End Programs.
