(* ===== verification/TraceableList.v ===== *)
(** * The doubly linked list of the object pool: [rlib/impl/traceable_list.hpp]

    The list as the code keeps it: nodes in a heap linked by [prev] and [next]
    pointers, the pointers [head] and [tail] and the counter [m_size].  The
    theorems refine every operation to the operation on sequences it stands
    for. *)

From stdpp Require Import gmap.
From S2P Require Import Prelude.
Open Scope Z_scope.

Module TraceableList.

Section TList.
Context {T X : Type}.

(** A pointer; [None] is [nullptr]. *)
Abbreviation ptr := (option Z).

Definition MAGIC : Z := 0x19980427.

Record node := Node { data : T; prev : ptr; next : ptr; extra_info : X; magic : Z }.

(** [node(prev, next, extra_info, args...)] *)
Definition new_node (d : T) (p n : ptr) (x : X) : node := Node d p n x MAGIC.

Abbreviation heap := (gmap Z node).

Record tlist := TList { nodes : heap; head : ptr; tail : ptr; m_size : Z }.

Definition empty : tlist := TList ∅ None None 0.

(** An iterator: the node and, for [begin()] and [end()], the tail. *)
Record iterator := It { it_ptr : ptr; impl_tail : ptr }.

(** ** Memory *)

(** [p->...]: a null pointer, or one to no node. *)
Definition load (h : heap) (p : ptr) : outcome node :=
  match p with
  | None => Undefined NullDeref
  | Some a => match h !! a with Some n => Ok n | None => Undefined OobRead end
  end.

Definition set_prev (h : heap) (p v : ptr) : outcome heap :=
  n ← load h p;
  match p with
  | Some a => Ok (<[a := Node (data n) v (next n) (extra_info n) (magic n)]> h)
  | None => Undefined NullDeref
  end.

Definition set_next (h : heap) (p v : ptr) : outcome heap :=
  n ← load h p;
  match p with
  | Some a => Ok (<[a := Node (data n) (prev n) v (extra_info n) (magic n)]> h)
  | None => Undefined NullDeref
  end.

Definition with_nodes (l : tlist) (h : heap) : tlist := TList h (head l) (tail l) (m_size l).

(** ** Iterators *)

(** [iterator(ptr)] *)
Definition iter_of (p : ptr) : iterator := It p None.

(** [iterator(data_pointer)]: the data is the first member of the node. *)
Definition iter_of_data (h : heap) (data_pointer : Z) : outcome iterator :=
  n ← load h (Some data_pointer);
  if negb (magic n =? MAGIC)
  then Throw (invalid_argument "magic_num verification failed. invalid data_pointer passed or ruined memory?")
  else Ok (iter_of (Some data_pointer)).

Definition deref_iter (h : heap) (i : iterator) : outcome T := n ← load h (it_ptr i); Ok (data n).
Definition get_extra_info (h : heap) (i : iterator) : outcome X := n ← load h (it_ptr i); Ok (extra_info n).

(** [iter.get_extra_info() = x] *)
Definition set_extra_info (h : heap) (i : iterator) (x : X) : outcome heap :=
  n ← load h (it_ptr i);
  match it_ptr i with
  | Some a => Ok (<[a := Node (data n) (prev n) (next n) x (magic n)]> h)
  | None => Undefined NullDeref
  end.

(** [++iter] *)
Definition incr (h : heap) (i : iterator) : outcome iterator :=
  n ← load h (it_ptr i); Ok (It (next n) (impl_tail i)).

(** [iter++]: the iterator before, and [iter]. *)
Definition post_incr (h : heap) (i : iterator) : outcome (iterator * iterator) :=
  j ← incr h i; Ok (iter_of (it_ptr i), j).

(** [--iter] *)
Definition decr (h : heap) (i : iterator) : outcome iterator :=
  match it_ptr i, impl_tail i with
  | None, Some t => Ok (It (Some t) (impl_tail i))
  | p, _ => n ← load h p; Ok (It (prev n) (impl_tail i))
  end.

Definition post_decr (h : heap) (i : iterator) : outcome (iterator * iterator) :=
  j ← decr h i; Ok (iter_of (it_ptr i), j).

Definition iter_eq (i j : iterator) : bool := bool_decide (it_ptr i = it_ptr j).

Definition begin (l : tlist) : iterator := It (head l) (tail l).
Definition end_ (l : tlist) : iterator := It None (tail l).

(** ** Operations *)

(** [emplace_one]; [a] is the address [new] returns. *)
Definition emplace_one (a : Z) (l : tlist) (where_ : iterator) (x : X) (d : T) : outcome tlist :=
  let h := <[a := new_node d None (it_ptr where_) x]> (nodes l) in
  let size := u64 (m_size l + 1) in
  match head l with
  | None => Ok (TList h (Some a) (Some a) size)
  | Some _ =>
      match it_ptr where_ with
      | None =>
          h ← set_next h (tail l) (Some a);
          h ← set_prev h (Some a) (tail l);
          Ok (TList h (head l) (Some a) size)
      | Some p =>
          n ← load h (Some p);
          let left := prev n in
          h ← set_prev h (Some a) left;
          h ← (match left with None => Ok h | Some _ => set_next h left (Some a) end);
          h ← set_prev h (Some p) (Some a);
          Ok (TList h (if bool_decide (head l = Some p) then Some a else head l) (tail l) size)
      end
  end.

(** [push_one], by reference and by value *)
Definition push_one (a : Z) (l : tlist) (where_ : iterator) (d : T) (x : X) : outcome tlist :=
  emplace_one a l where_ x d.
Definition push_back (a : Z) (l : tlist) (d : T) (x : X) : outcome tlist := push_one a l (end_ l) d x.
Definition push_front (a : Z) (l : tlist) (d : T) (x : X) : outcome tlist := push_one a l (begin l) d x.

Definition pop_one (l : tlist) (which : iterator) : outcome tlist :=
  match head l, it_ptr which with
  | None, _ => Throw (invalid_argument "nothing to pop.")
  | _, None => Throw (invalid_argument "you may not pop end().")
  | Some _, Some a =>
      n ← load (nodes l) (Some a);
      let left := prev n in
      let right := next n in
      h ← (match left with None => Ok (nodes l) | Some _ => set_next (nodes l) left right end);
      h ← (match right with None => Ok h | Some _ => set_prev h right left end);
      Ok (TList (delete a h)
            (if bool_decide (head l = Some a) then right else head l)
            (if bool_decide (tail l = Some a) then left else tail l)
            (u64 (m_size l - 1)))
  end.

Definition pop_front (l : tlist) : outcome tlist := pop_one l (begin l).
Definition pop_back (l : tlist) : outcome tlist := i ← decr (nodes l) (end_ l); pop_one l i.

(** The loop of [pop_some]. *)
Fixpoint pop_some (fuel : nat) (l : tlist) (from to : iterator) : outcome tlist :=
  match fuel with
  | O => Blocked
  | S fuel =>
      if iter_eq from to then Ok l
      else
        r ← post_incr (nodes l) from;
        let '(to_pop, iter) := r in
        l ← pop_one l to_pop;
        pop_some fuel l iter to
  end.

Definition size (l : tlist) : Z := m_size l.

(** The loop of the destructor: the nodes left in the heap. *)
Fixpoint destroy_loop (fuel : nat) (h : heap) (iter end_it : iterator) : outcome heap :=
  match fuel with
  | O => Blocked
  | S fuel =>
      if iter_eq iter end_it then Ok h
      else
        r ← post_incr h iter;
        let '(to_release, iter) := r in
        match it_ptr to_release with
        | Some a => destroy_loop fuel (delete a h) iter end_it
        | None => destroy_loop fuel h iter end_it
        end
  end.

Definition destroy (fuel : nat) (l : tlist) : outcome heap := destroy_loop fuel (nodes l) (begin l) (end_ l).

(** ** The sequence a list stands for *)

(** An element: its address, its data and its extra information. *)
Abbreviation elem := (Z * T * X)%type.

Definition addr (e : elem) : Z := e.1.1.
Definition addrs (xs : list elem) : list Z := addr <$> xs.

Definition hd_ptr (xs : list elem) (q : ptr) : ptr := match xs with [] => q | e :: _ => Some (addr e) end.
Definition last_ptr (xs : list elem) (p : ptr) : ptr := match last xs with None => p | Some e => Some (addr e) end.

(** The nodes of [xs] are linked to each other, the first to [p], the last to [q]. *)
Fixpoint dlseg (h : heap) (p : ptr) (xs : list elem) (q : ptr) : Prop :=
  match xs with
  | [] => True
  | e :: xs =>
      h !! addr e = Some (new_node e.1.2 p (hd_ptr xs q) e.2) /\ dlseg h (Some (addr e)) xs q
  end.

(** [l] holds exactly the sequence [xs]. *)
Record rep (l : tlist) (xs : list elem) : Prop := {
  rep_links : dlseg (nodes l) None xs None;
  rep_nodup : NoDup (addrs xs);
  rep_head : head l = hd_ptr xs None;
  rep_tail : tail l = last_ptr xs None;
  rep_size : m_size l = u64 (Z.of_nat (length xs));
  rep_dom : forall a, is_Some (nodes l !! a) -> a ∈ addrs xs
}.

(** ** Segments *)

Lemma last_ptr_app xs ys p : last_ptr (xs ++ ys) p = last_ptr ys (last_ptr xs p).
Proof. unfold last_ptr. rewrite last_app. by destruct (last ys). Qed.

Lemma last_ptr_cons e xs p : last_ptr (e :: xs) p = last_ptr xs (Some (addr e)).
Proof. unfold last_ptr. rewrite last_cons. by destruct (last xs). Qed.

Lemma hd_ptr_app xs ys q : hd_ptr (xs ++ ys) q = hd_ptr xs (hd_ptr ys q).
Proof. by destruct xs. Qed.

Lemma dlseg_app h p xs ys q :
  dlseg h p (xs ++ ys) q <-> dlseg h p xs (hd_ptr ys q) /\ dlseg h (last_ptr xs p) ys q.
Proof.
  revert p. induction xs as [|e xs IH]; intros p; cbn [app dlseg].
  - unfold last_ptr. cbn. tauto.
  - rewrite IH, hd_ptr_app, last_ptr_cons. tauto.
Qed.

Lemma dlseg_frame h h' p xs q :
  (forall a, a ∈ addrs xs -> h' !! a = h !! a) -> dlseg h p xs q -> dlseg h' p xs q.
Proof.
  revert p. induction xs as [|e xs IH]; intros p Hf; cbn [dlseg]; [done|].
  intros [He Hr]. split; [rewrite Hf; [done|]; cbn; set_solver|].
  apply IH; [|done]. intros a Ha. apply Hf. cbn. set_solver.
Qed.

Lemma dlseg_insert h p xs q a n : a ∉ addrs xs -> dlseg h p xs q -> dlseg (<[a := n]> h) p xs q.
Proof. intros Ha. apply dlseg_frame. intros b Hb. apply lookup_insert_ne. congruence. Qed.

Lemma dlseg_delete h p xs q a : a ∉ addrs xs -> dlseg h p xs q -> dlseg (delete a h) p xs q.
Proof. intros Ha. apply dlseg_frame. intros b Hb. apply lookup_delete_ne. congruence. Qed.

Lemma addrs_app xs ys : addrs (xs ++ ys) = addrs xs ++ addrs ys.
Proof. apply fmap_app. Qed.

Lemma last_ptr_in xs a : last_ptr xs None = Some a -> a ∈ addrs xs.
Proof.
  unfold last_ptr. destruct (last xs) as [e|] eqn:E; [|done]. intros [= <-].
  apply list_elem_of_fmap_2. by apply last_Some_elem_of.
Qed.

(** Redirecting the pointer out of the end, or the front, of a segment. *)
Lemma set_next_last h p xs q v :
  dlseg h p xs q -> NoDup (addrs xs) -> xs <> [] ->
  exists h', set_next h (last_ptr xs None) v = Ok h' /\ dlseg h' p xs v /\
    (forall a, a ∉ addrs xs -> h' !! a = h !! a) /\ dom h' = dom h.
Proof.
  intros Hd Hn Hne. destruct xs as [|e xs _] using rev_ind; [done|].
  rewrite addrs_app in Hn. apply NoDup_app in Hn as (Hn & Hx & _).
  apply dlseg_app in Hd as [Hd [He _]]. cbn [hd_ptr] in He.
  rewrite last_ptr_app. unfold last_ptr at 1. cbn [last].
  unfold set_next, load. rewrite He. run_ok. eexists. split; [done|]. split; [|split].
  - apply dlseg_app. split.
    + apply dlseg_insert; [|done]. intros Hin. apply (Hx _ Hin). cbn. set_solver.
    + split; [|done]. rewrite lookup_insert_eq. done.
  - intros a Ha. rewrite addrs_app in Ha. apply lookup_insert_ne. cbn in Ha. set_solver.
  - rewrite dom_insert_L. apply elem_of_dom_2 in He. set_solver.
Qed.

Lemma set_prev_head h p e xs q v :
  dlseg h p (e :: xs) q -> NoDup (addrs (e :: xs)) ->
  exists h', set_prev h (Some (addr e)) v = Ok h' /\ dlseg h' v (e :: xs) q /\
    (forall a, a <> addr e -> h' !! a = h !! a) /\ dom h' = dom h.
Proof.
  intros [He Hd] Hn. apply NoDup_cons in Hn as [Hx Hn].
  unfold set_prev, load. rewrite He. run_ok. eexists. split; [done|]. split; [|split].
  - split; [by rewrite lookup_insert_eq|]. by apply dlseg_insert.
  - intros a Ha. by apply lookup_insert_ne.
  - rewrite dom_insert_L. apply elem_of_dom_2 in He. set_solver.
Qed.

Lemma dlseg_in h p xs q a : dlseg h p xs q -> a ∈ addrs xs -> is_Some (h !! a).
Proof.
  revert p. induction xs as [|e xs IH]; intros p; [by intros _ ?%elem_of_nil|].
  intros [He Hd] [->|Hin]%elem_of_cons; [by rewrite He|eauto].
Qed.

Lemma u64_succ n : u64 (u64 n + 1) = u64 (n + 1).
Proof. unfold u64. by rewrite Z.add_mod_idemp_l. Qed.

Lemma u64_pred n : u64 (u64 n - 1) = u64 (n - 1).
Proof. unfold u64. by rewrite Zminus_mod_idemp_l. Qed.

(** The first address of a sequence is [b] only if [b] is in front. *)
Lemma head_before xs e ys :
  NoDup (addrs (xs ++ e :: ys)) ->
  (hd_ptr (xs ++ e :: ys) None = Some (addr e) <-> xs = []).
Proof.
  intros Hn. split; [|by intros ->]. destruct xs as [|e0 xs]; [done|]. cbn. intros [= Heq].
  rewrite addrs_app in Hn. apply NoDup_app in Hn as (_ & Hx & _). destruct (Hx (addr e)); cbn; set_solver.
Qed.

Lemma last_after xs e ys :
  NoDup (addrs (xs ++ e :: ys)) ->
  (last_ptr (xs ++ e :: ys) None = Some (addr e) <-> ys = []).
Proof.
  intros Hn. rewrite last_ptr_app, last_ptr_cons. split; [|by intros ->].
  destruct ys as [|e1 ys _] using rev_ind; [done|]. rewrite last_ptr_app. unfold last_ptr at 1. cbn [last].
  intros [= Heq]. rewrite addrs_app in Hn. apply NoDup_app in Hn as (_ & _ & Hn). cbn [addrs fmap list_fmap] in Hn.
  apply NoDup_cons in Hn as [Hn _]. destruct Hn. change (addr e ∈ addrs (ys ++ [e1])).
  rewrite addrs_app, <- Heq. cbn. set_solver.
Qed.

(** The invariant from its parts, when a node was added. *)
Lemma rep_added l xs ys h hd tl a d x :
  rep l (xs ++ ys) -> nodes l !! a = None ->
  dlseg h None (xs ++ (a, d, x) :: ys) None -> dom h = {[a]} ∪ dom (nodes l) ->
  hd = hd_ptr (xs ++ (a, d, x) :: ys) None -> tl = last_ptr (xs ++ (a, d, x) :: ys) None ->
  rep (TList h hd tl (u64 (m_size l + 1))) (xs ++ (a, d, x) :: ys).
Proof.
  intros [H1 H2 H3 H4 H5 H6] Ha Hd Hdom -> ->.
  assert (Hni : a ∉ addrs (xs ++ ys)) by (intros Hin; destruct (dlseg_in _ _ _ _ _ H1 Hin); congruence).
  rewrite addrs_app in *. split; cbn [nodes head tail m_size]; try done.
  - rewrite addrs_app. cbn [addrs fmap list_fmap]. rewrite <- Permutation_middle.
    apply NoDup_cons. by split.
  - rewrite H5, u64_succ, !length_app. f_equal. cbn [length]. lia.
  - intros b Hb. rewrite <- elem_of_dom, Hdom in Hb. rewrite addrs_app. cbn [addrs fmap list_fmap].
    apply elem_of_union in Hb as [->%elem_of_singleton|Hb]; [cbn; set_solver|].
    apply elem_of_dom, H6 in Hb. set_solver.
Qed.

(** Redirecting the end of a segment that may be empty. *)
Lemma relink_left h xs q v :
  dlseg h None xs q -> NoDup (addrs xs) ->
  exists h', (match last_ptr xs None with None => Ok h | Some _ => set_next h (last_ptr xs None) v end) = Ok h' /\
    dlseg h' None xs v /\ (forall c, c ∉ addrs xs -> h' !! c = h !! c) /\ dom h' = dom h.
Proof.
  intros Hd Hn. destruct xs as [|e0 xs]; [by exists h|].
  destruct (set_next_last h None (e0 :: xs) q v Hd Hn) as (h2 & E2 & HH); [done|].
  exists h2. rewrite E2. split; [|exact HH]. by destruct (last_ptr (e0 :: xs) None).
Qed.

Lemma relink_right h p ys v :
  dlseg h p ys None -> NoDup (addrs ys) ->
  exists h', (match hd_ptr ys None with None => Ok h | Some _ => set_prev h (hd_ptr ys None) v end) = Ok h' /\
    dlseg h' v ys None /\ (forall c, c ∉ addrs ys -> h' !! c = h !! c) /\ dom h' = dom h.
Proof.
  intros Hd Hn. destruct ys as [|e0 ys]; [by exists h|]. cbn [hd_ptr].
  destruct (set_prev_head h p e0 ys None v Hd Hn) as (h2 & E2 & D2 & F2 & M2).
  exists h2. split; [done|]. split; [done|]. split; [|done].
  intros c Hc. apply F2. intros ->. apply Hc. cbn. set_solver.
Qed.

(** What the invariant says of a sequence in two parts and a fresh address. *)
Lemma rep_parts l xs ys a n :
  rep l (xs ++ ys) -> nodes l !! a = None ->
  let h := <[a := n]> (nodes l) in
  (a ∉ addrs xs) /\ (a ∉ addrs ys) /\ NoDup (addrs xs) /\ NoDup (addrs ys) /\
  (forall c, c ∈ addrs xs -> c ∉ addrs ys) /\
  dlseg h None xs (hd_ptr ys None) /\ dlseg h (last_ptr xs None) ys None /\ dom h = {[a]} ∪ dom (nodes l).
Proof.
  intros [H1 H2 _ _ _ _] Ha.
  assert (Hni : a ∉ addrs (xs ++ ys)) by (intros Hin; destruct (dlseg_in _ _ _ _ _ H1 Hin); congruence).
  rewrite addrs_app in Hni, H2. apply NoDup_app in H2 as (Nx & Nxy & Ny).
  apply dlseg_app in H1 as [Dx Dy]. cbv zeta. rewrite dom_insert_L.
  repeat split; auto; try (apply dlseg_insert; [|done]); set_solver.
Qed.

Lemma emplace_end a l w x d xs :
  rep l (xs ++ []) -> it_ptr w = None -> nodes l !! a = None ->
  exists l', emplace_one a l w x d = Ok l' /\ rep l' (xs ++ [(a, d, x)]).
Proof.
  intros Hrep Hw Ha. pose proof Hrep as [_ _ H3 H4 _ _]. rewrite app_nil_r in H3, H4.
  destruct (rep_parts l xs [] a (new_node d None None x) Hrep Ha) as (Ax & _ & Nx & _ & _ & Dx & _ & Hdom).
  unfold emplace_one. rewrite Hw. set (h0 := <[a := _]> (nodes l)) in *.
  assert (H0a : h0 !! a = Some (new_node d None None x)) by apply lookup_insert_eq.
  destruct xs as [|e0 xs]; rewrite H3; cbn [hd_ptr] in *.
  - eexists. split; [done|]. apply (rep_added l [] []); try done.
  - destruct (set_next_last h0 None (e0 :: xs) None (Some a) Dx Nx) as (h1 & E1 & D1 & F1 & M1); [done|].
    rewrite H4, E1. run_ok.
    destruct (set_prev_head h1 None (a, d, x) [] None (last_ptr (e0 :: xs) None)) as (h2 & E2 & D2 & F2 & M2).
    { split; [|done]. cbn [addr fst snd hd_ptr]. by rewrite F1. }
    { apply NoDup_singleton. }
    cbn [addr fst] in E2. rewrite E2. run_ok. eexists. split; [done|].
    apply (rep_added l (e0 :: xs) []); [done|done| |congruence|done|by rewrite last_ptr_app].
    apply dlseg_app. split; [|exact D2].
    eapply dlseg_frame; [|exact D1]. intros c Hc. apply F2. cbn [addr fst]. by intros ->.
Qed.

Lemma emplace_before a l w x d xs b ys :
  rep l (xs ++ b :: ys) -> it_ptr w = Some (addr b) -> nodes l !! a = None ->
  exists l', emplace_one a l w x d = Ok l' /\ rep l' (xs ++ (a, d, x) :: b :: ys).
Proof.
  intros Hrep Hw Ha. pose proof Hrep as [_ Hnd H3 H4 _ _].
  destruct (rep_parts l xs (b :: ys) a (new_node d None (Some (addr b)) x) Hrep Ha)
    as (Ax & Ay & Nx & Ny & Nxy & Dx & Dy & Hdom).
  unfold emplace_one. rewrite Hw. set (h0 := <[a := _]> (nodes l)) in *.
  assert (Hhd : exists p, head l = Some p) by (rewrite H3; destruct xs; cbn; eauto).
  destruct Hhd as [p0 Hp0]. rewrite Hp0. pose proof Dy as [Hb _].
  unfold load at 1. rewrite Hb. run_ok. cbn [prev new_node].
  destruct (set_prev_head h0 None (a, d, x) [] (Some (addr b)) (last_ptr xs None)) as (h1 & E1 & D1 & F1 & M1).
  { split; [|done]. apply lookup_insert_eq. }
  { apply NoDup_singleton. }
  cbn [addr fst] in E1, F1. rewrite E1. run_ok.
  destruct (relink_left h1 xs (Some (addr b)) (Some a)) as (h2 & E2 & D2 & F2 & M2); [|done|].
  { eapply dlseg_frame; [|exact Dx]. intros c Hc. apply F1. by intros ->. }
  rewrite E2. run_ok.
  destruct (set_prev_head h2 (last_ptr xs None) b ys None (Some a)) as (h3 & E3 & D3 & F3 & M3); [|done|].
  { eapply dlseg_frame; [|exact Dy]. intros c Hc. rewrite F2, F1; [done|by intros ->|].
    intros Hx. by apply (Nxy c). }
  rewrite E3. run_ok. eexists. split; [done|].
  assert (Hbx : addr b ∉ addrs xs) by (intros Hx; apply (Nxy _ Hx); cbn; set_solver).
  apply rep_added; [done|done| |congruence| |].
  - apply dlseg_app. cbn [hd_ptr addr fst]. split; [|split; [|exact D3]].
    + eapply dlseg_frame; [|exact D2]. intros c Hc. apply F3. by intros ->.
    + cbn [addr fst snd]. rewrite F3 by (intros ->; apply Ay; cbn; set_solver). rewrite F2 by done.
      by destruct D1.
  - rewrite <- Hp0, H3. destruct xs as [|e0 xs]; cbn [app hd_ptr]; [by rewrite bool_decide_eq_true_2|].
    rewrite bool_decide_eq_false_2; [done|]. intros [= Heq]. apply Hbx. cbn. set_solver.
  - by rewrite H4, !last_ptr_app, !last_ptr_cons.
Qed.

Lemma emplace_rep a l w x d xs ys :
  rep l (xs ++ ys) -> it_ptr w = hd_ptr ys None -> nodes l !! a = None ->
  exists l', emplace_one a l w x d = Ok l' /\ rep l' (xs ++ (a, d, x) :: ys).
Proof.
  intros Hrep Hw Ha. destruct ys as [|b ys]; [by apply emplace_end|by apply emplace_before].
Qed.

(** The invariant from its parts, when a node was removed. *)
Lemma rep_removed l xs ys h hd tl e :
  rep l (xs ++ e :: ys) ->
  dlseg h None (xs ++ ys) None -> dom h = dom (nodes l) ∖ {[addr e]} ->
  hd = hd_ptr (xs ++ ys) None -> tl = last_ptr (xs ++ ys) None ->
  rep (TList h hd tl (u64 (m_size l - 1))) (xs ++ ys).
Proof.
  intros [H1 H2 H3 H4 H5 H6] Hd Hdom -> ->.
  assert (Hp : addrs (xs ++ e :: ys) ≡ₚ addr e :: addrs (xs ++ ys)).
  { rewrite !addrs_app. cbn [addrs fmap list_fmap]. by rewrite <- Permutation_middle. }
  split; cbn [nodes head tail m_size]; try done.
  - rewrite Hp in H2. by apply NoDup_cons in H2 as [_ H2].
  - rewrite H5, u64_pred, !length_app. f_equal. cbn [length]. lia.
  - intros b Hb. rewrite <- elem_of_dom, Hdom in Hb. apply elem_of_difference in Hb as [Hb Hne].
    apply elem_of_dom, H6 in Hb. rewrite Hp in Hb. set_solver.
Qed.

Lemma pop_rep l i xs e ys :
  rep l (xs ++ e :: ys) -> it_ptr i = Some (addr e) ->
  exists l', pop_one l i = Ok l' /\ rep l' (xs ++ ys).
Proof.
  intros Hrep Hi. pose proof Hrep as [H1 H2 H3 H4 H5 H6].
  pose proof (head_before xs e ys H2) as Hhb. pose proof (last_after xs e ys H2) as Hla.
  assert (Hhd : exists p, head l = Some p) by (rewrite H3; destruct xs; cbn; eauto).
  destruct Hhd as [p0 Hp0]. unfold pop_one. rewrite Hp0, Hi, <- Hp0.
  rewrite addrs_app in H2. apply NoDup_app in H2 as (Nx & Nxy & Ny).
  cbn [addrs fmap list_fmap] in Ny. apply NoDup_cons in Ny as [Hey Ny].
  assert (Hex : addr e ∉ addrs xs) by (intros Hx; apply (Nxy _ Hx); cbn; set_solver).
  apply dlseg_app in H1 as [Dx [He Dy]].
  unfold load at 1. rewrite He. run_ok. cbn [prev next new_node].
  destruct (relink_left (nodes l) xs _ (hd_ptr ys None) Dx Nx) as (h1 & E1 & D1 & F1 & M1).
  rewrite E1. run_ok.
  destruct (relink_right h1 (Some (addr e)) ys (last_ptr xs None)) as (h2 & E2 & D2 & F2 & M2); [|done|].
  { eapply dlseg_frame; [|exact Dy]. intros c Hc. apply F1. intros Hx. apply (Nxy _ Hx). cbn. set_solver. }
  rewrite E2. run_ok. eexists. split; [done|].
  apply (rep_removed l xs ys _ _ _ e); [done| | | |].
  - apply dlseg_app. split; apply dlseg_delete; try done.
    eapply dlseg_frame; [|exact D1]. intros c Hc. apply F2. intros Hy. apply (Nxy _ Hc). cbn. set_solver.
  - rewrite dom_delete_L, M2, M1. done.
  - rewrite H3. case_bool_decide as Hb.
    + apply Hhb in Hb as ->. done.
    + rewrite !hd_ptr_app. destruct xs; [|done]. by destruct Hb.
  - rewrite H4. case_bool_decide as Hb.
    + apply Hla in Hb as ->. by rewrite app_nil_r.
    + rewrite !last_ptr_app, last_ptr_cons. destruct ys as [|e1 ys]; [|by rewrite !last_ptr_cons].
      destruct Hb. by rewrite last_ptr_app, last_ptr_cons.
Qed.

(** ** The operations on sequences *)

Lemma rep_empty : rep empty [].
Proof. split; try done; [constructor|]. intros a [n Hn]. cbn in Hn. by rewrite lookup_empty in Hn. Qed.

Lemma push_back_rep a l x d xs :
  rep l xs -> nodes l !! a = None ->
  exists l', push_back a l d x = Ok l' /\ rep l' (xs ++ [(a, d, x)]).
Proof.
  intros H Ha. unfold push_back, push_one. apply emplace_rep; [by rewrite app_nil_r|done|done].
Qed.

Lemma push_front_rep a l x d xs :
  rep l xs -> nodes l !! a = None ->
  exists l', push_front a l d x = Ok l' /\ rep l' ((a, d, x) :: xs).
Proof.
  intros H Ha. unfold push_front, push_one.
  apply (emplace_rep a l (begin l) x d [] xs); [done| |done]. cbn. by destruct H.
Qed.

Lemma decr_end l xs e : rep l (xs ++ [e]) -> decr (nodes l) (end_ l) = Ok (It (Some (addr e)) (Some (addr e))).
Proof.
  intros [_ _ _ Ht _ _]. unfold decr, end_. cbn [it_ptr impl_tail]. rewrite Ht, last_ptr_app. done.
Qed.

Lemma pop_back_rep l xs e : rep l (xs ++ [e]) -> exists l', pop_back l = Ok l' /\ rep l' xs.
Proof.
  intros H. unfold pop_back. rewrite (decr_end l xs e) by done. run_ok.
  destruct (pop_rep l (It (Some (addr e)) (Some (addr e))) xs e []) as (l' & E & Hr); [done..|].
  rewrite app_nil_r in Hr. eauto.
Qed.

Lemma pop_front_rep l e xs : rep l (e :: xs) -> exists l', pop_front l = Ok l' /\ rep l' xs.
Proof.
  intros H. apply (pop_rep l (begin l) [] e xs); [done|]. cbn. by destruct H as [_ _ -> _ _ _].
Qed.

(** C9: the linked list implements the sequence operations: on a list that
    holds [xs], inserting before any position (or at the end), pushing at both
    ends, removing any element and popping at both ends succeed, give a list
    that holds exactly the resulting sequence, and [size] is its length. *)
Theorem traceable_list_refines :
  rep empty [] /\
  (forall l xs ys w a d x, rep l (xs ++ ys) -> it_ptr w = hd_ptr ys None -> nodes l !! a = None ->
     exists l', emplace_one a l w x d = Ok l' /\ rep l' (xs ++ (a, d, x) :: ys)) /\
  (forall l xs a d x, rep l xs -> nodes l !! a = None ->
     (exists l', push_back a l d x = Ok l' /\ rep l' (xs ++ [(a, d, x)])) /\
     (exists l', push_front a l d x = Ok l' /\ rep l' ((a, d, x) :: xs))) /\
  (forall l xs e ys i, rep l (xs ++ e :: ys) -> it_ptr i = Some (addr e) ->
     exists l', pop_one l i = Ok l' /\ rep l' (xs ++ ys)) /\
  (forall l e xs, rep l (e :: xs) -> exists l', pop_front l = Ok l' /\ rep l' xs) /\
  (forall l e xs, rep l (xs ++ [e]) -> exists l', pop_back l = Ok l' /\ rep l' xs) /\
  (forall l xs, rep l xs -> Z.of_nat (length xs) < 2 ^ 64 -> size l = Z.of_nat (length xs)).
Proof.
  split; [exact rep_empty|]. split; [eauto using emplace_rep|].
  split; [eauto using push_back_rep, push_front_rep|]. split; [eauto using pop_rep|].
  split; [eauto using pop_front_rep|]. split; [eauto using pop_back_rep|].
  intros l xs [_ _ _ _ Hs _] Hl. unfold size. rewrite Hs. apply u64_small. lia.
Qed.

(** ** Walking the list *)

Lemma load_elem l xs e ys : rep l (xs ++ e :: ys) ->
  load (nodes l) (Some (addr e)) = Ok (new_node e.1.2 (last_ptr xs None) (hd_ptr ys None) e.2).
Proof.
  intros [H _ _ _ _ _]. apply dlseg_app in H as [_ [He _]]. unfold load. by rewrite He.
Qed.

Lemma pop_some_rep fuel l i j xs ys zs :
  rep l (xs ++ ys ++ zs) -> it_ptr i = hd_ptr (ys ++ zs) None -> it_ptr j = hd_ptr zs None ->
  (length ys < fuel)%nat ->
  exists l', pop_some fuel l i j = Ok l' /\ rep l' (xs ++ zs).
Proof.
  revert l i ys. induction fuel as [|fuel IH]; intros l i ys Hr Hi Hj Hf; [lia|]. cbn [pop_some].
  unfold iter_eq. rewrite Hi, Hj. destruct ys as [|e ys].
  - cbn [app] in *. rewrite bool_decide_eq_true_2 by done. eauto.
  - rewrite bool_decide_eq_false_2.
    2: { cbn [app hd_ptr]. intros Heq. pose proof (rep_nodup _ _ Hr) as Hn.
         rewrite addrs_app in Hn. apply NoDup_app in Hn as (_ & _ & Hn).
         cbn [app addrs fmap list_fmap] in Hn. apply NoDup_cons in Hn as [Hn _].
         destruct zs as [|z zs]; [done|]. injection Heq as Heq. apply Hn.
         change (addr e ∈ addrs (ys ++ z :: zs)). rewrite addrs_app, Heq. cbn. set_solver. }
    unfold post_incr, incr. rewrite Hi. cbn [app hd_ptr]. rewrite (load_elem l xs e (ys ++ zs)) by done. run_ok.
    destruct (pop_rep l (iter_of (Some (addr e))) xs e (ys ++ zs)) as (l' & -> & Hr'); [done..|]. run_ok.
    apply IH with (ys := ys); [done|done|done|cbn in Hf; lia].
Qed.

Lemma destroy_loop_run fuel l xs h i j :
  rep l xs -> h = nodes l -> it_ptr i = head l -> it_ptr j = None ->
  (length xs < fuel)%nat -> destroy_loop fuel h i j = Ok ∅.
Proof.
  revert fuel h i. cut (forall xs p fuel h i, dlseg h p xs None -> NoDup (addrs xs) ->
    (forall a, is_Some (h !! a) -> a ∈ addrs xs) -> it_ptr i = hd_ptr xs None -> it_ptr j = None ->
    (length xs < fuel)%nat -> destroy_loop fuel h i j = Ok ∅).
  { intros H fuel h i [H1 H2 H3 H4 H5 H6] -> Hi Hj Hf. eapply H; eauto. congruence. }
  clear xs. induction xs as [|e xs IH]; intros p fuel h i Hd Hn Hdom Hi Hj Hf;
    (destruct fuel as [|fuel]; [lia|]); cbn [destroy_loop]; unfold iter_eq; rewrite Hi, Hj.
  - rewrite bool_decide_eq_true_2 by done. f_equal. apply map_empty. intros a.
    destruct (h !! a) eqn:E; [|done]. assert (Hin : a ∈ addrs []) by (apply Hdom; by rewrite E).
    by apply elem_of_nil in Hin.
  - cbn [hd_ptr]. rewrite bool_decide_eq_false_2 by done.
    destruct Hd as [He Hd]. apply NoDup_cons in Hn as [Hne Hn].
    unfold post_incr, incr, load. rewrite Hi. cbn [hd_ptr]. rewrite He. run_ok. cbn [it_ptr iter_of].
    eapply IH; eauto; [by apply dlseg_delete| |cbn in Hf; lia].
    intros a [n Hn']. apply lookup_delete_Some in Hn' as [Hna Hn'].
    assert (Hin : a ∈ addrs (e :: xs)) by (apply Hdom; by rewrite Hn').
    apply elem_of_cons in Hin as [->|Hin]; done.
Qed.

(** C28: [pop_some] removes exactly the elements from [from] up to, but not
    including, [to], and the destructor ends after one step per element having
    freed every node. *)
Theorem pop_some_and_destroy l xs ys zs i j :
  rep l (xs ++ ys ++ zs) -> it_ptr i = hd_ptr (ys ++ zs) None -> it_ptr j = hd_ptr zs None ->
  (exists l', pop_some (S (length ys)) l i j = Ok l' /\ rep l' (xs ++ zs)) /\
  destroy (S (length (xs ++ ys ++ zs))) l = Ok ∅.
Proof.
  intros Hr Hi Hj. split; [by apply (pop_some_rep _ l i j xs ys zs); [..|lia]|].
  eapply destroy_loop_run; eauto; lia.
Qed.

(** The iterator built from a pointer to an element's data is the element's. *)
Lemma iter_of_data_rep l xs e ys : rep l (xs ++ e :: ys) ->
  iter_of_data (nodes l) (addr e) = Ok (iter_of (Some (addr e))) /\
  deref_iter (nodes l) (iter_of (Some (addr e))) = Ok e.1.2 /\
  get_extra_info (nodes l) (iter_of (Some (addr e))) = Ok e.2.
Proof.
  intros H. unfold iter_of_data, deref_iter, get_extra_info. cbn [it_ptr iter_of].
  rewrite (load_elem _ _ _ _ H). by repeat split.
Qed.

(** Writing the extra information of an element. *)
Lemma set_extra_info_rep l xs e ys x : rep l (xs ++ e :: ys) ->
  exists h, set_extra_info (nodes l) (iter_of (Some (addr e))) x = Ok h /\
    rep (with_nodes l h) (xs ++ (e.1, x) :: ys).
Proof.
  intros Hr. unfold set_extra_info. cbn [it_ptr iter_of]. rewrite (load_elem _ _ _ _ Hr). run_ok.
  eexists. split; [done|]. destruct Hr as [H1 H2 H3 H4 H5 H6].
  assert (Ha : addrs (xs ++ (e.1, x) :: ys) = addrs (xs ++ e :: ys)) by (rewrite !addrs_app; done).
  assert (Hex : (addr e ∉ addrs xs) /\ (addr e ∉ addrs ys)).
  { rewrite addrs_app in H2. apply NoDup_app in H2 as (_ & Hx & Hy).
    cbn [addrs fmap list_fmap] in Hy. apply NoDup_cons in Hy as [Hy _]. split; [|done].
    intros Hin. apply (Hx _ Hin). cbn. set_solver. }
  apply dlseg_app in H1 as [Dx [He Dy]].
  split; cbn [nodes with_nodes head tail m_size data prev next magic new_node].
  - apply dlseg_app. split; [apply dlseg_insert; [tauto|done]|]. split; [|apply dlseg_insert; [tauto|done]].
    change (addr (e.1, x)) with (addr e). by rewrite lookup_insert_eq.
  - by rewrite Ha.
  - rewrite H3, !hd_ptr_app. done.
  - rewrite H4, !last_ptr_app, !last_ptr_cons. done.
  - rewrite H5, !length_app. done.
  - intros a. rewrite Ha, <- elem_of_dom, dom_insert_L. intros [->%elem_of_singleton|Hin]%elem_of_union.
    + apply H6. by rewrite He.
    + by apply H6, elem_of_dom.
Qed.

(** On an empty list [pop_front] throws [invalid_argument], but [pop_back]
    goes through [--end()], which dereferences a null pointer. *)
Theorem pop_empty l : rep l [] ->
  pop_front l = Throw (invalid_argument "nothing to pop.") /\ pop_back l = Undefined NullDeref.
Proof.
  intros [_ _ Hh Ht _ _]. cbn in Hh, Ht. unfold pop_front, pop_back, pop_one, decr, begin, end_.
  cbn [it_ptr impl_tail]. by rewrite Hh, Ht.
Qed.

End TList.

(** A list of three elements, built by the operations. *)
Definition sample : outcome (@tlist Z bool) :=
  l ← push_back 10 empty 1 true; l ← push_back 20 l 2 true; push_front 30 l 3 false.

Lemma traceable_list_refines_witness :
  exists l : @tlist Z bool, sample = Ok l /\ rep l [(30, 3, false); (10, 1, true); (20, 2, true)] /\ size l = 3.
Proof.
  destruct (@traceable_list_refines Z bool) as (H0 & _ & Hpush & _ & _ & _ & Hsize).
  destruct (Hpush empty [] 10 1 true H0 eq_refl) as [(l1 & E1 & R1) _].
  assert (N1 : nodes l1 !! 20 = None) by (vm_compute in E1; injection E1 as <-; reflexivity).
  destruct (Hpush l1 _ 20 2 true R1 N1) as [(l2 & E2 & R2) _].
  assert (N2 : nodes l2 !! 30 = None).
  { vm_compute in E1. injection E1 as <-. vm_compute in E2. injection E2 as <-. reflexivity. }
  destruct (Hpush l2 _ 30 3 false R2 N2) as [_ (l3 & E3 & R3)].
  exists l3. split; [|split; [exact R3|exact (Hsize l3 _ R3 ltac:(cbn; lia))]].
  unfold sample. rewrite E1. run_ok. rewrite E2. run_ok. exact E3.
Defined.

Lemma sample_rep l : sample = Ok l -> rep l [(30, 3, false); (10, 1, true); (20, 2, true)].
Proof.
  intros E. destruct (push_back_rep 10 (@empty Z bool) true 1 [] rep_empty eq_refl) as (l1 & E1 & R1).
  unfold sample in E. rewrite E1 in E. run_ok in E.
  assert (N1 : nodes l1 !! 20 = None) by (vm_compute in E1; injection E1 as <-; reflexivity).
  destruct (push_back_rep 20 l1 true 2 _ R1 N1) as (l2 & E2 & R2). rewrite E2 in E. run_ok in E.
  assert (N2 : nodes l2 !! 30 = None).
  { vm_compute in E1. injection E1 as <-. vm_compute in E2. injection E2 as <-. reflexivity. }
  destruct (push_front_rep 30 l2 false 3 _ R2 N2) as (l3 & E3 & R3). rewrite E3 in E. by injection E as <-.
Qed.

Lemma pop_some_and_destroy_witness :
  exists l, sample = Ok l /\
    (exists l', pop_some 3 l (iter_of (Some 30)) (iter_of (Some 20)) = Ok l' /\ rep l' [(20, 2, true)]) /\
    destroy 4 l = Ok ∅.
Proof.
  destruct sample as [l| | |] eqn:E; [|vm_compute in E; discriminate..]. exists l. split; [done|].
  exact (pop_some_and_destroy l [] [(30, 3, false); (10, 1, true)] [(20, 2, true)]
    (iter_of (Some 30)) (iter_of (Some 20)) (sample_rep l E) eq_refl eq_refl).
Defined.

Lemma pop_empty_witness :
  rep (@empty Z bool) [] /\ pop_back (@empty Z bool) = Undefined NullDeref.
Proof. split; [exact rep_empty|]. exact (proj2 (pop_empty (@empty Z bool) rep_empty)). Defined.

End TraceableList.
