(* ===== verification/ObjPool.v ===== *)
(** * The object pool: [rlib/pool.hpp]

    [fixed_object_pool] over the linked list of [TraceableList], and the threads
    that borrow from it and release to it.  A system state is the pool and what
    every thread is doing; the steps are the critical sections of the mutex, in
    any order, and the notifications of the condition variable. *)

From stdpp Require Import gmap.
From S2P Require Import Prelude TraceableList.
Open Scope Z_scope.

Module ObjPool.
Import TraceableList.

Section Pool.
Context {T : Type}.
(** An object constructed from the bound arguments. *)
Context (make : T).

Record pool := Pool {
  buffer : @tlist T bool;  (** every object, and whether it is free *)
  max_size : Z;
  free_list : list Z;
  new_obj_ready : bool
}.

(** [fixed_object_pool(max_size, args...)] *)
Definition new_pool (max_size : Z) : pool := Pool empty max_size [] false.

(** The address [new] returns: one that no node has. *)
Definition alloc (l : @tlist T bool) : Z := fresh (dom (nodes l)).

Definition new_obj_to_buffer (p : pool) : outcome pool :=
  b ← emplace_one (alloc (buffer p)) (buffer p) (end_ (buffer p)) true make;
  Ok (Pool b (max_size p) (free_list p) (new_obj_ready p)).

(** [free_list.push_back(&*--buffer.end())] *)
Definition free_last (p : pool) : outcome pool :=
  i ← decr (nodes (buffer p)) (end_ (buffer p));
  _ ← load (nodes (buffer p)) (it_ptr i);
  match it_ptr i with
  | Some a => Ok (Pool (buffer p) (max_size p) (free_list p ++ [a]) (new_obj_ready p))
  | None => Undefined NullDeref
  end.

Fixpoint fill_loop (fuel : nat) (cter : Z) (p : pool) : outcome pool :=
  match fuel with
  | O => Blocked
  | S fuel =>
      if cter <? max_size p then
        p ← new_obj_to_buffer p;
        p ← free_last p;
        fill_loop fuel (cter + 1) p
      else Ok p
  end.

Definition fill_full (p : pool) : outcome pool := fill_loop (S (Z.to_nat (max_size p))) 0 p.

(** Marks the object as free or busy through an iterator made from its address. *)
Definition mark (p : pool) (which : Z) (free : bool) : outcome (@tlist T bool) :=
  i ← iter_of_data (nodes (buffer p)) which;
  h ← set_extra_info (nodes (buffer p)) i free;
  Ok (with_nodes (buffer p) h).

(** [do_try_borrow_one]; [fuel] bounds the jumps to [borrow_again]. *)
Fixpoint do_try_borrow (fuel : nat) (p : pool) : outcome (option Z * pool) :=
  match fuel with
  | O => Blocked
  | S fuel =>
      match free_list p with
      | result :: rest =>
          b ← mark p result false;
          Ok (Some result, Pool b (max_size p) rest false)
      | [] =>
          if size (buffer p) <? max_size p then
            p ← new_obj_to_buffer p;
            p ← free_last p;
            do_try_borrow fuel p
          else Ok (None, p)
      end
  end.

Definition do_try_borrow_one (p : pool) : outcome (option Z * pool) := do_try_borrow 2 p.

(** [try_borrow_one]: the same under the lock. *)
Definition try_borrow_one (p : pool) : outcome (option Z * pool) := do_try_borrow_one p.

(** The critical section of [release_one]. *)
Definition release_one (p : pool) (which : Z) : outcome pool :=
  let p := Pool (buffer p) (max_size p) (which :: free_list p) (new_obj_ready p) in
  b ← mark p which true;
  Ok (Pool b (max_size p) (free_list p) true).

(** [reconstruct_one]: the object is replaced by a newly constructed one. *)
Definition reconstruct_one (p : pool) (which : Z) : outcome pool :=
  match nodes (buffer p) !! which with
  | None => Undefined OobRead
  | Some n =>
      Ok (Pool (with_nodes (buffer p)
                  (<[which := Node make (prev n) (next n) (extra_info n) (magic n)]> (nodes (buffer p))))
            (max_size p) (free_list p) (new_obj_ready p))
  end.

(** ** Threads *)

(** A thread in [borrow_one]: [Checking] is about to evaluate the predicate of
    [borrow_cv.wait] with the lock held, [Asleep] is blocked in it, and
    [Broken] has thrown the [logic_error].  A thread in [release_one] is
    [Notifying] between the critical section and [notify_one]. *)
Inductive thread := Idle | Checking | Asleep | Holding (a : Z) | Notifying | Broken.

#[global] Instance thread_eq_dec : EqDecision thread.
Proof. solve_decision. Defined.

Record sys := Sys { the_pool : pool; threads : list thread }.

Inductive event :=
| Borrow (i : nat)                   (** thread [i] calls [borrow_one] *)
| Check (i : nat)                    (** it evaluates the predicate *)
| Release (i : nat)                  (** it releases its object *)
| Notify (i : nat) (j : option nat)  (** [notify_one] wakes [j], or finds no thread to wake *)
| Spurious (j : nat).                (** [wait] wakes without a notification *)

Definition set_thread (s : sys) (p : pool) (i : nat) (t : thread) : sys := Sys p (<[i := t]> (threads s)).

Definition is_asleep (t : thread) : bool := match t with Asleep => true | _ => false end.

(** The effect of an event: [None] if it cannot happen in this state. *)
Definition exec (ev : event) (s : sys) : option (outcome sys) :=
  match ev with
  | Borrow i =>
      match threads s !! i with
      | Some Idle =>
          Some (r ← try_borrow_one (the_pool s);
                let '(o, p) := r in
                Ok (set_thread s p i (match o with Some a => Holding a | None => Checking end)))
      | _ => None
      end
  | Check i =>
      match threads s !! i with
      | Some Checking =>
          if new_obj_ready (the_pool s) then
            Some (r ← do_try_borrow_one (the_pool s);
                  let '(o, p) := r in
                  Ok (set_thread s p i (match o with Some a => Holding a | None => Broken end)))
          else Some (Ok (set_thread s (the_pool s) i Asleep))
      | _ => None
      end
  | Release i =>
      match threads s !! i with
      | Some (Holding a) => Some (p ← release_one (the_pool s) a; Ok (set_thread s p i Notifying))
      | _ => None
      end
  | Notify i j =>
      match threads s !! i with
      | Some Notifying =>
          let s' := set_thread s (the_pool s) i Idle in
          match j with
          | Some j =>
              if decide (threads s !! j = Some Asleep)
              then Some (Ok (set_thread s' (the_pool s) j Checking)) else None
          | None => if existsb is_asleep (threads s) then None else Some (Ok s')
          end
      | _ => None
      end
  | Spurious j =>
      match threads s !! j with
      | Some Asleep => Some (Ok (set_thread s (the_pool s) j Checking))
      | _ => None
      end
  end.

(** The states reachable from a pool and [n] idle threads. *)
Inductive reachable (s0 : sys) : sys -> Prop :=
| reach_init : reachable s0 s0
| reach_step s ev s' : reachable s0 s -> exec ev s = Some (Ok s') -> reachable s0 s'.

Definition init_sys (max n : nat) : sys := Sys (new_pool (Z.of_nat max)) (replicate n Idle).

(** ** The invariant of the pool *)

(** [cap]: the [max_size] the pool was built with. *)
Context (cap : Z).

(** [xs] are the objects of the pool, [held] those on loan: the free list and
    the loans are the objects, each once; an object's flag says whether it is in
    the free list; [new_obj_ready] announces a free object. *)
Record pool_ok (p : pool) (xs : list (Z * T * bool)) (held : list Z) : Prop := {
  ok_rep : rep (buffer p) xs;
  ok_split : free_list p ++ held ≡ₚ addrs xs;
  ok_flags : Forall (fun e => e.2 = bool_decide (addr e ∈ free_list p)) xs;
  ok_size : Z.of_nat (length xs) <= max_size p < 2 ^ 64 /\ max_size p = cap;
  ok_ready : new_obj_ready p = true -> free_list p <> []
}.

Definition with_flag (a : Z) (f : bool) (e : Z * T * bool) : Z * T * bool :=
  if decide (addr e = a) then (e.1, f) else e.

Lemma with_flag_other a f (xs : list (Z * T * bool)) : a ∉ addrs xs -> with_flag a f <$> xs = xs.
Proof.
  induction xs as [|e xs IH]; [done|]. cbn. rewrite not_elem_of_cons. intros [Hne Hn].
  unfold with_flag at 1. rewrite decide_False by done. f_equal. by apply IH.
Qed.

Lemma with_flag_addrs a f xs : addrs (with_flag a f <$> xs) = addrs xs.
Proof.
  unfold addrs. rewrite <- list_fmap_compose. apply list_fmap_ext. intros i e _.
  unfold with_flag. cbn. by case_decide.
Qed.

Lemma mark_ok p xs a f : rep (buffer p) xs -> a ∈ addrs xs ->
  exists b, mark p a f = Ok b /\ rep b (with_flag a f <$> xs).
Proof.
  intros Hr [e [-> He]]%list_elem_of_fmap. apply list_elem_of_split in He as (l1 & l2 & ->).
  destruct (iter_of_data_rep _ _ _ _ Hr) as (E1 & _).
  destruct (set_extra_info_rep _ _ _ _ f Hr) as (h & E2 & Hr').
  unfold mark. rewrite E1. run_ok. rewrite E2. run_ok. eexists. split; [done|].
  pose proof (rep_nodup _ _ Hr) as Hn. rewrite addrs_app in Hn.
  apply NoDup_app in Hn as (_ & Hx & Hy). cbn [addrs fmap list_fmap] in Hy. apply NoDup_cons in Hy as [Hy _].
  rewrite fmap_app. cbn [fmap list_fmap]. rewrite !with_flag_other; [|done|].
  - unfold with_flag. by rewrite decide_True.
  - intros Hin. apply (Hx _ Hin). cbn. set_solver.
Qed.

Lemma flags_after (xs : list (Z * T * bool)) (free free' : list Z) a f :
  Forall (fun e => e.2 = bool_decide (addr e ∈ free)) xs ->
  (forall b, b <> a -> b ∈ free' <-> b ∈ free) -> f = bool_decide (a ∈ free') ->
  Forall (fun e => e.2 = bool_decide (addr e ∈ free')) (with_flag a f <$> xs).
Proof.
  intros Hf Hb ->. rewrite Forall_fmap. eapply Forall_impl; [done|]. intros e He. cbn.
  unfold with_flag. case_decide as Ha; cbn.
  - rewrite <- Ha. done.
  - rewrite He. apply bool_decide_ext. by rewrite Hb.
Qed.

(** Taking the first free object. *)
Lemma take_ok n p xs held a rest :
  pool_ok p xs held -> free_list p = a :: rest ->
  exists p' xs', do_try_borrow (S n) p = Ok (Some a, p') /\ pool_ok p' xs' (a :: held).
Proof.
  intros [Hr Hs Hf Hm Hrd] Hfree. rewrite Hfree in Hs.
  assert (Ha : a ∈ addrs xs) by (rewrite <- Hs; set_solver).
  destruct (mark_ok p xs a false Hr Ha) as (b & E & Hr').
  assert (Hnd : NoDup (a :: rest ++ held)) by (rewrite app_comm_cons, Hs; by apply (rep_nodup _ _ Hr)).
  cbn [do_try_borrow]. rewrite Hfree, E. run_ok. do 2 eexists. split; [done|].
  split; cbn [buffer free_list max_size new_obj_ready].
  - exact Hr'.
  - rewrite with_flag_addrs, <- Hs. cbn [app]. by rewrite Permutation_middle.
  - eapply flags_after; [exact Hf| |].
    + intros c Hc. rewrite Hfree. set_solver.
    + apply NoDup_cons in Hnd as [Hnd _]. rewrite bool_decide_eq_false_2; [done|]. set_solver.
  - by rewrite length_fmap.
  - done.
Qed.

Lemma alloc_fresh l : nodes l !! alloc l = None.
Proof. unfold alloc. apply not_elem_of_dom. apply is_fresh. Qed.

(** Making one more object and putting it on the free list. *)
Lemma grow_ok p xs held :
  pool_ok p xs held -> free_list p = [] -> Z.of_nat (length xs) < max_size p ->
  exists p1 xs1 a, (p ← new_obj_to_buffer p; free_last p) = Ok p1 /\ pool_ok p1 xs1 held /\ free_list p1 = [a].
Proof.
  intros [Hr Hs Hf Hm Hrd] Hfree Hlt. rewrite Hfree in Hs. cbn [app] in Hs.
  unfold new_obj_to_buffer. set (a := alloc (buffer p)).
  destruct (emplace_rep a (buffer p) (end_ (buffer p)) true make xs []) as (b & E & Hr1);
    [by rewrite app_nil_r|done|apply alloc_fresh|].
  assert (Ha : a ∉ addrs xs).
  { intros Hin. pose proof (rep_nodup _ _ Hr1) as Hn. rewrite addrs_app in Hn.
    apply NoDup_app in Hn as (_ & Hx & _). apply (Hx _ Hin). cbn. set_solver. }
  rewrite E. run_ok. unfold free_last. cbn [buffer free_list max_size new_obj_ready].
  rewrite (decr_end b xs (a, make, true)) by done. run_ok. cbn [it_ptr].
  rewrite (load_elem b xs (a, make, true) []) by done. run_ok. rewrite Hfree. cbn [app addr fst].
  do 3 eexists. split; [done|]. split; [|done].
  split; cbn [buffer free_list max_size new_obj_ready].
  - exact Hr1.
  - rewrite addrs_app, Hs. cbn. by rewrite <- Permutation_cons_append.
  - apply Forall_app. split.
    + rewrite Forall_forall in Hf |- *. intros e He. rewrite (Hf e He), Hfree.
      apply bool_decide_ext. split; [set_solver|]. intros Hin%list_elem_of_singleton.
      destruct Ha. rewrite <- Hin. by apply list_elem_of_fmap_2.
    + constructor; [|constructor]. cbn. symmetry. apply bool_decide_eq_true_2. set_solver.
  - rewrite length_app. cbn [length]. lia.
  - done.
Qed.

(** Borrowing: an object that was free or is new, or none when all are on loan. *)
Lemma borrow_ok p xs held : pool_ok p xs held ->
  (exists a p' xs', do_try_borrow_one p = Ok (Some a, p') /\ pool_ok p' xs' (a :: held)) \/
  (do_try_borrow_one p = Ok (None, p) /\ free_list p = [] /\ Z.of_nat (length xs) = max_size p).
Proof.
  intros Hp. unfold do_try_borrow_one. destruct (free_list p) as [|a rest] eqn:Hfree.
  - pose proof (rep_size _ _ (ok_rep _ _ _ Hp)) as Hsz. pose proof (ok_size _ _ _ Hp) as Hm.
    rewrite u64_small in Hsz by lia. change (do_try_borrow 2 p) with
      (match free_list p with
       | result :: rest => b ← mark p result false; Ok (Some result, Pool b (max_size p) rest false)
       | [] => if size (buffer p) <? max_size p
               then (p ← new_obj_to_buffer p; p ← free_last p; do_try_borrow 1 p) else Ok (None, p) end).
    rewrite Hfree. unfold size. rewrite Hsz.
    destruct (Z.ltb_spec (Z.of_nat (length xs)) (max_size p)) as [Hlt|Hge].
    + destruct (grow_ok p xs held Hp Hfree Hlt) as (p1 & xs1 & a & E & Hp1 & Hf1).
      destruct (new_obj_to_buffer p) as [p0| | |]; [|discriminate E..]. run_ok in E. run_ok. rewrite E. run_ok.
      left. destruct (take_ok 0 p1 xs1 held a [] Hp1 Hf1) as (p' & xs' & HH). eauto.
    + right. split; [done|]. split; [done|lia].
  - left. destruct (take_ok 1 p xs held a rest Hp Hfree) as (p' & xs' & HH). eauto.
Qed.

Lemma release_ok p xs held a :
  pool_ok p xs (a :: held) ->
  exists p' xs', release_one p a = Ok p' /\ pool_ok p' xs' held /\ new_obj_ready p' = true.
Proof.
  intros [Hr Hs Hf Hm Hrd]. unfold release_one.
  assert (Ha : a ∈ addrs xs) by (rewrite <- Hs; set_solver).
  destruct (mark_ok (Pool (buffer p) (max_size p) (a :: free_list p) (new_obj_ready p)) xs a true Hr Ha) as (b & E & Hr').
  cbv zeta. rewrite E. run_ok. do 2 eexists. split; [done|]. split; [|done].
  split; cbn [buffer free_list max_size new_obj_ready].
  - exact Hr'.
  - rewrite with_flag_addrs, <- Hs. cbn [app]. by rewrite Permutation_middle.
  - eapply flags_after; [exact Hf| |].
    + intros c Hc. set_solver.
    + rewrite bool_decide_eq_true_2; [done|set_solver].
  - by rewrite length_fmap.
  - done.
Qed.

(** ** Threads *)

Definition held1 (t : thread) : list Z := match t with Holding a => [a] | _ => [] end.
Definition held_of (ts : list thread) : list Z := ts ≫= held1.

(** The system invariant: the loans are what the threads hold, and no thread
    has met the [logic_error]. *)
Definition sys_ok (s : sys) : Prop :=
  (exists xs, pool_ok (the_pool s) xs (held_of (threads s))) /\ Broken ∉ threads s.

Lemma held_change ts i t t' : ts !! i = Some t ->
  exists rest, held_of ts ≡ₚ held1 t ++ rest /\ held_of (<[i := t']> ts) ≡ₚ held1 t' ++ rest.
Proof.
  intros Hi. exists (held_of (take i ts) ++ held_of (drop (S i) ts)). unfold held_of.
  rewrite (insert_take_drop ts i t') by (by eapply lookup_lt_Some).
  rewrite <- (take_drop_middle ts i t Hi) at 1. rewrite !bind_app, !bind_cons. split; solve_Permutation.
Qed.

Lemma pool_ok_perm p xs held held' : held ≡ₚ held' -> pool_ok p xs held -> pool_ok p xs held'.
Proof. intros Hp [H1 H2 H3 H4 H5]. split; try done. by rewrite <- Hp. Qed.

Lemma broken_insert (ts : list thread) (i : nat) t : Broken ∉ ts -> t <> Broken -> Broken ∉ <[i := t]> ts.
Proof.
  intros H1 H2 [j Hj]%list_elem_of_lookup. apply list_lookup_insert_Some in Hj as [(_ & -> & _)|[_ Hj]]; [done|].
  apply H1, list_elem_of_lookup. eauto.
Qed.

(** A step that does not change who holds what. *)
Lemma ok_same s i t t' :
  sys_ok s -> threads s !! i = Some t -> held1 t = [] -> held1 t' = [] -> t' <> Broken ->
  sys_ok (set_thread s (the_pool s) i t').
Proof.
  intros [[xs Hp] Hb] Hi Ht Ht' Hne. split; [|by apply broken_insert].
  exists xs. eapply pool_ok_perm; [|exact Hp]. cbn [threads set_thread].
  destruct (held_change _ i t t' Hi) as (rest & -> & ->). by rewrite Ht, Ht'.
Qed.

(** A step by which an idle or waiting thread gets the object [a]. *)
Lemma ok_gets s i t a p xs :
  sys_ok s -> threads s !! i = Some t -> held1 t = [] -> pool_ok p xs (a :: held_of (threads s)) ->
  sys_ok (set_thread s p i (Holding a)).
Proof.
  intros [_ Hb] Hi Ht Hp. split; [|by apply broken_insert].
  exists xs. eapply pool_ok_perm; [|exact Hp]. cbn [threads set_thread].
  destruct (held_change _ i t (Holding a) Hi) as (rest & -> & ->). by rewrite Ht.
Qed.

(** No event meets undefined behaviour, and every event keeps the invariant. *)
Lemma exec_ok s ev o : sys_ok s -> exec ev s = Some o -> exists s', o = Ok s' /\ sys_ok s'.
Proof.
  intros Hs. pose proof Hs as [[xs Hp] Hb]. destruct ev as [i|i|i|i j|j]; cbn [exec].
  - destruct (threads s !! i) as [[]|] eqn:Hi; try done. intros [= <-]. unfold try_borrow_one.
    destruct (borrow_ok _ _ _ Hp) as [(a & p' & xs' & -> & Hp')|(-> & _ & _)]; run_ok.
    + eexists. split; [done|]. by eapply ok_gets.
    + eexists. split; [done|]. by eapply ok_same.
  - destruct (threads s !! i) as [[]|] eqn:Hi; try done.
    destruct (new_obj_ready (the_pool s)) eqn:Hrd; intros [= <-].
    + destruct (borrow_ok _ _ _ Hp) as [(a & p' & xs' & -> & Hp')|(_ & Hf & _)]; run_ok.
      * eexists. split; [done|]. by eapply ok_gets.
      * by destruct (ok_ready _ _ _ Hp Hrd).
    + eexists. split; [done|]. by eapply ok_same.
  - destruct (threads s !! i) as [[| | |a| |]|] eqn:Hi; try done. intros [= <-].
    destruct (held_change _ i (Holding a) Notifying Hi) as (rest & H1 & H2).
    apply (pool_ok_perm _ _ _ _ H1) in Hp. destruct (release_ok _ _ _ _ Hp) as (p' & xs' & -> & Hp' & _). run_ok.
    eexists. split; [done|]. split; [|by apply broken_insert].
    exists xs'. eapply pool_ok_perm; [|exact Hp']. by rewrite H2.
  - destruct (threads s !! i) as [[]|] eqn:Hi; try done.
    assert (Hs' : sys_ok (set_thread s (the_pool s) i Idle)) by (by eapply ok_same).
    destruct j as [j|].
    + case_decide as Hj; [|done]. intros [= <-]. eexists. split; [done|].
      eapply (ok_same (set_thread s (the_pool s) i Idle) j Asleep Checking); [done| |done..].
      cbn [threads set_thread]. rewrite list_lookup_insert_ne; [done|]. intros ->. congruence.
    + destruct (existsb _ _); [done|]. intros [= <-]. eauto.
  - destruct (threads s !! j) as [[]|] eqn:Hj; try done. intros [= <-].
    eexists. split; [done|]. by eapply ok_same.
Qed.

Lemma init_ok max n : Z.of_nat max = cap -> cap < 2 ^ 64 -> sys_ok (init_sys max n).
Proof.
  intros Hc Hm.
  assert (Hh : held_of (replicate n Idle) = []) by (induction n as [|n IH]; [done|exact IH]).
  split.
  - exists []. cbn [init_sys the_pool threads]. rewrite Hh. split; try done; [apply rep_empty|cbn; lia].
  - cbn [init_sys threads]. intros H%elem_of_replicate_inv. done.
Qed.

Lemma reachable_ok max n s : Z.of_nat max = cap -> cap < 2 ^ 64 -> reachable (init_sys max n) s -> sys_ok s.
Proof.
  intros Hc Hm. induction 1 as [|s ev s' _ IH Hs]; [by apply init_ok|].
  destruct (exec_ok s ev _ IH Hs) as (s'' & [= <-] & H). exact H.
Qed.

(** Two threads with the same object would make it a loan twice. *)
Lemma held_once (ts : list thread) i j a :
  NoDup (held_of ts) -> ts !! i = Some (Holding a) -> ts !! j = Some (Holding a) -> i = j.
Proof.
  intros Hn Hi Hj. destruct (decide (i = j)) as [|Hne]; [done|]. exfalso.
  destruct (held_change ts i (Holding a) Idle Hi) as (rest & H1 & H2). cbn [held1 app] in H1, H2.
  rewrite H1 in Hn. apply NoDup_cons in Hn as [Hn _]. apply Hn. rewrite <- H2.
  assert (Hj' : <[i := Idle]> ts !! j = Some (Holding a)) by (by rewrite list_lookup_insert_ne).
  destruct (held_change _ j (Holding a) Idle Hj') as (r2 & H3 & _). rewrite H3. cbn. set_solver.
Qed.

End Pool.

(** C8: whatever the interleaving of borrowing and releasing threads, no object
    is ever held by two threads, at most [max_size] objects are on loan, no
    operation meets undefined behaviour or an exception, and the [logic_error]
    after the wait is never thrown. *)
Theorem pool_exclusive {T} (make : T) max n s :
  Z.of_nat max < 2 ^ 64 -> reachable make (init_sys max n) s ->
  (forall i j a, threads s !! i = Some (Holding a) -> threads s !! j = Some (Holding a) -> i = j) /\
  (length (held_of (threads s)) <= max)%nat /\
  (Broken ∉ threads s) /\
  (forall ev o, exec make ev s = Some o -> exists s', o = Ok s').
Proof.
  intros Hm Hr. pose proof (reachable_ok make (Z.of_nat max) max n s eq_refl Hm Hr) as Hs.
  pose proof Hs as [[xs [H1 H2 H3 [H4 H4'] H5]] Hb].
  assert (Hnd : NoDup (free_list (the_pool s) ++ held_of (threads s))) by (rewrite H2; by apply (rep_nodup _ _ H1)).
  apply NoDup_app in Hnd as (_ & _ & Hnd).
  split; [intros i j a; by apply held_once|]. split; [|split; [done|]].
  - apply Permutation_length in H2. rewrite length_app in H2. unfold addrs in H2. rewrite length_fmap in H2. lia.
  - intros ev o He. destruct (exec_ok make _ s ev o Hs He) as (s' & -> & _). eauto.
Qed.

(** ** Runs *)

Fixpoint run {T} (make : T) (evs : list event) (s : sys) : option sys :=
  match evs with
  | [] => Some s
  | ev :: evs => match exec make ev s with Some (Ok s') => run make evs s' | _ => None end
  end.

Lemma run_reachable {T} (make : T) evs s0 s s' :
  reachable make s0 s -> run make evs s = Some s' -> reachable make s0 s'.
Proof.
  revert s. induction evs as [|ev evs IH]; intros s Hr; cbn [run]; [by intros [= <-]|].
  destruct (exec make ev s) as [[s1| | |]|] eqn:E; try done. apply IH. by eapply reach_step.
Qed.

(** Two objects, both on loan; threads 2 and 3 wait; both objects are released
    and both waiters are notified before the first of them runs. *)
Definition lost_wakeup_run : list event :=
  [Borrow 0; Borrow 1; Borrow 2; Borrow 3; Check 2; Check 3;
   Release 0; Notify 0 (Some 2%nat); Release 1; Notify 1 (Some 3%nat); Check 2; Check 3].

(** A thread can be left waiting in [borrow_one] for ever although an object
    is free: two releases in a row set the flag once, the first waiter clears
    it, and the second one, although notified, goes back to sleep.  Nothing but
    another release (or a spurious wake-up that finds the flag set) can wake it. *)
Theorem borrow_lost_wakeup {T} (make : T) :
  exists s, reachable make (init_sys 2 4) s /\
    threads s !! 3%nat = Some Asleep /\ free_list (the_pool s) <> [] /\ new_obj_ready (the_pool s) = false /\
    exists s1, run make [Spurious 3; Check 3] s = Some s1 /\ threads s1 = threads s /\ the_pool s1 = the_pool s.
Proof.
  destruct (run make lost_wakeup_run (init_sys 2 4)) as [s|] eqn:E; [|vm_compute in E; discriminate].
  exists s. split; [eapply run_reachable; [apply reach_init|exact E]|].
  vm_compute in E. injection E as <-. split; [reflexivity|]. split; [done|]. split; [reflexivity|].
  eexists. split; [vm_compute; reflexivity|]. split; reflexivity.
Qed.

Lemma pool_exclusive_witness :
  exists s, reachable (T := Z) 7 (init_sys 2 4) s /\ (length (held_of (threads s)) <= 2)%nat.
Proof.
  destruct (run (T := Z) 7 lost_wakeup_run (init_sys 2 4)) as [s|] eqn:E; [|vm_compute in E; discriminate].
  assert (Hr : reachable (T := Z) 7 (init_sys 2 4) s) by (eapply run_reachable; [apply reach_init|exact E]).
  exists s. split; [exact Hr|]. exact (proj1 (proj2 (pool_exclusive 7 2 4 s ltac:(lia) Hr))).
Defined.

End ObjPool.
