(* ===== verification/ThreadPool.v ===== *)
(** * The thread pool: [lib/threadPool.hpp]

    [ThreadPool] and its workers as a system of one main thread, which runs the
    member functions of the pool, and one thread per worker, which runs
    [workerFunc].  Every access to a shared member is a step of its own; the
    steps of the threads are interleaved in any order, over a sequentially
    consistent memory.  The mutexes are taken in two readings: what ISO C++
    defines, and the default mutex of the platform's C library, which is a
    binary semaphore and which the code relies on. *)

From stdpp Require Import list sets.
From S2P Require Import Prelude.
Open Scope Z_scope.

Module ThreadPool.

(** ** Mutexes *)

(** Thread 0 is the main thread, thread [S i] runs worker [i]; a mutex holds
    the thread that locked it. *)
Definition mutex : Type := option nat.

(** [ISO]: locking a mutex the thread owns, and unlocking one it does not own,
    are undefined.  [Semaphore]: the first waits, the second unlocks. *)
Inductive semantics := ISO | Semaphore.

#[global] Instance semantics_eq_dec : EqDecision semantics.
Proof. solve_decision. Defined.

(** [None]: the call waits. *)
Definition mutex_lock (sem : semantics) (me : nat) (m : mutex) : option (outcome mutex) :=
  match m with
  | None => Some (Ok (Some me))
  | Some o => if decide (sem = ISO /\ o = me) then Some (Undefined MutexMisuse) else None
  end.

Definition mutex_try_lock (sem : semantics) (me : nat) (m : mutex) : outcome (bool * mutex) :=
  match m with
  | None => Ok (true, Some me)
  | Some o => if decide (sem = ISO /\ o = me) then Undefined MutexMisuse else Ok (false, m)
  end.

Definition mutex_unlock (sem : semantics) (me : nat) (m : mutex) : outcome mutex :=
  if decide (sem = ISO /\ m <> Some me) then Undefined MutexMisuse else Ok None.

(** ** The state *)

(** A task is one given to [addTask], or the empty function of [join]. *)
Inductive task := Task (n : nat) | Nop.

#[global] Instance task_eq_dec : EqDecision task.
Proof. solve_decision. Defined.

(** Where a worker is in [workerFunc]; the flag of [Test] and [Lock1] is
    [firstLoop]. *)
Inductive wpc :=
| TryInit                 (** [initSymbol.try_lock()] *)
| SetInited               (** [initSymbolInited = true] *)
| Test (first : bool)     (** [while(continueLoop)] *)
| Lock1 (first : bool)    (** [workingSymbol.lock()] *)
| UnlockInit              (** [initSymbol.unlock()] *)
| SetWaiting              (** [isWaiting = true] *)
| Lock2                   (** the constructor of [lg] *)
| ClearWaiting            (** [isWaiting = false] *)
| CallTask                (** [task()] *)
| Running (t : task)      (** inside the task *)
| Unlock2                 (** the destructor of [lg] *)
| Done.                   (** the thread has ended *)

#[global] Instance wpc_eq_dec : EqDecision wpc.
Proof. solve_decision. Defined.

Record worker := Worker {
  isWaiting : bool;
  initSymbol : mutex;
  initSymbolInited : bool;
  continueLoop : bool;
  workingSymbol : mutex;
  joinable : bool;        (** of [m_thread] *)
  the_task : option task; (** [None] is an empty [std::function] *)
  pc : wpc
}.

(** [worker()], which also starts the thread. *)
Definition new_worker : worker := Worker false None false true None true None TryInit.

Definition set_waiting (b : bool) (w : worker) : worker :=
  Worker b (initSymbol w) (initSymbolInited w) (continueLoop w) (workingSymbol w) (joinable w) (the_task w) (pc w).
Definition set_init (m : mutex) (w : worker) : worker :=
  Worker (isWaiting w) m (initSymbolInited w) (continueLoop w) (workingSymbol w) (joinable w) (the_task w) (pc w).
Definition set_inited (w : worker) : worker :=
  Worker (isWaiting w) (initSymbol w) true (continueLoop w) (workingSymbol w) (joinable w) (the_task w) (pc w).
Definition set_stop (w : worker) : worker :=
  Worker (isWaiting w) (initSymbol w) (initSymbolInited w) false (workingSymbol w) (joinable w) (the_task w) (pc w).
Definition set_working (m : mutex) (w : worker) : worker :=
  Worker (isWaiting w) (initSymbol w) (initSymbolInited w) (continueLoop w) m (joinable w) (the_task w) (pc w).
Definition set_joined (w : worker) : worker :=
  Worker (isWaiting w) (initSymbol w) (initSymbolInited w) (continueLoop w) (workingSymbol w) false (the_task w) (pc w).
Definition set_task (t : task) (w : worker) : worker :=
  Worker (isWaiting w) (initSymbol w) (initSymbolInited w) (continueLoop w) (workingSymbol w) (joinable w) (Some t) (pc w).
Definition goto (c : wpc) (w : worker) : worker :=
  Worker (isWaiting w) (initSymbol w) (initSymbolInited w) (continueLoop w) (workingSymbol w) (joinable w) (the_task w) c.

(** What the main thread has still to do; each instruction makes at most one
    access to a member that a worker uses. *)
Inductive instr :=
| Scan (rest : list nat) (t : task)   (** the loop of [addTask] *)
| SetTask (p : nat) (t : task)        (** [task = f] *)
| TryLock (p : nat)                   (** [if(workingSymbol.try_lock()) printf(...)] *)
| Unlock (p : nat)                    (** [workingSymbol.unlock()] *)
| SpinWaiting (p : nat)               (** [while(isWaiting);] *)
| TryShrink                           (** [if(currSize <= usualSize * 3) return;] *)
| ShrinkLoop (rest : list nat)        (** the loop of [try_shrink], at its next element *)
| NewWorker (t : task)                (** [new worker()], in [newWorker()->go(t)] *)
| SpinInited (p : nat)                (** [while(!pwk->initSymbolInited);] *)
| PushBack (p : nat)                  (** [workers.push_back(pwk); ++currSize;] *)
| LockInit (p : nat)                  (** [pwk->initSymbol.lock()] *)
| Stop (p : nat)                      (** [continueLoop = false] *)
| WakeIfWaiting (p : nat)             (** [if(isWaiting) go([](){});] *)
| JoinThread (p : nat)                (** [m_thread.join()] *)
| Delete (p : nat)                    (** [delete pwk] *)
| Remove (p : nat)                    (** [workers.remove(pwk); --currSize;] *)
| Advance (p : nat) (rest : list nat) (** [++it] of the loop of [try_shrink], standing on [p] *)
| Clear.                              (** [workers.clear(); currSize = 0;] *)

Record sys := Sys {
  heap : list (option worker);  (** the address of a worker is its index; [None] once deleted *)
  workers : list nat;
  usualSize : Z;
  currSize : Z;
  code : list instr;
  ran : list task;              (** the tasks that were started, in order *)
  exciting : nat                (** how often [go] printed its message *)
}.

Definition new_pool (usualSize : Z) : sys := Sys [] [] usualSize 0 [] [] 0.

Definition size (s : sys) : Z := currSize s.

Definition set_code (c : list instr) (s : sys) : sys :=
  Sys (heap s) (workers s) (usualSize s) (currSize s) c (ran s) (exciting s).
Definition put (p : nat) (w : worker) (s : sys) : sys :=
  Sys (<[p := Some w]> (heap s)) (workers s) (usualSize s) (currSize s) (code s) (ran s) (exciting s).
Definition set_workers (ws : list nat) (n : Z) (s : sys) : sys :=
  Sys (heap s) ws (usualSize s) n (code s) (ran s) (exciting s).

(** The live worker at an address. *)
Definition get (s : sys) (p : nat) : option worker := mjoin (heap s !! p).

(** ** The member functions *)

(** [go(std::function &)] waits for the worker to take the task; the overload
    for a temporary does not. *)
Definition go_rvalue (p : nat) (t : task) : list instr := [SetTask p t; TryLock p; Unlock p].
Definition go (p : nat) (t : task) : list instr := go_rvalue p t ++ [SpinWaiting p].

Definition lazy_stop (p : nat) : list instr := [Stop p].
Definition join (p : nat) : list instr := [Stop p; WakeIfWaiting p; JoinThread p].

(** [addTask], both overloads: the one for a temporary copies it. *)
Definition addTask (s : sys) (t : task) : list instr := [Scan (workers s) t].

(** [newWorker()->go(t)]: [try_shrink] first; [NewWorker] goes on with [start]. *)
Definition newWorker (t : task) : list instr := [TryShrink; NewWorker t].
Definition start (p : nat) (t : task) : list instr := [SpinInited p; PushBack p; LockInit p] ++ go p t.

Definition joinAll (s : sys) : list instr :=
  (workers s ≫= lazy_stop) ++ (workers s ≫= fun p => join p ++ [Delete p]) ++ [Clear].

(** [~ThreadPool] *)
Definition destroy (s : sys) : list instr := Delete <$> workers s.

(** [std::terminate] was called. *)
Definition terminate : exn := logic_error "terminate called".

(** Access to the worker at [p]. *)
Definition with_worker (s : sys) (p : nat) (k : worker -> option (outcome sys)) : option (outcome sys) :=
  match get s p with Some w => k w | None => Some (Undefined UseAfterFree) end.

(** One step of the main thread; [None] when it has nothing to do or waits.  A
    step of a spinning loop that does not leave it keeps the state. *)
Definition main_step (sem : semantics) (s : sys) : option (outcome sys) :=
  match code s with
  | [] => None
  | i :: k =>
      let done (s : sys) := Some (Ok (set_code k s)) in
      match i with
      | Scan [] t => Some (Ok (set_code (newWorker t ++ k) s))
      | Scan (p :: rest) t =>
          with_worker s p (fun w =>
            Some (Ok (set_code (if isWaiting w then go p t ++ k else Scan rest t :: k) s)))
      | SetTask p t => with_worker s p (fun w => done (put p (set_task t w) s))
      | TryLock p =>
          with_worker s p (fun w =>
            match mutex_try_lock sem 0 (workingSymbol w) with
            | Ok (got, m) =>
                let s := put p (set_working m w) s in
                done (Sys (heap s) (workers s) (usualSize s) (currSize s) (code s) (ran s)
                        (if got then S (exciting s) else exciting s))
            | Throw e => Some (Throw e)
            | Undefined u => Some (Undefined u)
            | Blocked => None
            end)
      | Unlock p =>
          with_worker s p (fun w =>
            Some (m ← mutex_unlock sem 0 (workingSymbol w);
                  Ok (set_code k (put p (set_working m w) s))))
      | SpinWaiting p =>
          with_worker s p (fun w => if isWaiting w then Some (Ok s) else done s)
      | TryShrink =>
          if currSize s <=? u64 (usualSize s * 3) then done s
          else Some (Ok (set_code (ShrinkLoop (workers s) :: k) s))
      | ShrinkLoop [] => done s
      | ShrinkLoop (p :: rest) =>
          with_worker s p (fun w =>
            if negb (isWaiting w) then Some (Ok (set_code (Advance p rest :: k) s))
            else if currSize s <=? usualSize s then done s
            else Some (Ok (set_code (join p ++ [Delete p; Remove p; Advance p rest] ++ k) s)))
      | NewWorker t =>
          let p := length (heap s) in
          Some (Ok (set_code (start p t ++ k)
                      (Sys (heap s ++ [Some new_worker]) (workers s) (usualSize s) (currSize s)
                         (code s) (ran s) (exciting s))))
      | SpinInited p =>
          with_worker s p (fun w => if initSymbolInited w then done s else Some (Ok s))
      | PushBack p => done (set_workers (workers s ++ [p]) (u64 (currSize s + 1)) s)
      | LockInit p =>
          with_worker s p (fun w =>
            match mutex_lock sem 0 (initSymbol w) with
            | Some r => Some (m ← r; Ok (set_code k (put p (set_init m w) s)))
            | None => None
            end)
      | Stop p => with_worker s p (fun w => done (put p (set_stop w) s))
      | WakeIfWaiting p =>
          with_worker s p (fun w =>
            Some (Ok (set_code (if isWaiting w then go_rvalue p Nop ++ k else k) s)))
      | JoinThread p =>
          with_worker s p (fun w =>
            if negb (joinable w) then Some (Throw (system_error "join"))
            else if decide (pc w = Done) then done (put p (set_joined w) s) else None)
      | Delete p =>
          with_worker s p (fun w =>
            if joinable w then Some (Throw terminate)
            else Some (Ok (set_code k (Sys (<[p := None]> (heap s)) (workers s) (usualSize s) (currSize s)
                                         (code s) (ran s) (exciting s)))))
      | Remove p => done (set_workers (filter (fun q => q <> p) (workers s)) (u64 (currSize s - 1)) s)
      | Advance p rest =>
          if decide (p ∈ workers s) then Some (Ok (set_code (ShrinkLoop rest :: k) s))
          else Some (Undefined InvalidIterator)
      | Clear => done (set_workers [] 0 s)
      end
  end.

(** One step of [workerFunc] by thread [me]: the worker afterwards and the tasks
    that were started; [None] when it waits or has ended. *)
Definition workerFunc (sem : semantics) (me : nat) (w : worker) : option (outcome (worker * list task)) :=
  let next (w : worker) := Some (Ok (w, [])) in
  match pc w with
  | TryInit => Some (r ← mutex_try_lock sem me (initSymbol w); Ok (goto SetInited (set_init r.2 w), []))
  | SetInited => next (goto (Test true) (set_inited w))
  | Test first => next (goto (if continueLoop w then Lock1 first else Done) w)
  | Lock1 first =>
      match mutex_lock sem me (workingSymbol w) with
      | Some r => Some (m ← r; Ok (goto (if first then UnlockInit else SetWaiting) (set_working m w), []))
      | None => None
      end
  | UnlockInit => Some (m ← mutex_unlock sem me (initSymbol w); Ok (goto SetWaiting (set_init m w), []))
  | SetWaiting => next (goto Lock2 (set_waiting true w))
  | Lock2 =>
      match mutex_lock sem me (workingSymbol w) with
      | Some r => Some (m ← r; Ok (goto ClearWaiting (set_working m w), []))
      | None => None
      end
  | ClearWaiting => next (goto CallTask (set_waiting false w))
  | CallTask =>
      match the_task w with
      | Some t => Some (Ok (goto (Running t) w, [t]))
      | None => Some (Throw terminate)
      end
  | Running _ => next (goto Unlock2 w)
  | Unlock2 => Some (m ← mutex_unlock sem me (workingSymbol w); Ok (goto (Test false) (set_working m w), []))
  | Done => None
  end.

Definition add_ran (l : list task) (s : sys) : sys :=
  Sys (heap s) (workers s) (usualSize s) (currSize s) (code s) (ran s ++ l) (exciting s).

Definition worker_step (sem : semantics) (i : nat) (s : sys) : option (outcome sys) :=
  match get s i with
  | None => None
  | Some w =>
      match workerFunc sem (S i) w with
      | Some r => Some (x ← r; Ok (add_ran x.2 (put i x.1 s)))
      | None => None
      end
  end.

(** ** Events *)

Inductive call := AddTask (n : nat) | JoinAll | Destroy.

(** The main thread calls a member function (when it is in none), the main
    thread makes a step, the thread of worker [i] makes a step. *)
Inductive event := Call (c : call) | Main | Work (i : nat).

Definition body (c : call) (s : sys) : list instr :=
  match c with
  | AddTask n => addTask s (Task n)
  | JoinAll => joinAll s
  | Destroy => destroy s
  end.

Definition exec (sem : semantics) (ev : event) (s : sys) : option (outcome sys) :=
  match ev with
  | Call c => match code s with [] => Some (Ok (set_code (body c s) s)) | _ => None end
  | Main => main_step sem s
  | Work i => worker_step sem i s
  end.

(** A run that meets no waiting thread, exception or undefined behaviour. *)
Fixpoint run (sem : semantics) (evs : list event) (s : sys) : option sys :=
  match evs with
  | [] => Some s
  | ev :: evs => match exec sem ev s with Some (Ok s') => run sem evs s' | _ => None end
  end.

(** ** Schedules that go wrong *)

(** A call of [addTask] that finds [i] busy workers and starts worker [i], up to
    the return of [go] with the worker about to set [isWaiting]. *)
Definition start_events (i n : nat) : list event :=
  [Call (AddTask n)] ++ replicate (i + 3) Main ++ [Work i; Work i; Main; Main; Work i; Work i; Work i] ++
  replicate 5 Main.

(** The worker takes its task and is inside it; it returns and waits again. *)
Definition take_events (i : nat) : list event := replicate 4 (Work i).
Definition park_events (i : nat) : list event := replicate 5 (Work i).

(** [addTask] gives a task to worker 0, up to the loop on [isWaiting]. *)
Definition give_events (n : nat) : list event := [Call (AddTask n)] ++ replicate 4 Main.

(** No thread can change the state: every step waits or spins. *)
Definition stuck (sem : semantics) (s : sys) : Prop :=
  code s <> [] /\ forall ev s', exec sem ev s = Some (Ok s') -> s' = s.

(** A second [addTask] finds the new worker with [isWaiting] set although it has
    a task to take: the first task is overwritten. *)
Definition lost_task_run : list event :=
  start_events 0 0 ++ [Work 0] ++ give_events 1 ++ replicate 3 (Work 0) ++ [Main] ++ park_events 0.

(** The same, with the worker between its two critical sections: the second task
    also runs twice. *)
Definition double_run : list event :=
  start_events 0 0 ++ replicate 2 (Work 0) ++ [Call (AddTask 1)] ++ replicate 3 Main ++
  replicate 7 (Work 0) ++ [Main] ++ replicate 3 (Work 0).

(** The worker has run the task and waits again before [go] looks at [isWaiting]. *)
Definition spin_run : list event :=
  start_events 0 0 ++ take_events 0 ++ park_events 0 ++ give_events 1 ++ replicate 3 (Work 0) ++ park_events 0.

(** [joinAll] looks at [isWaiting] after the worker tested [continueLoop] and
    before it starts to wait. *)
Definition deadlock_run : list event :=
  start_events 0 0 ++ take_events 0 ++ replicate 3 (Work 0) ++ [Call JoinAll] ++ replicate 3 Main ++
  replicate 2 (Work 0).

(** A pool of the default size with thirteen busy workers; worker 0 finishes
    while [addTask] decides to start another one. *)
Definition shrink_run : list event :=
  (seq 0 13 ≫= fun i => start_events i i ++ take_events i) ++ [Call (AddTask 13)] ++ replicate 14 Main ++
  park_events 0 ++ replicate 7 Main ++ replicate 6 (Work 0) ++ replicate 3 Main.

(** ** The invariant under the semaphore reading *)

(** The tasks a worker was given and has not started. *)
Definition pending (w : worker) : list task :=
  match pc w with
  | SetWaiting | Lock2 => match workingSymbol w with None => option_list (the_task w) | Some _ => [] end
  | ClearWaiting | CallTask => option_list (the_task w)
  | _ => []
  end.

(** A worker that shows [isWaiting], or is about to, has no task to take. *)
Definition settled (w : worker) : bool :=
  match pc w with
  | SetWaiting | Lock2 => bool_decide (workingSymbol w <> None)
  | ClearWaiting => false
  | _ => true
  end.

(** Waiting, or about to, for a task. *)
Definition ready (i : nat) (w : worker) : Prop :=
  (pc w = SetWaiting \/ pc w = Lock2) /\ workingSymbol w = Some (S i).

(** The state of a worker at each point of [workerFunc]. *)
Definition worker_ok (i : nat) (w : worker) : Prop :=
  isWaiting w = bool_decide (pc w = Lock2 \/ pc w = ClearWaiting) /\
  (joinable w = false -> pc w = Done) /\
  match pc w with
  | TryInit | SetInited | Test _ | Lock1 _ | Done => workingSymbol w = None
  | UnlockInit | Running _ | Unlock2 => workingSymbol w = Some (S i)
  | SetWaiting | Lock2 => workingSymbol w = Some (S i) \/ (workingSymbol w = None /\ the_task w <> None)
  | ClearWaiting | CallTask => workingSymbol w = Some (S i) /\ the_task w <> None
  end.

(** A worker that [newWorker] waits for. *)
Definition starting (i : nat) (w : worker) : Prop :=
  continueLoop w = true /\
  match pc w with
  | TryInit => initSymbolInited w = false /\ initSymbol w = None
  | SetInited => initSymbolInited w = false /\ initSymbol w = Some (S i)
  | Test true | Lock1 true | UnlockInit => initSymbol w = Some (S i)
  | _ => ready i w
  end.

Lemma new_worker_ok i : worker_ok i new_worker /\ starting i new_worker /\ pending new_worker = [].
Proof. by repeat split. Qed.

(** The mutex operations of the semaphore reading. *)
Lemma sem_lock me m :
  mutex_lock Semaphore me m = match m with None => Some (Ok (Some me)) | Some _ => None end.
Proof. destruct m; [|done]. unfold mutex_lock. by rewrite decide_False by (intros [? _]; done). Qed.

Lemma sem_try_lock me m :
  mutex_try_lock Semaphore me m = Ok (match m with None => true | Some _ => false end, Some (default me m)).
Proof. destruct m; [|done]. unfold mutex_try_lock. by rewrite decide_False by (intros [? _]; done). Qed.

Lemma sem_unlock me m : mutex_unlock Semaphore me m = Ok None.
Proof. unfold mutex_unlock. by rewrite decide_False by (intros [? _]; done). Qed.

(** A step of a worker keeps its invariant, starts exactly the task it was
    given, and keeps what the main thread relies on. *)
Lemma workerFunc_ok i w w' l :
  worker_ok i w -> workerFunc Semaphore (S i) w = Some (Ok (w', l)) ->
  (worker_ok i w' /\ l ++ pending w' = pending w /\ the_task w' = the_task w) /\
  (settled w = true -> settled w' = true) /\ (ready i w -> ready i w') /\
  (starting i w -> starting i w') /\ (initSymbolInited w = true -> initSymbolInited w' = true).
Proof.
  destruct w as [iw ini inid cl ws jn tk c]. unfold worker_ok, workerFunc.
  rewrite !sem_lock, sem_try_lock, !sem_unlock. cbn [isWaiting joinable pc].
  intros (-> & Hj & Hw) H. destruct jn; [clear Hj|by rewrite (Hj eq_refl) in H].
  destruct c as [| |[]|[]| | | | | |t| |]; cbn in H, Hw; try done;
    try (destruct ws; [done|]); try (destruct tk; [|done]); try (destruct cl);
    injection H as <- <-; unfold pending, settled, starting, ready; cbn; simplify_eq; naive_solver.
Qed.

(** What the other threads may rely on when worker [p] changes. *)
Record evolves (p : nat) (w w' : worker) : Prop := {
  ev_settled : settled w = true -> settled w' = true;
  ev_ready : ready p w -> ready p w';
  ev_starting : starting p w -> starting p w';
  ev_inited : initSymbolInited w = true -> initSymbolInited w' = true;
  ev_task : the_task w <> None -> the_task w' <> None
}.

(** [P] holds of the worker at [p], if there is one. *)
Definition at_ (s : sys) (p : nat) (P : worker -> Prop) : Prop := forall w, get s p = Some w -> P w.

(** The instructions that do not belong to [go], to the start of a worker or to
    the beginning of [addTask]. *)
Definition is_tail (i : instr) : bool :=
  match i with
  | Scan _ _ | TryShrink | SetTask _ _ | TryLock _ | Unlock _ | SpinInited _ | PushBack _ | LockInit _ => false
  | _ => true
  end.

(** The workers to which they may still give a task. *)
Definition targets1 (i : instr) : list nat :=
  match i with
  | ShrinkLoop rest | Advance _ rest => rest
  | WakeIfWaiting p => [p]
  | _ => []
  end.
Definition targets (k : list instr) : list nat := k ≫= targets1.

Definition tail_ok (s : sys) (k : list instr) (used : list nat) : Prop :=
  Forall is_tail k /\ NoDup (used ++ targets k) /\ Forall (fun p => p < length (heap s))%nat (used ++ targets k) /\
  forall p, p ∈ targets k -> at_ s p settled.

Definition all_settled (s : sys) : Prop := forall p, p ∈ workers s -> at_ s p settled.

(** Where the main thread is, and what it knows of the workers there. *)
Inductive phase (s : sys) : list instr -> Prop :=
| ph_scan rest t : rest ⊆ workers s -> all_settled s -> phase s [Scan rest t]
| ph_shrink t : all_settled s -> phase s [TryShrink; NewWorker t]
| ph_tail k : tail_ok s k [] -> phase s k
| ph_set p t k : tail_ok s k [p] -> at_ s p (ready p) -> phase s (SetTask p t :: TryLock p :: Unlock p :: k)
| ph_try p k :
    tail_ok s k [p] -> at_ s p (ready p) -> at_ s p (fun w => the_task w <> None) ->
    phase s (TryLock p :: Unlock p :: k)
| ph_unlock p k :
    tail_ok s k [p] -> at_ s p (ready p) -> at_ s p (fun w => the_task w <> None) -> phase s (Unlock p :: k)
| ph_spin p t k :
    tail_ok s k [p] -> at_ s p (starting p) -> p ∉ workers s ->
    phase s (SpinInited p :: PushBack p :: LockInit p :: SetTask p t :: TryLock p :: Unlock p :: k)
| ph_push p t k :
    tail_ok s k [p] -> at_ s p (starting p) -> at_ s p (fun w => initSymbolInited w = true) ->
    p ∉ workers s ->
    phase s (PushBack p :: LockInit p :: SetTask p t :: TryLock p :: Unlock p :: k)
| ph_lock p t k :
    tail_ok s k [p] -> at_ s p (starting p) -> at_ s p (fun w => initSymbolInited w = true) ->
    phase s (LockInit p :: SetTask p t :: TryLock p :: Unlock p :: k).

Record inv (s : sys) : Prop := {
  inv_workers : forall p, at_ s p (worker_ok p);
  inv_list : NoDup (workers s) /\ Forall (fun p => p < length (heap s))%nat (workers s);
  inv_phase : phase s (code s)
}.

Lemma get_lt s p w : get s p = Some w -> heap s !! p = Some (Some w) /\ (p < length (heap s))%nat.
Proof.
  unfold get. destruct (heap s !! p) as [[]|] eqn:E; cbn; try done. intros [= ->].
  split; [done|]. by eapply lookup_lt_Some.
Qed.

Lemma get_put s p w w' q : get s p = Some w -> get (put p w' s) q = if decide (q = p) then Some w' else get s q.
Proof.
  intros [_ Hlt]%get_lt. unfold get, put. cbn. case_decide as Hq.
  - subst. by rewrite list_lookup_insert_eq.
  - by rewrite list_lookup_insert_ne.
Qed.

Lemma at_put s p w w' q (P : worker -> Prop) :
  get s p = Some w -> at_ s q P -> (q = p -> P w -> P w') -> at_ (put p w' s) q P.
Proof.
  intros Hp HP Hw v. rewrite (get_put _ _ _ _ _ Hp). case_decide as Hq; [|apply HP].
  intros [= <-]. subst. apply Hw; [done|]. by apply HP.
Qed.

Lemma tail_ok_put s p w w' k used :
  get s p = Some w -> (settled w = true -> settled w' = true) -> tail_ok s k used -> tail_ok (put p w' s) k used.
Proof.
  intros Hp Hs (H1 & H2 & H3 & H4). split_and!; try done.
  - cbn. by rewrite length_insert.
  - intros q Hq. eapply at_put; eauto. intros _ Hw. apply Is_true_eq_left, Hs, Is_true_eq_true, Hw.
Qed.

Lemma all_settled_put s p w w' :
  get s p = Some w -> (settled w = true -> settled w' = true) -> all_settled s -> all_settled (put p w' s).
Proof.
  intros Hp Hs H q Hq. eapply at_put; [done|by apply H|].
  intros _ Hw. apply Is_true_eq_left, Hs, Is_true_eq_true, Hw.
Qed.

(** The phase survives the evolution of a worker. *)
Lemma phase_put s p w w' c :
  get s p = Some w -> evolves p w w' -> phase s c -> phase (put p w' s) c.
Proof.
  intros Hp [E1 E2 E3 E4 E5] H.
  destruct H; [apply ph_scan|apply ph_shrink|apply ph_tail|apply ph_set|apply ph_try|apply ph_unlock
              |apply ph_spin|apply ph_push|apply ph_lock]; try done;
    first [by eapply tail_ok_put | by eapply all_settled_put | eapply at_put; [done..|]; intros ->; auto].
Qed.

(** It depends on the workers and their list only. *)
Lemma phase_ext s s' c : heap s' = heap s -> workers s' = workers s -> phase s c -> phase s' c.
Proof.
  destruct s, s'. cbn. intros -> -> H.
  destruct H; [apply ph_scan|apply ph_shrink|apply ph_tail|apply ph_set|apply ph_try|apply ph_unlock
              |apply ph_spin|apply ph_push|apply ph_lock]; done.
Qed.

(** What a waiting, settled worker is. *)
Lemma waiting_ready p w : worker_ok p w -> settled w = true -> isWaiting w = true -> ready p w.
Proof.
  destruct w as [iw ini inid cl ws jn tk c]. unfold worker_ok, settled, ready. cbn. intros (-> & _ & Hw) Hs Hi.
  apply bool_decide_eq_true in Hi as [-> | ->]; [|done]. apply bool_decide_eq_true in Hs. naive_solver.
Qed.

Lemma started_ready p w : starting p w -> initSymbolInited w = true -> initSymbol w = None -> ready p w.
Proof.
  destruct w as [iw ini inid cl ws jn tk c]. unfold starting. cbn. intros [_ H] -> ->.
  destruct c as [| |[]|[]| | | | | | | |]; naive_solver.
Qed.

(** ** Counting tasks *)

Definition occ (n : nat) (l : list task) : nat := length (filter (fun t => t = Task n) l).

Lemma occ_app n l k : occ n (l ++ k) = (occ n l + occ n k)%nat.
Proof. unfold occ. by rewrite filter_app, length_app. Qed.

Definition pending_at (o : option worker) : list task := match o with Some w => pending w | None => [] end.

(** The tasks the main thread has still to give away. *)
Definition carried1 (i : instr) : list task :=
  match i with Scan _ t | SetTask _ t | NewWorker t => [t] | _ => [] end.
Definition carried (s : sys) : list task :=
  match code s with
  | TryLock p :: _ | Unlock p :: _ => match get s p with Some w => option_list (the_task w) | None => [] end
  | _ => []
  end ++ (code s ≫= carried1).

(** The tasks given to [addTask] and not started. *)
Definition in_flight (s : sys) : list task := (heap s ≫= pending_at) ++ carried s.

Definition total (n : nat) (s : sys) : nat := occ n (ran s ++ in_flight s).

Lemma occ_insert n (h : list (option worker)) p o o' :
  h !! p = Some o ->
  (occ n (<[p := o']> h ≫= pending_at) + occ n (pending_at o) = occ n (h ≫= pending_at) + occ n (pending_at o'))%nat.
Proof.
  intros Hp. rewrite (insert_take_drop h p o') by (by eapply lookup_lt_Some).
  assert (E : h ≫= pending_at = (take p h ++ o :: drop (S p) h) ≫= pending_at) by (by rewrite take_drop_middle).
  rewrite E, !bind_app, !bind_cons, !occ_app. lia.
Qed.

Lemma carried_put s p w w' : get s p = Some w -> the_task w' = the_task w -> carried (put p w' s) = carried s.
Proof.
  intros Hp Ht. unfold carried. change (code (put p w' s)) with (code s). f_equal.
  destruct (code s) as [|[] k]; try done; rewrite (get_put _ _ _ _ _ Hp); case_decide; subst; by rewrite ?Hp, ?Ht.
Qed.

(** A step of a worker: the invariant, and the task moves from the pending ones
    to the started ones. *)
Lemma worker_step_ok s i s' :
  inv s -> worker_step Semaphore i s = Some (Ok s') -> inv s' /\ code s' = code s /\ forall n, total n s' = total n s.
Proof.
  intros [Hw Hl Hp]. unfold worker_step. destruct (get s i) as [w|] eqn:Hi; [|done].
  destruct (workerFunc Semaphore (S i) w) as [[[w' l]| | |]|] eqn:E; try done.
  intros [= <-]. cbn [fst snd].
  destruct (workerFunc_ok i w w' l (Hw i w Hi) E) as ((H1 & H2 & H3) & H4 & H5 & H6 & H7).
  split; [|split; [done|]].
  - assert (Hev : evolves i w w') by (split; try done; by rewrite H3).
    pose proof (phase_put s i w w' _ Hi Hev Hp) as Hph. split.
    + intros q. change (at_ (put i w' s) q (worker_ok q)). eapply at_put; [done|apply Hw|]. by intros ->.
    + cbn. by rewrite length_insert.
    + by eapply phase_ext, Hph.
  - intros n. unfold total, in_flight. cbn [ran add_ran put]. rewrite !occ_app.
    change (carried (add_ran l (put i w' s))) with (carried (put i w' s)).
    rewrite (carried_put s i w w') by done. apply get_lt in Hi as [Hi _].
    pose proof (occ_insert n (heap s) i (Some w) (Some w') Hi) as Ho. cbn [pending_at] in Ho.
    rewrite <- H2, occ_app in Ho. cbn [heap add_ran put]. lia.
Qed.

(** The workers' part of the invariant. *)
Definition base (s : sys) : Prop :=
  (forall p, at_ s p (worker_ok p)) /\ NoDup (workers s) /\ Forall (fun p => p < length (heap s))%nat (workers s).

Lemma base_put s p w w' : base s -> get s p = Some w -> worker_ok p w' -> base (put p w' s).
Proof.
  intros (H1 & H2 & H3) Hp Hw. split_and!; [|done|cbn; by rewrite length_insert].
  intros q. eapply at_put; [done|apply H1|]. by intros ->.
Qed.

(** [k] follows a step after which the state is [s]. *)
Definition lands (s : sys) (k : list instr) (old : sys) : Prop :=
  base s /\ phase s k /\ forall n, total n (set_code k s) = total n old.

Lemma lands_inv s k old : lands s k old -> inv (set_code k s) /\ forall n, total n (set_code k s) = total n old.
Proof. intros ((H1 & H2) & H3 & H4). split; [|done]. split; [done..|]. by eapply phase_ext, H3. Qed.

(** Steps that keep the workers: the tasks carried must be the same. *)
Lemma lands_same s k :
  base s -> phase s k -> carried (set_code k s) = carried s -> lands s k s.
Proof. intros H1 H2 H3. split_and!; [done..|]. intros n. unfold total, in_flight. by rewrite H3. Qed.

(** Steps that change one worker. *)
Lemma lands_put s p w w' k :
  base s -> get s p = Some w -> worker_ok p w' -> phase (put p w' s) k ->
  (forall n, occ n (carried (set_code k (put p w' s))) + occ n (pending w') = occ n (carried s) + occ n (pending w))%nat ->
  lands (put p w' s) k s.
Proof.
  intros Hb Hp Hw Hph Hc. split_and!; [by eapply base_put|done|]. intros n. specialize (Hc n).
  apply get_lt in Hp as [Hp _]. pose proof (occ_insert n (heap s) p (Some w) (Some w') Hp) as Ho.
  unfold total, in_flight. rewrite !occ_app. cbn [heap put set_code ran pending_at] in *. lia.
Qed.

Lemma tail_head s i k : tail_ok s (i :: k) [] -> is_tail i = true /\ tail_ok s k [].
Proof.
  intros (H1 & H2 & H3 & H4). apply Forall_cons in H1 as [H1 H1']. split; [by apply Is_true_eq_true|].
  change (targets (i :: k)) with (targets1 i ++ targets k) in *. cbn [app] in *.
  apply NoDup_app in H2 as (_ & _ & H2). apply Forall_app in H3 as [_ H3].
  split_and!; try done. intros q Hq. apply H4. set_solver.
Qed.

Lemma with_worker_ok s p k s' :
  with_worker s p k = Some (Ok s') -> exists w, get s p = Some w /\ k w = Some (Ok s').
Proof. unfold with_worker. destruct (get s p); [eauto|done]. Qed.

Lemma carried_tail s k : Forall is_tail k -> carried (set_code k s) = k ≫= carried1.
Proof. intros H. unfold carried. cbn. destruct k as [|[] k]; try done; by apply Forall_cons in H as [? _]. Qed.

(** Changes of a worker that keep what is relied on. *)
Lemma set_stop_ok p w : worker_ok p w -> worker_ok p (set_stop w).
Proof. by destruct w. Qed.

Lemma set_joined_ok p w : worker_ok p w -> pc w = Done -> worker_ok p (set_joined w).
Proof. destruct w. unfold worker_ok. cbn. intros (H1 & H2 & H3) ->. done. Qed.

(** Instructions outside [go] and the start of a worker. *)
Section Tail.
Context (s : sys) (i : instr) (k : list instr).
Context (Hb : base s) (Hc : code s = i :: k) (Ht : tail_ok s (i :: k) []).

Lemma tail_carried : carried s = carried1 i ++ (k ≫= carried1).
Proof.
  transitivity (carried (set_code (i :: k) s)).
  - unfold carried. cbn. by rewrite Hc.
  - apply carried_tail. by destruct Ht.
Qed.

Lemma tail_rest : tail_ok s k [].
Proof. by apply (tail_head s i). Qed.

(** The step replaces the instruction by others that carry no task. *)
Lemma tail_replace k' :
  carried1 i = [] -> tail_ok s k' [] -> (k' ≫= carried1) = (k ≫= carried1) -> lands s k' s.
Proof.
  intros Hi Hk Hn. apply lands_same; [done|by apply ph_tail|].
  rewrite carried_tail, tail_carried, Hi, Hn by (by destruct Hk). done.
Qed.

Lemma tail_next : carried1 i = [] -> lands s k s.
Proof. intros Hi. apply tail_replace; [done|apply tail_rest|done]. Qed.

Lemma tail_stay : lands s (code s) s.
Proof. apply lands_same; [done|rewrite Hc; by apply ph_tail|by destruct s]. Qed.

(** The step changes a worker in a way that nothing depends on. *)
Lemma tail_put p w w' :
  carried1 i = [] -> get s p = Some w -> worker_ok p w' -> (settled w = true -> settled w' = true) ->
  pending w' = pending w -> lands (put p w' s) k s.
Proof.
  intros Hi Hp Hw Hs Hn. eapply lands_put; [done..| |].
  - apply ph_tail. eapply tail_ok_put; [done..|]. apply tail_rest.
  - intros n. rewrite carried_tail, tail_carried, Hi, Hn by (by destruct tail_rest). done.
Qed.

(** The step gives the waiting worker [p] the empty task. *)
Lemma tail_wake p w :
  i = WakeIfWaiting p -> get s p = Some w -> isWaiting w = true ->
  exists s0 k', set_code (go_rvalue p Nop ++ k) s = set_code k' s0 /\ lands s0 k' s.
Proof.
  intros Ei Hp Hi. exists s, (go_rvalue p Nop ++ k). split; [done|].
  pose proof tail_carried as Hcar. pose proof Ht as (H1 & H2 & H3 & H4). rewrite Ei in Hcar, H1, H2, H3, H4.
  assert (Hr : ready p w).
  { apply waiting_ready; [by apply Hb|apply Is_true_eq_true, (H4 p)|]; [cbn; set_solver|done..]. }
  split_and!; [done| |].
  - apply ph_set.
    + split_and!; [by apply Forall_cons in H1 as [_ H1]|done..|]. intros q Hq. apply H4. cbn. set_solver.
    + intros v Hv. by simplify_eq.
  - intros n. unfold total, in_flight. cbn [ran heap set_code]. rewrite Hcar. unfold carried.
    cbn [code set_code go_rvalue app carried1]. rewrite !occ_app. unfold occ. cbn. by rewrite decide_False.
Qed.

(** The step deletes a worker that has ended. *)
Lemma tail_delete p w :
  carried1 i = [] -> get s p = Some w -> joinable w = false ->
  lands (Sys (<[p := None]> (heap s)) (workers s) (usualSize s) (currSize s) (code s) (ran s) (exciting s)) k s.
Proof.
  intros Hi Hp Hj. set (s0 := Sys _ _ _ _ _ _ _).
  assert (Hg : forall q v, get s0 q = Some v -> get s q = Some v).
  { intros q v. unfold get, s0. cbn. destruct (decide (q = p)) as [->|].
    - apply get_lt in Hp as [_ Hp]. by rewrite list_lookup_insert_eq.
    - by rewrite list_lookup_insert_ne. }
  pose proof Hb as (Hw & Hl). pose proof (Hw p w Hp) as (_ & Hd & _). specialize (Hd Hj).
  destruct tail_rest as (H1 & H2 & H3 & H4). split_and!.
  - split; [intros q v Hv; by apply Hw, Hg|]. cbn. by rewrite length_insert.
  - apply ph_tail. split_and!; [done..|cbn; by rewrite length_insert|]. intros q Hq v Hv. by apply (H4 q Hq), Hg.
  - intros n. unfold total, in_flight. rewrite carried_tail, tail_carried, Hi by done. subst s0. cbn [ran heap set_code].
    apply get_lt in Hp as [Hp _]. pose proof (occ_insert n _ p _ None Hp) as Ho. cbn [pending_at] in Ho.
    assert (Hz : pending w = []) by (unfold pending; by rewrite Hd). rewrite Hz in Ho. rewrite !occ_app. change (occ n []) with 0%nat in *. lia.
Qed.

(** The step starts a worker. *)
Lemma tail_new t :
  i = NewWorker t ->
  lands (Sys (heap s ++ [Some new_worker]) (workers s) (usualSize s) (currSize s) (code s) (ran s) (exciting s))
    (start (length (heap s)) t ++ k) s.
Proof.
  intros Ei. pose proof tail_carried as Hcar. rewrite Ei in Hcar. set (p := length (heap s)). set (s0 := Sys _ _ _ _ _ _ _).
  destruct (new_worker_ok p) as (Hn1 & Hn2 & Hn3).
  assert (Hg : forall q v, get s0 q = Some v -> (q = p /\ v = new_worker) \/ get s q = Some v).
  { intros q v. unfold get, s0. cbn. intros H. destruct (decide (q < p)%nat) as [Hlt|Hge].
    - right. by rewrite lookup_app_l in H.
    - left. rewrite lookup_app_r in H by (unfold p in *; lia). fold p in H.
      destruct (q - p)%nat as [|j] eqn:E; [|done]. cbn in H. injection H as <-. split; [lia|done]. }
  pose proof Hb as (Hw & Hl1 & Hl2). destruct tail_rest as (H1 & H2 & H3 & H4). split_and!.
  - split_and!; [|done|].
    + intros q v [[-> ->]|Hv]%Hg; [done|by apply Hw].
    + cbn. rewrite length_app. eapply Forall_impl; [exact Hl2|]. cbn. lia.
  - apply (ph_spin s0 p t (SpinWaiting p :: k)).
    + change (targets (SpinWaiting p :: k)) with (targets k).
      assert (Hlt : Forall (fun q => (q < p)%nat) (targets k)) by exact H3.
      rewrite Forall_forall in Hlt. split_and!.
      * by constructor.
      * cbn. apply NoDup_cons. split; [|done]. intros Hin%Hlt. lia.
      * cbn. rewrite length_app. constructor; [cbn; unfold p; lia|].
        eapply Forall_impl; [exact H3|]. cbn. lia.
      * intros q Hq v [[-> ->]|Hv]%Hg; [done|]. by apply (H4 q Hq).
    + by intros v [[_ ->]|[_ Hv]%get_lt]%Hg; [|unfold p in Hv; lia].
    + intros Hin. rewrite Forall_forall in Hl2. apply Hl2 in Hin. unfold p in Hin. lia.
  - intros n. unfold total, in_flight. rewrite Hcar.
    change (carried (set_code (start p t ++ k) s0)) with (t :: (k ≫= carried1)). subst s0. cbn [ran heap set_code].
    rewrite bind_app. change ([Some new_worker] ≫= pending_at) with (@nil task). by rewrite app_nil_r.
Qed.

(** The step shortens the list of workers. *)
Lemma tail_list ws m : carried1 i = [] -> ws `sublist_of` workers s -> lands (set_workers ws m s) k s.
Proof.
  intros Hi Hs. pose proof Hb as (Hw & Hl1 & Hl2). pose proof tail_rest as Hk. split_and!.
  - split_and!; [done|by eapply sublist_NoDup|]. cbn. rewrite Forall_forall in *. intros q Hq.
    apply Hl2. by eapply sublist_subseteq.
  - by apply ph_tail.
  - intros n. unfold total, in_flight. change (carried (set_code k (set_workers ws m s))) with (carried (set_code k s)).
    rewrite carried_tail, tail_carried, Hi by (by destruct Hk). done.
Qed.

Lemma main_tail_ok s' :
  main_step Semaphore s = Some (Ok s') -> exists s0 k', s' = set_code k' s0 /\ lands s0 k' s.
Proof.
  pose proof tail_next as Hnext. pose proof tail_put as Hput. pose proof tail_replace as Hrep.
  pose proof tail_stay as Hstay. pose proof tail_wake as Hwake. pose proof tail_new as Hnew.
  pose proof tail_delete as Hdel. pose proof tail_list as Hlist. pose proof tail_rest as Hrest.
  pose proof Hb as (Hw & _). pose proof Ht as (T1 & T2 & T3 & T4). pose proof (tail_head _ _ _ Ht) as [Hi _].
  apply Forall_cons in T1 as [_ T1].
  unfold main_step. rewrite Hc. destruct i as [| | | |p| |[|p rest]|t|p|p|p|p|p|p|p|p|p rest|] eqn:Ei; try done.
  - (* SpinWaiting *)
    intros (w & Hp & H)%with_worker_ok. destruct (isWaiting w); injection H as <-; [|eauto].
    exists s, (code s). split; [by destruct s|]. by apply Hstay.
  - intros [= <-]. eauto.
  - (* ShrinkLoop *)
    intros (w & Hp & H)%with_worker_ok. destruct (isWaiting w); cbn [negb] in H.
    + destruct (currSize s <=? usualSize s); injection H as <-; [by eauto|].
      do 2 eexists. split; [done|]. apply Hrep; [done| |done]. split_and!; [|done..].
      by repeat (constructor; [done|]).
    + injection H as <-. do 2 eexists. split; [done|]. apply Hrep; [done| |done].
      change (targets (ShrinkLoop (p :: rest) :: k)) with (p :: targets (Advance p rest :: k)) in *. cbn [app] in *.
      apply NoDup_cons in T2 as [_ T2]. apply Forall_cons in T3 as [_ T3].
      split_and!; [by constructor|done..|]. intros q Hq. apply T4. by constructor.
  - (* NewWorker *)
    intros [= <-]. do 2 eexists. split; [done|]. rewrite <- Hc. by apply Hnew.
  - (* Stop *)
    intros (w & Hp & H)%with_worker_ok. injection H as <-. do 2 eexists. split; [done|].
    apply (Hput p w); [done..| |by destruct w|by destruct w]. apply set_stop_ok, Hw, Hp.
  - (* WakeIfWaiting *)
    intros (w & Hp & H)%with_worker_ok. destruct (isWaiting w) eqn:Hi'; injection H as <-; [|by eauto].
    by eapply Hwake.
  - (* JoinThread *)
    intros (w & Hp & H)%with_worker_ok. destruct (negb (joinable w)); [done|].
    case_decide as Hd; [|done]. injection H as <-. do 2 eexists. split; [done|].
    apply (Hput p w); [done..| |by destruct w|by destruct w]. apply set_joined_ok; [by apply Hw|done].
  - (* Delete *)
    intros (w & Hp & H)%with_worker_ok. destruct (joinable w) eqn:Hj; [done|]. injection H as <-.
    do 2 eexists. split; [done|]. rewrite <- Hc. by eapply Hdel.
  - (* Remove *)
    intros [= <-]. do 2 eexists. split; [done|]. by apply Hlist, sublist_filter.
  - (* Advance *)
    case_decide; [|done]. intros [= <-]. do 2 eexists. split; [done|]. apply Hrep; [done| |done].
    split_and!; [by constructor|done..].
  - (* Clear *)
    intros [= <-]. do 2 eexists. split; [done|]. by apply Hlist, sublist_nil_l.
Qed.
End Tail.

(** [carried] at the instructions of [go]. *)
Lemma carried_set s p t k : Forall is_tail k ->
  carried (set_code (SetTask p t :: TryLock p :: Unlock p :: k) s) = t :: (k ≫= carried1).
Proof. done. Qed.

Lemma carried_try s p w k : get s p = Some w ->
  carried (set_code (TryLock p :: Unlock p :: k) s) = option_list (the_task w) ++ (k ≫= carried1).
Proof. intros Hp. unfold carried. cbn [code set_code]. change (get (set_code _ s) p) with (get s p). by rewrite Hp. Qed.

Lemma carried_unlock s p w k : get s p = Some w ->
  carried (set_code (Unlock p :: k) s) = option_list (the_task w) ++ (k ≫= carried1).
Proof. intros Hp. unfold carried. cbn [code set_code]. change (get (set_code _ s) p) with (get s p). by rewrite Hp. Qed.

Lemma code_same s c : code s = c -> set_code c s = s.
Proof. intros <-. by destruct s. Qed.

Lemma ready_set_task p w t : ready p w -> pending (set_task t w) = pending w /\ pending w = [].
Proof. destruct w. unfold ready, pending. cbn. intros [[-> | ->] ->]; done. Qed.

Lemma set_task_ok p w t : worker_ok p w -> ready p w -> worker_ok p (set_task t w).
Proof. destruct w. unfold worker_ok, ready. cbn. intros (H1 & H2 & H3) [[-> | ->] ->]; naive_solver. Qed.

(** [workingSymbol.unlock()] hands the task over. *)
Lemma unlock_ready p w :
  worker_ok p w -> ready p w -> the_task w <> None ->
  worker_ok p (set_working None w) /\ pending w = [] /\ pending (set_working None w) = option_list (the_task w).
Proof.
  destruct w. unfold worker_ok, ready, pending. cbn. intros (H1 & H2 & H3) [[-> | ->] ->] Ht; naive_solver.
Qed.

Lemma tail_ok_unused s p w' w k :
  get s p = Some w -> tail_ok s k [p] -> tail_ok (put p w' s) k [].
Proof.
  intros Hp (H1 & H2 & H3 & H4). apply NoDup_cons in H2 as [H2 H2']. apply Forall_cons in H3 as [_ H3]. split_and!; try done.
  - cbn. by rewrite length_insert.
  - intros q Hq. eapply at_put; [done|by apply H4|]. intros ->. done.
Qed.

(** The instructions of [go] and of the start of a worker. *)
Section Go.
Context (s : sys) (Hb : base s).

Lemma at_get p (P : worker -> Prop) w : get s p = Some w -> P w -> at_ s p P.
Proof. intros Hp HP v Hv. by simplify_eq. Qed.

Lemma go_set p t k s' :
  code s = SetTask p t :: TryLock p :: Unlock p :: k -> tail_ok s k [p] -> at_ s p (ready p) ->
  main_step Semaphore s = Some (Ok s') -> exists s0 k', s' = set_code k' s0 /\ lands s0 k' s.
Proof.
  intros Hc Ht Hr. unfold main_step. rewrite Hc. intros (w & Hp & [= <-])%with_worker_ok. do 2 eexists. split; [done|].
  pose proof (Hr w Hp) as Hrw. destruct (ready_set_task p w t Hrw) as [E1 E2].
  eapply lands_put; [done..| | |].
  - apply set_task_ok; [by apply Hb|done].
  - apply ph_try; [eapply tail_ok_put; eauto|eapply at_put; eauto|].
    intros v. rewrite (get_put _ _ _ _ _ Hp), decide_True by done. by intros [= <-].
  - intros n. rewrite (carried_try (put p (set_task t w) s) p (set_task t w))
      by (rewrite (get_put _ _ _ _ _ Hp); by rewrite decide_True).
    rewrite <- (code_same s _ Hc), carried_set by apply Ht. by rewrite E1.
Qed.

Lemma go_try p k s' :
  code s = TryLock p :: Unlock p :: k -> tail_ok s k [p] -> at_ s p (ready p) ->
  at_ s p (fun w => the_task w <> None) ->
  main_step Semaphore s = Some (Ok s') -> exists s0 k', s' = set_code k' s0 /\ lands s0 k' s.
Proof.
  intros Hc Ht Hr Hn. unfold main_step. rewrite Hc. intros (w & Hp & H)%with_worker_ok.
  rewrite sem_try_lock in H. destruct (Hr w Hp) as [Hpc HW]. rewrite HW in H. cbn [default] in H.
  assert (E : set_working (Some (S p)) w = w) by (destruct w; cbn in *; by rewrite HW).
  cbn in H. rewrite E in H. injection H as <-. exists s, (Unlock p :: k). split.
  - destruct s as [h ws us cs c r e]. unfold set_code, put. cbn. f_equal.
    apply get_lt in Hp as [Hp _]. cbn in Hp. by rewrite list_insert_id.
  - apply lands_same; [done|by apply ph_unlock|].
    rewrite (carried_unlock s p w k Hp), <- (code_same s _ Hc) at 1. by rewrite (carried_try s p w k Hp).
Qed.

Lemma go_unlock p k s' :
  code s = Unlock p :: k -> tail_ok s k [p] -> at_ s p (ready p) -> at_ s p (fun w => the_task w <> None) ->
  main_step Semaphore s = Some (Ok s') -> exists s0 k', s' = set_code k' s0 /\ lands s0 k' s.
Proof.
  intros Hc Ht Hr Hn. unfold main_step. rewrite Hc. intros (w & Hp & H)%with_worker_ok.
  rewrite sem_unlock in H. injection H as <-. do 2 eexists. split; [done|].
  destruct (unlock_ready p w) as (H1 & H2 & H3); [by apply Hb|by apply Hr|by apply Hn|].
  eapply lands_put; [done..| |].
  - apply ph_tail. by eapply tail_ok_unused.
  - intros n. rewrite carried_tail by apply Ht. rewrite <- (code_same s _ Hc), (carried_unlock s p w k Hp).
    rewrite H2, H3, occ_app. change (occ n []) with 0%nat. lia.
Qed.

Lemma go_spin p t k s' :
  code s = SpinInited p :: PushBack p :: LockInit p :: SetTask p t :: TryLock p :: Unlock p :: k ->
  tail_ok s k [p] -> at_ s p (starting p) -> p ∉ workers s ->
  main_step Semaphore s = Some (Ok s') -> exists s0 k', s' = set_code k' s0 /\ lands s0 k' s.
Proof.
  intros Hc Ht Hs Hn. unfold main_step. rewrite Hc. intros (w & Hp & H)%with_worker_ok.
  destruct (initSymbolInited w) eqn:Hi; injection H as <-.
  - do 2 eexists. split; [done|]. apply lands_same; [done| |].
    + apply ph_push; try done. by apply (at_get _ _ w).
    + by rewrite <- (code_same s _ Hc).
  - exists s, (code s). split; [by destruct s|]. apply lands_same; [done| |by destruct s].
    rewrite Hc. by apply ph_spin.
Qed.

Lemma go_push p t k s' :
  code s = PushBack p :: LockInit p :: SetTask p t :: TryLock p :: Unlock p :: k ->
  tail_ok s k [p] -> at_ s p (starting p) -> at_ s p (fun w => initSymbolInited w = true) -> p ∉ workers s ->
  main_step Semaphore s = Some (Ok s') -> exists s0 k', s' = set_code k' s0 /\ lands s0 k' s.
Proof.
  intros Hc Ht Hs Hi Hn. unfold main_step. rewrite Hc. intros [= <-]. do 2 eexists. split; [done|].
  destruct Hb as (Hw & Hl1 & Hl2). split_and!.
  - split_and!; [done| |].
    + cbn. apply NoDup_app. split_and!; [done| |apply NoDup_singleton]. intros q Hq ->%list_elem_of_singleton. done.
    + cbn. apply Forall_app. split; [done|]. constructor; [|constructor]. destruct Ht as (_ & _ & H & _).
      by apply Forall_cons in H as [H _].
  - by apply ph_lock.
  - intros n. unfold total, in_flight. by rewrite <- (code_same s _ Hc).
Qed.

Lemma go_lock p t k s' :
  code s = LockInit p :: SetTask p t :: TryLock p :: Unlock p :: k ->
  tail_ok s k [p] -> at_ s p (starting p) -> at_ s p (fun w => initSymbolInited w = true) ->
  main_step Semaphore s = Some (Ok s') -> exists s0 k', s' = set_code k' s0 /\ lands s0 k' s.
Proof.
  intros Hc Ht Hs Hi. unfold main_step. rewrite Hc. intros (w & Hp & H)%with_worker_ok.
  rewrite sem_lock in H. destruct (initSymbol w) eqn:Hm; [done|]. injection H as <-. do 2 eexists. split; [done|].
  assert (Hr : ready p w) by (apply started_ready; [by apply Hs|by apply Hi|done]).
  eapply lands_put; [done..| | |].
  - pose proof (proj1 Hb p w Hp). by destruct w.
  - apply ph_set; [eapply tail_ok_put; eauto; by destruct w|]. intros v.
    rewrite (get_put _ _ _ _ _ Hp), decide_True by done. intros [= <-]. by destruct w.
  - intros n. rewrite <- (code_same s _ Hc), carried_set by apply Ht. by destruct w.
Qed.

Lemma go_scan rest t s' :
  code s = [Scan rest t] -> rest ⊆ workers s -> all_settled s ->
  main_step Semaphore s = Some (Ok s') -> exists s0 k', s' = set_code k' s0 /\ lands s0 k' s.
Proof.
  intros Hc Hr Hs. unfold main_step. rewrite Hc. destruct rest as [|p rest].
  - intros [= <-]. do 2 eexists. split; [done|]. apply lands_same; [done|by apply ph_shrink|].
    by rewrite <- (code_same s _ Hc).
  - intros (w & Hp & H)%with_worker_ok. destruct (isWaiting w) eqn:Hi; injection H as <-; do 2 eexists; split; try done.
    + assert (Hin : p ∈ workers s) by (apply Hr; set_solver).
      apply lands_same; [done| |by rewrite <- (code_same s _ Hc)]. apply ph_set.
      * split_and!; [by repeat constructor|apply NoDup_singleton| |intros q Hq; inversion Hq]. constructor; [|constructor].
        destruct Hb as (_ & _ & Hl). rewrite Forall_forall in Hl. by apply Hl.
      * apply (at_get _ _ w Hp), waiting_ready; [by apply Hb| |done]. apply Is_true_eq_true. by apply (Hs p).
    + apply lands_same; [done| |by rewrite <- (code_same s _ Hc)]. apply ph_scan; [|done]. set_solver.
Qed.

Lemma go_shrink t s' :
  code s = [TryShrink; NewWorker t] -> all_settled s ->
  main_step Semaphore s = Some (Ok s') -> exists s0 k', s' = set_code k' s0 /\ lands s0 k' s.
Proof.
  intros Hc Hs. unfold main_step. rewrite Hc. destruct (currSize s <=? _); intros [= <-]; do 2 eexists; split; try done;
    (apply lands_same; [done| |by rewrite <- (code_same s _ Hc)]); apply ph_tail.
  - split_and!; [by repeat constructor|by constructor|by constructor|intros q Hq; inversion Hq].
  - destruct Hb as (_ & Hl1 & Hl2). unfold tail_ok, targets. cbn. rewrite app_nil_r.
    split_and!; [by repeat constructor|done..].
Qed.

End Go.

(** Every step of the main thread keeps the invariant and the count of tasks. *)
Lemma main_ok s s' : inv s -> main_step Semaphore s = Some (Ok s') -> inv s' /\ forall n, total n s' = total n s.
Proof.
  intros [Hw Hl Hp] H. assert (Hb : base s) by done.
  assert (exists s0 k', s' = set_code k' s0 /\ lands s0 k' s) as (s0 & k' & -> & HL); [|by apply lands_inv].
  remember (code s) as c eqn:Hc. symmetry in Hc.
  destruct Hp; eauto using go_scan, go_shrink, go_set, go_try, go_unlock, go_spin, go_push, go_lock.
  destruct k as [|i k]; [unfold main_step in H; by rewrite Hc in H|]. by eapply main_tail_ok.
Qed.

(** ** Calls *)

(** No live worker is between being given a task and clearing [isWaiting]: it
    has none to take, or has taken it and shows that it is busy. *)
Definition quiet (s : sys) : Prop := Forall (fun o => match o with Some w => settled w = true | None => True end) (heap s).

#[global] Instance quiet_dec s : Decision (quiet s).
Proof. unfold quiet. apply Forall_dec. intros [w|]; apply _. Defined.

Lemma quiet_at s p : quiet s -> at_ s p settled.
Proof.
  intros Hq w [Hp _]%get_lt. apply Is_true_eq_left. by apply (Forall_lookup_1 _ _ _ _ Hq Hp).
Qed.

Lemma targets_app k k' : targets (k ++ k') = targets k ++ targets k'.
Proof. apply bind_app. Qed.

(** The loops of [joinAll] and of the destructor over the workers [ws]. *)
Definition stops (ws : list nat) : list instr := ws ≫= lazy_stop.
Definition joins (ws : list nat) : list instr := ws ≫= fun p => join p ++ [Delete p].

Lemma loops_tail ws : Forall is_tail (stops ws) /\ Forall is_tail (joins ws) /\ Forall is_tail (Delete <$> ws).
Proof. induction ws as [|p ws (IH1 & IH2 & IH3)]; [by repeat constructor|]. split_and!; by repeat (constructor; [done|]). Qed.

Lemma loops_targets ws : targets (stops ws) = [] /\ targets (joins ws) = ws /\ targets (Delete <$> ws) = [].
Proof. induction ws as [|p ws (IH1 & IH2 & IH3)]; [done|]. split_and!; [exact IH1|exact (f_equal (cons p) IH2)|exact IH3]. Qed.

Lemma loops_carried ws :
  (stops ws ≫= carried1) = [] /\ (joins ws ≫= carried1) = [] /\ ((Delete <$> ws) ≫= carried1) = [].
Proof. induction ws as [|p ws (IH1 & IH2 & IH3)]; [done|]. split_and!; [exact IH1|exact IH2|exact IH3]. Qed.

(** The tasks an event submits. *)
Definition submitted (ev : event) : list task := match ev with Call (AddTask n) => [Task n] | _ => [] end.
Definition is_call (ev : event) : bool := match ev with Call _ => true | _ => false end.

Lemma body_phase s c : base s -> quiet s -> phase s (body c s).
Proof.
  intros (Hw & Hl1 & Hl2) Hq. destruct (loops_tail (workers s)) as (A1 & A2 & A3).
  destruct (loops_targets (workers s)) as (B1 & B2 & B3). destruct c as [n| |]; cbn [body].
  - apply ph_scan; [done|]. intros p _. by apply quiet_at.
  - apply ph_tail. change (joinAll s) with (stops (workers s) ++ joins (workers s) ++ [Clear]).
    unfold tail_ok. rewrite !targets_app, B1, B2. cbn. rewrite app_nil_r.
    split_and!; [|done|done|intros; by apply quiet_at]. rewrite !Forall_app. by split_and!; [..|repeat constructor].
  - apply ph_tail. unfold tail_ok, destroy. rewrite B3. split_and!; [done|by constructor..|intros p Hp; inversion Hp].
Qed.

Lemma body_carried s c : carried (set_code (body c s) s) = submitted (Call c).
Proof.
  destruct (loops_tail (workers s)) as (A1 & A2 & A3). destruct (loops_carried (workers s)) as (B1 & B2 & B3).
  destruct c as [n| |]; cbn [body submitted]; [done| |].
  - change (joinAll s) with (stops (workers s) ++ joins (workers s) ++ [Clear]).
    rewrite carried_tail by (rewrite !Forall_app; by split_and!; [..|repeat constructor]).
    by rewrite !bind_app, B1, B2.
  - by rewrite carried_tail.
Qed.

Lemma body_total s c n : code s = [] -> total n (set_code (body c s) s) = (total n s + occ n (submitted (Call c)))%nat.
Proof.
  intros Hc. unfold total, in_flight. cbn [ran heap set_code]. rewrite body_carried, !occ_app.
  assert (E : carried s = []) by (unfold carried; by rewrite Hc). rewrite E. change (occ n []) with 0%nat. lia.
Qed.

(** The runs in which every member function is called in a quiet state, with
    the tasks submitted so far. *)
Inductive quiet_run (size : Z) : sys -> list task -> Prop :=
| quiet_new : quiet_run size (new_pool size) []
| quiet_step s sub ev s' :
    quiet_run size s sub -> (is_call ev = true -> quiet s) -> exec Semaphore ev s = Some (Ok s') ->
    quiet_run size s' (sub ++ submitted ev).

Lemma quiet_run_ok size s sub : quiet_run size s sub -> inv s /\ forall n, total n s = occ n sub.
Proof.
  induction 1 as [|s sub ev s' _ [IH1 IH2] Hq He].
  - split; [|done]. split; [by intros p w|by split; constructor|].
    apply ph_tail. split_and!; try constructor. intros p Hp. inversion Hp.
  - destruct ev as [c| |i]; cbn [exec submitted] in *.
    + destruct (code s) eqn:Hc; [|done]. injection He as <-. destruct IH1 as [H1 H2 H3]. split.
      * split; [done..|]. apply (phase_ext s); [done..|]. apply body_phase; [done|auto].
      * intros n. rewrite (body_total s c n Hc), IH2, occ_app. done.
    + rewrite app_nil_r. destruct (main_ok s s' IH1 He) as [H1 H2]. split; [done|]. intros n. by rewrite H2.
    + rewrite app_nil_r. destruct (worker_step_ok s i s' IH1 He) as (H1 & _ & H2). split; [done|]. intros n. by rewrite H2.
Qed.

(** A run whose calls are checked to be made in quiet states. *)
Fixpoint run_quiet (evs : list event) (s : sys) : option sys :=
  match evs with
  | [] => Some s
  | ev :: evs =>
      if decide (is_call ev = true /\ ~ quiet s) then None
      else match exec Semaphore ev s with Some (Ok s') => run_quiet evs s' | _ => None end
  end.

Lemma run_quiet_ok size evs s sub s' :
  quiet_run size s sub -> run_quiet evs s = Some s' -> quiet_run size s' (sub ++ (evs ≫= submitted)).
Proof.
  revert s sub. induction evs as [|ev evs IH]; intros s sub Hr; cbn [run_quiet].
  - intros [= <-]. cbn. by rewrite app_nil_r.
  - case_decide as Hd; [done|]. destruct (exec Semaphore ev s) as [[s1| | |]|] eqn:E; try done. intros H.
    rewrite bind_cons, app_assoc. eapply IH; [|exact H]. eapply quiet_step; [done| |done].
    intros Hc. destruct (decide (quiet s)); [done|]. by destruct Hd.
Qed.

(** ** The properties of the pool *)

(** C31: under every interleaving in which the member functions are called while no
    worker is between being given a task and clearing [isWaiting] (so also not
    while a task waits to be taken), no task is lost and none is run twice: every task was submitted as often as it was started
    or is still on its way to a worker. *)
Theorem tasks_run_once size s sub n :
  quiet_run size s sub -> (occ n (ran s) + occ n (in_flight s) = occ n sub)%nat.
Proof. intros [_ H]%quiet_run_ok. specialize (H n). unfold total in H. by rewrite occ_app in H. Qed.

(** How many steps a worker is from starting the task it was given. *)
Definition distance (w : worker) : nat :=
  match pc w with SetWaiting => 4 | Lock2 => 3 | ClearWaiting => 2 | CallTask => 1 | _ => 0 end.

Lemma pending_step i w t :
  worker_ok i w -> pending w = [t] ->
  exists w' l, workerFunc Semaphore (S i) w = Some (Ok (w', l)) /\
    ((l = [t] /\ pc w' = Running t /\ distance w = 1%nat) \/
     (l = [] /\ pending w' = [t] /\ distance w = S (distance w') /\ (0 < distance w')%nat)).
Proof.
  destruct w as [iw ini inid cl ws jn tk c]. unfold worker_ok, workerFunc, pending, distance.
  rewrite !sem_lock, sem_try_lock, !sem_unlock. cbn. intros (_ & _ & Hw) Hp.
  destruct c; try done; destruct ws; try done; destruct tk; try done; cbn in *;
    do 2 eexists; (split; [done|]); cbn; first [left; by simplify_eq | right; by auto with lia].
Qed.

Lemma pending_starts d s i w t :
  inv s -> get s i = Some w -> pending w = [t] -> distance w = d ->
  exists s' w', run Semaphore (replicate d (Work i)) s = Some s' /\ ran s' = ran s ++ [t] /\
    get s' i = Some w' /\ pc w' = Running t.
Proof.
  revert s w. induction d as [|d IH]; intros s w Hs Hi Hp Hd;
    destruct (pending_step i w t (inv_workers s Hs i w Hi) Hp) as (w' & l & E & H); [naive_solver lia|].
  assert (Ex : exec Semaphore (Work i) s = Some (Ok (add_ran l (put i w' s)))).
  { cbn. unfold worker_step. by rewrite Hi, E. }
  assert (Hg : get (add_ran l (put i w' s)) i = Some w').
  { change (get (put i w' s) i = Some w'). rewrite (get_put _ _ _ _ _ Hi). by rewrite decide_True. }
  destruct H as [(-> & Hr & Hd')|(-> & Hp' & Hd' & _)]; cbn [replicate run]; rewrite Ex.
  - assert (d = 0%nat) as -> by lia. do 2 eexists. split; [done|]. by split_and!.
  - destruct (worker_step_ok s i _ Hs Ex) as (Hs' & _).
    destruct (IH _ w' Hs' Hg Hp') as (s' & w2 & H1 & H2 & H3 & H4); [lia|].
    exists s', w2. split_and!; [done| |done..]. rewrite H2. cbn. by rewrite app_nil_r.
Qed.

(** *** From [go] to the start of the task *)

(** The steps of other threads, and its own, leave a waiting worker waiting. *)
Lemma waiting_keeps s i s' p w :
  inv s -> worker_step Semaphore i s = Some (Ok s') -> get s p = Some w -> ready p w ->
  exists w', get s' p = Some w' /\ ready p w' /\ the_task w' = the_task w.
Proof.
  intros Hs He Hp Hr. unfold worker_step in He. destruct (get s i) as [v|] eqn:Hi; [|done].
  destruct (workerFunc Semaphore (S i) v) as [[[v' l]| | |]|] eqn:E; try done. injection He as <-.
  change (get (add_ran _ (put i v' s)) p) with (get (put i v' s) p). rewrite (get_put _ _ _ _ _ Hi).
  case_decide as Hd; [subst i|by exists w]. assert (v = w) as -> by congruence.
  destruct (workerFunc_ok p w v' l (inv_workers s Hs p w Hp) E) as ((_ & _ & Ht) & _ & H & _). eauto.
Qed.

(** [go] on worker [p] with [n] of its first three instructions to come. *)
Definition handing (p : nat) (t : task) (k : list instr) (n : nat) (s : sys) : Prop :=
  code s = drop (3 - n) (go_rvalue p t) ++ k /\
  match n with
  | O => exists w, get s p = Some w /\ pending w = [t]
  | 3%nat => at_ s p (ready p)
  | _ => exists w, get s p = Some w /\ ready p w /\ the_task w = Some t
  end.

Lemma handing_main p t k n s s' :
  inv s -> handing p t k (S n) s -> (n < 3)%nat -> main_step Semaphore s = Some (Ok s') -> handing p t k n s'.
Proof.
  intros Hs [Hc H] Hn. unfold main_step. rewrite Hc.
  destruct n as [|[|[|n]]]; [| | |lia]; cbn [go_rvalue drop app Nat.sub]; intros (w & Hp & He)%with_worker_ok.
  - destruct H as (v & Hv & Hr & Ht). assert (v = w) as -> by congruence. rewrite sem_unlock in He. injection He as <-. split; [done|].
    exists (set_working None w). split; [change (get (put p (set_working None w) s) p = Some (set_working None w));
      rewrite (get_put _ _ _ _ _ Hp); by rewrite decide_True|].
    destruct (unlock_ready p w (inv_workers s Hs p w Hp) Hr) as (_ & _ & ->); [by rewrite Ht|]. by rewrite Ht.
  - destruct H as (v & Hv & Hr & Ht). assert (v = w) as -> by congruence. rewrite sem_try_lock in He. destruct Hr as [Hpc Hw].
    rewrite Hw in He. cbn [default] in He. injection He as <-. split; [done|].
    assert (E : set_working (Some (S p)) w = w) by (destruct w; cbn in *; by rewrite Hw).
    cbn. rewrite E. exists w. split; [|done]. change (get (put p w s) p = Some w).
    rewrite (get_put _ _ _ _ _ Hp). by rewrite decide_True.
  - injection He as <-. split; [done|]. exists (set_task t w).
    split; [change (get (put p (set_task t w) s) p = Some (set_task t w));
      rewrite (get_put _ _ _ _ _ Hp); by rewrite decide_True|].
    pose proof (H w Hp) as Hr. by destruct w.
Qed.

Lemma handing_work p t k n s s' i :
  inv s -> handing p t k n s -> (0 < n)%nat -> worker_step Semaphore i s = Some (Ok s') -> handing p t k n s'.
Proof.
  intros Hs [Hc H] Hn He. destruct (worker_step_ok s i s' Hs He) as (_ & Hc' & _). split; [by rewrite Hc'|].
  destruct n as [|[|[|[|n]]]]; [lia| | | |].
  1, 2, 4: destruct H as (w & Hp & Hr & Ht); destruct (waiting_keeps _ _ _ _ _ Hs He Hp Hr) as (w' & ? & ? & E);
    exists w'; by rewrite E.
  intros w' Hw'. destruct (get s p) as [w|] eqn:Hp.
  - destruct (waiting_keeps _ _ _ _ _ Hs He Hp (H w Hp)) as (v & Hv & Hr & _). assert (v = w') as <- by congruence. done.
  - unfold worker_step in He. destruct (get s i) as [v|] eqn:Hi; [|done].
    destruct (workerFunc Semaphore (S i) v) as [[[v' l]| | |]|]; try done. injection He as <-.
    change (get (put i v' s) p = Some w') in Hw'. rewrite (get_put _ _ _ _ _ Hi) in Hw'. case_decide; congruence.
Qed.

(** How many steps of the main thread there are. *)
Fixpoint mains (evs : list event) : nat :=
  match evs with
  | [] => 0
  | Main :: evs => S (mains evs)
  | _ :: evs => mains evs
  end.

Lemma handing_run p t k evs n s s' :
  inv s -> handing p t k n s -> run Semaphore evs s = Some s' -> (mains evs < n <= 3)%nat ->
  inv s' /\ handing p t k (n - mains evs) s'.
Proof.
  revert n s. induction evs as [|ev evs IH]; intros n s Hs Hh Hr Hn; cbn [run] in Hr.
  { injection Hr as <-. cbn [mains]. by rewrite Nat.sub_0_r. }
  destruct (exec Semaphore ev s) as [[s1| | |]|] eqn:He; try done. destruct ev as [c| |i]; cbn [exec] in He.
  - destruct Hh as [Hc _]. rewrite Hc in He.
    destruct n as [|[|[|[|n]]]]; [lia|..]; cbn in He; (done || lia).
  - change (mains (Main :: evs)) with (S (mains evs)) in *. destruct n as [|n]; [lia|].
    destruct (main_ok s s1 Hs He) as [Hs1 _]. apply (IH n s1); [done| |done|lia].
    apply (handing_main p t k n s s1 Hs Hh); [lia|done].
  - change (mains (Work i :: evs)) with (mains evs) in *.
    destruct (worker_step_ok s i s1 Hs He) as [Hs1 _]. apply (IH n s1); [done| |done|lia].
    apply (handing_work p t k n s s1 i Hs Hh); [lia|done].
Qed.


Lemma pool_run_app_inv sem evs evs' s s' :
  run sem (evs ++ evs') s = Some s' -> exists s1, run sem evs s = Some s1 /\ run sem evs' s1 = Some s'.
Proof.
  revert s. induction evs as [|ev evs IH]; intros s; cbn [run app]; [eauto|].
  destruct (exec sem ev s) as [[s0| | |]|]; try done. apply IH.
Qed.

Lemma phase_go s p t k : phase s (go_rvalue p t ++ k) -> at_ s p (ready p).
Proof.
  cbn. intros H. inversion H as [| |? (Ht & _)| | | | | |]; subst; try done. by apply Forall_cons in Ht as [? _].
Qed.

(** C32: a task given to a worker is started. Let the main thread be about to run
    [go(t)] on worker [p], in such a run, and let it make the three steps that
    store the task and wake the worker, interleaved in any way with steps of all
    workers. Then the task has been handed over for good: worker [p] starts it
    after at most four steps of its own, none of which waits for another thread. *)
Theorem given_task_starts size s sub p t k evs s' :
  quiet_run size s sub -> code s = go_rvalue p t ++ k ->
  run Semaphore (evs ++ [Main]) s = Some s' -> mains evs = 2%nat ->
  exists m s'' w, (m <= 4)%nat /\ run Semaphore (replicate m (Work p)) s' = Some s'' /\
    ran s'' = ran s' ++ [t] /\ get s'' p = Some w /\ pc w = Running t.
Proof.
  intros [Hs _]%quiet_run_ok Hc (s1 & R1 & R2)%pool_run_app_inv Hm.
  assert (Hh : handing p t k 3 s).
  { split; [done|]. apply (phase_go s p t k). rewrite <- Hc. by apply inv_phase. }
  destruct (handing_run p t k evs 3 s s1 Hs Hh R1) as [Hs1 Hh1]; [lia|]. rewrite Hm in Hh1.
  cbn [run] in R2. destruct (exec Semaphore Main s1) as [[s2| | |]|] eqn:E; try done. injection R2 as ->.
  destruct (main_ok s1 s' Hs1 E) as [Hs' _].
  destruct (handing_main p t k 0 s1 s' Hs1 Hh1) as [_ (w & Hp & Hpend)]; [lia|done|].
  exists (distance w). destruct (pending_starts (distance w) s' p w t Hs' Hp Hpend eq_refl) as (s'' & w' & H).
  exists s'', w'. split; [|done]. unfold distance. destruct (pc w); lia.
Qed.

(** *** From [addTask] to the start of the task *)

(** The changes a step of the main thread makes to a worker. *)
Definition main_change (sem : semantics) (w w' : worker) : Prop :=
  pc w' = pc w /\ (workingSymbol w' = workingSymbol w \/ workingSymbol w = None \/
                   mutex_unlock sem 0 (workingSymbol w) = Ok (workingSymbol w')).

Lemma put_change sem s p w w' :
  get s p = Some w -> main_change sem w w' ->
  forall q v', get (put p w' s) q = Some v' -> v' = new_worker \/ exists v, get s q = Some v /\ main_change sem v v'.
Proof.
  intros Hp Hc q v'. rewrite (get_put _ _ _ _ _ Hp). case_decide as Hq.
  - intros [= <-]. subst. eauto.
  - intros Hv. right. exists v'. split; [done|]. split; auto.
Qed.

Lemma main_frame sem s s' :
  main_step sem s = Some (Ok s') ->
  ran s' = ran s /\
  forall p w', get s' p = Some w' -> w' = new_worker \/ exists w, get s p = Some w /\ main_change sem w w'.
Proof.
  assert (Hid : forall p w', get s p = Some w' -> w' = new_worker \/ exists w, get s p = Some w /\ main_change sem w w').
  { intros p w' Hp. right. exists w'. split; [done|]. split; auto. }
  unfold main_step. destruct (code s) as [|i k]; [done|].
  assert (Hput : forall p w w', get s p = Some w -> main_change sem w w' ->
            forall s', heap s' = heap (put p w' s) -> ran s' = ran s -> ran s' = ran s /\
            forall q v', get s' q = Some v' -> v' = new_worker \/ exists v, get s q = Some v /\ main_change sem v v').
  { intros p w w' Hp Hw s0 Hh Hr. split; [done|]. unfold get at 1. rewrite Hh. by apply (put_change sem s p w w'). }
  destruct i as [[|p rest]|p t|p|p|p| |[|p rest]|t|p|p|p|p|p|p|p|p|p rest|]; cbv zeta;
    try (intros [= <-]; split; [done|exact Hid]);
    try (intros (w & Hp & H)%with_worker_ok; try (by (repeat case_match; simplify_eq)));
    try (by (repeat case_match; intros; simplify_eq)).
  - injection H as <-. apply (Hput p w (set_task t w)); [done| |done..]. by split; [|left].
  - destruct (mutex_try_lock sem 0 (workingSymbol w)) as [[got m]| | |] eqn:E; try done. injection H as <-.
    apply (Hput p w (set_working m w)); [done| |done..]. split; [done|]. unfold mutex_try_lock in E.
    repeat case_match; simplify_eq; auto.
  - destruct (mutex_unlock sem 0 (workingSymbol w)) as [m| | |] eqn:E; try done. injection H as <-.
    apply (Hput p w (set_working m w)); [done| |done..]. split; auto.
  - intros [= <-]. split; [done|]. intros q v'. unfold get at 1. cbn. rewrite lookup_app. 
    destruct (heap s !! q) as [o|] eqn:E; cbn.
    + intros Hv. apply Hid. unfold get. by rewrite E.
    + destruct (q - length (heap s))%nat; cbn; [|done]. intros [= <-]. by left.
  - destruct (mutex_lock sem 0 (initSymbol w)) as [[m| | |]|]; try done. injection H as <-.
    apply (Hput p w (set_init m w)); [done| |done..]. split; auto.
  - injection H as <-. apply (Hput p w (set_stop w)); [done| |done..]. split; auto.
  - repeat case_match; simplify_eq. apply (Hput p w (set_joined w)); [done| |done..]. split; auto.
  - case_match; simplify_eq. split; [done|]. intros q v'. unfold get at 1. cbn. destruct (decide (q = p)) as [->|].
    + apply get_lt in Hp as [_ Hp]. by rewrite list_lookup_insert_eq.
    + rewrite list_lookup_insert_ne by done. apply Hid.
Qed.



























(** ** ISO C++ *)

(** A worker under ISO C++ never gets past its second lock. *)
Definition iso_ok (i : nat) (w : worker) : Prop :=
  match pc w with
  | ClearWaiting | CallTask | Running _ | Unlock2 => False
  | UnlockInit | SetWaiting | Lock2 => workingSymbol w = Some (S i)
  | _ => True
  end.

Lemma iso_main i w w' : iso_ok i w -> main_change ISO w w' -> iso_ok i w'.
Proof.
  unfold iso_ok. intros H [-> Hc]. destruct (pc w); try done; destruct Hc as [->|[Hc|Hc]]; try done; try congruence;
    unfold mutex_unlock in Hc; rewrite H, decide_True in Hc; by auto.
Qed.

Lemma iso_worker i w w' l : iso_ok i w -> workerFunc ISO (S i) w = Some (Ok (w', l)) -> iso_ok i w' /\ l = [].
Proof.
  destruct w as [iw ini inid cl ws jn tk c]. unfold iso_ok, workerFunc. cbn. intros Hw H.
  destruct c as [| |f|f| | | | | |t| |]; try done.
  - destruct (mutex_try_lock ISO (S i) ini) as [[]| | |]; try done. by injection H as <- <-.
  - by injection H as <- <-.
  - injection H as <- <-. by destruct cl.
  - destruct ws as [o|]; cbn in H; [by case_decide|]. injection H as <- <-. by destruct f.
  - destruct (mutex_unlock ISO (S i) ini); try done. by injection H as <- <-.
  - by injection H as <- <-.
  - rewrite Hw in H. cbn in H. by rewrite decide_True in H by done.
Qed.

(** C34: under ISO C++ no task is ever run: whatever the schedule, a run without
    undefined behaviour starts no task, because a worker waits by locking a mutex
    it owns and is woken by a thread that unlocks a mutex it does not own. *)
Theorem iso_runs_no_task evs size s : run ISO evs (new_pool size) = Some s -> ran s = [].
Proof.
  assert (H : forall evs s0, (forall p, at_ s0 p (iso_ok p)) -> ran s0 = [] -> run ISO evs s0 = Some s -> ran s = []).
  { clear. induction evs as [|ev evs IH]; intros s0 Hi Hr; cbn [run]; [by intros [= <-]|].
    destruct (exec ISO ev s0) as [[s1| | |]|] eqn:E; try done. apply IH; destruct ev as [c| |i]; cbn in E.
    - by destruct (code s0); simplify_eq.
    - destruct (main_frame ISO s0 s1 E) as [_ Hf]. intros p w' [->|(w & Hw & Hc)]%Hf; [done|].
      eapply iso_main; [by apply Hi|done].
    - unfold worker_step in E. destruct (get s0 i) as [w|] eqn:Hw; [|done].
      destruct (workerFunc ISO (S i) w) as [[[w' l]| | |]|] eqn:Ew; try done. injection E as <-.
      intros p. change (at_ (put i w' s0) p (iso_ok p)). eapply at_put; [done|apply Hi|]. intros -> Ho.
      by eapply iso_worker.
    - by destruct (code s0); simplify_eq.
    - by destruct (main_frame ISO s0 s1 E) as [-> _].
    - unfold worker_step in E. destruct (get s0 i) as [w|] eqn:Hw; [|done].
      destruct (workerFunc ISO (S i) w) as [[[w' l]| | |]|] eqn:Ew; try done. injection E as <-. cbn.
      destruct (iso_worker i w w' l (Hi i w Hw) Ew) as [_ ->]. by rewrite Hr. }
  apply H; [by intros p w|done].
Qed.

(** ** Defects under the semaphore reading *)

(** Without the condition a task can be lost and another one run twice: a
    worker that has just been started shows [isWaiting] while it has a task to
    take, and the next [addTask] gives it a second one. *)
Theorem addTask_race :
  (exists s, run Semaphore lost_task_run (new_pool 4) = Some s /\ code s = [] /\ ran s = [Task 1] /\ in_flight s = []) /\
  (exists s, run Semaphore double_run (new_pool 4) = Some s /\ ran s = [Task 1; Task 1] /\ in_flight s = []).
Proof. split; eexists; (split; [vm_compute; reflexivity|]); by vm_compute. Qed.

(** [addTask] can spin for ever: the worker has run the task and waits again
    before the loop on [isWaiting] sees the flag cleared. *)
Theorem addTask_spins :
  exists s, run Semaphore spin_run (new_pool 4) = Some s /\ ran s = [Task 0; Task 1] /\ stuck Semaphore s.
Proof.
  eexists. split; [vm_compute; reflexivity|]. split; [done|]. split; [done|].
  intros [c| |[|i]] s'; vm_compute; try done. by intros [= <-].
Qed.

(** [joinAll] can wait for ever for a worker that waits for a task. *)
Theorem joinAll_deadlock :
  exists s, run Semaphore deadlock_run (new_pool 4) = Some s /\ stuck Semaphore s.
Proof.
  eexists. split; [vm_compute; reflexivity|]. split; [done|]. intros [c| |[|i]] s'; vm_compute; done.
Qed.

(** [try_shrink] removes the element its loop stands on: the first worker it
    joins makes the increment of the iterator undefined. *)
Theorem shrink_invalid_iterator :
  exists s, run Semaphore shrink_run (new_pool 4) = Some s /\ size s = 12 /\
    exec Semaphore Main s = Some (Undefined InvalidIterator).
Proof. eexists. split; [vm_compute; reflexivity|]. by vm_compute. Qed.

(** The destructor terminates the program when a worker was not joined. *)
Theorem destroy_terminates sem s p ws w :
  code s = [] -> workers s = p :: ws -> get s p = Some w -> joinable w = true ->
  exists s', exec sem (Call Destroy) s = Some (Ok s') /\ exec sem Main s' = Some (Throw terminate).
Proof.
  intros Hc Hw Hp Hj. eexists. split; [cbn; by rewrite Hc|]. cbn. unfold main_step, destroy.
  cbn [code set_code]. rewrite Hw. cbn. unfold with_worker. change (get (set_code _ s) p) with (get s p). by rewrite Hp, Hj.
Qed.

(** ** Witnesses *)

(** Two tasks given to one worker, the second one when it waits. *)
Definition two_tasks : list event :=
  start_events 0 0 ++ take_events 0 ++ park_events 0 ++ give_events 1.

Lemma tasks_run_once_witness :
  exists s, quiet_run 4 s [Task 0; Task 1] /\ ran s = [Task 0] /\ (occ 1 (ran s) + occ 1 (in_flight s) = 1)%nat.
Proof.
  destruct (run_quiet two_tasks (new_pool 4)) as [s|] eqn:E; [|vm_compute in E; discriminate].
  pose proof (run_quiet_ok 4 _ _ _ _ (quiet_new 4) E) as Hr. exists s. split; [exact Hr|]. split.
  - vm_compute in E. injection E as <-. reflexivity.
  - exact (tasks_run_once 4 s [Task 0; Task 1] 1 Hr).
Defined.

(** The second task up to the loop that found the waiting worker. *)
Definition about_to_go : list event :=
  start_events 0 0 ++ take_events 0 ++ park_events 0 ++ [Call (AddTask 1); Main].

Lemma given_task_starts_witness :
  exists s s' s'', run_quiet about_to_go (new_pool 4) = Some s /\ run Semaphore ([Main; Main] ++ [Main]) s = Some s' /\
    ran s'' = ran s' ++ [Task 1].
Proof.
  destruct (run_quiet about_to_go (new_pool 4)) as [s|] eqn:E; [|vm_compute in E; discriminate].
  pose proof (run_quiet_ok 4 _ _ _ _ (quiet_new 4) E) as Hr.
  assert (Hc : code s = go_rvalue 0 (Task 1) ++ [SpinWaiting 0]) by (vm_compute in E; injection E as <-; reflexivity).
  destruct (run Semaphore ([Main; Main] ++ [Main]) s) as [s'|] eqn:E'; [|vm_compute in E; injection E as <-; vm_compute in E'; discriminate].
  destruct (given_task_starts 4 s _ 0 (Task 1) [SpinWaiting 0] [Main; Main] s' Hr Hc E' eq_refl) as (m & s'' & w & _ & _ & H & _).
  exists s, s', s''. split; [reflexivity|]. split; [exact E'|exact H].
Defined.


Lemma iso_runs_no_task_witness :
  exists s, run ISO (start_events 0 0 ++ []) (new_pool 4) = None /\
    run ISO ([Call (AddTask 0)] ++ replicate 3 Main ++ replicate 6 (Work 0)) (new_pool 4) = Some s /\ ran s = [].
Proof.
  eexists. split; [vm_compute; reflexivity|]. split; [vm_compute; reflexivity|].
  apply (iso_runs_no_task ([Call (AddTask 0)] ++ replicate 3 Main ++ replicate 6 (Work 0)) 4). vm_compute. reflexivity.
Defined.

End ThreadPool.
