(* ===== verification/WinMutex.v ===== *)
(** * Mutexes of the Windows build: [mingw-thread-fix/mingw.mutex.h]

    [std::recursive_mutex] over a critical section, [std::recursive_timed_mutex]
    over a kernel mutex, the template [_NonRecursive] over either of them
    (which gives [std::mutex] and [std::timed_mutex]), and [lock_guard].  The
    functions of Win32 are parameters: the classes [CriticalSection] and
    [KernelMutex], with their documented behaviour as laws.  The template is
    modelled over the class [Lockable], and its theorems are proved against
    [LockLaws], which both recursive mutexes keep. *)

From S2P Require Import Prelude.
Open Scope Z_scope.

Module WinMutex.

(** A member function returns or throws, and leaves the object in a state in
    both cases; [Blocked] is a call that waits. *)
Definition res (A B : Type) : Type := (outcome A * B).

Definition EDEADLK : exn := system_error "EDEADLK".
Definition EOWNERDEAD : exn := system_error "EOWNERDEAD".
Definition EPROTO : exn := system_error "EPROTO".

(** ** Locks *)

(** What the template uses of its base class; the first argument is the id of
    the calling thread. *)
Class Lockable (B : Type) := {
  lk_lock : Z -> B -> res unit B;
  lk_unlock : Z -> B -> res unit B;
  lk_try_lock : Z -> B -> res bool B
}.

(** A recursive lock: who holds it and how often, in the states [lk_sound]. *)
Class LockLaws (B : Type) `{Lockable B} := {
  lk_sound : B -> Prop;
  lk_holder : B -> option (Z * nat);
  lock_free b me : lk_sound b -> lk_holder b = None ->
    exists b', lk_lock me b = (Ok tt, b') /\ lk_sound b' /\ lk_holder b' = Some (me, 1%nat);
  lock_again b me n : lk_sound b -> lk_holder b = Some (me, n) ->
    exists b', lk_lock me b = (Ok tt, b') /\ lk_sound b' /\ lk_holder b' = Some (me, S n);
  lock_busy b me t n : lk_sound b -> lk_holder b = Some (t, n) -> t <> me -> lk_lock me b = (Blocked, b);
  try_free b me : lk_sound b -> lk_holder b = None ->
    exists b', lk_try_lock me b = (Ok true, b') /\ lk_sound b' /\ lk_holder b' = Some (me, 1%nat);
  try_again b me n : lk_sound b -> lk_holder b = Some (me, n) ->
    exists b', lk_try_lock me b = (Ok true, b') /\ lk_sound b' /\ lk_holder b' = Some (me, S n);
  try_busy b me t n : lk_sound b -> lk_holder b = Some (t, n) -> t <> me -> lk_try_lock me b = (Ok false, b);
  unlock_last b me : lk_sound b -> lk_holder b = Some (me, 1%nat) ->
    exists b', lk_unlock me b = (Ok tt, b') /\ lk_sound b' /\ lk_holder b' = None;
  unlock_more b me n : lk_sound b -> lk_holder b = Some (me, S (S n)) ->
    exists b', lk_unlock me b = (Ok tt, b') /\ lk_sound b' /\ lk_holder b' = Some (me, S n)
}.

(** ** [recursive_mutex] *)

(** The critical sections of Win32: [None] is a call that waits. *)
Class CriticalSection (C : Type) := {
  InitializeCriticalSection : C;
  EnterCriticalSection : Z -> C -> option C;
  LeaveCriticalSection : Z -> C -> C;
  TryEnterCriticalSection : Z -> C -> Z * C
}.

Class CriticalSectionLaws (C : Type) `{CriticalSection C} := {
  cs_holder : C -> option (Z * nat);
  cs_init : cs_holder InitializeCriticalSection = None;
  cs_enter c me :
    match cs_holder c with
    | None => exists c', EnterCriticalSection me c = Some c' /\ cs_holder c' = Some (me, 1%nat)
    | Some (t, n) =>
        if decide (t = me) then exists c', EnterCriticalSection me c = Some c' /\ cs_holder c' = Some (me, S n)
        else EnterCriticalSection me c = None
    end;
  cs_try c me :
    match cs_holder c with
    | None => exists r c', TryEnterCriticalSection me c = (r, c') /\ r <> 0 /\ cs_holder c' = Some (me, 1%nat)
    | Some (t, n) =>
        if decide (t = me)
        then exists r c', TryEnterCriticalSection me c = (r, c') /\ r <> 0 /\ cs_holder c' = Some (me, S n)
        else TryEnterCriticalSection me c = (0, c)
    end;
  cs_leave c me n : cs_holder c = Some (me, S n) ->
    cs_holder (LeaveCriticalSection me c) = match n with O => None | S _ => Some (me, n) end
}.

Section RecursiveMutex.
Context {C : Type} `{CriticalSectionLaws C}.

Definition recursive_mutex_new : C := InitializeCriticalSection.

Definition recursive_mutex_lock (me : Z) (c : C) : res unit C :=
  match EnterCriticalSection me c with
  | Some c' => (Ok tt, c')
  | None => (Blocked, c)
  end.

Definition recursive_mutex_unlock (me : Z) (c : C) : res unit C := (Ok tt, LeaveCriticalSection me c).

Definition recursive_mutex_try_lock (me : Z) (c : C) : res bool C :=
  let '(r, c') := TryEnterCriticalSection me c in (Ok (negb (r =? 0)), c').

#[global] Instance recursive_mutex_lockable : Lockable C := {|
  lk_lock := recursive_mutex_lock;
  lk_unlock := recursive_mutex_unlock;
  lk_try_lock := recursive_mutex_try_lock
|}.

#[global, refine] Instance recursive_mutex_laws : LockLaws C := {|
  lk_sound := fun _ => True;
  lk_holder := cs_holder
|}.
Proof.
  all: cbn; unfold recursive_mutex_lock, recursive_mutex_unlock, recursive_mutex_try_lock.
  - intros b me _ Hb. pose proof (cs_enter b me) as E. rewrite Hb in E. destruct E as (c' & -> & E). eauto.
  - intros b me n _ Hb. pose proof (cs_enter b me) as E. rewrite Hb, decide_True in E by done.
    destruct E as (c' & -> & E). eauto.
  - intros b me t n _ Hb Hne. pose proof (cs_enter b me) as E. rewrite Hb, decide_False in E by done. by rewrite E.
  - intros b me _ Hb. pose proof (cs_try b me) as E. rewrite Hb in E. destruct E as (r & c' & -> & Hr & E).
    rewrite (proj2 (Z.eqb_neq r 0) Hr). eauto.
  - intros b me n _ Hb. pose proof (cs_try b me) as E. rewrite Hb, decide_True in E by done.
    destruct E as (r & c' & -> & Hr & E). rewrite (proj2 (Z.eqb_neq r 0) Hr). eauto.
  - intros b me t n _ Hb Hne. pose proof (cs_try b me) as E. rewrite Hb, decide_False in E by done. by rewrite E.
  - intros b me _ Hb. eexists. split; [done|]. split; [done|]. by rewrite (cs_leave b me 0 Hb).
  - intros b me n _ Hb. eexists. split; [done|]. split; [done|]. by rewrite (cs_leave b me (S n) Hb).
Defined.

End RecursiveMutex.

(** ** [recursive_timed_mutex] *)

Definition WAIT_OBJECT_0 : Z := 0.
Definition WAIT_ABANDONED : Z := 128.
Definition WAIT_TIMEOUT : Z := 258.
Definition WAIT_FAILED : Z := 4294967295.
Definition INFINITE : Z := 4294967295.

(** A kernel mutex: [WaitForSingleObject] of a thread with a timeout, which
    does not return in the case [None], and [ReleaseMutex]. *)
Class KernelMutex (H : Type) := {
  CreateMutex : H;
  WaitForMutex : Z -> Z -> H -> option (Z * H);
  ReleaseMutex : Z -> H -> bool * H
}.

(** [km_abandoned]: its last holder ended without releasing it.  The next wait
    gets the mutex and is told. *)
Class KernelMutexLaws (H : Type) `{KernelMutex H} := {
  km_holder : H -> option (Z * nat);
  km_abandoned : H -> bool;
  km_init : km_holder CreateMutex = None /\ km_abandoned CreateMutex = false;
  km_wait h me timeout :
    match km_holder h with
    | None => exists h', WaitForMutex me timeout h = Some (if km_abandoned h then WAIT_ABANDONED else WAIT_OBJECT_0, h') /\
                km_holder h' = Some (me, 1%nat) /\ km_abandoned h' = false
    | Some (t, n) =>
        if decide (t = me)
        then exists h', WaitForMutex me timeout h = Some (WAIT_OBJECT_0, h') /\
               km_holder h' = Some (me, S n) /\ km_abandoned h' = km_abandoned h
        else WaitForMutex me timeout h = if timeout =? INFINITE then None else Some (WAIT_TIMEOUT, h)
    end;
  km_release h me :
    match km_holder h with
    | Some (t, S n) =>
        if decide (t = me)
        then exists h', ReleaseMutex me h = (true, h') /\ km_abandoned h' = km_abandoned h /\
               km_holder h' = match n with O => None | S _ => Some (me, n) end
        else ReleaseMutex me h = (false, h)
    | _ => ReleaseMutex me h = (false, h)
    end
}.

(** A duration is a number of ticks of [num / den] seconds;
    [duration_cast<milliseconds>] truncates towards zero. *)
Record duration := Duration { ticks : Z; num : Z; den : Z }.
Definition milliseconds (d : duration) : Z := Z.quot (ticks d * num d * 1000) (den d).

Section TimedMutex.
Context {H : Type} `{KernelMutexLaws H}.

Definition recursive_timed_mutex_new : H := CreateMutex.

Definition recursive_timed_mutex_lock (me : Z) (h : H) : res unit H :=
  match WaitForMutex me INFINITE h with
  | None => (Blocked, h)
  | Some (ret, h) =>
      if negb (ret =? WAIT_OBJECT_0) then
        if ret =? WAIT_ABANDONED then (Throw EOWNERDEAD, h) else (Throw EPROTO, h)
      else (Ok tt, h)
  end.

Definition recursive_timed_mutex_unlock (me : Z) (h : H) : res unit H :=
  let '(ok, h) := ReleaseMutex me h in
  if negb ok then (Throw EDEADLK, h) else (Ok tt, h).

(** The branches after [WaitForSingleObject] in [try_lock] and [try_lock_for]. *)
Definition wait_result (h0 : H) (w : option (Z * H)) : res bool H :=
  match w with
  | None => (Blocked, h0)
  | Some (ret, h) =>
      if ret =? WAIT_TIMEOUT then (Ok false, h)
      else if ret =? WAIT_OBJECT_0 then (Ok true, h)
      else if ret =? WAIT_ABANDONED then (Throw EOWNERDEAD, h)
      else (Throw EPROTO, h)
  end.

Definition recursive_timed_mutex_try_lock (me : Z) (h : H) : res bool H := wait_result h (WaitForMutex me 0 h).

(** [(DWORD)duration_cast<milliseconds>(dur).count()] *)
Definition try_lock_for (me : Z) (dur : duration) (h : H) : res bool H :=
  wait_result h (WaitForMutex me (u32 (milliseconds dur)) h).

(** [timeout_time - Clock::now()], both in the ticks of the clock. *)
Definition try_lock_until (me : Z) (timeout_time now num den : Z) (h : H) : res bool H :=
  try_lock_for me (Duration (timeout_time - now) num den) h.

#[global] Instance recursive_timed_mutex_lockable : Lockable H := {|
  lk_lock := recursive_timed_mutex_lock;
  lk_unlock := recursive_timed_mutex_unlock;
  lk_try_lock := recursive_timed_mutex_try_lock
|}.

#[global, refine] Instance recursive_timed_mutex_laws : LockLaws H := {|
  lk_sound := fun h => km_abandoned h = false;
  lk_holder := km_holder
|}.
Proof.
  all: cbn; unfold recursive_timed_mutex_lock, recursive_timed_mutex_unlock, recursive_timed_mutex_try_lock, wait_result.
  - intros b me Ha Hb. pose proof (km_wait b me INFINITE) as E. rewrite Hb, Ha in E. destruct E as (c' & -> & E & E'). eauto.
  - intros b me n Ha Hb. pose proof (km_wait b me INFINITE) as E. rewrite Hb, decide_True in E by done.
    destruct E as (c' & -> & E & E'). rewrite Ha in E'. eauto.
  - intros b me t n Ha Hb Hne. pose proof (km_wait b me INFINITE) as E. rewrite Hb, decide_False in E by done. by rewrite E.
  - intros b me Ha Hb. pose proof (km_wait b me 0) as E. rewrite Hb, Ha in E. destruct E as (c' & -> & E & E'). eauto.
  - intros b me n Ha Hb. pose proof (km_wait b me 0) as E. rewrite Hb, decide_True in E by done.
    destruct E as (c' & -> & E & E'). rewrite Ha in E'. eauto.
  - intros b me t n Ha Hb Hne. pose proof (km_wait b me 0) as E. rewrite Hb, decide_False in E by done. by rewrite E.
  - intros b me Ha Hb. pose proof (km_release b me) as E. rewrite Hb, decide_True in E by done.
    destruct E as (h' & -> & E' & E). rewrite Ha in E'. eauto.
  - intros b me n Ha Hb. pose proof (km_release b me) as E. rewrite Hb, decide_True in E by done.
    destruct E as (h' & -> & E' & E). rewrite Ha in E'. eauto.
Defined.

End TimedMutex.

(** ** [_NonRecursive] *)

Record NonRecursive (B : Type) := NR { base : B; mOwnerThread : Z }.
Arguments NR {B} base mOwnerThread.
Arguments base {B} n.
Arguments mOwnerThread {B} n.

Section NonRec.
Context {B : Type} `{LockLaws B}.

Definition nonrecursive_new (b : B) : NonRecursive B := NR b 0.

Definition checkSetOwnerAfterLock (self : Z) (m : NonRecursive B) : res unit (NonRecursive B) :=
  if mOwnerThread m =? self then (Throw EDEADLK, m) else (Ok tt, NR (base m) self).

Definition checkSetOwnerBeforeUnlock (self : Z) (m : NonRecursive B) : res unit (NonRecursive B) :=
  if negb (mOwnerThread m =? self) then (Throw EDEADLK, m) else (Ok tt, NR (base m) 0).

Definition lock (self : Z) (m : NonRecursive B) : res unit (NonRecursive B) :=
  let '(r, b) := lk_lock self (base m) in
  let m := NR b (mOwnerThread m) in
  match r with
  | Ok _ => checkSetOwnerAfterLock self m
  | r => (r, m)
  end.

Definition unlock (self : Z) (m : NonRecursive B) : res unit (NonRecursive B) :=
  let '(r, m) := checkSetOwnerBeforeUnlock self m in
  match r with
  | Ok _ => let '(r, b) := lk_unlock self (base m) in (r, NR b (mOwnerThread m))
  | r => (r, m)
  end.

(** What follows a successful or failed attempt on the base class. *)
Definition after_try (self : Z) (m : NonRecursive B) (rb : res bool B) : res bool (NonRecursive B) :=
  let '(r, b) := rb in
  let m := NR b (mOwnerThread m) in
  match r with
  | Ok true => let '(r, m) := checkSetOwnerAfterLock self m in (r ← r; Ok true, m)
  | r => (r, m)
  end.

Definition try_lock (self : Z) (m : NonRecursive B) : res bool (NonRecursive B) :=
  after_try self m (lk_try_lock self (base m)).

(** [lock_guard]: the constructor locks, the destructor unlocks, whether the
    body returns or throws; destructors are [noexcept], so an exception of
    [unlock] there terminates the program. *)
Definition lock_guard (self : Z) (body : outcome unit) (m : NonRecursive B) : res unit (NonRecursive B) :=
  let '(r, m) := lock self m in
  match r with
  | Ok _ =>
      match body with
      | Undefined u => (Undefined u, m)
      | Blocked => (Blocked, m)
      | _ => let '(r, m) := unlock self m in
             match r with Ok _ => (body, m) | Throw _ => (Throw (logic_error "terminate called"), m) | r => (r, m) end
      end
  | r => (r, m)
  end.

(** *** Refinement of a plain mutex *)

(** The mutex [m] is free, or held by a thread. *)
Definition is_mutex (m : NonRecursive B) (o : option Z) : Prop :=
  lk_sound (base m) /\
  match o with
  | None => lk_holder (base m) = None /\ mOwnerThread m = 0
  | Some t => lk_holder (base m) = Some (t, 1%nat) /\ mOwnerThread m = t
  end.

(** The plain mutex of C++: the result of each operation for a thread [me] that
    does not lock it twice, and who holds it then. *)
Definition spec_lock (me : Z) (o : option Z) : outcome unit * option Z :=
  match o with None => (Ok tt, Some me) | Some t => (Blocked, Some t) end.
Definition spec_try_lock (me : Z) (o : option Z) : outcome bool * option Z :=
  match o with None => (Ok true, Some me) | Some t => (Ok false, Some t) end.
Definition spec_unlock (me : Z) (o : option Z) : outcome unit * option Z :=
  if decide (o = Some me) then (Ok tt, None) else (Throw EDEADLK, o).

Lemma check_set_ok self (b : B) : self <> 0 -> checkSetOwnerAfterLock self (NR b 0) = (Ok tt, NR b self).
Proof. intros Hs. unfold checkSetOwnerAfterLock. cbn [mOwnerThread]. by rewrite (proj2 (Z.eqb_neq 0 self)) by lia. Qed.

Lemma lock_refines me m o : me <> 0 -> is_mutex m o -> o <> Some me ->
  exists m', lock me m = ((spec_lock me o).1, m') /\ is_mutex m' (spec_lock me o).2.
Proof.
  intros Hme [Hs Ho] Hne. destruct m as [b w]. cbn in *. unfold lock. cbn [base mOwnerThread]. destruct o as [t|]; cbn.
  - destruct Ho as [Hh ->]. rewrite (lock_busy b me t 1) by naive_solver. eexists. split; [done|]. by repeat split.
  - destruct Ho as [Hh ->]. destruct (lock_free b me Hs Hh) as (b' & -> & Hs' & Hh'). rewrite check_set_ok by done. eexists. split; [done|]. by repeat split.
Qed.

Lemma try_lock_refines me m o : me <> 0 -> is_mutex m o -> o <> Some me ->
  exists m', try_lock me m = ((spec_try_lock me o).1, m') /\ is_mutex m' (spec_try_lock me o).2.
Proof.
  intros Hme [Hs Ho] Hne. destruct m as [b w]. cbn in *. unfold try_lock. cbn [base]. destruct o as [t|]; cbn.
  - destruct Ho as [Hh ->]. rewrite (try_busy b me t 1) by naive_solver. eexists. split; [done|]. by repeat split.
  - destruct Ho as [Hh ->]. destruct (try_free b me Hs Hh) as (b' & -> & Hs' & Hh'). cbn [after_try mOwnerThread].
    rewrite check_set_ok by done. eexists. split; [done|]. by repeat split.
Qed.

Lemma unlock_refines me m o : me <> 0 -> is_mutex m o ->
  exists m', unlock me m = ((spec_unlock me o).1, m') /\ is_mutex m' (spec_unlock me o).2.
Proof.
  intros Hme [Hs Ho]. destruct m as [b w]. unfold unlock, checkSetOwnerBeforeUnlock, spec_unlock. cbn in *.
  case_decide as Hd; cbn.
  - subst o. destruct Ho as [Hh ->]. rewrite Z.eqb_refl. cbn.
    destruct (unlock_last b me Hs Hh) as (b' & -> & Hs' & Hh'). eexists. split; [done|]. by repeat split.
  - destruct (Z.eqb_spec w me) as [->|Hw]; cbn.
    + destruct o as [t|]; destruct Ho as [Hh Hw]; [naive_solver|lia].
    + eexists. split; [done|]. by repeat split.
Qed.

(** A guarded body leaves the mutex free, whether it returns or throws. *)
Lemma lock_guard_releases me m body :
  me <> 0 -> is_mutex m None -> (forall u, body <> Undefined u) -> body <> Blocked ->
  exists m', lock_guard me body m = (body, m') /\ is_mutex m' None.
Proof.
  intros Hme Hm Hu Hb. destruct (lock_refines me m None Hme Hm) as (m1 & E1 & Hm1); [done|]. cbn in E1, Hm1.
  destruct (unlock_refines me m1 (Some me) Hme Hm1) as (m2 & E2 & Hm2). unfold spec_unlock in E2, Hm2.
  rewrite decide_True in E2, Hm2 by done. cbn in E2, Hm2. exists m2. split; [|done].
  unfold lock_guard. rewrite E1. by destruct body; rewrite ?E2; naive_solver.
Qed.

End NonRec.

(** ** [timed_mutex] *)

Section Timed.
Context {H : Type} `{KernelMutexLaws H}.

Definition timed_mutex_try_lock_for (self : Z) (dur : duration) (m : NonRecursive H) : res bool (NonRecursive H) :=
  after_try self m (try_lock_for self dur (base m)).

Definition timed_mutex_try_lock_until (self : Z) (timeout_time now num den : Z) (m : NonRecursive H) :
    res bool (NonRecursive H) :=
  after_try self m (try_lock_until self timeout_time now num den (base m)).

End Timed.

(** C35: [std::mutex] and [std::timed_mutex] of the Windows build refine a plain
    mutex, for every base class that is a recursive lock: a thread that does not
    hold it locks it exactly when it is free and waits otherwise, [try_lock] says
    whether it was free, the holder unlocks it, and an [unlock] by another thread
    throws and changes nothing. *)
Theorem nonrecursive_refines_mutex {B} `{LockLaws B} me m o :
  me <> 0 -> is_mutex m o ->
  (o <> Some me ->
   (exists m', lock me m = ((spec_lock me o).1, m') /\ is_mutex m' (spec_lock me o).2) /\
   (exists m', try_lock me m = ((spec_try_lock me o).1, m') /\ is_mutex m' (spec_try_lock me o).2)) /\
  (exists m', unlock me m = ((spec_unlock me o).1, m') /\ is_mutex m' (spec_unlock me o).2).
Proof. split; [split|]; eauto using lock_refines, try_lock_refines, unlock_refines. Qed.

(** A recursive [lock] throws as it should but keeps the base class locked once
    more: after the holder's [unlock] the mutex claims to be free while every
    other thread waits for it for ever. *)
Theorem relock_leaks {B} `{LockLaws B} me other m :
  me <> 0 -> other <> me -> is_mutex m (Some me) ->
  exists m1 m2, lock me m = (Throw EDEADLK, m1) /\ unlock me m1 = (Ok tt, m2) /\ mOwnerThread m2 = 0 /\
    (lock other m2).1 = Blocked /\ (try_lock other m2).1 = Ok false.
Proof.
  intros Hme Hne [Hs [Hh Ho]]. destruct m as [b w]. cbn in *. subst w. unfold lock, unlock. cbn [base mOwnerThread].
  destruct (lock_again b me 1 Hs Hh) as (b1 & E1 & Hs1 & Hh1).
  destruct (unlock_more b1 me 0 Hs1 Hh1) as (b2 & E2 & Hs2 & Hh2). exists (NR b1 me), (NR b2 0).
  unfold checkSetOwnerAfterLock, checkSetOwnerBeforeUnlock, try_lock. cbn [base mOwnerThread]. rewrite E1, Z.eqb_refl.
  cbn [negb base]. rewrite E2, (lock_busy b2 other me 1), (try_busy b2 other me 1) by done. done.
Qed.

(** C36: a timed attempt on a mutex held by another thread fails when its timeout
    is at least zero and fewer than [INFINITE] (2^32 - 1) milliseconds. For every
    other duration the count is reduced modulo 2^32, and the call never returns
    exactly when the result is [INFINITE]: for 2^32 - 1 milliseconds and for minus
    one, which is what remains of a deadline that has just passed. *)
Theorem try_lock_for_bounds {H} `{KernelMutexLaws H} me t n h dur :
  km_holder h = Some (t, n) -> t <> me ->
  (0 <= milliseconds dur < INFINITE -> try_lock_for me dur h = (Ok false, h)) /\
  try_lock_for me dur h = ((if milliseconds dur mod 2 ^ 32 =? INFINITE then Blocked else Ok false), h) /\
  (milliseconds dur = INFINITE \/ milliseconds dur = -1 -> try_lock_for me dur h = (Blocked, h)) /\
  (forall now, try_lock_until me (now - 1) now 1 1000 h = (Blocked, h)).
Proof.
  intros Hh Hne.
  assert (Hw : forall d, try_lock_for me d h = ((if milliseconds d mod 2 ^ 32 =? INFINITE then Blocked else Ok false), h)).
  { intros d. unfold try_lock_for. pose proof (km_wait h me (u32 (milliseconds d))) as E.
    rewrite Hh, decide_False in E by done. rewrite E. change (u32 (milliseconds d)) with (milliseconds d mod 2 ^ 32).
    by destruct (_ =? INFINITE). }
  split_and!; [|done| |].
  - intros Hd. rewrite Hw. unfold INFINITE in *. rewrite Z.mod_small by lia.
    by destruct (Z.eqb_spec (milliseconds dur) 4294967295); [lia|].
  - intros [E|E]; by rewrite Hw, E.
  - intros now. unfold try_lock_until. rewrite Hw. unfold milliseconds. cbn [ticks num den].
    by replace ((now - 1 - now) * 1 * 1000) with (-1000) by lia.
Qed.

(** [lock] of a kernel mutex whose holder ended throws and keeps it locked: other
    threads then wait for ever. *)
Theorem abandoned_leaks {H} `{KernelMutexLaws H} me other h :
  km_holder h = None -> km_abandoned h = true -> other <> me ->
  exists h', recursive_timed_mutex_lock me h = (Throw EOWNERDEAD, h') /\
    recursive_timed_mutex_lock other h' = (Blocked, h').
Proof.
  intros Hh Ha Hne. unfold recursive_timed_mutex_lock. pose proof (km_wait h me INFINITE) as E. rewrite Hh, Ha in E.
  destruct E as (h' & -> & Hh' & _). cbn. eexists. split; [done|].
  pose proof (km_wait h' other INFINITE) as E. rewrite Hh', decide_False in E by done. by rewrite E.
Qed.

(** ** A concrete Win32 *)

Module Sample.

(** The holder and how often it entered. *)
#[global] Instance cs : CriticalSection (option (Z * nat)) := {|
  InitializeCriticalSection := None;
  EnterCriticalSection me c :=
    match c with
    | None => Some (Some (me, 1%nat))
    | Some (t, n) => if decide (t = me) then Some (Some (me, S n)) else None
    end;
  LeaveCriticalSection me c :=
    match c with Some (t, S (S n)) => Some (t, S n) | _ => None end;
  TryEnterCriticalSection me c :=
    match c with
    | None => (1, Some (me, 1%nat))
    | Some (t, n) => if decide (t = me) then (1, Some (me, S n)) else (0, c)
    end
|}.

#[global, refine] Instance cs_laws : CriticalSectionLaws (option (Z * nat)) := {| cs_holder := fun c => c |}.
Proof.
  - done.
  - intros [[t n]|] me; cbn; [case_decide|]; eauto.
  - intros [[t n]|] me; cbn; [case_decide|]; eauto.
  - intros c me n ->. by destruct n.
Defined.

(** The holder, and whether the last one ended without releasing. *)
#[global] Instance km : KernelMutex (option (Z * nat) * bool) := {|
  CreateMutex := (None, false);
  WaitForMutex me timeout h :=
    match h with
    | (None, a) => Some (if a then WAIT_ABANDONED else WAIT_OBJECT_0, (Some (me, 1%nat), false))
    | (Some (t, n), a) =>
        if decide (t = me) then Some (WAIT_OBJECT_0, (Some (me, S n), a))
        else if timeout =? INFINITE then None else Some (WAIT_TIMEOUT, h)
    end;
  ReleaseMutex me h :=
    match h with
    | (Some (t, S n), a) =>
        if decide (t = me) then (true, (match n with O => None | S _ => Some (me, n) end, a)) else (false, h)
    | _ => (false, h)
    end
|}.

#[global, refine] Instance km_laws : KernelMutexLaws (option (Z * nat) * bool) :=
  {| km_holder := fst; km_abandoned := snd |}.
Proof.
  - done.
  - intros [[[t n]|] a] me timeout; cbn; [case_decide|]; eauto.
  - intros [[[t [|n]]|] a] me; cbn; [|case_decide|]; eauto.
Defined.

End Sample.

Lemma nonrecursive_refines_mutex_witness :
  exists m', lock 7 (nonrecursive_new InitializeCriticalSection) = (Ok tt, m') /\ is_mutex m' (Some 7).
Proof.
  assert (Hm : is_mutex (nonrecursive_new (InitializeCriticalSection : option (Z * nat))) None) by done.
  exact (proj1 (proj1 (nonrecursive_refines_mutex 7 _ None ltac:(lia) Hm) ltac:(done))).
Defined.

Lemma relock_leaks_witness :
  exists m1 m2, lock 7 (NR (Some (7, 1%nat)) 7) = (Throw EDEADLK, m1) /\ unlock 7 m1 = (Ok tt, m2) /\
    (lock 8 m2).1 = Blocked.
Proof.
  assert (Hm : is_mutex (NR (Some (7, 1%nat)) 7) (Some 7)) by done.
  destruct (relock_leaks 7 8 _ ltac:(lia) ltac:(lia) Hm) as (m1 & m2 & H1 & H2 & _ & H3 & _).
  exists m1, m2. split; [exact H1|]. split; [exact H2|exact H3].
Defined.

Lemma try_lock_for_bounds_witness :
  try_lock_for 7 (Duration 250 1 1000) (Some (8, 1%nat), false) = (Ok false, (Some (8, 1%nat), false)) /\
  try_lock_until 7 99 100 1 1000 (Some (8, 1%nat), false) = (Blocked, (Some (8, 1%nat), false)).
Proof.
  destruct (@try_lock_for_bounds _ Sample.km Sample.km_laws 7 8 1 (Some (8, 1%nat), false) (Duration 250 1 1000) eq_refl ltac:(lia)) as (H1 & _ & _ & H3).
  split; [apply H1; vm_compute; by split|exact (H3 100)].
Defined.

End WinMutex.
