(* ===== verification/WinThread.v ===== *)
(** * Threads of the Windows build: [mingw-thread-fix/mingw.thread.h]

    [std::thread] as an object that owns a kernel handle: construction, move,
    assignment, [swap], [join], [detach] and destruction over a store of thread
    objects and the table of open handles.  [_beginthreadex] is a parameter of
    each construction (the handle and id it returns, or an error number). *)

From stdpp Require Import list sets.
From S2P Require Import Prelude WinMutex.
Open Scope Z_scope.

Module WinThread.

Definition INVALID : Z := 0.

Record thread := Thread { mHandle : Z; mThreadId : Z }.

#[global] Instance thread_eq_dec : EqDecision thread.
Proof. solve_decision. Defined.

(** The thread objects of the program ([None] once destroyed), the handles that
    are open, and the threads that have ended, by handle. *)
Record store := Store { objs : list (option thread); open : list Z; ended : list Z }.

Definition joinable (t : thread) : bool := negb (mHandle t =? INVALID).

(** [thread()] *)
Definition empty_thread : thread := Thread INVALID 0.

Definition terminate : exn := logic_error "terminate called".
Definition errno (what : string) : exn := system_error what.

Definition obj (s : store) (p : nat) : outcome thread :=
  match mjoin (objs s !! p) with Some t => Ok t | None => Undefined UseAfterFree end.

Definition put (p : nat) (t : thread) (s : store) : store := Store (<[p := Some t]> (objs s)) (open s) (ended s).

(** [CloseHandle] of a handle that is not open is an error of the program. *)
Definition CloseHandle (h : Z) (s : store) : outcome store :=
  if decide (h ∈ open s) then Ok (Store (objs s) (filter (fun x => x <> h) (open s)) (ended s))
  else Undefined DoubleFree.

(** [thread()]: a new object. *)
Definition default_construct (s : store) : outcome store := Ok (Store (objs s ++ [Some empty_thread]) (open s) (ended s)).

(** [thread(f, args...)]: [started] is what [_beginthreadex] gives, the new
    handle and the thread's id, or [None] for the handle 0.  In that case the
    constructor throws and there is no object. *)
Definition construct (started : option (Z * Z)) (s : store) : outcome store :=
  match started with
  | Some (h, tid) =>
      if h =? INVALID then Throw (errno "errno")
      else Ok (Store (objs s ++ [Some (Thread h tid)]) (h :: open s) (ended s))
  | None => Throw (errno "errno")
  end.

(** [thread(thread &&other)] *)
Definition move_construct (other : nat) (s : store) : outcome store :=
  o ← obj s other;
  let s := put other (Thread INVALID 0) s in
  Ok (Store (objs s ++ [Some (Thread (mHandle o) (mThreadId o))]) (open s) (ended s)).

(** [swap(thread &&other)], also when both are the same object. *)
Definition swap (this other : nat) (s : store) : outcome store :=
  t ← obj s this; o ← obj s other;
  let s := put this (Thread (mHandle o) (mThreadId o)) s in
  Ok (put other (Thread (mHandle t) (mThreadId t)) s).

(** [operator=(thread &&other)] *)
Definition move_assign (this other : nat) (s : store) : outcome store :=
  t ← obj s this;
  if joinable t then Throw terminate else swap this other s.

(** [join()] by the thread with id [self]; it waits until the thread has ended. *)
Definition join (self : Z) (this : nat) (s : store) : outcome store :=
  t ← obj s this;
  if mThreadId t =? self then Throw (errno "EDEADLK")
  else if mHandle t =? INVALID then Throw (errno "ESRCH")
  else if negb (joinable t) then Throw (errno "EINVAL")
  else if decide (mHandle t ∈ ended s) then
    s ← CloseHandle (mHandle t) s;
    Ok (put this (Thread INVALID 0) s)
  else Blocked.

(** [detach()] *)
Definition detach (this : nat) (s : store) : outcome store :=
  t ← obj s this;
  if negb (joinable t) then Throw (errno "EINVAL")
  else
    s ← (if negb (mHandle t =? INVALID) then
           s ← CloseHandle (mHandle t) s;
           Ok (put this (Thread INVALID (mThreadId t)) s)
         else Ok s);
    t ← obj s this;
    Ok (put this (Thread (mHandle t) 0) s).

(** [~thread()] *)
Definition destroy (this : nat) (s : store) : outcome store :=
  t ← obj s this;
  if joinable t then Throw terminate else Ok (Store (<[this := None]> (objs s)) (open s) (ended s)).

(** ** Operations and runs *)

Inductive op :=
| Default | Construct (started : option (Z * Z)) | MoveConstruct (other : nat)
| Swap (this other : nat) | MoveAssign (this other : nat)
| Join (self : Z) (this : nat) | Detach (this : nat) | Destroy (this : nat)
| Ends (h : Z).  (** the thread with this handle ends *)

Definition exec (o : op) (s : store) : outcome store :=
  match o with
  | Default => default_construct s
  | Construct st => construct st s
  | MoveConstruct p => move_construct p s
  | Swap p q => swap p q s
  | MoveAssign p q => move_assign p q s
  | Join self p => join self p s
  | Detach p => detach p s
  | Destroy p => destroy p s
  | Ends h => Ok (Store (objs s) (open s) (h :: ended s))
  end.

(** [_beginthreadex] returns a handle that is not open. *)
Definition fresh_start (o : op) (s : store) : Prop :=
  match o with Construct (Some (h, _)) => h ∉ open s | _ => True end.

#[global] Instance fresh_start_dec o s : Decision (fresh_start o s).
Proof. destruct o as [| [[h t]|] | | | | | | |]; cbn; apply _. Defined.

(** An exception leaves the objects as they were; undefined behaviour, a call
    that waits and [std::terminate] end the run. *)
Fixpoint run (ops : list op) (s : store) : outcome store :=
  match ops with
  | [] => Ok s
  | o :: ops =>
      if decide (fresh_start o s) then
        match exec o s with
        | Ok s' => run ops s'
        | Throw e => if decide (e = terminate) then Throw terminate else run ops s
        | Undefined u => Undefined u
        | Blocked => Blocked
        end
      else Blocked
  end.

Definition start : store := Store [] [] [].

(** ** The invariant: handles have exactly one owner *)

Definition owned1 (o : option thread) : list Z :=
  match o with Some t => if mHandle t =? INVALID then [] else [mHandle t] | None => [] end.
Definition owned (s : store) : list Z := objs s ≫= owned1.

Record inv (s : store) : Prop := {
  inv_owned : owned s ≡ₚ open s;
  inv_nodup : NoDup (open s);
  inv_id : forall p t, obj s p = Ok t -> mHandle t = INVALID -> mThreadId t = 0
}.

Lemma obj_ok s p t : obj s p = Ok t <-> objs s !! p = Some (Some t).
Proof.
  unfold obj. destruct (objs s !! p) as [[u|]|]; cbn; split; intros H; try done; by injection H as ->.
Qed.

Lemma obj_put s p t t' q : obj s p = Ok t -> obj (put p t' s) q = if decide (q = p) then Ok t' else obj s q.
Proof.
  rewrite obj_ok. intros Hp%lookup_lt_Some. unfold obj, put. cbn. case_decide as Hq.
  - subst. by rewrite list_lookup_insert_eq.
  - by rewrite list_lookup_insert_ne.
Qed.

(** Replacing an object exchanges what it owns. *)
Lemma owned_insert (l : list (option thread)) p o o' : l !! p = Some o ->
  (<[p := o']> l ≫= owned1) ++ owned1 o ≡ₚ (l ≫= owned1) ++ owned1 o'.
Proof.
  intros Hp. rewrite (insert_take_drop l p o') by (by eapply lookup_lt_Some).
  assert (E : l ≫= owned1 = (take p l ++ o :: drop (S p) l) ≫= owned1) by (by rewrite take_drop_middle).
  rewrite E, !bind_app, !bind_cons. solve_Permutation.
Qed.

Lemma owned_put s p t t' : obj s p = Ok t ->
  owned (put p t' s) ++ owned1 (Some t) ≡ₚ owned s ++ owned1 (Some t').
Proof. rewrite obj_ok. apply owned_insert. Qed.

Lemma owned_open s p t : inv s -> obj s p = Ok t -> mHandle t <> INVALID -> mHandle t ∈ open s.
Proof.
  intros [H1 _ _] Hp Hh. rewrite <- H1. rewrite obj_ok in Hp. unfold owned.
  apply list_elem_of_bind. exists (Some t). split; [|by eapply list_elem_of_lookup_2].
  cbn. rewrite (proj2 (Z.eqb_neq _ _) Hh). set_solver.
Qed.

Lemma filter_out (l : list Z) h : NoDup l -> h ∈ l -> filter (fun x => x <> h) l ++ [h] ≡ₚ l.
Proof.
  intros Hn Hh. apply NoDup_Permutation; [|done|].
  - apply NoDup_app. split_and!; [by apply NoDup_filter| |apply NoDup_singleton].
    intros x [Hx _]%list_elem_of_filter. set_solver.
  - intros x. rewrite elem_of_app, list_elem_of_filter, list_elem_of_singleton. destruct (decide (x = h)); naive_solver.
Qed.

(** Closing the handle of an object and clearing the object. *)
Lemma close_clear s p t :
  inv s -> obj s p = Ok t -> mHandle t <> INVALID ->
  exists s1, CloseHandle (mHandle t) s = Ok s1 /\ objs s1 = objs s /\ inv (put p (Thread INVALID 0) s1).
Proof.
  intros Hs Hp Hh. pose proof (owned_open s p t Hs Hp Hh) as Hin. destruct Hs as [H1 H2 H3].
  unfold CloseHandle. rewrite decide_True by done. eexists. split; [done|]. split; [done|]. split.
  - pose proof (owned_put s p t (Thread INVALID 0) Hp) as Ho. cbn [owned1] in Ho.
    rewrite (proj2 (Z.eqb_neq _ _) Hh) in Ho. cbn in Ho. rewrite app_nil_r in Ho.
    apply (Permutation_app_inv_r [mHandle t]). cbn [open put]. rewrite filter_out by done.
    unfold owned in *. cbn [objs put] in *. by rewrite Ho.
  - by apply NoDup_filter.
  - intros q u. change (obj (put p (Thread INVALID 0) s) q = Ok u -> mHandle u = INVALID -> mThreadId u = 0).
    rewrite (obj_put s p t _ q Hp). case_decide; [by intros [= <-]|apply H3].
Qed.

Lemma put_twice s p t t' : put p t' (put p t s) = put p t' s.
Proof. unfold put. cbn. by rewrite list_insert_insert_eq. Qed.

Lemma inv_new s t h :
  inv s -> owned1 (Some t) ≡ₚ h -> NoDup (h ++ open s) -> (mHandle t = INVALID -> mThreadId t = 0) ->
  inv (Store (objs s ++ [Some t]) (h ++ open s) (ended s)).
Proof.
  intros [H1 H2 H3] Ho Hn Hi. split; [|done|].
  - unfold owned. cbn [objs open]. rewrite bind_app. change (objs s ≫= owned1) with (owned s). rewrite bind_cons.
    change (@nil (option thread) ≫= owned1) with (@nil Z). rewrite app_nil_r, H1, Ho. apply Permutation_app_comm.
  - intros p u. rewrite obj_ok. cbn. rewrite lookup_app. destruct (objs s !! p) as [o|] eqn:E.
    + intros [= ->]. apply H3 with p. by rewrite obj_ok.
    + destruct (p - length (objs s))%nat; cbn; [by intros [= <-]|done].
Qed.

Lemma swap_ok s p q s' : inv s -> swap p q s = Ok s' -> inv s'.
Proof.
  intros [H1 H2 H3]. unfold swap. destruct (obj s p) as [t| | |] eqn:Hp; try done.
  destruct (obj s q) as [o| | |] eqn:Hq; try done. run_ok. intros [= <-].
  assert (Et : Thread (mHandle t) (mThreadId t) = t) by (by destruct t).
  assert (Eo : Thread (mHandle o) (mThreadId o) = o) by (by destruct o). rewrite Et, Eo.
  assert (Hq1 : obj (put p o s) q = Ok o) by (rewrite (obj_put s p t o q Hp); by case_decide).
  split; [|done|].
  - pose proof (owned_put s p t o Hp) as A1. pose proof (owned_put (put p o s) q o t Hq1) as A2.
    cbn [open put]. rewrite <- H1. apply (Permutation_app_inv_r (owned1 (Some o))).
    rewrite A2. exact A1.
  - intros r u. rewrite (obj_put _ q o t r Hq1). case_decide; [by intros [= <-]; apply (H3 p)|].
    rewrite (obj_put s p t o r Hp). case_decide; [by intros [= <-]; apply (H3 q)|apply H3].
Qed.

Lemma obj_cases s p : (exists t, obj s p = Ok t) \/ obj s p = Undefined UseAfterFree.
Proof. unfold obj. destruct (mjoin (objs s !! p)); eauto. Qed.

(** The outcome of an operation that keeps the invariant and closes no handle
    that is not open. *)
Definition good (r : outcome store) : Prop :=
  match r with Ok s' => inv s' | Undefined u => u = UseAfterFree | _ => True end.

Lemma move_construct_ok s p : inv s -> good (move_construct p s).
Proof.
  intros [H1 H2 H3]. unfold move_construct. destruct (obj_cases s p) as [[t Hp]| ->]; [|done]. rewrite Hp. run_ok. cbn.
  assert (Et : Thread (mHandle t) (mThreadId t) = t) by (by destruct t). rewrite Et.
  pose proof (owned_put s p t (Thread INVALID 0) Hp) as Ho. unfold owned in Ho. cbn [objs put] in Ho.
  change (owned1 (Some (Thread INVALID 0))) with (@nil Z) in Ho. rewrite app_nil_r in Ho.
  split; [|done|].
  - unfold owned. cbn [objs open]. rewrite bind_app, bind_cons. change (@nil (option thread) ≫= owned1) with (@nil Z).
    rewrite app_nil_r, Ho. exact H1.
  - intros q u. rewrite obj_ok. cbn. rewrite lookup_app. destruct (<[p := Some (Thread INVALID 0)]> (objs s) !! q) as [o|] eqn:E.
    + intros [= ->]. assert (Hq : obj (put p (Thread INVALID 0) s) q = Ok u) by (by rewrite obj_ok).
      rewrite (obj_put s p t _ q Hp) in Hq. case_decide; [by injection Hq as <-|by apply (H3 q)].
    + destruct (q - length _)%nat; cbn; [intros [= <-]; by apply (H3 p)|done].
Qed.

Lemma join_ok self s p : inv s -> good (join self p s).
Proof.
  intros Hs. unfold join. destruct (obj_cases s p) as [[t Hp]| ->]; [|done]. rewrite Hp. run_ok.
  destruct (mThreadId t =? self); [done|]. destruct (Z.eqb_spec (mHandle t) INVALID) as [|Hh]; [done|].
  destruct (negb (joinable t)); [done|]. case_decide; [|done].
  destruct (close_clear s p t Hs Hp Hh) as (s1 & -> & _ & H1). run_ok. exact H1.
Qed.

Lemma detach_ok s p : inv s -> good (detach p s).
Proof.
  intros Hs. unfold detach. destruct (obj_cases s p) as [[t Hp]| ->]; [|done]. rewrite Hp. run_ok.
  unfold joinable. destruct (Z.eqb_spec (mHandle t) INVALID) as [|Hh]; [done|]. cbn [negb].
  destruct (close_clear s p t Hs Hp Hh) as (s1 & -> & Eo & H1). run_ok.
  assert (Hp1 : obj s1 p = Ok t) by (rewrite obj_ok in *; by rewrite Eo).
  rewrite (obj_put s1 p t _ p Hp1), decide_True by done. run_ok. cbn. by rewrite put_twice.
Qed.

Lemma destroy_ok s p : inv s -> good (destroy p s).
Proof.
  intros [H1 H2 H3]. unfold destroy. destruct (obj_cases s p) as [[t Hp]| ->]; [|done]. rewrite Hp. run_ok.
  unfold joinable. destruct (Z.eqb_spec (mHandle t) INVALID) as [Hh|]; [|done]. cbn.
  rewrite obj_ok in Hp. split; [|done|].
  - pose proof (owned_insert (objs s) p (Some t) None Hp) as Ho. cbn [owned1] in Ho. rewrite Hh in Ho. cbn in Ho.
    rewrite !app_nil_r in Ho. unfold owned. cbn [objs open]. by rewrite Ho.
  - intros q u. rewrite obj_ok. cbn. destruct (decide (q = p)) as [->|].
    + rewrite list_lookup_insert_eq by (by eapply lookup_lt_Some). done.
    + rewrite list_lookup_insert_ne by done. intros Hq. apply (H3 q). by rewrite obj_ok.
Qed.

Lemma swap_good s p q : inv s -> good (swap p q s).
Proof.
  intros Hs. destruct (swap p q s) as [s'| | |] eqn:E; cbn; try done; [by eapply swap_ok|].
  unfold swap in E. destruct (obj_cases s p) as [[t Hp]|Hp]; rewrite Hp in E; run_ok in E; [|by injection E as <-].
  destruct (obj_cases s q) as [[o Hq]|Hq]; rewrite Hq in E; run_ok in E; [done|by injection E as <-].
Qed.

(** Every operation keeps the invariant. *)
Lemma exec_good o s : inv s -> fresh_start o s -> good (exec o s).
Proof.
  intros Hs Hf. destruct o as [|[[h tid]|]|p|p q|p q|self p|p|p|h]; cbn [exec fresh_start] in *;
    auto using move_construct_ok, swap_good, join_ok, detach_ok, destroy_ok.
  - apply (inv_new s empty_thread []); try done. apply Hs.
  - unfold construct. destruct (Z.eqb_spec h INVALID) as [|Hh]; [done|].
    apply (inv_new s (Thread h tid) [h]); [done| | |done].
    + cbn. by rewrite (proj2 (Z.eqb_neq _ _) Hh).
    + cbn. apply NoDup_cons. split; [done|]. apply Hs.
  - unfold move_assign. destruct (obj_cases s p) as [[t Hp]| ->]; [|done]. rewrite Hp. run_ok.
    destruct (joinable t); [done|]. by apply swap_good.
  - destruct Hs as [H1 H2 H3]. by split.
Qed.

Lemma run_good ops s0 : inv s0 -> good (run ops s0).
Proof.
  revert s0. induction ops as [|o ops IH]; intros s0 Hs; cbn [run]; [done|]. case_decide as Hf; [|done].
  pose proof (exec_good o s0 Hs Hf) as Ho. destruct (exec o s0) as [s1|e|u|]; cbn in Ho; auto.
  case_decide; [done|]. by apply IH.
Qed.

Lemma start_inv : inv start.
Proof. split; [done|constructor|]. by intros [|p] t. Qed.

(** C37: whatever sequence of constructions, moves, assignments, swaps, joins,
    detachments and destructions a program makes, every open thread handle
    belongs to exactly one live object, and no handle is closed twice. *)
Theorem handles_owned_once ops :
  (forall s, run ops start = Ok s -> owned s ≡ₚ open s /\ NoDup (open s)) /\ run ops start <> Undefined DoubleFree.
Proof.
  pose proof (run_good ops start start_inv) as H. destruct (run ops start) as [s|e|u|]; cbn in H; split; try done.
  - intros s' [= <-]. by destruct H.
  - intros [= ->]. done.
Qed.

(** [join] of an object without a thread throws [ESRCH], whoever calls it; the
    last test of [join] is never reached. *)
Theorem join_empty ops s self p t :
  run ops start = Ok s -> self <> 0 -> obj s p = Ok t -> joinable t = false ->
  join self p s = Throw (errno "ESRCH").
Proof.
  intros Hr Hn Hp Hj. pose proof (run_good ops start start_inv) as H. rewrite Hr in H. destruct H as [_ _ H3].
  unfold joinable in Hj. destruct (Z.eqb_spec (mHandle t) INVALID) as [Hh|]; [|done].
  unfold join. rewrite Hp. run_ok. rewrite (H3 p t Hp Hh), Hh. by rewrite (proj2 (Z.eqb_neq 0 self)) by lia.
Qed.

(** ** [this_thread] and [hardware_concurrency] *)

(** The argument of [Sleep], a [DWORD]; its value [INFINITE] sleeps for ever. *)
Definition sleep_for (d : WinMutex.duration) : Z := u32 (WinMutex.milliseconds d).

Definition sleep_until (sleep_time now num den : Z) : Z :=
  sleep_for (WinMutex.Duration (sleep_time - now) num den).

(** A time point one millisecond ago puts the thread to sleep for ever; a time
    point in the next 49 days is waited for. *)
Theorem sleep_until_past now :
  sleep_until (now - 1) now 1 1000 = WinMutex.INFINITE /\
  (forall t, now <= t < now + WinMutex.INFINITE -> sleep_until t now 1 1000 = t - now).
Proof.
  unfold sleep_until, sleep_for, WinMutex.milliseconds, WinMutex.INFINITE. cbn [WinMutex.ticks WinMutex.num WinMutex.den].
  split.
  - by replace ((now - 1 - now) * 1 * 1000) with (-1000) by lia.
  - intros t Ht. rewrite Z.mul_1_r, Z.quot_mul by lia. apply u32_small. lia.
Qed.

(** The number of processors is asked for once and kept in the static [ncpus]. *)
Definition hardware_concurrency (dwNumberOfProcessors : Z) (ncpus : Z) : Z * Z :=
  let ncpus := if ncpus =? -1 then dwNumberOfProcessors else ncpus in (u32 ncpus, ncpus).

End WinThread.
