(* ===== verification/WinCond.v ===== *)
(** * Condition variables of the Windows build: [mingw-thread-fix/mingw.condition_variable.h]

    [std::condition_variable_any] as a system of threads that wait and notify:
    the inner mutex, the number of waiters, the semaphore the waiters sleep on
    and the event that tells a notifier of their progress.  Semaphores and
    events of Win32 are parameters with their documented behaviour as laws.
    The second part has the waits with a predicate and with a timeout. *)

From stdpp Require Import list sets.
From S2P Require Import Prelude WinMutex.
Open Scope Z_scope.

Module WinCond.

(** ** Win32 objects *)

(** A semaphore with a maximal count of [0xFFFF]: [ReleaseSemaphore] fails, which
    the code ignores, when the count would exceed it or is not increased;
    [sem_take] is a wait that is satisfied, [None] when it would have to wait. *)
Class KernelSemaphore (S : Type) := {
  CreateSemaphore : S;
  ReleaseSemaphore : Z -> S -> S;
  sem_take : S -> option S
}.

Class KernelSemaphoreLaws (S : Type) `{KernelSemaphore S} := {
  sem_count : S -> Z;
  sem_created : sem_count CreateSemaphore = 0;
  sem_released n s :
    sem_count (ReleaseSemaphore n s) =
      if (0 <? n) && (sem_count s + n <=? 65535) then sem_count s + n else sem_count s;
  sem_taken s :
    match sem_take s with
    | Some s' => 0 < sem_count s /\ sem_count s' = sem_count s - 1
    | None => sem_count s <= 0
    end
}.

(** An event that a satisfied wait resets. *)
Class KernelEvent (E : Type) := {
  CreateEvent : E;
  SetEvent : E -> E;
  event_wait : E -> bool * E
}.

(** ** Threads *)

(** In [wait_impl] with a timeout ([timed]) or [INFINITE]; in [notify_all] or
    [notify_one] ([all]). *)
Inductive pc :=
| Out                           (** in no member function *)
| Enter (timed : bool)          (** [{ lock_guard guard(mMutex); mNumWaiters++; }] *)
| UnlockUser (timed : bool)     (** [lock.unlock()] *)
| Sleeping (timed : bool)       (** [WaitForSingleObject(mSemaphore, timeout)] *)
| Leaving (r : bool)            (** [mNumWaiters--]; [r] says whether the semaphore was got *)
| Signal (r : bool)             (** [SetEvent(mWakeEvent)] *)
| Relock (r : bool)             (** [lock.lock()] *)
| NEnter (all : bool)           (** the constructor of [lock] *)
| NTest (all : bool)            (** the test of [mNumWaiters] *)
| NLoad                         (** [int targetWaiters = mNumWaiters.load() - 1;] *)
| NRelease (target : option Z)  (** [ReleaseSemaphore]: of one with a target, of [mNumWaiters] without *)
| NLoop (all : bool) (target : Z) (** [while(mNumWaiters > target)] *)
| NDrain                        (** [while(WaitForSingleObject(mSemaphore, 0) == WAIT_OBJECT_0);] *)
| NLeave.                       (** the destructor of [lock] *)

#[global] Instance pc_eq_dec : EqDecision pc.
Proof. solve_decision. Defined.

Section CondVar.
Context {S E : Type} `{KernelSemaphoreLaws S} `{KernelEvent E}.

(** [user]: the mutex the callers of [wait] hold. *)
Record sys := Sys {
  user : option nat;
  mMutex : option nat;
  mNumWaiters : Z;
  mSemaphore : S;
  mWakeEvent : E;
  threads : list pc
}.

(** [condition_variable_any()] and [n] threads. *)
Definition init_sys (n : nat) : sys := Sys None None 0 CreateSemaphore CreateEvent (replicate n Out).

Definition goto (i : nat) (c : pc) (s : sys) : sys :=
  Sys (user s) (mMutex s) (mNumWaiters s) (mSemaphore s) (mWakeEvent s) (<[i := c]> (threads s)).
Definition set_user (u : option nat) (s : sys) : sys :=
  Sys u (mMutex s) (mNumWaiters s) (mSemaphore s) (mWakeEvent s) (threads s).
Definition set_mutex (m : option nat) (s : sys) : sys :=
  Sys (user s) m (mNumWaiters s) (mSemaphore s) (mWakeEvent s) (threads s).
Definition set_waiters (n : Z) (s : sys) : sys :=
  Sys (user s) (mMutex s) n (mSemaphore s) (mWakeEvent s) (threads s).
Definition set_sem (x : S) (s : sys) : sys :=
  Sys (user s) (mMutex s) (mNumWaiters s) x (mWakeEvent s) (threads s).
Definition set_event (e : E) (s : sys) : sys :=
  Sys (user s) (mMutex s) (mNumWaiters s) (mSemaphore s) e (threads s).

(** One step of [wait_impl]; [None] when the thread has to wait. *)
Definition wait_step (i : nat) (c : pc) (s : sys) : option sys :=
  match c with
  | Enter timed =>
      match mMutex s with
      | None => Some (goto i (UnlockUser timed) (set_waiters (mNumWaiters s + 1) s))
      | Some _ => None
      end
  | UnlockUser timed => Some (goto i (Sleeping timed) (set_user None s))
  | Sleeping _ =>
      match sem_take (mSemaphore s) with
      | Some x => Some (goto i (Leaving true) (set_sem x s))
      | None => None
      end
  | Leaving r => Some (goto i (Signal r) (set_waiters (mNumWaiters s - 1) s))
  | Signal r => Some (goto i (Relock r) (set_event (SetEvent (mWakeEvent s)) s))
  | Relock _ =>
      match user s with
      | None => Some (goto i Out (set_user (Some i) s))
      | Some _ => None
      end
  | _ => None
  end.

(** One step of [notify_one] or [notify_all].  A round of the loop on
    [mWakeEvent] ends by the event or after a second; both look at
    [mNumWaiters] again. *)
Definition notify_step (i : nat) (c : pc) (s : sys) : option sys :=
  match c with
  | NEnter all =>
      match mMutex s with
      | None => Some (goto i (NTest all) (set_mutex (Some i) s))
      | Some _ => None
      end
  | NTest true => Some (goto i (if mNumWaiters s <=? 0 then NLeave else NRelease None) s)
  | NTest false => Some (goto i (if mNumWaiters s =? 0 then NLeave else NLoad) s)
  | NLoad => Some (goto i (NRelease (Some (mNumWaiters s - 1))) s)
  | NRelease None => Some (goto i (NLoop true 0) (set_sem (ReleaseSemaphore (mNumWaiters s) (mSemaphore s)) s))
  | NRelease (Some target) => Some (goto i (NLoop false target) (set_sem (ReleaseSemaphore 1 (mSemaphore s)) s))
  | NLoop all target =>
      if target <? mNumWaiters s
      then Some (set_event (event_wait (mWakeEvent s)).2 s)
      else Some (goto i (if all then NDrain else NLeave) s)
  | NDrain =>
      match sem_take (mSemaphore s) with
      | Some x => Some (set_sem x s)
      | None => Some (goto i NLeave s)
      end
  | NLeave => Some (goto i Out (set_mutex None s))
  | _ => None
  end.

(** Calls are made by threads that are in no member function; the caller of
    [wait] holds the user's mutex. *)
Inductive event :=
| LockMutex (i : nat) | UnlockMutex (i : nat)
| CallWait (i : nat) (timed : bool) | CallNotify (i : nat) (all : bool)
| Step (i : nat)
| Timeout (i : nat).  (** the timeout of a sleeping thread passes *)

#[global] Instance event_eq_dec : EqDecision event.
Proof. solve_decision. Defined.

Definition exec (ev : event) (s : sys) : option sys :=
  match ev with
  | LockMutex i =>
      match threads s !! i, user s with Some Out, None => Some (set_user (Some i) s) | _, _ => None end
  | UnlockMutex i =>
      match threads s !! i with
      | Some Out => if decide (user s = Some i) then Some (set_user None s) else None
      | _ => None
      end
  | CallWait i timed =>
      match threads s !! i with
      | Some Out => if decide (user s = Some i) then Some (goto i (Enter timed) s) else None
      | _ => None
      end
  | CallNotify i all => match threads s !! i with Some Out => Some (goto i (NEnter all) s) | _ => None end
  | Step i =>
      match threads s !! i with
      | Some c => match wait_step i c s with Some s' => Some s' | None => notify_step i c s end
      | None => None
      end
  | Timeout i => match threads s !! i with Some (Sleeping true) => Some (goto i (Leaving false) s) | _ => None end
  end.

Fixpoint run (evs : list event) (s : sys) : option sys :=
  match evs with
  | [] => Some s
  | ev :: evs => match exec ev s with Some s' => run evs s' | None => None end
  end.

(** ** The invariant of waits without a timeout *)

Definition untimed (ev : event) : bool := match ev with CallWait _ true | Timeout _ => false | _ => true end.

(** Between [mNumWaiters++] and [mNumWaiters--]; of these, past the semaphore. *)
Definition waiting (c : pc) : bool := match c with UnlockUser _ | Sleeping _ | Leaving _ => true | _ => false end.
Definition woken (c : pc) : bool := match c with Leaving _ => true | _ => false end.

Definition count (f : pc -> bool) (ts : list pc) : Z := Z.of_nat (length (filter (fun c => f c = true) ts)).

Lemma count_insert f ts i c c' : ts !! i = Some c ->
  count f (<[i := c']> ts) = count f ts - Z.b2z (f c) + Z.b2z (f c').
Proof.
  intros Hi. rewrite (insert_take_drop ts i c') by (by eapply lookup_lt_Some).
  assert (Ea : count f ts = count f (take i ts ++ c :: drop (Datatypes.S i) ts)) by (by rewrite take_drop_middle).
  rewrite Ea. unfold count. rewrite !filter_app, !filter_cons, !length_app.
  destruct (f c) eqn:Ec, (f c') eqn:Ec'; cbn; rewrite ?Ec, ?Ec'; repeat case_decide; try done; cbn [length Z.b2z]; lia.
Qed.

Definition holds (c : pc) : bool :=
  match c with NTest _ | NLoad | NRelease _ | NLoop _ _ | NDrain | NLeave => true | _ => false end.

(** What the notifier that holds the inner mutex knows. *)
Definition tokens (s : sys) (c : pc) : Prop :=
  match c with
  | NLoop all target =>
      sem_count (mSemaphore s) + count woken (threads s) = mNumWaiters s - target /\ 0 <= mNumWaiters s - target /\ 0 <= target
  | NLoad | NRelease None => sem_count (mSemaphore s) = 0 /\ count woken (threads s) = 0 /\ 0 < mNumWaiters s
  | NRelease (Some target) =>
      sem_count (mSemaphore s) = 0 /\ count woken (threads s) = 0 /\ 0 < mNumWaiters s /\ target = mNumWaiters s - 1
  | _ => sem_count (mSemaphore s) = 0 /\ count woken (threads s) = 0
  end.

Record inv (s : sys) : Prop := {
  inv_count : mNumWaiters s = count waiting (threads s);
  inv_holder : forall i c, threads s !! i = Some c -> holds c = true -> mMutex s = Some i;
  inv_free : mMutex s = None -> sem_count (mSemaphore s) = 0 /\ count woken (threads s) = 0;
  inv_tokens : forall i c, threads s !! i = Some c -> holds c = true -> tokens s c;
  inv_held : forall i, mMutex s = Some i -> exists c, threads s !! i = Some c /\ holds c = true;
  inv_few : Z.of_nat (length (threads s)) <= 65535;
  inv_sem : 0 <= sem_count (mSemaphore s)
}.

Lemma count_nonneg f ts : 0 <= count f ts.
Proof. unfold count. lia. Qed.

Lemma count_pos f ts i c : ts !! i = Some c -> f c = true -> 0 < count f ts.
Proof.
  intros Hi Hf. unfold count. assert (c ∈ filter (fun c => f c = true) ts) as Hin.
  { apply list_elem_of_filter. split; [done|]. by eapply list_elem_of_lookup_2. }
  destruct (filter _ ts); [by apply not_elem_of_nil in Hin|cbn; lia].
Qed.

Lemma count_le f ts : count f ts <= Z.of_nat (length ts).
Proof. unfold count. pose proof (length_filter (fun c => f c = true) ts). lia. Qed.

(** A step of a thread that neither holds the inner mutex nor gets it. *)
Lemma inv_other s i c c' s' :
  inv s -> threads s !! i = Some c -> holds c = false -> holds c' = false ->
  threads s' = <[i := c']> (threads s) -> mMutex s' = mMutex s ->
  mNumWaiters s' - mNumWaiters s = Z.b2z (waiting c') - Z.b2z (waiting c) ->
  0 <= sem_count (mSemaphore s') ->
  (mMutex s = None -> sem_count (mSemaphore s') = 0 /\ count woken (threads s') = 0) ->
  (forall d, holds d = true -> mMutex s <> None -> tokens s d -> tokens s' d) -> inv s'.
Proof.
  intros [I1 I2 I3 I4 I5 I6 I7] Hi Hc Hc' Et Em Hn Hs Hfree Htok.
  assert (Hold : forall j d, threads s' !! j = Some d -> holds d = true -> threads s !! j = Some d).
  { intros j d. rewrite Et. intros [(_ & -> & _)|[_ ?]]%list_lookup_insert_Some; [|done]. congruence. }
  split.
  - rewrite Et, (count_insert waiting _ i c c' Hi). lia.
  - intros j d Hj Hd. rewrite Em. eauto.
  - rewrite Em. done.
  - intros j d Hj Hd. apply Htok; [done| |by eauto]. intros Hm. rewrite (I2 j d) in Hm by eauto. done.
  - intros j. rewrite Em. intros (d & Hj & Hd)%I5. exists d. split; [|done]. rewrite Et.
    rewrite list_lookup_insert_ne; [done|]. intros ->. congruence.
  - by rewrite Et, length_insert.
  - done.
Qed.

(** A step of the thread that holds the inner mutex, or takes it when it is free. *)
Lemma inv_notifier s i c c' s' :
  inv s -> threads s !! i = Some c -> (holds c = true \/ mMutex s = None) -> waiting c = false -> woken c = false ->
  waiting c' = false -> woken c' = false -> threads s' = <[i := c']> (threads s) -> mNumWaiters s' = mNumWaiters s ->
  0 <= sem_count (mSemaphore s') ->
  (if holds c' then mMutex s' = Some i /\ tokens s' c'
   else mMutex s' = None /\ sem_count (mSemaphore s') = 0 /\ count woken (threads s') = 0) -> inv s'.
Proof.
  intros [I1 I2 I3 I4 I5 I6 I7] Hi Hc Hw1 Hw2 Hw3 Hw4 Et En Hs Hh.
  assert (Hothers : forall j d, threads s' !! j = Some d -> holds d = true -> j = i /\ d = c').
  { intros j d. rewrite Et. intros [(-> & -> & _)|[Hne Hj]]%list_lookup_insert_Some Hd; [done|].
    pose proof (I2 j d Hj Hd) as Hm. destruct Hc as [Hc|Hc]; [|congruence]. rewrite (I2 i c Hi Hc) in Hm. congruence. }
  assert (Hi' : threads s' !! i = Some c').
  { rewrite Et. apply list_lookup_insert_eq. by eapply lookup_lt_Some. }
  split.
  - rewrite Et, (count_insert waiting _ i c c' Hi), Hw1, Hw3. cbn. lia.
  - intros j d Hj Hd. destruct (Hothers j d Hj Hd) as [-> ->]. rewrite Hd in Hh. by destruct Hh.
  - destruct (holds c'); [|naive_solver]. destruct Hh as [-> _]. done.
  - intros j d Hj Hd. destruct (Hothers j d Hj Hd) as [-> ->]. rewrite Hd in Hh. by destruct Hh.
  - intros j Hj. destruct (holds c') eqn:Eh; destruct Hh as [Hm _]; rewrite Hm in Hj; [|done]. injection Hj as <-. eauto.
  - by rewrite Et, length_insert.
  - done.
Qed.

(** Counts after one thread moved. *)
Lemma woken_goto s i c c' :
  threads s !! i = Some c -> count woken (<[i := c']> (threads s)) = count woken (threads s) - Z.b2z (woken c) + Z.b2z (woken c').
Proof. apply count_insert. Qed.

Lemma tokens_same s s' d :
  sem_count (mSemaphore s') = sem_count (mSemaphore s) -> count woken (threads s') = count woken (threads s) ->
  mNumWaiters s' = mNumWaiters s -> tokens s d -> tokens s' d.
Proof. intros E1 E2 E3. unfold tokens. by rewrite E1, E2, E3. Qed.

(** A move of a thread that changes no count and no lock. *)
Lemma inv_move s i c c' s' :
  inv s -> threads s !! i = Some c -> holds c = false -> holds c' = false ->
  waiting c' = waiting c -> woken c' = woken c ->
  threads s' = <[i := c']> (threads s) -> mMutex s' = mMutex s -> mNumWaiters s' = mNumWaiters s ->
  mSemaphore s' = mSemaphore s -> inv s'.
Proof.
  intros Hs Hi Hc1 Hc2 Hw1 Hw2 Et Em En Es. pose proof Hs as [I1 I2 I3 I4 I5 I6 I7].
  assert (Ew : count woken (threads s') = count woken (threads s)) by (rewrite Et, (woken_goto s i c c' Hi), Hw2; lia).
  eapply (inv_other s i c c'); eauto; rewrite ?Es, ?Ew, ?Hw1; [lia|done|done|].
  intros d _ _. apply tokens_same; [by rewrite Es|done..].
Qed.

(** The moves of a waiter past the semaphore happen while a notifier loops. *)
Lemma awake_loops s d : holds d = true -> tokens s d -> 0 < sem_count (mSemaphore s) + count woken (threads s) ->
  exists all target, d = NLoop all target.
Proof. destruct d as [| | | | | | | | | |[]| | |]; cbn; intros Hh Ht Hp; try done; eauto; lia. Qed.

Lemma wait_step_ok s i c s' : inv s -> threads s !! i = Some c -> wait_step i c s = Some s' -> inv s'.
Proof.
  intros Hs Hi Hstep. pose proof Hs as [I1 I2 I3 I4 I5 I6 I7].
  pose proof (count_nonneg woken (threads s)) as Hw. destruct c as [|b|b|b|r|r|r| | | | | | | ]; cbn in Hstep; try done.
  - destruct (mMutex s) eqn:Em; [done|]. injection Hstep as <-. destruct (I3 eq_refl) as [F1 F2].
    eapply (inv_other s i _ (UnlockUser b)); eauto; cbn; [lia| |].
    + intros _. rewrite (woken_goto s i _ (UnlockUser b) Hi). cbn. lia.
    + intros d Hd Hm. done.
  - injection Hstep as <-. by eapply (inv_move s i (UnlockUser b) (Sleeping b)).
  - pose proof (sem_taken (mSemaphore s)) as Ht. destruct (sem_take (mSemaphore s)) as [x|]; [|done]. injection Hstep as <-.
    destruct Ht as [T1 T2]. eapply (inv_other s i _ (Leaving true)); eauto; cbn; [lia|lia| |].
    + intros Em. destruct (I3 Em). lia.
    + intros d Hd _ Htd. destruct (awake_loops s d Hd Htd) as (all & target & ->); [lia|]. cbn in *.
      rewrite (woken_goto s i _ (Leaving true) Hi). cbn. lia.
  - injection Hstep as <-. pose proof (count_pos woken (threads s) i _ Hi eq_refl) as Hp.
    eapply (inv_other s i _ (Signal r)); eauto; cbn; [lia| |].
    + intros Em. destruct (I3 Em). lia.
    + intros d Hd _ Htd. destruct (awake_loops s d Hd Htd) as (all & target & ->); [lia|]. cbn in *.
      rewrite (woken_goto s i _ (Signal r) Hi). cbn. lia.
  - injection Hstep as <-. by eapply (inv_move s i (Signal r) (Relock r)).
  - destruct (user s); [done|]. injection Hstep as <-. by eapply (inv_move s i (Relock r) Out).
Qed.

(** Steps that keep everything but the event. *)
Lemma inv_event s e : inv s -> inv (set_event e s).
Proof. intros [I1 I2 I3 I4 I5 I6 I7]. by split. Qed.

(** A step of a notifier that goes on at [c']. *)
Ltac notifier Hs Hi c' :=
  apply (inv_notifier _ _ _ c' _ Hs Hi); [first [by left|by right]|done|done|done|done|done|done| |]; cbn.

Lemma notify_step_ok s i c s' : inv s -> threads s !! i = Some c -> notify_step i c s = Some s' -> inv s'.
Proof.
  intros Hs Hi Hstep. pose proof Hs as [I1 I2 I3 I4 I5 I6 I7].
  assert (Hwk : forall c', woken c = false -> woken c' = false ->
            count woken (<[i := c']> (threads s)) = count woken (threads s)).
  { intros c' E1 E2. rewrite (woken_goto s i c c' Hi), E1, E2. cbn. lia. }
  pose proof (count_nonneg waiting (threads s)) as Hn. pose proof (count_nonneg woken (threads s)) as Hn'.
  pose proof (count_le waiting (threads s)) as Hle. pose proof (I4 i c Hi) as Ht. pose proof (I2 i c Hi) as Hm.
  destruct c as [|b|b|b|r|r|r|all|[]| |[target|]|all target| |]; cbn in Hstep; try done; cbn in Ht, Hm;
    try (specialize (Ht eq_refl); specialize (Hm eq_refl)).
  - destruct (mMutex s) eqn:Em; [done|]. injection Hstep as <-. destruct (I3 eq_refl) as [F1 F2].
    notifier Hs Hi (NTest all); [done|]. rewrite Hwk by done. by destruct all.
  - injection Hstep as <-. destruct Ht as [T1 T2]. destruct (Z.leb_spec (mNumWaiters s) 0).
    + notifier Hs Hi NLeave; [done|]. by rewrite Hwk.
    + notifier Hs Hi (NRelease None); [done|]. by rewrite Hwk.
  - injection Hstep as <-. destruct Ht as [T1 T2]. destruct (Z.eqb_spec (mNumWaiters s) 0).
    + notifier Hs Hi NLeave; [done|]. by rewrite Hwk.
    + notifier Hs Hi NLoad; [done|]. rewrite Hwk by done. split_and!; try done. lia.
  - injection Hstep as <-. notifier Hs Hi (NRelease (Some (mNumWaiters s - 1))); [done|]. rewrite Hwk by done. naive_solver.
  - injection Hstep as <-. pose proof (sem_released 1 (mSemaphore s)) as Hr. destruct Ht as (T1 & T2 & T3 & T4).
    rewrite T1 in Hr. change ((0 <? 1) && (0 + 1 <=? 65535)) with true in Hr. cbv iota in Hr.
    notifier Hs Hi (NLoop false target); [lia|]. rewrite Hwk by done. split; [done|]. lia.
  - injection Hstep as <-. pose proof (sem_released (mNumWaiters s) (mSemaphore s)) as Hr. destruct Ht as (T1 & T2 & T3).
    rewrite T1 in Hr. destruct (Z.ltb_spec 0 (mNumWaiters s)); [|lia].
    destruct (Z.leb_spec (0 + mNumWaiters s) 65535); [|lia]. cbn [andb] in Hr. cbv iota in Hr.
    notifier Hs Hi (NLoop true 0); [lia|]. rewrite Hwk by done. split; [done|]. lia.
  - destruct (Z.ltb_spec target (mNumWaiters s)); injection Hstep as <-; [by apply inv_event|]. destruct all.
    + notifier Hs Hi NDrain; [done|]. rewrite Hwk by done. split; [done|lia].
    + notifier Hs Hi NLeave; [done|]. rewrite Hwk by done. split; [done|lia].
  - pose proof (sem_taken (mSemaphore s)) as Hx. destruct (sem_take (mSemaphore s)) as [x|]; injection Hstep as <-; [lia|].
    notifier Hs Hi NLeave; [done|]. by rewrite Hwk.
  - injection Hstep as <-. notifier Hs Hi Out; [done|]. by rewrite Hwk.
Qed.

Lemma exec_inv s ev s' : inv s -> untimed ev = true -> exec ev s = Some s' -> inv s'.
Proof.
  intros Hs Hu. destruct ev as [i|i|i timed|i all|i|i]; cbn in *; try done.
  - destruct (threads s !! i) as [[]|]; try done. destruct (user s); [done|]. intros [= <-].
    destruct Hs as [I1 I2 I3 I4 I5 I6 I7]. by split.
  - destruct (threads s !! i) as [[]|]; try done. case_decide; [|done]. intros [= <-].
    destruct Hs as [I1 I2 I3 I4 I5 I6 I7]. by split.
  - destruct (threads s !! i) as [[]|] eqn:Hi; try done. case_decide; [|done]. intros [= <-].
    by eapply (inv_move s i Out (Enter timed)).
  - destruct (threads s !! i) as [[]|] eqn:Hi; try done. intros [= <-]. by eapply (inv_move s i Out (NEnter all)).
  - destruct (threads s !! i) as [c|] eqn:Hi; [|done]. destruct (wait_step i c s) as [s1|] eqn:E1.
    + intros [= <-]. by eapply wait_step_ok.
    + by eapply notify_step_ok.
Qed.

Lemma run_ok_inv evs s s' : inv s -> Forall (fun ev => untimed ev = true) evs -> run evs s = Some s' -> inv s'.
Proof.
  revert s. induction evs as [|ev evs IH]; intros s Hs Hu; cbn [run]; [by intros [= <-]|].
  apply Forall_cons in Hu as [Hu1 Hu2]. destruct (exec ev s) as [s1|] eqn:E1; [|done].
  apply IH; [by eapply exec_inv|done].
Qed.

Lemma count_out f n : f Out = false -> count f (replicate n Out) = 0.
Proof. intros Hf. unfold count. induction n; cbn; [done|]. rewrite Hf. done. Qed.

Lemma init_inv n : Z.of_nat n <= 65535 -> inv (init_sys n).
Proof.
  intros Hn. split; cbn.
  - by rewrite count_out.
  - intros i c [-> _]%lookup_replicate. done.
  - intros _. by rewrite sem_created, count_out.
  - intros i c [-> _]%lookup_replicate. done.
  - done.
  - by rewrite length_replicate.
  - by rewrite sem_created.
Qed.

(** Some thread satisfies [f] when their number is positive. *)
Lemma count_exists f ts : 0 < count f ts -> exists j c, ts !! j = Some c /\ f c = true.
Proof.
  unfold count. intros Hp. destruct (filter (fun c => f c = true) ts) as [|c l] eqn:Ef; [cbn in Hp; lia|].
  assert (Hin : c ∈ filter (fun c => f c = true) ts) by (rewrite Ef; set_solver).
  apply list_elem_of_filter in Hin as [Hf [j Hj]%list_elem_of_lookup]. eauto.
Qed.

(** While a notifier loops and not enough waiters have left, one of them can go on. *)
Lemma waiter_moves s all target i :
  inv s -> threads s !! i = Some (NLoop all target) -> target < mNumWaiters s ->
  exists j c s', threads s !! j = Some c /\ waiting c = true /\ exec (Step j) s = Some s'.
Proof.
  intros [I1 I2 I3 I4 I5 I6 I7] Hi Hlt. destruct (I4 i _ Hi eq_refl) as (T1 & T2 & T3).
  destruct (decide (0 < count woken (threads s))) as [Hw|Hw].
  - destruct (count_exists woken _ Hw) as (j & c & Hj & Hc). destruct c; try done.
    exists j. eexists _, _. split; [done|]. split; [done|]. cbn. by rewrite Hj.
  - destruct (count_exists waiting (threads s)) as (j & c & Hj & Hc); [lia|].
    destruct c as [|b|b|b|r|r|r| | | | | | | ]; try done; exists j; cbn; rewrite Hj.
    + eexists _, _. by split_and!.
    + pose proof (sem_taken (mSemaphore s)) as Hx. cbn [wait_step]. destruct (sem_take (mSemaphore s)); [|lia].
      eexists _, _. by split_and!.
    + eexists _, _. by split_and!.
Qed.

(** [mNumWaiters] counts the waiters, with timeouts too. *)
Lemma exec_count s ev s' :
  mNumWaiters s = count waiting (threads s) -> exec ev s = Some s' -> mNumWaiters s' = count waiting (threads s').
Proof.
  intros Hn. destruct ev as [i|i|i timed|i all|i|i]; cbn [exec]; destruct (threads s !! i) as [c|] eqn:Hi; try done;
    destruct c as [|b|b|b|r|r|r|al|[]| |[target|]|al target| |]; cbn [wait_step notify_step]; try done;
    repeat case_match; intros; simplify_eq; cbn; rewrite ?(count_insert waiting _ i _ _ Hi); cbn; rewrite <- Hn; lia.
Qed.

(** Another thread's step does not move thread [j]. *)
Lemma exec_other s ev s' j c :
  exec ev s = Some s' -> threads s !! j = Some c -> c <> Out -> ev <> Step j -> (forall b, c <> Sleeping b) ->
  threads s' !! j = Some c.
Proof.
  intros He Hj Hc Hne Hs.
  assert (Hins : forall i d, i <> j -> <[i := d]> (threads s) !! j = Some c) by (intros; by rewrite list_lookup_insert_ne).
  destruct ev as [i|i|i timed|i all|i|i]; cbn [exec] in He; (destruct (decide (i = j)) as [->|Hij]; [|specialize (Hins i)]);
    try (rewrite Hj in He; destruct c; first [done|by destruct Hne|by destruct (Hs _ eq_refl)]);
    destruct (threads s !! i) as [d|]; try done.
  - destruct d; try done. destruct (user s); by simplify_eq.
  - destruct d; try done. case_decide; by simplify_eq.
  - destruct d; try done. case_decide; simplify_eq. by apply Hins.
  - destruct d; try done. simplify_eq. by apply Hins.
  - destruct d as [|b|b|b|r|r|r|al|[]| |[target|]|al target| |]; cbn in He; repeat case_match; simplify_eq; cbn; auto.
  - destruct d as [| | |[]| | | | | | | | | |]; try done. simplify_eq. by apply Hins.
Qed.

(** A notifier whose target is negative loops for ever, and keeps the inner mutex. *)
Lemma negative_target_loops evs s s' j target :
  mNumWaiters s = count waiting (threads s) -> target < 0 -> threads s !! j = Some (NLoop false target) ->
  run evs s = Some s' -> threads s' !! j = Some (NLoop false target).
Proof.
  revert s. induction evs as [|ev evs IH]; intros s Hn Ht Hj; cbn [run]; [by intros [= <-]|].
  destruct (exec ev s) as [s1|] eqn:Ex; [|done]. pose proof (exec_count s ev s1 Hn Ex) as Hn1. apply IH; [done..|].
  destruct (decide (ev = Step j)) as [->|Hne].
  - cbn in Ex. rewrite Hj in Ex. cbn in Ex. pose proof (count_nonneg waiting (threads s)).
    destruct (Z.ltb_spec target (mNumWaiters s)); [|lia]. by simplify_eq.
  - by eapply exec_other.
Qed.

(** A timed wait that expires between the test of [notify_one] and its second
    reading of [mNumWaiters]. *)
Definition hang_run : list event :=
  [LockMutex 0; CallWait 0 true; Step 0; Step 0; CallNotify 1 false; Step 1; Step 1; Timeout 0; Step 0; Step 1; Step 1].

End CondVar.

(** C38: without timeouts, a condition variable has no stale wake-ups and its
    notifications are exact: whenever no notification is in progress the
    semaphore is at zero and nobody is about to leave, and a notifier in its
    loop either has woken exactly the waiters it meant to, or some waiter can
    make a step. *)
Theorem notify_exact {S E} `{KernelSemaphoreLaws S} `{KernelEvent E} n evs (s : @sys S E) :
  Z.of_nat n <= 65535 -> Forall (fun ev => untimed ev = true) evs -> run evs (init_sys n) = Some s ->
  mNumWaiters s = count waiting (threads s) /\
  (mMutex s = None -> sem_count (mSemaphore s) = 0 /\ count woken (threads s) = 0) /\
  (forall i all target, threads s !! i = Some (NLoop all target) ->
     (mNumWaiters s = target /\ sem_count (mSemaphore s) = 0 /\ count woken (threads s) = 0) \/
     (target < mNumWaiters s /\
      exists j c s', threads s !! j = Some c /\ waiting c = true /\ exec (Step j) s = Some s')).
Proof.
  intros Hn Hu Hr. pose proof (run_ok_inv evs _ _ (init_inv n Hn) Hu Hr) as Hs. split_and!; [apply Hs|apply Hs|].
  intros i all target Hi. destruct (inv_tokens s Hs i _ Hi eq_refl) as (T1 & T2 & T3).
  pose proof (inv_sem s Hs). pose proof (count_nonneg woken (threads s)).
  destruct (decide (target < mNumWaiters s)).
  - right. split; [done|]. by eapply waiter_moves.
  - left. lia.
Qed.

(** [notify_one] can hang for ever: when a timed wait expires after the test
    for waiters, the target becomes minus one, the loop never ends whatever the
    other threads do, and the inner mutex stays locked. *)
Theorem notify_one_hangs {S E} `{KernelSemaphoreLaws S} `{KernelEvent E} :
  exists s : @sys S E, run hang_run (init_sys 2) = Some s /\ mNumWaiters s = 0 /\ mMutex s = Some 1%nat /\
    forall evs s', run evs s = Some s' -> threads s' !! 1%nat = Some (NLoop false (-1)).
Proof.
  eexists. split; [vm_compute; reflexivity|]. split; [done|]. split; [done|]. intros evs s' Hr.
  by eapply (negative_target_loops evs _ s' 1 (-1)); [..|exact Hr].
Qed.

(** ** Waits with a predicate and with a timeout *)

Inductive cv_status := no_timeout | timeout.

Section Waits.
(** [W]: what the predicate and the clock see; [wait_impl] of the system above
    as a function of the timeout that changes it. *)
Context {W : Type} (wait_impl : Z -> W -> bool * W) (pred : W -> bool) (now : W -> Z).

Definition wait (w : W) : W := (wait_impl WinMutex.INFINITE w).2.

(** [wait(lock, pred)] *)
Fixpoint wait_pred (fuel : nat) (w : W) : outcome W :=
  match fuel with
  | O => Blocked
  | S fuel => if negb (pred w) then wait_pred fuel (wait w) else Ok w
  end.

(** The argument of [wait_impl] in [wait_for]. *)
Definition wait_timeout (rel_time : WinMutex.duration) : Z :=
  let timeout := WinMutex.milliseconds rel_time in
  u32 (if timeout <? 0 then 0 else timeout).

Definition wait_for (rel_time : WinMutex.duration) (w : W) : cv_status * W :=
  let '(ret, w) := wait_impl (wait_timeout rel_time) w in
  (if ret then no_timeout else timeout, w).

Definition wait_for_pred (rel_time : WinMutex.duration) (w : W) : bool * W :=
  let '(_, w) := wait_for rel_time w in (pred w, w).

(** [wait_until]; the clock ticks [num / den] seconds. *)
Definition wait_until (abs_time num den : Z) (w : W) : cv_status * W :=
  wait_for (WinMutex.Duration (abs_time - now w) num den) w.

(** [wait] with a predicate returns after exactly as many waits as it takes for
    the predicate to hold. *)
Theorem wait_pred_exact k w fuel :
  (forall i, (i < k)%nat -> pred (Nat.iter i wait w) = false) -> pred (Nat.iter k wait w) = true -> (k < fuel)%nat ->
  wait_pred fuel w = Ok (Nat.iter k wait w).
Proof.
  revert w fuel. induction k as [|k IH]; intros w [|fuel] Hf Ht Hlt; try lia; cbn [wait_pred].
  - cbn in *. by rewrite Ht.
  - rewrite (Hf 0%nat ltac:(lia) : pred w = false). cbn [negb]. rewrite Nat.iter_succ_r.
    rewrite (IH (wait w)); [done| |by rewrite <- Nat.iter_succ_r|lia].
    intros i Hi. rewrite <- Nat.iter_succ_r. apply Hf. lia.
Qed.

End Waits.

(** The timeout that [wait_for] passes on: the milliseconds when they fit, zero
    for a time that has passed; [2^32] milliseconds do not wait at all and one
    less waits for ever. *)
Theorem wait_timeout_bounds d :
  (0 <= WinMutex.milliseconds d < WinMutex.INFINITE -> wait_timeout d = WinMutex.milliseconds d) /\
  (WinMutex.milliseconds d <= 0 -> wait_timeout d = 0) /\
  (WinMutex.milliseconds d = 2 ^ 32 - 1 -> wait_timeout d = WinMutex.INFINITE) /\
  (WinMutex.milliseconds d = 2 ^ 32 -> wait_timeout d = 0).
Proof.
  unfold wait_timeout, WinMutex.INFINITE. split_and!; intros Hd.
  - destruct (Z.ltb_spec (WinMutex.milliseconds d) 0); [lia|]. apply u32_small. lia.
  - destruct (Z.ltb_spec (WinMutex.milliseconds d) 0); [done|]. by assert (WinMutex.milliseconds d = 0) as -> by lia.
  - by rewrite Hd.
  - by rewrite Hd.
Qed.

(** [wait_for] with a predicate waits once: woken early with the predicate
    false, it returns false before the time is over. *)
Theorem wait_for_pred_once {W} (wait_impl : Z -> W -> bool * W) (pred : W -> bool) d w w' :
  wait_impl (wait_timeout d) w = (true, w') -> pred w' = false ->
  wait_for_pred wait_impl pred d w = (false, w') /\ (wait_for wait_impl d w).1 = no_timeout.
Proof. intros E1 E2. unfold wait_for_pred, wait_for. by rewrite E1, E2. Qed.

(** ** Concrete kernel objects *)

Module Sample.

#[global] Instance semaphore : KernelSemaphore Z := {|
  CreateSemaphore := 0;
  ReleaseSemaphore n s := if (0 <? n) && (s + n <=? 65535) then s + n else s;
  sem_take s := if 0 <? s then Some (s - 1) else None
|}.

#[global, refine] Instance semaphore_laws : KernelSemaphoreLaws Z := {| sem_count := fun s => s |}.
Proof.
  - done.
  - done.
  - intros s. cbn. destruct (Z.ltb_spec 0 s); lia.
Defined.

#[global] Instance wake_event : KernelEvent bool :=
  {| CreateEvent := false; SetEvent _ := true; event_wait e := (e, false) |}.

(** Two waiters, one of which is notified and has not left yet. *)
Definition two_waiters : list event :=
  [LockMutex 0; CallWait 0 false; Step 0; Step 0; LockMutex 1; CallWait 1 false; Step 1; Step 1;
   CallNotify 2 false; Step 2; Step 2; Step 2; Step 2; Step 1].

End Sample.

Lemma notify_exact_witness :
  exists s : @sys Z bool, run Sample.two_waiters (init_sys 3) = Some s /\
    threads s !! 2%nat = Some (NLoop false 1) /\ mNumWaiters s = count waiting (threads s).
Proof.
  destruct (run (S := Z) (E := bool) Sample.two_waiters (init_sys 3)) as [s|] eqn:Er; [|vm_compute in Er; discriminate].
  exists s. split; [reflexivity|]. split; [vm_compute in Er; injection Er as <-; reflexivity|].
  apply (notify_exact 3 Sample.two_waiters s); [lia| |exact Er]. apply (bool_decide_unpack _). vm_compute. reflexivity.
Defined.

Lemma notify_one_hangs_witness :
  exists s : @sys Z bool, run hang_run (init_sys 2) = Some s /\ mMutex s = Some 1%nat /\
    forall evs s', run evs s = Some s' -> threads s' !! 1%nat = Some (NLoop false (-1)).
Proof. destruct (notify_one_hangs (S := Z) (E := bool)) as (s & H1 & _ & H2 & H3). exists s. split_and!; assumption. Defined.

End WinCond.
