(* ===== verification/WinNet.v ===== *)
(** * Sockets of the Windows build

    The Win32 branches of [rlib/sys/sio.hpp] ([sockIO::recvn] and [sendn],
    [quick_listen], [quick_connect]), of [tunnel.cc] ([newConnection]) and of
    [socks5.cc] ([listen]).  To the sockets of [SockIO] they add the use count
    of the Winsock library and the lists that [getaddrinfo] allocates and
    [freeaddrinfo] releases. *)

From stdpp Require Import gmap.
From S2P Require Import Prelude Log SockIO Tunnel Socks5.
Open Scope Z_scope.

Module WinNet.
Import SockIO.

(** ** Exact transfers *)


Section Transfers.
(** What the calls do with a negative length, which Winsock does not document. *)
Variable recv_negative : Z -> bytes -> nat -> Z -> io (sysret * bytes).
Variable send_negative : Z -> bytes -> nat -> Z -> io sysret.













End Transfers.

(** ** The Winsock library *)

(** How often [WSAStartup] was called without [WSACleanup], and the live lists of
    [getaddrinfo]. *)
Record wsa := Wsa { startups : Z; infos : list nat; next_info : nat }.
Abbreviation wio := (st (wsa * world)).

Definition WSAStartup (iResult : Z) : wio Z := fun sw =>
  (Ok iResult,
   if iResult =? 0 then (Wsa (startups sw.1 + 1) (infos sw.1) (next_info sw.1), sw.2) else sw).

(** The last [WSACleanup] closes every socket. *)
Definition WSACleanup : wio unit := fun sw =>
  let '(s, w) := sw in
  if startups s <=? 0 then (Ok tt, sw)
  else
    (Ok tt, (Wsa (startups s - 1) (infos s) (next_info s),
             if startups s =? 1
             then World ((fun x => set_open x false) <$> socks w) (selects w) (pending w) else w)).

(** The list that a successful [getaddrinfo] allocates. *)
Definition alloc_info : wio nat := fun sw =>
  let '(s, w) := sw in
  (Ok (next_info s), (Wsa (startups s) (next_info s :: infos s) (S (next_info s)), w)).

Definition freeaddrinfo (p : nat) : wio unit := fun sw =>
  let '(s, w) := sw in
  if decide (p ∈ infos s)
  then (Ok tt, (Wsa (startups s) (filter (fun q => q <> p) (infos s)) (next_info s), w))
  else (Undefined DoubleFree, sw).

(** The loop over the candidates: there is no [SO_REUSEPORT]. *)
Fixpoint win_try_addrs (l : list addrinfo) : io (option Z) :=
  match l with
  | [] => mret None
  | rp :: l =>
      sockfd ← socket rp;
      if sockfd =? -1 then win_try_addrs l
      else if negb (ai_reuseaddr rp) then throw (runtime_error "setsockopt(SO_REUSEADDR) failed")
      else if ai_bind rp then mret (Some sockfd)
      else _ ← close sockfd; win_try_addrs l
  end.

Section Winsock.
Context {lg : Log.Rlog}.
Context (getaddrinfo : bytes -> bytes -> bool -> Z + list addrinfo) (sys_listen : Z -> bool) (iResult : Z).

Definition win_quick_listen (doNotWSAStartup : bool) (addr : bytes) (port : Z) (use_udp : bool) : wio Z :=
  _ ← (if negb doNotWSAStartup then
         r ← WSAStartup iResult;
         if negb (r =? 0) then throw (runtime_error "WSAStartup failed.") else mret tt
       else mret tt);
  match getaddrinfo addr (to_string port) use_udp with
  | inl _ => _ ← WSACleanup; throw (runtime_error "Failed to getaddrinfo.")
  | inr l =>
      psaddr ← alloc_info;
      r ← embed (win_try_addrs l);
      match r with
      | None => throw (runtime_error "Failed to bind to any of these addr.")
      | Some listenfd =>
          if negb use_udp && negb (sys_listen listenfd) then throw (runtime_error "listen failed.")
          else _ ← freeaddrinfo psaddr; mret listenfd
      end
  end.

(** The guard frees the list, and so does the last statement. *)
Definition win_quick_connect (doNotWSAStartup : bool) (addr : bytes) (port : Z) (use_udp : bool) : wio Z :=
  _ ← (if negb doNotWSAStartup then
         r ← WSAStartup iResult;
         if negb (r =? 0) then throw (runtime_error "WSAStartup failed.") else mret tt
       else mret tt);
  match getaddrinfo addr (to_string port) use_udp with
  | inl _ => _ ← WSACleanup; throw (runtime_error "getaddrinfo failed.")
  | inr l =>
      paddr ← alloc_info;
      defer (_ ← WSACleanup; freeaddrinfo paddr)
        (r ← embed (win_try_addrs l);
         match r with
         | None => throw (runtime_error "Failed to connect to any of these addr.")
         | Some sockfd => _ ← freeaddrinfo paddr; mret sockfd
         end)
  end.

Definition win_newConnection (t : Tunnel.outbound_tunnel) : wio Z :=
  r ← WSAStartup iResult;
  if negb (r =? 0) then throw (runtime_error "WSAStartup failed.")
  else
    match getaddrinfo (Tunnel.serverAddr t) (to_string (Tunnel.serverPort t)) false with
    | inl _ => _ ← WSACleanup; throw (runtime_error "getaddrinfo failed.")
    | inr l =>
        paddr ← alloc_info;
        defer (_ ← WSACleanup; freeaddrinfo paddr)
          (r ← embed (win_try_addrs l);
           match r with
           | None => throw (runtime_error "Failed to connect to any of these addr.")
           | Some sockfd => mret sockfd
           end)
    end.

(** [Socks5Server::listen] up to the accept loop, which is that of [Socks5]. *)
Definition win_listen_socket (bindIp : bytes) (bindPort : Z) : wio Z :=
  r ← WSAStartup iResult;
  if negb (r =? 0) then throw (runtime_error "WSAStartup failed.")
  else
    match getaddrinfo bindIp (to_string bindPort) false with
    | inl _ => _ ← WSACleanup; throw (runtime_error "Failed to getaddrinfo.")
    | inr l =>
        psaddr ← alloc_info;
        r ← embed (win_try_addrs l);
        match r with
        | None => throw (runtime_error "Failed to bind to any of these addr.")
        | Some listenfd =>
            if sys_listen listenfd then mret listenfd else throw (runtime_error "listen failed.")
        end
    end.

Definition win_listen (bindIp : bytes) (bindPort : Z) : st (list Z * (wsa * world)) unit := fun tsw =>
  let '(tasks, sw) := tsw in
  match win_listen_socket bindIp bindPort sw with
  | (Ok _, (s, w)) =>
      let '(r, (tasks, w)) :=
        (_ ← lift (Log.rlog_text Log.INFO (bytes_of_string "Listening on {}:{}") [bindIp; to_string bindPort]);
         Socks5.accept_loop (S (length (pending w)))) (tasks, w) in
      (r, (tasks, (s, w)))
  | (Throw e, sw) => (Throw e, (tasks, sw))
  | (Undefined u, sw) => (Undefined u, (tasks, sw))
  | (Blocked, sw) => (Blocked, (tasks, sw))
  end.

End Winsock.

(** *** Theorems *)

Definition with_reuseport (rp : addrinfo) : addrinfo := AddrInfo (ai_fd rp) (ai_reuseaddr rp) true (ai_bind rp).

Lemma win_try_addrs_posix l w : win_try_addrs l w = try_addrs (with_reuseport <$> l) w.
Proof.
  revert w. induction l as [|rp l IH]; intros w; [done|]. cbn [win_try_addrs fmap list_fmap try_addrs].
  change (socket (with_reuseport rp)) with (socket rp). unfold mbind, st_bind.
  destruct (socket rp w) as [[fd| | |] w1]; try done. destruct (fd =? -1); [apply IH|].
  cbn [with_reuseport ai_reuseaddr ai_reuseport ai_bind]. destruct (negb (ai_reuseaddr rp)); [done|]. cbn [negb].
  destruct (ai_bind rp); [done|]. destruct (close fd w1) as [[u| | |] w2]; done.
Qed.

Lemma first_usable_reuseport l : first_usable (with_reuseport <$> l) = first_usable l.
Proof. induction l as [|rp l IH]; [done|]. cbn. change (usable (with_reuseport rp)) with (usable rp). by rewrite IH. Qed.

Lemma win_try_addrs_ok l w :
  Forall (fun rp => ai_reuseaddr rp = true) l -> Forall (fun rp => opened w (ai_fd rp) = false) l ->
  exists w', win_try_addrs l w = (Ok (first_usable l), w') /\
    forall fd, opened w' fd = (if decide (Some fd = first_usable l) then true else opened w fd).
Proof.
  intros Hr Ho. destruct (try_addrs_ok (with_reuseport <$> l) w) as (w' & E & Hw).
  - apply Forall_fmap. eapply Forall_impl; [exact Hr|]. intros rp Hrp. by split.
  - by apply Forall_fmap.
  - rewrite first_usable_reuseport in *. exists w'. split; [by rewrite win_try_addrs_posix|done].
Qed.

Lemma free_fresh (n : nat) (l : list nat) : (forall p, p ∈ l -> (p < n)%nat) ->
  filter (fun q => q <> n) (n :: l) = l.
Proof.
  intros Hl. rewrite filter_cons_False by naive_solver.
  assert (Hn : Forall (fun q => q <> n) l) by (apply Forall_forall; intros q Hq; specialize (Hl q Hq); lia).
  clear Hl. induction Hn as [|q l Hq Hn IH]; [done|]. rewrite filter_cons_True by done. by rewrite IH.
Qed.

(** The state after the start of the library and the allocation of the list. *)
Definition started (s : wsa) : wsa := Wsa (startups s + 1) (next_info s :: infos s) (S (next_info s)).

Lemma cleanup_free s w :
  (forall p, p ∈ infos s -> (p < next_info s)%nat) -> 0 <= startups s ->
  (_ ← WSACleanup; freeaddrinfo (next_info s)) (started s, w) =
    (Ok tt, (Wsa (startups s) (infos s) (S (next_info s)),
             if startups s =? 0 then World ((fun x => set_open x false) <$> socks w) (selects w) (pending w) else w)).
Proof.
  intros Hf Hs. unfold mbind, st_bind, WSACleanup, started. cbn [startups infos next_info].
  destruct (Z.leb_spec (startups s + 1) 0); [lia|]. cbn [freeaddrinfo infos startups next_info].
  rewrite decide_True by set_solver. rewrite free_fresh by done. replace (startups s + 1 - 1) with (startups s) by lia.
  by replace (startups s + 1 =? 1) with (startups s =? 0) by (destruct (Z.eqb_spec (startups s) 0), (Z.eqb_spec (startups s + 1) 1); lia).
Qed.

Lemma opened_close_all w fd :
  opened (World ((fun x => set_open x false) <$> socks w) (selects w) (pending w)) fd = false.
Proof. unfold opened. cbn. rewrite lookup_fmap. by destruct (socks w !! fd). Qed.


(** Dialling in the Windows client: with the library already started (as the
    listener leaves it) [newConnection] returns the first candidate that accepts,
    closes the others, frees the list of addresses and gives the library back as
    it was; without it, the guard's [WSACleanup] is the last one and the
    descriptor that is returned is closed. *)
Theorem win_newConnection_spec getaddrinfo t l s w sockfd :
  getaddrinfo (Tunnel.serverAddr t) (to_string (Tunnel.serverPort t)) false = inr l ->
  Forall (fun rp => ai_reuseaddr rp = true) l -> Forall (fun rp => opened w (ai_fd rp) = false) l ->
  first_usable l = Some sockfd -> (forall p, p ∈ infos s -> (p < next_info s)%nat) -> 0 <= startups s ->
  exists w', win_newConnection getaddrinfo 0 t (s, w) = (Ok sockfd, (Wsa (startups s) (infos s) (S (next_info s)), w')) /\
    forall fd, opened w' fd = if startups s =? 0 then false else if decide (fd = sockfd) then true else opened w fd.
Proof.
  intros Hg Hr Ho Hu Hf Hs. destruct (win_try_addrs_ok l w Hr Ho) as (w1 & E & Hw).
  unfold win_newConnection. rewrite (bind_ok (WSAStartup 0) _ (s, w) 0 (Wsa (startups s + 1) (infos s) (next_info s), w)) by done.
  cbn [Z.eqb negb]. rewrite Hg. rewrite (bind_ok alloc_info _ _ (next_info s) (started s, w)) by done.
  unfold defer. rewrite (bind_ok (embed (win_try_addrs l)) _ (started s, w) (Some sockfd) (started s, w1))
    by (unfold embed; cbn [fst snd]; by rewrite E, Hu).
  cbn [mret st_ret]. rewrite (bind_ok _ _ _ _ _ (noexcept_ok _ _ _ _ (cleanup_free s w1 Hf Hs))). eexists. split; [done|]. intros fd.
  destruct (startups s =? 0).
  - apply opened_close_all.
  - rewrite Hw, Hu. do 2 case_decide; congruence.
Qed.

(** Every successful [quick_connect] of the Windows build frees the list of
    addresses twice. *)
Theorem win_quick_connect_double_free getaddrinfo skip addr port udp l s w sockfd :
  getaddrinfo addr (to_string port) udp = inr l ->
  Forall (fun rp => ai_reuseaddr rp = true) l -> Forall (fun rp => opened w (ai_fd rp) = false) l ->
  first_usable l = Some sockfd -> (forall p, p ∈ infos s -> (p < next_info s)%nat) ->
  (win_quick_connect getaddrinfo 0 skip addr port udp (s, w)).1 = Undefined DoubleFree.
Proof.
  intros Hg Hr Ho Hu Hf. destruct (win_try_addrs_ok l w Hr Ho) as (w1 & E & Hw).
  assert (Hst : exists n, (if negb skip then r ← WSAStartup 0; if negb (r =? 0)
                  then throw (runtime_error "WSAStartup failed.") else mret tt else mret tt : wio unit) (s, w) =
                (Ok tt, (Wsa n (infos s) (next_info s), w))).
  { destruct skip; cbn [negb]; [exists (startups s); by destruct s|exists (startups s + 1); done]. }
  destruct Hst as (n & Est). unfold win_quick_connect. rewrite (bind_ok _ _ _ _ _ Est), Hg.
  set (s1 := Wsa n (next_info s :: infos s) (S (next_info s))).
  rewrite (bind_ok alloc_info _ _ (next_info s) (s1, w)) by done. unfold defer.
  rewrite (bind_ok (embed (win_try_addrs l)) _ (s1, w) (Some sockfd) (s1, w1))
    by (unfold embed; cbn [fst snd]; by rewrite E, Hu).
  set (s2 := Wsa n (infos s) (S (next_info s))).
  rewrite (bind_ok (freeaddrinfo (next_info s)) _ (s1, w1) tt (s2, w1))
    by (unfold s1, freeaddrinfo; cbn [infos startups next_info]; rewrite decide_True by set_solver; by rewrite free_fresh).
  cbn [mret st_ret].
  assert (Hc : exists s3 w3, WSACleanup (s2, w1) = (Ok tt, (s3, w3)) /\ infos s3 = infos s).
  { unfold WSACleanup, s2. cbn [startups infos next_info]. destruct (n <=? 0); eauto. }
  destruct Hc as (s3 & w3 & Ec & Hi).
  assert (Hd : (_ ← WSACleanup; freeaddrinfo (next_info s)) (s2, w1) = (Undefined DoubleFree, (s3, w3))).
  { rewrite (bind_ok _ _ _ _ _ Ec). unfold freeaddrinfo. rewrite decide_False; [done|]. rewrite Hi.
    intros Hin%Hf. lia. }
  unfold noexcept, mbind at 1, st_bind at 1. by rewrite Hd.
Qed.

(** The Windows listener of the client starts the library once and keeps it, and
    the descriptor it listens on is the first candidate that can be bound. *)
Theorem win_listen_socket_spec getaddrinfo sys_listen ip port l s w listenfd :
  getaddrinfo ip (to_string port) false = inr l ->
  Forall (fun rp => ai_reuseaddr rp = true) l -> Forall (fun rp => opened w (ai_fd rp) = false) l ->
  first_usable l = Some listenfd -> sys_listen listenfd = true ->
  exists w', win_listen_socket getaddrinfo sys_listen 0 ip port (s, w) = (Ok listenfd, (started s, w')) /\
    forall fd, opened w' fd = if decide (fd = listenfd) then true else opened w fd.
Proof.
  intros Hg Hr Ho Hu Hl. destruct (win_try_addrs_ok l w Hr Ho) as (w1 & E & Hw). exists w1.
  unfold win_listen_socket. rewrite (bind_ok (WSAStartup 0) _ (s, w) 0 (Wsa (startups s + 1) (infos s) (next_info s), w)) by done.
  cbn [Z.eqb negb]. rewrite Hg. rewrite (bind_ok alloc_info _ _ (next_info s) (started s, w)) by done.
  rewrite (bind_ok (embed (win_try_addrs l)) _ (started s, w) (Some listenfd) (started s, w1))
    by (unfold embed; cbn [fst snd]; by rewrite E, Hu).
  rewrite Hl. split; [done|]. intros fd. rewrite Hw, Hu. do 2 case_decide; congruence.
Qed.

(** ** Witnesses *)


Lemma win_newConnection_spec_witness :
  exists w', win_newConnection Tunnel.Sample.gai 0 Tunnel.Sample.ct (Wsa 1 [] 0, World ∅ [] []) =
      (Ok 9, (Wsa 1 [] 1, w')) /\ opened w' 9 = true.
Proof.
  destruct (win_newConnection_spec Tunnel.Sample.gai Tunnel.Sample.ct [AddrInfo 9 true true true]
              (Wsa 1 [] 0) (World ∅ [] []) 9) as (w' & E & Hw);
    [reflexivity|repeat constructor|repeat constructor|reflexivity|intros p Hp; inversion Hp|cbn; lia|].
  exists w'. split; [exact E|]. rewrite Hw. reflexivity.
Defined.

Lemma win_quick_connect_double_free_witness :
  (win_quick_connect (fun _ _ _ => inr [AddrInfo 9 true true true]) 0 false [] 80 false
     (Wsa 0 [] 0, World ∅ [] [])).1 = Undefined DoubleFree.
Proof.
  apply (win_quick_connect_double_free _ _ _ _ _ [AddrInfo 9 true true true] _ _ 9);
    [reflexivity|repeat constructor|repeat constructor|reflexivity|intros p Hp; inversion Hp].
Defined.

End WinNet.
