(* ===== verification/ScopeGuard.v ===== *)
(** * Scope guards: [rlib/scope_guard.hpp]

    [scope_guard] as an object in a store (construction, move, [dismiss],
    [force_call], destruction), with the theorem that every callback is called
    once; [rlib_defer] and the two macros of an exception-safe scope, related to
    [SockIO.defer], which the models of the programs use; [scope_guards], the
    stack of callbacks; and [repeat] of [rlib/functional.hpp]. *)

From stdpp Require Import list sets.
From S2P Require Import Prelude SockIO.
Open Scope Z_scope.

Module ScopeGuard.

(** ** Guards as objects *)

(** A callback is known by a number; [called] and [dismissed] record what
    happened to them.  An object holds the [std::function] ([None] is empty). *)
Record store := Store {
  guards : list (option (option nat));  (** [None] once destroyed *)
  called : list nat;
  dropped : list nat
}.

Definition guard (s : store) (p : nat) : outcome (option nat) :=
  match mjoin (guards s !! p) with Some f => Ok f | None => Undefined UseAfterFree end.

Definition set_guard (p : nat) (f : option nat) (s : store) : store :=
  Store (<[p := Some f]> (guards s)) (called s) (dropped s).

(** [if(f) f();] *)
Definition call (f : option nat) (s : store) : store :=
  Store (guards s) (called s ++ option_list f) (dropped s).

(** [scope_guard(undo_func)] *)
Definition construct (f : nat) (s : store) : outcome store :=
  Ok (Store (guards s ++ [Some (Some f)]) (called s) (dropped s)).

(** [scope_guard(scope_guard &&other)] *)
Definition move_construct (other : nat) (s : store) : outcome store :=
  f ← guard s other;
  let s := set_guard other None s in
  Ok (Store (guards s ++ [Some f]) (called s) (dropped s)).

(** [~scope_guard()] *)
Definition destroy (p : nat) (s : store) : outcome store :=
  f ← guard s p;
  let s := call f s in
  Ok (Store (<[p := None]> (guards s)) (called s) (dropped s)).

(** [f = nullptr]; the callback that was there is never called. *)
Definition dismiss (p : nat) (s : store) : outcome store :=
  f ← guard s p;
  Ok (let s := set_guard p None s in Store (guards s) (called s) (dropped s ++ option_list f)).

Definition force_call (p : nat) (s : store) : outcome store :=
  f ← guard s p;
  let s := call f s in
  Ok (set_guard p None s).

Inductive op := New (f : nat) | Move (p : nat) | Destroy (p : nat) | Dismiss (p : nat) | Force (p : nat).

Definition exec (o : op) (s : store) : outcome store :=
  match o with
  | New f => construct f s
  | Move p => move_construct p s
  | Destroy p => destroy p s
  | Dismiss p => dismiss p s
  | Force p => force_call p s
  end.

Fixpoint run (ops : list op) (s : store) : outcome store :=
  match ops with
  | [] => Ok s
  | o :: ops => s ← exec o s; run ops s
  end.

Definition start : store := Store [] [] [].

(** The callbacks the live guards still hold, and those given to constructors. *)
Definition held1 (o : option (option nat)) : list nat := match o with Some f => option_list f | None => [] end.
Definition held (s : store) : list nat := guards s ≫= held1.
Definition created (o : op) : list nat := match o with New f => [f] | _ => [] end.

Definition total (s : store) : list nat := held s ++ called s ++ dropped s.

Lemma held_insert (l : list (option (option nat))) p o o' : l !! p = Some o ->
  (<[p := o']> l ≫= held1) ++ held1 o ≡ₚ (l ≫= held1) ++ held1 o'.
Proof.
  intros Hp. rewrite (insert_take_drop l p o') by (by eapply lookup_lt_Some).
  assert (E : l ≫= held1 = (take p l ++ o :: drop (S p) l) ≫= held1) by (by rewrite take_drop_middle).
  rewrite E, !bind_app, !bind_cons. solve_Permutation.
Qed.

Lemma guard_ok s p f : guard s p = Ok f -> guards s !! p = Some (Some f).
Proof. unfold guard. destruct (guards s !! p) as [[g|]|]; cbn; try done. by intros [= ->]. Qed.

(** Every operation moves a callback between the three groups. *)
Lemma exec_total o s s' : exec o s = Ok s' -> total s' ≡ₚ created o ++ total s.
Proof.
  destruct o as [f|p|p|p|p]; cbn [exec created app].
  - intros [= <-]. unfold total, held. cbn [guards called dropped]. rewrite bind_app. cbn. solve_Permutation.
  - unfold move_construct. destruct (guard s p) as [f| | |] eqn:Hg; try done. run_ok. intros [= <-].
    pose proof (held_insert _ p _ (Some None) (guard_ok _ _ _ Hg)) as Hh. cbn [held1 option_list] in Hh.
    rewrite app_nil_r in Hh. unfold total, held. cbn [guards called dropped set_guard]. rewrite bind_app.
    change ([Some f] ≫= held1) with (option_list f ++ []). by rewrite app_nil_r, Hh.
  - unfold destroy. destruct (guard s p) as [f| | |] eqn:Hg; try done. run_ok. intros [= <-].
    pose proof (held_insert _ p _ None (guard_ok _ _ _ Hg)) as Hh. cbn [held1] in Hh.
    rewrite app_nil_r in Hh. unfold total, held. cbn [guards called dropped call]. rewrite <- Hh. solve_Permutation.
  - unfold dismiss. destruct (guard s p) as [f| | |] eqn:Hg; try done. run_ok. intros [= <-].
    pose proof (held_insert _ p _ (Some None) (guard_ok _ _ _ Hg)) as Hh. cbn [held1 option_list] in Hh.
    rewrite app_nil_r in Hh. unfold total, held. cbn [guards called dropped set_guard]. rewrite <- Hh. solve_Permutation.
  - unfold force_call. destruct (guard s p) as [f| | |] eqn:Hg; try done. run_ok. intros [= <-].
    pose proof (held_insert _ p _ (Some None) (guard_ok _ _ _ Hg)) as Hh. cbn [held1 option_list] in Hh.
    rewrite app_nil_r in Hh. unfold total, held. cbn [guards called dropped set_guard call]. rewrite <- Hh. solve_Permutation.
Qed.

Lemma run_total ops s s' : run ops s = Ok s' -> total s' ≡ₚ (ops ≫= created) ++ total s.
Proof.
  revert s. induction ops as [|o ops IH]; intros s; cbn [run]; [by intros [= <-]|].
  destruct (exec o s) as [s1| | |] eqn:E; try done. run_ok. intros H. rewrite (IH s1 H), (exec_total o s s1 E), bind_cons.
  solve_Permutation.
Qed.

(** C40: whatever sequence of constructions, moves, dismissals, forced calls and
    destructions the guards of a program go through, every callback given to a
    constructor is called exactly once, was dismissed, or is still held by
    exactly one guard; when all guards are destroyed, the callbacks that were
    not dismissed were each called once. *)
Theorem guard_calls_once ops s :
  run ops start = Ok s ->
  held s ++ called s ++ dropped s ≡ₚ (ops ≫= created) /\
  (Forall (fun o => o = None) (guards s) -> called s ++ dropped s ≡ₚ (ops ≫= created)).
Proof.
  intros Hr. pose proof (run_total ops start s Hr) as Ht. change (total start) with (@nil nat) in Ht.
  rewrite app_nil_r in Ht. split; [exact Ht|]. intros Hd. rewrite <- Ht. unfold total, held.
  assert (E : guards s ≫= held1 = []) by (induction Hd as [|o l -> Hd IH]; [done|exact IH]). by rewrite E.
Qed.

(** ** Scopes *)

Section Scope.
Import SockIO.
Context {W A : Type}.

(** The body of a scope with a guard, which it may dismiss or force. *)
Abbreviation guarded := (st (option (st W unit) * W)).

Definition guard_dismiss : guarded unit := fun gw => (Ok tt, (None, gw.2)).

(** [force_call] is [noexcept]: a callback that throws terminates the program. *)
Definition guard_force : guarded unit := fun gw =>
  match gw.1 with
  | None => (Ok tt, gw)
  | Some f =>
      match f gw.2 with
      | (Ok _, w) => (Ok tt, (None, w))
      | (Throw _, w) => (Blocked, (gw.1, w))
      | (Undefined u, w) => (Undefined u, (gw.1, w))
      | (Blocked, w) => (Blocked, (gw.1, w))
      end
  end.

(** [rlib_defer(f)]: the destructor runs at the end of the scope, also when an
    exception leaves it; destructors are [noexcept]. *)
Definition scope (f : st W unit) (body : guarded A) : st W A := fun w =>
  let dtor (g : option (st W unit)) : st W unit := match g with Some f => f | None => mret tt end in
  match body (Some f, w) with
  | (Ok a, (g, w)) => (_ ← noexcept (dtor g); mret a) w
  | (Throw e, (g, w)) => (_ ← noexcept (dtor g); throw e) w
  | (Undefined u, (_, w)) => (Undefined u, w)
  | (Blocked, (_, w)) => (Blocked, w)
  end.

(** A body that does not mention the guard. *)
Definition unguarded (m : st W A) : guarded A := fun gw => let '(r, w) := m gw.2 in (r, (gw.1, w)).

(** [RLIB_reinforce_scope_begin] ... [RLIB_reinforce_scope_end] *)
Definition reinforce_scope (f : st W unit) (body : st W A) : st W A :=
  scope f (fun gw =>
    match unguarded body gw with
    | (Throw e, gw) => (_ ← guard_force; throw e) gw
    | r => r
    end).

(** The guard of [rlib_defer] gives [SockIO.defer]; a dismissed guard gives the
    body alone; and the macros do the same as [rlib_defer]. *)
Theorem scope_defer (f : st W unit) (m : st W A) w :
  scope f (unguarded m) w = defer f m w /\
  scope f (a ← unguarded m; _ ← guard_dismiss; mret a) w =
    (match m w with (Ok a, w') => (Ok a, w') | _ => defer f m w end) /\
  reinforce_scope f m w = defer f m w.
Proof.
  unfold reinforce_scope, scope, unguarded, defer, noexcept, guard_force, guard_dismiss, mbind, st_bind. cbn [fst snd]. split_and!.
  - destruct (m w) as [[a|e|u|] w1]; done.
  - destruct (m w) as [[a|e|u|] w1]; done.
  - destruct (m w) as [[a|e|u|] w1]; try done. cbn [fst snd]. by destruct (f w1) as [[b|e'|u|] w2].
Qed.

End Scope.

(** ** [scope_guards] *)

Section Guards.
Context {W : Type}.

(** [fbuf]; [operator+=] puts the callback in front. *)
Definition guards_add (f : W -> W) (fbuf : list (W -> W)) : list (W -> W) := f :: fbuf.
Definition guards_dismiss (fbuf : list (W -> W)) : list (W -> W) := [].

(** [for(auto &f : fbuf) f(); dismiss();] *)
Definition guards_force (fbuf : list (W -> W)) (w : W) : list (W -> W) * W :=
  (guards_dismiss fbuf, foldl (fun w f => f w) w fbuf).

(** [~scope_guards()] *)
Definition guards_destroy (fbuf : list (W -> W)) (w : W) : W := (guards_force fbuf w).2.

(** The callbacks run last registered first, and a second [force_call] or the
    destructor after a forced call does nothing. *)
Theorem guards_lifo (fs : list (W -> W)) w :
  guards_destroy (foldl (fun fbuf f => guards_add f fbuf) [] fs) w = foldr (fun f w => f w) w fs /\
  guards_destroy (guards_force (foldl (fun fbuf f => guards_add f fbuf) [] fs) w).1 w = w.
Proof.
  split; [|done]. unfold guards_destroy, guards_force. cbn [snd].
  assert (H : forall acc, foldl (fun fbuf f => guards_add f fbuf) acc fs = rev fs ++ acc).
  { induction fs as [|f fs IH]; intros acc; [done|]. cbn. rewrite IH. unfold guards_add. by rewrite <- app_assoc. }
  rewrite H, app_nil_r. clear H. revert w. induction fs as [|f fs IH]; intros w; [done|]. cbn.
  by rewrite foldl_app, IH.
Qed.

End Guards.

(** ** [repeat] and [repeat_and_return_list] of [rlib/functional.hpp] *)

Section Repeat.
(** The repeated function with its bound arguments. *)
Context {W A : Type} (f : W -> A * W).

(** [for(size_t cter = 0; cter < count - 1; ++cter) f();], with [count - 1] in
    [size_t]. *)
Fixpoint repeat_loop (fuel : nat) (cter count : Z) (w : W) : outcome W :=
  match fuel with
  | O => Blocked
  | S fuel => if cter <? u64 (count - 1) then repeat_loop fuel (cter + 1) count (f w).2 else Ok w
  end.

Definition repeated_func (count : Z) (w : W) : outcome (A * W) :=
  w ← repeat_loop (S (Z.to_nat (u64 (count - 1)))) 0 count w;
  Ok (f w).

(** [repeat(count, f)]: the call of the closure it returns. *)
Definition repeat (count : Z) (w : W) : outcome (A * W) :=
  if count =? 0 then Throw (invalid_argument "Can not repeat for zero times.")
  else repeated_func count w.

Fixpoint repeat_list_loop (fuel : nat) (cter count : Z) (ret : list A) (w : W) : outcome (list A * W) :=
  match fuel with
  | O => Blocked
  | S fuel =>
      if cter <? count then let '(a, w) := f w in repeat_list_loop fuel (cter + 1) count (ret ++ [a]) w
      else Ok (ret, w)
  end.

Definition repeat_and_return_list (count : Z) (w : W) : outcome (list A * W) :=
  if count =? 0 then Ok ([], w) else repeat_list_loop (S (Z.to_nat count)) 0 count [] w.

(** [n] calls, and their results. *)
Definition after (n : nat) (w : W) : W := Nat.iter n (fun w => (f w).2) w.

Lemma repeat_loop_ok n fuel cter count w :
  0 <= cter -> u64 (count - 1) = cter + Z.of_nat n -> (n < fuel)%nat -> repeat_loop fuel cter count w = Ok (after n w).
Proof.
  revert fuel cter w. induction n as [|n IH]; intros [|fuel] cter w H0 Hc Hf; try lia; cbn [repeat_loop]; rewrite Hc.
  - destruct (Z.ltb_spec cter (cter + Z.of_nat 0)); [lia|done].
  - destruct (Z.ltb_spec cter (cter + Z.of_nat (S n))); [|lia]. unfold after. rewrite Nat.iter_succ_r.
    apply IH; lia.
Qed.

Lemma repeat_list_loop_ok n fuel cter count ret w :
  count = cter + Z.of_nat n -> (n < fuel)%nat ->
  repeat_list_loop fuel cter count ret w = Ok (ret ++ map (fun i => (f (after i w)).1) (seq 0 n), after n w).
Proof.
  revert fuel cter ret w. induction n as [|n IH]; intros [|fuel] cter ret w Hc Hf; try lia; cbn [repeat_list_loop].
  - destruct (Z.ltb_spec cter count); [lia|]. cbn. by rewrite app_nil_r.
  - destruct (Z.ltb_spec cter count); [|lia]. destruct (f w) as [a w1] eqn:E. rewrite (IH fuel (cter + 1) _ w1) by lia.
    assert (Ea : forall i, after i w1 = after (S i) w) by (intros i; unfold after; rewrite Nat.iter_succ_r; by rewrite E).
    rewrite Ea. f_equal. f_equal. rewrite <- app_assoc. f_equal. cbn. rewrite E. cbn. f_equal.
    rewrite <- seq_shift, map_map. apply map_ext. intros i. by rewrite Ea.
Qed.

(** [repeat] calls the function exactly [count] times and returns the last
    result, for every count but zero, for which it throws; the other one returns
    all results in order. *)
Theorem repeat_exact count w :
  0 <= count < 2 ^ 64 ->
  (repeat count w = if count =? 0 then Throw (invalid_argument "Can not repeat for zero times.")
                    else Ok (f (after (Z.to_nat (count - 1)) w))) /\
  repeat_and_return_list count w =
    Ok (map (fun i => (f (after i w)).1) (seq 0 (Z.to_nat count)), after (Z.to_nat count) w).
Proof.
  intros Hc. unfold repeat, repeat_and_return_list, repeated_func. destruct (Z.eqb_spec count 0) as [->|Hn]; [done|].
  rewrite u64_small by lia. split.
  - rewrite (repeat_loop_ok (Z.to_nat (count - 1))) by (rewrite ?u64_small by lia; lia). done.
  - by rewrite (repeat_list_loop_ok (Z.to_nat count)) by lia.
Qed.

End Repeat.

(** ** Witnesses *)

Lemma guard_calls_once_witness :
  exists s, run [New 1; New 2; Move 0; Dismiss 1; Destroy 2; Destroy 0; Destroy 1] start = Ok s /\
    called s ++ dropped s ≡ₚ [1; 2]%nat.
Proof.
  eexists. split; [vm_compute; reflexivity|].
  apply (proj2 (guard_calls_once [New 1; New 2; Move 0; Dismiss 1; Destroy 2; Destroy 0; Destroy 1] _ eq_refl)).
  repeat constructor.
Defined.

Lemma repeat_exact_witness :
  repeat (fun w : Z => (w * 10, w + 1)) 3 5 = Ok (70, 8).
Proof. exact (proj1 (repeat_exact (fun w : Z => (w * 10, w + 1)) 3 5 ltac:(lia))). Defined.

End ScopeGuard.
