(* ===== verification/ModuleLife.v ===== *)
(** * The life of a loaded module (native/src/module.hpp, module.cc)

    [module_interface] owns a handle of a shared object: the constructor opens
    the file, a move takes the functions and the handle away from its source, the destructor
    closes it.  The dynamic linker counts how often each file is open; the
    model keeps one entry of [open] per count.  On Windows FreeLibrary takes
    the place of dlclose. *)

From S2P Require Import Prelude ModuleApi SimpleProxy SockIO.
From stdpp Require Import gmap strings.
Import ModuleApi SockIO.

Open Scope Z_scope.

Module ModuleLife.

(** A pointer to a function of a shared object: its code is mapped only while the
    object is open. *)
Record code_ptr (T : Type) := Code { home : string; code : T }.
Arguments Code {T} home code.
Arguments home {T} c.
Arguments code {T} c.

(** [std::function]; [None] is an empty one. *)
Definition std_function (T : Type) : Type := option (code_ptr T).

Record client_impl := ClientImpl {
  _f_client_make_auth_query : std_function (connect_info -> outcome (binary_safe_string * connect_info));
  _f_client_deal_auth_reply : std_function (connect_info -> binary_safe_string -> outcome (bool * connect_info));
  _f_client_encode : std_function (connect_info -> client_query -> outcome binary_safe_string);
  _f_client_decode : std_function (connect_info -> binary_safe_string -> outcome client_query);
  _f_client_connection_close : std_function (connect_info -> outcome unit);
}.

Record server_impl := ServerImpl {
  _f_server_make_auth_reply :
    std_function (connect_info -> binary_safe_string -> outcome (binary_safe_string * bool * connect_info));
  _f_server_encode : std_function (connect_info -> client_query -> outcome binary_safe_string);
  _f_server_decode : std_function (connect_info -> binary_safe_string -> outcome client_query);
  _f_server_connection_close : std_function (connect_info -> outcome unit);
}.

Record module_interface := MI {
  client : client_impl;
  server : server_impl;
  so_handle : option string;
}.

(** [abandoned]: the handles of constructions that threw (a record of the
    model; the program has none). *)
Record proc := Proc { open : list string; abandoned : list string; objs : gmap nat module_interface }.

Definition start : proc := Proc [] [] ∅.

(** One count less. *)
Fixpoint remove_one (h : string) (l : list string) : option (list string) :=
  match l with
  | [] => None
  | x :: l => if decide (x = h) then Some l else cons x <$> remove_one h l
  end.

Section Linker.
(** What the file system holds. *)
Variable dlopen : string -> option dylib.
(** What a [std::function] holds after it was moved from, which ISO C++ leaves
    unspecified. *)
Variable moved : forall T, std_function T -> std_function T.

Definition sys_dlopen (filePath : string) : st proc (option dylib) := fun p =>
  match dlopen filePath with
  | None => (Ok None, p)
  | Some lib => (Ok (Some lib), Proc (filePath :: open p) (abandoned p) (objs p))
  end.

Definition dlclose (h : string) : st proc unit := fun p =>
  match remove_one h (open p) with
  | Some o => (Ok tt, Proc o (abandoned p) (objs p))
  | None => (Undefined DoubleFree, p)
  end.

Definition abandon (h : string) : st proc unit := fun p =>
  (Ok tt, Proc (open p) (h :: abandoned p) (objs p)).

(** [RLIB_IMPL_LOAD_DYLIB_SYMBOL_HELPER] *)
Definition load_symbol {T} (lib : dylib) (filePath funcname : string) (pf : T) : st proc (std_function T) :=
  if decide (funcname ∈ exported lib) then mret (Some (Code filePath pf))
  else
    _ ← abandon filePath;
    throw (runtime_error "Unable to locate symbol").

(** When a symbol is missing the file stays open. *)
Definition loadSo (filePath : string) : st proc module_interface :=
  handle ← sys_dlopen filePath;
  match handle with
  | None => throw (runtime_error "dlopen failed to open shared object")
  | Some lib =>
      let fns := dl_fns lib in
      c1 ← load_symbol lib filePath "client_make_auth_query" (f_client_make_auth_query fns);
      c2 ← load_symbol lib filePath "client_deal_auth_reply" (f_client_deal_auth_reply fns);
      c3 ← load_symbol lib filePath "client_encode" (f_client_encode fns);
      c4 ← load_symbol lib filePath "client_decode" (f_client_decode fns);
      c5 ← load_symbol lib filePath "client_connection_close" (f_client_connection_close fns);
      s1 ← load_symbol lib filePath "server_make_auth_reply" (f_server_make_auth_reply fns);
      s2 ← load_symbol lib filePath "server_encode" (f_server_encode fns);
      s3 ← load_symbol lib filePath "server_decode" (f_server_decode fns);
      s4 ← load_symbol lib filePath "server_connection_close" (f_server_connection_close fns);
      mret (MI (ClientImpl c1 c2 c3 c4 c5) (ServerImpl s1 s2 s3 s4) (Some filePath))
  end.

Definition object (x : nat) : st proc module_interface := fun p =>
  match objs p !! x with Some m => (Ok m, p) | None => (Undefined UseAfterFree, p) end.

Definition set_object (x : nat) (m : module_interface) : st proc unit := fun p =>
  (Ok tt, Proc (open p) (abandoned p) (<[x := m]> (objs p))).

Definition drop_object (x : nat) : st proc unit := fun p =>
  (Ok tt, Proc (open p) (abandoned p) (delete x (objs p))).

(** The constructor; an object whose constructor throws does not exist. *)
Definition construct (x : nat) (soPath : string) : st proc unit :=
  m ← loadSo soPath; set_object x m.

(** The move constructors of the two structures: the new object and what is left
    of the old one. *)
Definition client_impl_move (ano : client_impl) : client_impl * client_impl :=
  (ClientImpl (_f_client_make_auth_query ano) (_f_client_deal_auth_reply ano) (_f_client_encode ano)
     (_f_client_decode ano) (_f_client_connection_close ano),
   ClientImpl (moved _ (_f_client_make_auth_query ano)) (moved _ (_f_client_deal_auth_reply ano))
     (moved _ (_f_client_encode ano)) (moved _ (_f_client_decode ano)) (moved _ (_f_client_connection_close ano))).

Definition server_impl_move (ano : server_impl) : server_impl * server_impl :=
  (ServerImpl (_f_server_make_auth_reply ano) (_f_server_encode ano) (_f_server_decode ano)
     (_f_server_connection_close ano),
   ServerImpl (moved _ (_f_server_make_auth_reply ano)) (moved _ (_f_server_encode ano))
     (moved _ (_f_server_decode ano)) (moved _ (_f_server_connection_close ano))).

Definition move_construct (x ano : nat) : st proc unit :=
  m ← object ano;
  let c := client_impl_move (client m) in
  let s := server_impl_move (server m) in
  _ ← set_object ano (MI c.2 s.2 None);
  set_object x (MI c.1 s.1 (so_handle m)).

Definition destroy (x : nat) : st proc unit :=
  m ← object x;
  _ ← match so_handle m with Some h => dlclose h | None => mret tt end;
  drop_object x.

(** What a call through a [std::function] reaches: an empty one throws, and the
    code must be mapped. *)
Definition call {T} (f : std_function T) : st proc T :=
  match f with
  | None => throw (logic_error "bad_function_call")
  | Some c =>
      l ← asks open;
      if decide (home c ∈ l) then mret (code c) else lift (Undefined UseAfterFree)
  end.

(** The functions that the nine member functions of an object reach. *)
Definition functions (x : nat) : st proc module_fns :=
  m ← object x;
  c1 ← call (_f_client_make_auth_query (client m));
  c2 ← call (_f_client_deal_auth_reply (client m));
  c3 ← call (_f_client_encode (client m));
  c4 ← call (_f_client_decode (client m));
  c5 ← call (_f_client_connection_close (client m));
  s1 ← call (_f_server_make_auth_reply (server m));
  s2 ← call (_f_server_encode (server m));
  s3 ← call (_f_server_decode (server m));
  s4 ← call (_f_server_connection_close (server m));
  mret (Fns c1 c2 c3 c4 c5 s1 s2 s3 s4).

Inductive op :=
| Construct (x : nat) (soPath : string)
| MoveConstruct (x ano : nat)
| Destroy (x : nat).

(** A constructor runs on storage without an object. *)
Definition in_scope (o : op) (p : proc) : Prop :=
  match o with
  | Construct x _ => objs p !! x = None
  | MoveConstruct x ano => objs p !! x = None /\ is_Some (objs p !! ano)
  | Destroy x => is_Some (objs p !! x)
  end.

Definition exec (o : op) : st proc unit :=
  match o with
  | Construct x path => construct x path
  | MoveConstruct x ano => move_construct x ano
  | Destroy x => destroy x
  end.

(** One operation; the program may catch an exception and go on. *)
Inductive step (p : proc) : proc -> Prop :=
| step_ok o p' : in_scope o p -> exec o p = (Ok tt, p') -> step p p'
| step_throw o e p' : in_scope o p -> exec o p = (Throw e, p') -> step p p'.

Definition reachable (p : proc) : Prop := rtc step start p.

(** ** The invariant *)

Definition owned (m : gmap nat module_interface) : list string :=
  omap (fun x => so_handle x.2) (map_to_list m).

(** The structures that [loadSo] fills. *)
Definition client_of (h : string) (f : module_fns) : client_impl :=
  ClientImpl (Some (Code h (f_client_make_auth_query f))) (Some (Code h (f_client_deal_auth_reply f)))
    (Some (Code h (f_client_encode f))) (Some (Code h (f_client_decode f))) (Some (Code h (f_client_connection_close f))).
Definition server_of (h : string) (f : module_fns) : server_impl :=
  ServerImpl (Some (Code h (f_server_make_auth_reply f))) (Some (Code h (f_server_encode f)))
    (Some (Code h (f_server_decode f))) (Some (Code h (f_server_connection_close f))).

(** Functions and handle belong together. *)
Definition whole (m : module_interface) : Prop :=
  match so_handle m with
  | Some h => exists lib, dlopen h = Some lib /\ client m = client_of h (dl_fns lib) /\
                server m = server_of h (dl_fns lib) /\ Forall (fun n => n ∈ exported lib) required_symbols
  | None => True
  end.

Record inv (p : proc) : Prop := {
  inv_open : open p ≡ₚ owned (objs p) ++ abandoned p;
  inv_whole : forall x m, objs p !! x = Some m -> whole m;
}.

Definition handle1 (m : module_interface) : list string := match so_handle m with Some h => [h] | None => [] end.

Lemma owned_add (m : gmap nat module_interface) x o :
  m !! x = None -> owned (<[x := o]> m) ≡ₚ handle1 o ++ owned m.
Proof.
  intros H. unfold owned. rewrite map_to_list_insert by done. unfold handle1. cbn. by destruct (so_handle o).
Qed.

Lemma owned_delete (m : gmap nat module_interface) x o :
  m !! x = Some o -> owned m ≡ₚ handle1 o ++ owned (delete x m).
Proof.
  intros H. rewrite <- (insert_delete_id m x o H) at 1. by rewrite owned_add by apply lookup_delete_eq.
Qed.

Lemma owned_replace (m : gmap nat module_interface) x o o' :
  m !! x = Some o -> handle1 o ++ owned (<[x := o']> m) ≡ₚ handle1 o' ++ owned m.
Proof.
  intros H. rewrite (owned_delete m x o H), <- insert_delete_eq, owned_add by apply lookup_delete_eq.
  rewrite !(assoc_L (++)), (Permutation_app_comm (handle1 o)). done.
Qed.

Lemma remove_one_some h l : h ∈ l -> exists k, remove_one h l = Some k /\ l ≡ₚ h :: k.
Proof.
  induction l as [|x l IH]; cbn [remove_one]; [by intros ?%not_elem_of_nil|]. case_decide as E; [subst; eauto|].
  intros [->|Hl]%elem_of_cons; [done|]. destruct (IH Hl) as (k & -> & Hk). exists (x :: k). split; [done|].
  by rewrite Hk, Permutation_swap.
Qed.

(** How a construction ends. *)
Lemma loadSo_run path p :
  (exists e, loadSo path p = (Throw e, p) /\ dlopen path = None) \/
  (exists e, loadSo path p = (Throw e, Proc (path :: open p) (path :: abandoned p) (objs p))) \/
  (exists m, loadSo path p = (Ok m, Proc (path :: open p) (abandoned p) (objs p)) /\ whole m /\ so_handle m = Some path).
Proof.
  unfold loadSo, sys_dlopen, mbind, st_bind. destruct (dlopen path) as [lib|] eqn:El; [|left; eauto]. right.
  unfold load_symbol. repeat (case_decide; [|left; eexists; reflexivity]).
  right. eexists. split; [reflexivity|]. split; [|done]. exists lib. split_and!; try done. by repeat constructor.
Qed.

Lemma whole_moved m :
  whole m -> whole (MI (client_impl_move (client m)).1 (server_impl_move (server m)).1 (so_handle m)).
Proof. unfold whole. cbn. destruct (so_handle m); [|done]. intros (lib & El & -> & -> & Hf). by exists lib. Qed.

(** The nine calls through an object whose shared object is open. *)
Lemma functions_whole p x m h :
  objs p !! x = Some m -> so_handle m = Some h -> whole m -> h ∈ open p ->
  exists lib, dlopen h = Some lib /\ Forall (fun n => n ∈ exported lib) required_symbols /\
    functions x p = (Ok (dl_fns lib), p).
Proof.
  unfold whole. intros Hx -> (lib & El & Ec & Es & Hf) Hin. exists lib. split; [done|]. split; [done|].
  assert (Hc : forall T (f : T), call (Some (Code h f)) p = (Ok f, p)).
  { intros T f. unfold call, mbind, st_bind, asks. cbn [home]. by rewrite decide_True. }
  unfold functions. rewrite (bind_ok (object x) _ p m p) by (unfold object; by rewrite Hx). rewrite Ec, Es.
  cbn [client_of server_of _f_client_make_auth_query _f_client_deal_auth_reply _f_client_encode _f_client_decode
    _f_client_connection_close _f_server_make_auth_reply _f_server_encode _f_server_decode _f_server_connection_close].
  do 9 (rewrite (bind_ok _ _ _ _ _ (Hc _ _))). by destruct (dl_fns lib).
Qed.

Lemma exec_keeps o p :
  inv p -> in_scope o p ->
  exists p', inv p' /\ (exec o p = (Ok tt, p') \/ exists e, exec o p = (Throw e, p')).
Proof.
  intros [H1 H2] Hs. destruct o as [x path|x ano|x]; cbn [exec in_scope] in *.
  - unfold construct, mbind, st_bind.
    destruct (loadSo_run path p) as [(e & -> & _)|[(e & ->)|(m & -> & Hm & Hh)]].
    + exists p. split; [done|]. eauto.
    + eexists. split; [|right; eauto]. split; cbn; [|done]. rewrite H1. by rewrite Permutation_middle.
    + eexists. split; [|left; reflexivity]. split; cbn.
      * rewrite owned_add by done. unfold handle1. rewrite Hh. cbn. by rewrite H1.
      * intros y u. rewrite lookup_insert_Some. intros [[_ <-]|[_ Hy]]; [done|by eapply H2].
  - destruct Hs as [Hx [m Ha]]. unfold move_construct, object, mbind, st_bind. rewrite Ha.
    eexists. split; [|left; reflexivity]. assert (Hne : ano <> x) by congruence. split; cbn.
    + rewrite owned_add by (by rewrite lookup_insert_ne).
      pose proof (owned_replace (objs p) ano m (MI (client_impl_move (client m)).2 (server_impl_move (server m)).2 None) Ha) as Ho.
      cbn [handle1 so_handle app] in Ho. by rewrite H1, <- Ho.
    + intros y u. rewrite !lookup_insert_Some. intros [[_ <-]|[_ [[_ <-]|[_ Hy]]]]; [|done|by eapply H2].
      by apply whole_moved, (H2 ano).
  - destruct Hs as [m Hx]. unfold destroy, object, mbind, st_bind. rewrite Hx.
    assert (Hw : forall y u, delete x (objs p) !! y = Some u -> whole u).
    { intros y u [_ Hy]%lookup_delete_Some. by eapply H2. }
    pose proof (owned_delete _ _ _ Hx) as Ho. unfold handle1 in Ho. destruct (so_handle m) as [h|].
    + destruct (remove_one_some h (open p)) as (k & Ek & Hk).
      { rewrite H1, Ho. cbn. by left. }
      unfold dlclose. rewrite Ek. eexists. split; [|left; reflexivity]. split; cbn; [|done].
      rewrite H1, Ho in Hk. cbn in Hk. by apply Permutation_cons_inv in Hk as <-.
    + eexists. split; [|left; reflexivity]. split; cbn; [|done]. by rewrite H1, Ho.
Qed.

Lemma reachable_inv p : reachable p -> inv p.
Proof.
  intros H. unfold reachable in H. remember start as p0 eqn:E. assert (Hi : inv p0).
  { subst. split; [done|]. intros x m. cbn. by rewrite lookup_empty. }
  clear E. induction H as [p|p p1 p2 Hs _ IH]; [done|]. apply IH.
  destruct Hs as [o p' Hsc E|o e p' Hsc E]; destruct (exec_keeps o p Hi Hsc) as (q & Hq & [E'|[e' E']]); congruence.
Qed.

Lemma reachable_exec o p : reachable p -> in_scope o p -> reachable (exec o p).2.
Proof.
  intros Hr Hs. eapply rtc_r; [exact Hr|].
  destruct (exec_keeps o p (reachable_inv p Hr) Hs) as (p' & _ & [E|[e E]]); rewrite E;
    [by eapply step_ok|by eapply step_throw].
Qed.

(** C30: A module is closed once and not before its last use. Whatever
    constructions, moves and destructions of module objects the program makes,
    failing constructions included, every open count of a shared object belongs
    to one live object or to a construction that threw; no count is closed
    twice; through a live object that has a handle all five client and four server
    functions can be called and are those of its open shared object (nothing is
    said of calls through an object that was moved from, whose functions ISO C++
    leaves unspecified); when no object is left and no construction threw,
    nothing is open. *)
Theorem module_closed_once (p : proc) :
  reachable p ->
  open p ≡ₚ owned (objs p) ++ abandoned p /\
  (forall o, in_scope o p -> exists r p', exec o p = (r, p') /\ (r = Ok tt \/ exists e, r = Throw e)) /\
  (forall x m h, objs p !! x = Some m -> so_handle m = Some h ->
     exists lib, dlopen h = Some lib /\ Forall (fun n => n ∈ exported lib) required_symbols /\
       functions x p = (Ok (dl_fns lib), p)) /\
  (objs p = ∅ -> abandoned p = [] -> open p = []).
Proof.
  intros Hr. pose proof (reachable_inv p Hr) as Hi. pose proof Hi as [H1 H2]. split; [done|]. split; [|split].
  - intros o Ho. destruct (exec_keeps o p Hi Ho) as (p' & _ & [E|[e E]]); eauto 6.
  - intros x m h Hx Hh. apply (functions_whole p x m h Hx Hh (H2 _ _ Hx)).
    rewrite H1, (owned_delete _ _ _ Hx). unfold handle1. rewrite Hh. cbn. by left.
  - intros Ho Ha. rewrite Ho, Ha in H1. by apply Permutation_nil_r in H1.
Qed.

End Linker.

(** ** A program

    It loads a module, moves it into a tunnel and destroys the empty source. *)
Definition disk (path : string) : option dylib :=
  if decide (path = "m.so")%string then Some (Dylib required_symbols (SimpleProxy.simple_proxy (fun _ => 0)))
  else if decide (path = "old.so")%string then Some (Dylib ["client_encode"]%string (SimpleProxy.simple_proxy (fun _ => 0)))
  else None.

(** An implementation whose moved-from functions are empty. *)
Definition emptied (T : Type) (f : std_function T) : std_function T := None.

Fixpoint run_ops (ops : list op) (p : proc) : proc :=
  match ops with
  | [] => p
  | o :: ops => run_ops ops (exec disk emptied o p).2
  end.

Definition program : list op :=
  [Construct 0 "m.so"; Construct 1 "none.so"; Construct 1 "old.so"; MoveConstruct 1 0; Destroy 0].

Lemma program_reachable : reachable disk emptied (run_ops program start).
Proof.
  unfold program. cbn [run_ops].
  repeat (apply reachable_exec; [|first [reflexivity|split; [reflexivity|eexists; reflexivity]|eexists; reflexivity]]).
  apply rtc_refl.
Qed.

Lemma module_closed_once_witness :
  let p := run_ops program start in
  abandoned p = ["old.so"]%string /\ open p ≡ₚ ["m.so"; "old.so"]%string /\
  functions 1 p = (Ok (SimpleProxy.simple_proxy (fun _ => 0)), p).
Proof.
  destruct (module_closed_once disk emptied (run_ops program start) program_reachable) as (H1 & _ & H3 & _).
  split; [reflexivity|]. split; [exact H1|].
  destruct (H3 1%nat (MI (client_of "m.so" (SimpleProxy.simple_proxy (fun _ => 0)))
    (server_of "m.so" (SimpleProxy.simple_proxy (fun _ => 0))) (Some "m.so")) "m.so" eq_refl eq_refl) as (lib & E & _ & H).
  injection E as <-. exact H.
Defined.

End ModuleLife.
