(* ===== verification/FormatCache.v ===== *)
(** * The string streams behind formatting (native/src/lib/rlib/string.hpp)

    [to_string_by_sstream] and [_format_string_helper] keep one string stream
    each per thread and empty it before use; [RString.format_string] is the
    function they compute when nothing interferes.  Here the streams are state:
    [ss.str(std::string())] empties the buffer and keeps the error state,
    inserting a null C string sets the error state (as libstdc++ does), and the [operator<<] of an argument may
    itself format, on the same streams. *)

From S2P Require Import Prelude RString SockIO.
Import SockIO.

Open Scope Z_scope.

Module FormatCache.

(** ** The streams *)

Record sstream := Sstream { buf : bytes; bad : bool }.

(** [ss.str(std::string())] *)
Definition clear (s : sstream) : sstream := Sstream [] (bad s).
(** [ss << text]; a stream in the error state takes nothing. *)
Definition insert_text (t : bytes) (s : sstream) : sstream := if bad s then s else Sstream (buf s ++ t) (bad s).
(** [ss << p] with a null pointer to characters. *)
Definition insert_null (s : sstream) : sstream := Sstream (buf s) true.

(** The streams of a thread: [to_string_by_sstream_ss()] and
    [_format_string_helper_ss()]. *)
Record tls := Tls { to_string_ss : sstream; format_ss : sstream }.

Definition fresh_thread : tls := Tls (Sstream [] false) (Sstream [] false).

Definition on_to_string (f : sstream -> sstream) : st tls unit := fun s =>
  (Ok tt, Tls (f (to_string_ss s)) (format_ss s)).
Definition on_format (f : sstream -> sstream) : st tls unit := fun s =>
  (Ok tt, Tls (to_string_ss s) (f (format_ss s))).

(** What can be printed: a value whose [operator<<] writes a text, a null C
    string, a value whose [operator<<] writes the result of formatting. *)
#[warnings="-register-all"] Inductive printable :=
| Text (t : bytes)
| NullStr
| Nested (fmt : bytes) (args : list printable).

Section Convert.
Variable convert : printable -> st tls bytes.

(** [argsArr{to_string_by_sstream(args) ...}] *)
Fixpoint convert_all (args : list printable) : st tls (list bytes) :=
  match args with
  | [] => mret []
  | x :: args => t ← convert x; ts ← convert_all args; mret (t :: ts)
  end.

(** The stream is emptied before the arguments are converted. When the loop
    throws, the stream keeps what it had; the next call empties it. *)
Definition format_string_helper (fmt : bytes) (args : list printable) : st tls bytes :=
  _ ← on_format clear;
  argsArr ← convert_all args;
  ss ← asks (fun s => buf (format_ss s));
  r ← lift (RString.format_loop (S (length fmt)) fmt argsArr ss 0 0 0 false);
  _ ← on_format (fun s => Sstream r (bad s));
  mret r.
End Convert.

(** [ss << thing] *)
Fixpoint insert (x : printable) : st tls unit :=
  match x with
  | Text t => on_to_string (insert_text t)
  | NullStr => on_to_string insert_null
  | Nested fmt args =>
      r ← format_string_helper
            (fun y => _ ← on_to_string clear; _ ← insert y; asks (fun s => buf (to_string_ss s))) fmt args;
      on_to_string (insert_text r)
  end.

Definition to_string_by_sstream (thing : printable) : st tls bytes :=
  _ ← on_to_string clear;
  _ ← insert thing;
  asks (fun s => buf (to_string_ss s)).

Definition format_string (fmt : bytes) (args : list printable) : st tls bytes :=
  format_string_helper to_string_by_sstream fmt args.

(** ** The interfaces to formatting *)

(** [impl::formatter] and the literals: the array of a literal ends with a NUL,
    and only [_rs] takes its length. *)
Record formatter := Formatter { fmt : bytes }.
Definition formatter_call (f : formatter) (args : list printable) : st tls bytes := format_string (fmt f) args.
Definition literal_format (str : bytes) (len : nat) : formatter := Formatter (cstr (str ++ [0])).
Definition literal_rs (str : bytes) (len : nat) : bytes := take len str.

(** [rlib::string::format]: the new value of the string. *)
Definition string_format (this : bytes) (args : list printable) : st tls bytes :=
  r ← format_string this args; mret r.

(** ** Plain arguments *)

Definition texts (args : list bytes) : list printable := Text <$> args.

Lemma convert_text t s :
  bad (to_string_ss s) = false ->
  to_string_by_sstream (Text t) s = (Ok t, Tls (Sstream t false) (format_ss s)).
Proof.
  intros Hb. unfold to_string_by_sstream, mbind, st_bind, on_to_string, asks. cbn.
  unfold on_to_string, insert_text, clear. cbn. rewrite Hb. done.
Qed.

Lemma convert_texts args s :
  bad (to_string_ss s) = false ->
  exists b, convert_all to_string_by_sstream (texts args) s = (Ok args, Tls (Sstream b false) (format_ss s)).
Proof.
  revert s. induction args as [|t args IH]; intros s Hb; cbn [texts fmap list_fmap convert_all].
  - exists (buf (to_string_ss s)). destruct s as [[b x] f]. cbn in *. by subst.
  - unfold mbind, st_bind. rewrite convert_text by done.
    destruct (IH (Tls (Sstream t false) (format_ss s)) eq_refl) as [b E]. unfold texts in E. rewrite E. by exists b.
Qed.

(** What the stream already holds comes first. *)
Lemma format_loop_prefix fuel f args ss pos prev used esc :
  RString.format_loop fuel f args ss pos prev used esc =
  (r ← RString.format_loop fuel f args [] pos prev used esc; Ok (ss ++ r)).
Proof.
  revert ss pos prev used esc. induction fuel as [|fuel IH]; intros; cbn [RString.format_loop]; [done|].
  destruct (RString.find f RString.hole pos) as [p|].
  - case_match; [apply IH|]. destruct (RString.substr f prev (p - prev)) as [cut| | |]; run_ok; [|done..].
    destruct (if esc then _ else _) as [cut'| | |]; run_ok; [|done..].
    destruct (args !! used) as [a|]; [|done]. rewrite IH, (IH ([] ++ cut' ++ a)).
    destruct (RString.format_loop fuel f args [] (p + 2) (p + 2) (S used) esc); run_ok; [|done..].
    by rewrite app_nil_l, <- !app_assoc.
  - case_match; [done|]. by destruct (RString.substr f prev (length f)).
Qed.

(** A call with plain arguments, on streams whatever they hold. *)
Lemma format_texts f args s :
  bad (to_string_ss s) = false ->
  exists s', format_string f (texts args) s = (RString.format_string f args, s') /\ bad (to_string_ss s') = false.
Proof.
  intros Hb. unfold format_string, format_string_helper, mbind, st_bind. cbn -[RString.format_loop].
  destruct (convert_texts args (Tls (to_string_ss s) (clear (format_ss s))) Hb) as [b E]. rewrite E. cbn -[RString.format_loop].
  unfold RString.format_string, lift. destruct (RString.format_loop _ f args [] 0 0 0 false); eauto.
Qed.

(** A thread that formats: the results of its calls, exceptions included. *)
Fixpoint run_calls (calls : list (bytes * list printable)) (s : tls) : list (outcome bytes) :=
  match calls with
  | [] => []
  | (f, args) :: calls => let '(r, s) := format_string f args s in r :: run_calls calls s
  end.

(** C25: The cached streams are transparent. Whatever formatting calls with
    plain arguments a thread makes one after another, calls that throw halfway
    included, each call gives what a call on new streams gives: the text or the
    exception of [RString.format_string]. *)
Theorem cached_format_equiv (calls : list (bytes * list bytes)) :
  run_calls (prod_map id texts <$> calls) fresh_thread = (fun c => RString.format_string c.1 c.2) <$> calls.
Proof.
  assert (H : forall s, bad (to_string_ss s) = false ->
    run_calls (prod_map id texts <$> calls) s = (fun c => RString.format_string c.1 c.2) <$> calls); [|by apply H].
  induction calls as [|[f args] calls IH]; intros s Hb; [done|]. cbn [fmap list_fmap prod_map run_calls fst snd].
  destruct (format_texts f args s Hb) as (s' & E & Hb'). unfold id. rewrite E. f_equal. by apply IH.
Qed.

(** ** What interferes *)

(** Every insertion keeps the error state. *)
Lemma insert_bad x s o s' :
  bad (to_string_ss s) = true -> (forall f a, x <> Nested f a) -> insert x s = (o, s') ->
  o = Ok tt /\ to_string_ss s' = to_string_ss s /\ format_ss s' = format_ss s.
Proof.
  intros Hb Hx. destruct x as [t| |f a]; [| |by destruct (Hx f a)]; cbn; intros [= <- <-]; cbn.
  - unfold insert_text. by rewrite Hb.
  - unfold insert_null. destruct s as [[b x] g]. cbn in *. by subst.
Qed.

Lemma convert_bad args s :
  bad (to_string_ss s) = true -> Forall (fun x => forall f a, x <> Nested f a) args ->
  exists s', convert_all to_string_by_sstream args s = (Ok (replicate (length args) []), s') /\
    bad (to_string_ss s') = true /\ format_ss s' = format_ss s.
Proof.
  revert s. induction args as [|x args IH]; intros s Hb Hf; cbn [convert_all length replicate]; [eauto|].
  apply Forall_cons in Hf as [Hx Hf].
  destruct (insert x (Tls (clear (to_string_ss s)) (format_ss s))) as [o s1] eqn:E.
  destruct (insert_bad x (Tls (clear (to_string_ss s)) (format_ss s)) o s1 Hb Hx E) as (-> & E1 & E2). cbn in E1, E2.
  assert (Ec : to_string_by_sstream x s = (Ok [], s1)).
  { unfold to_string_by_sstream, mbind, st_bind, on_to_string, asks. by rewrite E, E1. }
  destruct (IH s1) as (s2 & E3 & Hb2 & Ef); [by rewrite E1|done|].
  unfold mbind, st_bind. rewrite Ec, E3. exists s2. split; [done|]. split; [done|]. congruence.
Qed.

(** One null C string silences the thread: afterwards every argument of every
    formatting call is printed as nothing. *)
Theorem null_silences f args s :
  bad (to_string_ss s) = true -> Forall (fun x => forall g a, x <> Nested g a) args ->
  exists s', format_string f args s = (RString.format_string f (replicate (length args) []), s') /\ bad (to_string_ss s') = true.
Proof.
  intros Hb Hf. unfold format_string, format_string_helper, mbind, st_bind. cbn -[RString.format_loop].
  destruct (convert_bad args (Tls (to_string_ss s) (clear (format_ss s))) Hb Hf) as (s' & E & Hb' & Ef). rewrite E. cbn -[RString.format_loop].
  rewrite Ef. cbn -[RString.format_loop]. unfold RString.format_string, lift.
  destruct (RString.format_loop _ f _ [] 0 0 0 false); eauto.
Qed.

Lemma null_silences_witness :
  exists s', format_string (bytes_of_string "len={}") [Text [53]] (Tls (Sstream [] true) (Sstream [] false))
    = (RString.format_string (bytes_of_string "len={}") [[]], s') /\ bad (to_string_ss s') = true.
Proof.
  apply (null_silences (bytes_of_string "len={}") [Text [53]] (Tls (Sstream [] true) (Sstream [] false))); [done|].
  constructor; [done|constructor].
Defined.

(** The message that names a missing symbol, with a null [dlerror()], and a later one. *)
Example null_then_empty :
  run_calls [(bytes_of_string "dlerror={}", [NullStr]); (bytes_of_string "len={}", [Text [53]])] fresh_thread =
    [Ok (bytes_of_string "dlerror="); Ok (bytes_of_string "len=")].
Proof. vm_compute. reflexivity. Qed.

(** An argument that formats inside its [operator<<] leaves its text in both
    streams. *)
Example nested_garbled :
  run_calls [(bytes_of_string "a{}", [Nested (bytes_of_string "x{}") [Text [49]]])] fresh_thread =
    [Ok (bytes_of_string "x1a1x1")].
Proof. vm_compute. reflexivity. Qed.

End FormatCache.
