(* ===== verification/Heap.v ===== *)
(** * Memory ownership (the [malloc] and [free] of modules/ and native/src/)

    The other files pass strings by value.  Here the same structures hold
    pointers into a heap of blocks, so that the agreement of modules/stdafx.h
    on who frees which string can be stated: a pointer is null, points into an
    allocated block, or is a string literal.  [free] of anything but a live
    allocation and every access to a released block are undefined.

    [sim] compares a computation with pointers with the computation on values
    that it implements: equal results, exceptions and effects on the rest of
    the state, and an undefined access on the left only where the values
    already have one, and then never a double free or a use after free. *)

From S2P Require Import Prelude SockIO.
From stdpp Require Import gmap.
Import SockIO.

Open Scope Z_scope.

Module Heap.

(** ** Pointers and structures *)

Inductive ptr :=
| NULL
| At (b : nat) (o : nat) (** byte [o] of block [b] *)
| Lit (s : bytes).       (** a string literal *)

#[global] Instance ptr_eq_dec : EqDecision ptr.
Proof. solve_decision. Defined.

Record hbss := Hbss { h_null_terminated : bool; h_length : Z; h_str : ptr }.

Record hconn := HConn {
  h_server_ip : bytes;
  h_server_port : Z;
  h_passphrase : hbss;
  h_connect_fd : Z;
  h_additional_info : ptr;
}.

Record hquery := HQuery { h_destination_ip : bytes; h_destination_port : Z; h_payload : hbss }.

Definition ptr_add (p : ptr) (n : nat) : ptr :=
  match p with NULL => NULL | At b o => At b (o + n) | Lit s => Lit (drop n s) end.

(** ** The heap: blocks of bytes, and the [connect_info] objects made by [new].
    Addresses are not reused, so a released block stays recognisable. *)
Record heap := Heap { blocks : gmap nat bytes; objs : gmap nat hconn; next : nat }.

Definition set_blocks (h : heap) (m : gmap nat bytes) : heap := Heap m (objs h) (next h).

Definition alloc (d : bytes) : st heap ptr := fun h =>
  (Ok (At (next h) 0), Heap (<[next h := d]> (blocks h)) (objs h) (S (next h))).

Definition hmalloc (junk : nat -> Z) (n : Z) : st heap ptr := alloc (malloc junk (Z.to_nat n)).
Definition hcalloc (n : Z) : st heap ptr := alloc (replicate (Z.to_nat n) 0).

Definition free (p : ptr) : st heap unit := fun h =>
  match p with
  | NULL => (Ok tt, h)
  | At b O => match blocks h !! b with
              | Some _ => (Ok tt, set_blocks h (delete b (blocks h)))
              | None => (Undefined DoubleFree, h)
              end
  | _ => (Undefined DoubleFree, h)
  end.

(** The bytes from [p] to the end of its block. *)
Definition contents (p : ptr) : st heap bytes := fun h =>
  match p with
  | NULL => (Undefined NullDeref, h)
  | At b o => match blocks h !! b with
              | Some d => (Ok (drop o d), h)
              | None => (Undefined UseAfterFree, h)
              end
  | Lit s => (Ok s, h)
  end.

Definition hread (p : ptr) (off n : nat) : st heap bytes :=
  d ← contents p; lift (mem_read d off n).

Definition hwrite (p : ptr) (off : nat) (s : bytes) : st heap unit := fun h =>
  match p with
  | NULL => (Undefined NullDeref, h)
  | At b o => match blocks h !! b with
              | Some d => match mem_write d (o + off) s with
                          | Ok d' => (Ok tt, set_blocks h (<[b := d']> (blocks h)))
                          | _ => (Undefined OobWrite, h)
                          end
              | None => (Undefined UseAfterFree, h)
              end
  | Lit _ => (Undefined OobWrite, h)
  end.

(** [new] and [delete] of a [connect_info]; its fields. *)
Definition new_conn (c : hconn) : st heap nat := fun h =>
  (Ok (next h), Heap (blocks h) (<[next h := c]> (objs h)) (S (next h))).

Definition delete_conn (o : nat) : st heap unit := fun h =>
  match objs h !! o with
  | Some _ => (Ok tt, Heap (blocks h) (delete o (objs h)) (next h))
  | None => (Undefined DoubleFree, h)
  end.

Definition get_conn (o : nat) : st heap hconn := fun h =>
  match objs h !! o with Some c => (Ok c, h) | None => (Undefined UseAfterFree, h) end.

Definition put_conn (o : nat) (c : hconn) : st heap unit := fun h =>
  match objs h !! o with
  | Some _ => (Ok tt, Heap (blocks h) (<[o := c]> (objs h)) (next h))
  | None => (Undefined UseAfterFree, h)
  end.

(** Every allocation lies below the next address. *)
Definition wf (h : heap) : Prop :=
  (forall b d, blocks h !! b = Some d -> (b < next h)%nat) /\
  (forall o c, objs h !! o = Some c -> (o < next h)%nat).

(** [h'] is reached from [h] by replacing the blocks with [m]. *)
Definition heap_to (h : heap) (m : gmap nat bytes) (h' : heap) : Prop :=
  blocks h' = m /\ objs h' = objs h /\ (next h <= next h')%nat /\ wf h'.

(** ** Simulation *)

(** The errors of ownership. *)
Definition ownership_error (u : ub) : bool :=
  match u with DoubleFree | UseAfterFree => true | _ => false end.

Definition sim {W' W A' A} (m' : st W' A') (m : st W A) (s' : W') (s : W)
    (Q : A' -> A -> W' -> W -> Prop) (E : W' -> W -> Prop) : Prop :=
  match m s with
  | (Ok a, t) => exists a' t', m' s' = (Ok a', t') /\ Q a' a t' t
  | (Throw e, t) => exists t', m' s' = (Throw e, t') /\ E t' t
  | (Undefined _, _) => exists u t', m' s' = (Undefined u, t') /\ ownership_error u = false
  | (Blocked, _) => exists t', m' s' = (Blocked, t')
  end.

(** Against a function on values. *)
Definition simo {A' A} (m' : st heap A') (o : outcome A) (h : heap) (Q : A' -> A -> heap -> Prop) : Prop :=
  sim m' (lift o) h tt (fun a' a h' _ => Q a' a h') (fun _ _ => False).

Section Rules.
Context {W' W : Type}.

Lemma sim_ret {A' A} (a' : A') (a : A) (s' : W') (s : W) (Q : A' -> A -> W' -> W -> Prop) (E : W' -> W -> Prop) :
  Q a' a s' s -> sim (mret a') (mret a) s' s Q E.
Proof. intros H. unfold sim. cbn. eauto. Qed.

Lemma sim_bind {A' A B' B} (m' : st W' A') (m : st W A) (k' : A' -> st W' B') (k : A -> st W B) s' s R
    (Q : B' -> B -> W' -> W -> Prop) E :
  sim m' m s' s R E ->
  (forall a' a t' t, R a' a t' t -> sim (k' a') (k a) t' t Q E) ->
  sim (m' ≫= k') (m ≫= k) s' s Q E.
Proof.
  unfold sim. intros H1 H2. unfold mbind, st_bind. destruct (m s) as [[a|e|u|] t].
  - destruct H1 as (a' & t' & -> & HR). by apply H2.
  - destruct H1 as (t' & -> & HE). eauto.
  - destruct H1 as (u' & t' & -> & Hu). eauto.
  - destruct H1 as (t' & ->). eauto.
Qed.

(** A step of the left side alone. *)
Lemma sim_left {A' A B'} (m' : st W' A') (k' : A' -> st W' B') (m : st W A) s' s a' t'
    (Q : B' -> A -> W' -> W -> Prop) E :
  m' s' = (Ok a', t') -> sim (k' a') m t' s Q E -> sim (m' ≫= k') m s' s Q E.
Proof. intros H1 H2. unfold sim in *. unfold mbind, st_bind. by rewrite H1. Qed.

Lemma sim_right {A' A B} (m' : st W' B) (m : st W A) (k : A -> st W A') s' s a t
    (Q : B -> A' -> W' -> W -> Prop) E :
  m s = (Ok a, t) -> sim m' (k a) s' t Q E -> sim m' (m ≫= k) s' s Q E.
Proof. intros H1 H2. unfold sim in *. unfold mbind, st_bind. by rewrite H1. Qed.

Lemma sim_conseq {A' A} (m' : st W' A') (m : st W A) s' s (Q Q' : A' -> A -> W' -> W -> Prop) (E E' : W' -> W -> Prop) :
  sim m' m s' s Q E -> (forall a' a t' t, Q a' a t' t -> Q' a' a t' t) ->
  (forall t' t, E t' t -> E' t' t) -> sim m' m s' s Q' E'.
Proof.
  unfold sim. intros H HQ HE. destruct (m s) as [[a|e|u|] t].
  - destruct H as (a' & t' & ? & ?). eauto.
  - destruct H as (t' & ? & ?). eauto.
  - done.
  - done.
Qed.

Lemma sim_if {A' A} (b : bool) (m1' m2' : st W' A') (m1 m2 : st W A) s' s Q E :
  (b = true -> sim m1' m1 s' s Q E) -> (b = false -> sim m2' m2 s' s Q E) ->
  sim (if b then m1' else m2') (if b then m1 else m2) s' s Q E.
Proof. destruct b; auto. Qed.

Lemma sim_throw {A' A} e s' s (Q : A' -> A -> W' -> W -> Prop) (E : W' -> W -> Prop) :
  E s' s -> sim (throw e) (throw e) s' s Q E.
Proof. intros H. unfold sim, throw, lift. eauto. Qed.

(** A computation on values made by both sides. *)
Lemma sim_lift {A} (o : outcome A) s' s (Q : A -> A -> W' -> W -> Prop) (E : W' -> W -> Prop) :
  (forall a, o = Ok a -> Q a a s' s) -> (forall e, o = Throw e -> E s' s) ->
  (forall u, o = Undefined u -> ownership_error u = false) ->
  sim (lift o) (lift o) s' s Q E.
Proof. intros HQ HE HU. unfold sim, lift. destruct o; eauto. Qed.

Lemma sim_noexcept {A' A} (m' : st W' A') (m : st W A) s' s Q E0 E :
  sim m' m s' s Q E0 -> sim (noexcept m') (noexcept m) s' s Q E.
Proof.
  unfold sim, noexcept. destruct (m s) as [[a|e|u|] t].
  - intros (a' & t' & -> & HQ). eauto.
  - intros (t' & -> & _). eauto.
  - intros (u' & t' & -> & Hu). eauto.
  - intros (t' & ->). eauto.
Qed.

(** A guard of the left side that releases memory. *)
Lemma sim_defer_left {A' A} (g : st W' unit) (m' : st W' A') (m : st W A) s' s Q0 E0
    (Q : A' -> A -> W' -> W -> Prop) (E : W' -> W -> Prop) :
  sim m' m s' s Q0 E0 ->
  (forall a' a t' t, Q0 a' a t' t -> exists t1, g t' = (Ok tt, t1) /\ Q a' a t1 t) ->
  (forall t' t, E0 t' t -> exists t1, g t' = (Ok tt, t1) /\ E t1 t) ->
  sim (defer g m') m s' s Q E.
Proof.
  unfold sim, defer. intros H HQ HE. destruct (m s) as [[a|e|u|] t].
  - destruct H as (a' & t' & -> & HR). destruct (HQ _ _ _ _ HR) as (t1 & G & H1).
    rewrite (bind_ok _ _ _ _ _ (noexcept_ok _ _ _ _ G)). cbn. eauto.
  - destruct H as (t' & -> & HR). destruct (HE _ _ HR) as (t1 & G & H1).
    rewrite (bind_ok _ _ _ _ _ (noexcept_ok _ _ _ _ G)). unfold throw, lift. eauto.
  - destruct H as (u' & t' & -> & Hu). eauto.
  - destruct H as (t' & ->). eauto.
Qed.

(** Guards on both sides. *)
Lemma sim_defer {A' A} (g' : st W' unit) (g : st W unit) (m' : st W' A') (m : st W A) s' s Q0 E0
    (Q : A' -> A -> W' -> W -> Prop) (E : W' -> W -> Prop) :
  sim m' m s' s Q0 E0 ->
  (forall a' a t' t, Q0 a' a t' t -> sim g' g t' t (fun _ _ r' r => Q a' a r' r) E) ->
  (forall t' t, E0 t' t -> sim g' g t' t (fun _ _ r' r => E r' r) E) ->
  sim (defer g' m') (defer g m) s' s Q E.
Proof.
  unfold sim at 1 4. unfold defer. intros H HQ HE. destruct (m s) as [[a|e|u|] t].
  - destruct H as (a' & t' & -> & HR).
    apply (sim_bind (noexcept g') (noexcept g) (fun _ => mret a') (fun _ => mret a) t' t _ Q E (sim_noexcept _ _ _ _ _ _ _ (HQ _ _ _ _ HR))).
    intros. by apply sim_ret.
  - destruct H as (t' & -> & HR).
    apply (sim_bind (noexcept g') (noexcept g) (fun _ => throw e) (fun _ => throw e) t' t _ Q E (sim_noexcept _ _ _ _ _ _ _ (HE _ _ HR))).
    intros. by apply sim_throw.
  - destruct H as (u' & t' & -> & Hu). eauto.
  - destruct H as (t' & ->). eauto.
Qed.

Lemma sim_try_catch {A' A} (m' : st W' A') (m : st W A) h' h s' s Q E0 E :
  sim m' m s' s Q E0 -> (forall e t' t, E0 t' t -> sim (h' e) (h e) t' t Q E) ->
  sim (try_catch m' h') (try_catch m h) s' s Q E.
Proof.
  unfold sim at 1 3. unfold try_catch. intros H HE. destruct (m s) as [[a|e|u|] t].
  - destruct H as (a' & t' & -> & HR). eauto.
  - destruct H as (t' & -> & HR). by apply HE.
  - destruct H as (u' & t' & -> & Hu). eauto.
  - destruct H as (t' & ->). eauto.
Qed.
End Rules.

Lemma simo_bind {A' A B' B} (m' : st heap A') (o : outcome A) (k' : A' -> st heap B') (k : A -> outcome B) h R
    (Q : B' -> B -> heap -> Prop) :
  simo m' o h R -> (forall a' a h', R a' a h' -> simo (k' a') (k a) h' Q) ->
  simo (m' ≫= k') (o ≫= k) h Q.
Proof.
  intros H1 H2. unfold simo in *.
  assert (H : sim (m' ≫= k') (lift o ≫= (fun a => lift (k a))) h tt (fun a' a h' _ => Q a' a h') (fun _ _ => False)).
  { eapply sim_bind; [exact H1|]. intros a' a t' [] HR. by apply H2. }
  unfold sim in *. unfold lift, mbind, st_bind, outcome_bind in *. by destruct o.
Qed.

Lemma simo_left {A' A B'} (m' : st heap A') (k' : A' -> st heap B') (o : outcome A) h a' h' Q :
  m' h = (Ok a', h') -> simo (k' a') o h' Q -> simo (m' ≫= k') o h Q.
Proof. apply sim_left. Qed.

Lemma simo_ret {A' A} (a' : A') (a : A) h (Q : A' -> A -> heap -> Prop) :
  Q a' a h -> simo (mret a') (Ok a) h Q.
Proof. intros H. unfold simo, sim, lift. cbn. eauto. Qed.

Lemma simo_conseq {A' A} (m' : st heap A') (o : outcome A) h (Q Q' : A' -> A -> heap -> Prop) :
  simo m' o h Q -> (forall a' a h', Q a' a h' -> Q' a' a h') -> simo m' o h Q'.
Proof. intros H HQ. eapply sim_conseq; [exact H|eauto|done]. Qed.

(** A computation on values. *)
Lemma simo_lift {A} (o : outcome A) h (Q : A -> A -> heap -> Prop) :
  (forall a, o = Ok a -> Q a a h) -> (forall e, o <> Throw e) ->
  (forall u, o = Undefined u -> ownership_error u = false) -> simo (lift o) o h Q.
Proof. intros HQ HT HU. apply sim_lift; auto. Qed.

(** ** Footprints *)

(** What a pointer and the value it stands for have to do with each other. *)
Definition points (m : gmap nat bytes) (p : ptr) (v : option bytes) : Prop :=
  match p, v with
  | NULL, None => True
  | At b O, Some d => m !! b = Some d
  | _, _ => False
  end.

Definition rm (p : ptr) (m : gmap nat bytes) : gmap nat bytes :=
  match p with At b _ => delete b m | _ => m end.

Definition put (p : ptr) (v : option bytes) (m : gmap nat bytes) : gmap nat bytes :=
  match p, v with At b _, Some d => <[b := d]> m | _, _ => m end.

(** [p] and [v] are both null or both not, and [p] does not point into [m]. *)
Definition fresh_for (m : gmap nat bytes) (p : ptr) (v : option bytes) : Prop :=
  match p, v with
  | NULL, None => True
  | At b O, Some _ => m !! b = None
  | _, _ => False
  end.

Definition apart (p q : ptr) : Prop :=
  match p, q with At b _, At c _ => b <> c | _, _ => True end.

(** [p] can be read and shows the bytes [d]. *)
Definition reads (m : gmap nat bytes) (p : ptr) (d : bytes) : Prop :=
  match p with
  | NULL => False
  | At b o => exists d0, m !! b = Some d0 /\ d = drop o d0
  | Lit s => d = s
  end.

Lemma points_reads m p d : points m p (Some d) -> reads m p d.
Proof. destruct p as [|b [|o]|s]; cbn; try done. intros H. exists d. by rewrite drop_0. Qed.

Lemma reads_add m p d n : reads m p d -> reads m (ptr_add p n) (drop n d).
Proof.
  destruct p as [|b o|s]; cbn; [done| |by intros ->].
  intros (d0 & H & ->). exists d0. by rewrite drop_drop.
Qed.

Lemma apart_sym p q : apart p q -> apart q p.
Proof. destruct p, q; cbn; auto. Qed.

Lemma fresh_apart m p v q w : fresh_for m p v -> points m q w -> apart p q.
Proof. destruct p as [|b [|o]|s], q as [|c [|o']|s'], v, w; cbn; try done. congruence. Qed.

Lemma points_rm m p q v : apart p q -> points m q v -> points (rm p m) q v.
Proof.
  destruct p as [|b o|s], q as [|c [|o']|s'], v; cbn; try done.
  intros. by rewrite lookup_delete_ne.
Qed.

Lemma points_put m p d q v : apart p q -> points m q v -> points (put p d m) q v.
Proof.
  destruct p as [|b o|s], q as [|c [|o']|s'], v, d; cbn; try done.
  intros. by rewrite lookup_insert_ne.
Qed.

Lemma put_points m p v : fresh_for m p v -> points (put p v m) p v.
Proof. destruct p as [|b [|o]|s], v; cbn; try done. intros _. by rewrite lookup_insert_eq. Qed.

Lemma rm_put m p v : fresh_for m p v -> rm p (put p v m) = m.
Proof. destruct p as [|b [|o]|s], v; cbn; try done. intros. by apply delete_insert_id. Qed.

Lemma rm_put_apart m p q v : apart p q -> rm p (put q v m) = put q v (rm p m).
Proof. destruct p as [|b o|s], q as [|c o'|s'], v; cbn; try done. intros. by rewrite delete_insert_ne. Qed.

Lemma fresh_rm m p q v : fresh_for m q v -> fresh_for (rm p m) q v.
Proof.
  destruct p as [|b o|s], q as [|c [|o']|s'], v; cbn; try done.
  intros. rewrite lookup_delete_None. auto.
Qed.

Lemma fresh_put_apart m p v q w : fresh_for (put p v m) q w -> fresh_for m p v -> fresh_for m q w /\ apart p q.
Proof.
  destruct p as [|b [|o]|s], q as [|c [|o']|s'], v, w; cbn; try done.
  intros H _. apply lookup_insert_None in H as [? ?]. done.
Qed.

(** ** Steps *)

Lemma contents_eq h p d : reads (blocks h) p d -> contents p h = (Ok d, h).
Proof.
  destruct p as [|b o|s]; cbn; [done| |by intros ->]. intros (d0 & H & ->). by rewrite H.
Qed.

Lemma hread_eq h p d off n : reads (blocks h) p d -> hread p off n h = (mem_read d off n, h).
Proof.
  intros H. unfold hread, mbind, st_bind. rewrite (contents_eq _ _ _ H). unfold lift.
  by destruct (mem_read d off n).
Qed.

Lemma mem_read_no_throw d off n e : mem_read d off n <> Throw e.
Proof. unfold mem_read. by case_decide. Qed.

Lemma mem_read_benign d off n u : mem_read d off n = Undefined u -> ownership_error u = false.
Proof. unfold mem_read. case_decide; [done|]. by intros [= <-]. Qed.

Lemma mem_write_no_throw d off s e : mem_write d off s <> Throw e.
Proof. unfold mem_write. by case_decide. Qed.

Lemma mem_write_benign d off s u : mem_write d off s = Undefined u -> ownership_error u = false.
Proof. unfold mem_write. case_decide; [done|]. by intros [= <-]. Qed.

(** Reading on both sides. *)
Lemma simo_read h p d off n :
  reads (blocks h) p d ->
  simo (hread p off n) (mem_read d off n) h (fun s' s h' => s' = s /\ h' = h /\ mem_read d off n = Ok s).
Proof.
  intros H. unfold simo, sim, lift. rewrite (hread_eq _ _ _ _ _ H).
  destruct (mem_read d off n) as [s|e|u|] eqn:Er; eauto 6.
  - by destruct (mem_read_no_throw d off n e).
  - eauto using mem_read_benign.
Qed.

(** The right side ends where the left side goes on. *)
Lemma simo_map {A' A B'} (m' : st heap A') (o : outcome A) (k' : A' -> st heap B') h R (Q : B' -> A -> heap -> Prop) :
  simo m' o h R -> (forall a' a h', R a' a h' -> simo (k' a') (Ok a) h' Q) -> simo (m' ≫= k') o h Q.
Proof.
  intros H1 H2. pose proof (simo_bind m' o k' Ok h R Q H1 H2) as H.
  unfold simo, sim, lift in *. by destruct o.
Qed.

(** The left side ends where the right side goes on. *)
Lemma simo_map_r {A' A B} (m' : st heap A') (o : outcome A) (k : A -> outcome B) h R (Q : A' -> B -> heap -> Prop) :
  simo m' o h R -> (forall a' a h', R a' a h' -> exists b, k a = Ok b /\ Q a' b h') -> simo m' (o ≫= k) h Q.
Proof.
  intros H1 H2. unfold simo, sim, lift in *. destruct o as [a|e|u|]; cbn; try done.
  destruct H1 as (a' & t' & E & HR). destruct (H2 _ _ _ HR) as (b & -> & HQ). eauto.
Qed.

(** The left side ends. *)
Lemma simo_done {A' A} (m' : st heap A') (a : A) h a' h' (Q : A' -> A -> heap -> Prop) :
  m' h = (Ok a', h') -> Q a' a h' -> simo m' (Ok a) h Q.
Proof. intros H1 H2. unfold simo, sim, lift. eauto. Qed.

(** A null pointer on both sides. *)
Lemma simo_null {A' A} (k : bytes -> st heap A') h (Q : A' -> A -> heap -> Prop) :
  simo (contents NULL ≫= k) (Undefined NullDeref) h Q.
Proof. unfold simo, sim, lift. cbn. eauto. Qed.

(** Writing the block [b] on the left, the buffer [d] on the right. *)
Lemma simo_write h b d off s :
  blocks h !! b = Some d ->
  simo (hwrite (At b 0) off s) (mem_write d off s) h
    (fun _ d' h' => h' = set_blocks h (<[b := d']> (blocks h)) /\ mem_write d off s = Ok d').
Proof.
  intros H. unfold simo, sim, lift, hwrite. rewrite H. cbn [Nat.add].
  destruct (mem_write d off s) as [d'|e|u|] eqn:Ew; eauto 6.
  - by destruct (mem_write_no_throw d off s e).
  - unfold mem_write in Ew. by case_decide.
Qed.

Lemma hwrite_eq h b d d' off s :
  blocks h !! b = Some d -> mem_write d off s = Ok d' ->
  hwrite (At b 0) off s h = (Ok tt, set_blocks h (<[b := d']> (blocks h))).
Proof. intros H Ew. unfold hwrite. rewrite H. cbn [Nat.add]. by rewrite Ew. Qed.

Lemma free_eq h p v : points (blocks h) p v -> free p h = (Ok tt, set_blocks h (rm p (blocks h))).
Proof.
  destruct p as [|b [|o]|s], v; cbn; try done; [by destruct h|].
  intros H. by rewrite H.
Qed.

(** ** Well-formedness *)

Lemma heap_to_refl h : wf h -> heap_to h (blocks h) h.
Proof. done. Qed.

Lemma wf_fresh h d : wf h -> fresh_for (blocks h) (At (next h) 0) (Some d).
Proof.
  intros [H _]. cbn. destruct (blocks h !! next h) as [d'|] eqn:E; [|done].
  apply H in E. lia.
Qed.

Lemma alloc_to h d : wf h -> heap_to h (put (At (next h) 0) (Some d) (blocks h)) (alloc d h).2.
Proof.
  intros [H1 H2]. cbn. split; [done|]. split; [done|]. split; [cbn; lia|]. split; cbn.
  - intros b d'. rewrite lookup_insert_Some. intros [[<- _]|[_ E]]; [lia|]. apply H1 in E. lia.
  - intros o c E. apply H2 in E. lia.
Qed.

(** A step that stays among known addresses. *)
Lemma set_blocks_to h h' m m' :
  heap_to h m h' -> (forall b d, m' !! b = Some d -> is_Some (m !! b)) ->
  heap_to h m' (set_blocks h' m').
Proof.
  intros (E1 & E2 & E3 & W1 & W2) Hm. split; [done|]. split; [done|]. split; [done|]. split.
  - cbn. intros b d E. destruct (Hm _ _ E) as [d' E']. rewrite <- E1 in E'. by apply W1 in E'.
  - cbn. exact W2.
Qed.

Lemma heap_to_trans h1 m1 h2 m2 h3 : heap_to h1 m1 h2 -> heap_to h2 m2 h3 -> heap_to h1 m2 h3.
Proof.
  intros (E1 & E2 & E3 & W) (F1 & F2 & F3 & W'). split; [done|]. split; [congruence|].
  split; [lia|done].
Qed.

Lemma heap_to_eq h m m' h' : m = m' -> heap_to h m h' -> heap_to h m' h'.
Proof. by intros ->. Qed.

(** A block that was just allocated and then written. *)
Definition upd (h : heap) (b : nat) (d : bytes) : heap := set_blocks h (<[b := d]> (blocks h)).

Lemma upd_upd h b d d' : upd (upd h b d) b d' = upd h b d'.
Proof. unfold upd, set_blocks. cbn. by rewrite insert_insert_eq. Qed.

Lemma upd_lookup h b d : blocks (upd h b d) !! b = Some d.
Proof. cbn. apply lookup_insert_eq. Qed.

Lemma alloc_upd h d d' : upd (alloc d h).2 (next h) d' = (alloc d' h).2.
Proof. unfold upd, set_blocks, alloc. cbn. by rewrite insert_insert_eq. Qed.

Lemma points_block m b d : m !! b = Some d -> points m (At b 0) (Some d).
Proof. done. Qed.

Lemma reads_block m b d : m !! b = Some d -> reads m (At b 0) d.
Proof. intros H. by apply points_reads. Qed.

Lemma reads_put m p d q v : apart p q -> reads m q v -> reads (put p d m) q v.
Proof.
  destruct p as [|b o|s], q as [|c o'|s'], d; cbn; try done.
  intros Hn (d0 & H & ->). exists d0. by rewrite lookup_insert_ne.
Qed.

Lemma reads_alloc h d p v : wf h -> reads (blocks h) p v -> reads (blocks (alloc d h).2) p v.
Proof.
  intros Hw H. apply (reads_put _ (At (next h) 0) (Some d)); [|done].
  pose proof (wf_fresh h d Hw) as Hf. destruct p as [|b o|s]; cbn in *; try done.
  destruct H as (d0 & H & _). congruence.
Qed.

Lemma points_alloc h d p v : wf h -> points (blocks h) p v -> points (blocks (alloc d h).2) p v.
Proof.
  intros Hw H. apply (points_put _ (At (next h) 0) (Some d)); [|done].
  eapply fresh_apart; [by apply wf_fresh|exact H].
  Unshelve. exact d.
Qed.

Lemma alloc_wf h d : wf h -> wf (alloc d h).2.
Proof. intros H. apply (alloc_to h d H). Qed.

Lemma alloc_lookup h d : blocks (alloc d h).2 !! next h = Some d.
Proof. cbn. apply lookup_insert_eq. Qed.

Lemma hwrite_alloc h d d' off s :
  mem_write d off s = Ok d' -> hwrite (At (next h) 0) off s (alloc d h).2 = (Ok tt, (alloc d' h).2).
Proof.
  intros E. rewrite (hwrite_eq _ _ _ _ _ _ (alloc_lookup h d) E).
  change (set_blocks _ _) with (upd (alloc d h).2 (next h) d'). by rewrite alloc_upd.
Qed.

(** Writing a block that was just allocated. *)
Lemma simo_write_alloc h d off s :
  simo (hwrite (At (next h) 0) off s) (mem_write d off s) (alloc d h).2
    (fun _ d' h' => h' = (alloc d' h).2 /\ mem_write d off s = Ok d').
Proof.
  eapply simo_conseq; [apply simo_write, alloc_lookup|]. intros _ d' h' [-> E]. split; [|done].
  apply alloc_upd.
Qed.

Lemma alloc_free h d : wf h -> heap_to h (blocks h) (set_blocks (alloc d h).2 (rm (At (next h) 0) (blocks (alloc d h).2))).
Proof.
  intros Hw. pose proof (alloc_to h d Hw) as Ht. eapply heap_to_eq; [|eapply set_blocks_to; [exact Ht|]].
  - change (blocks (alloc d h).2) with (put (At (next h) 0) (Some d) (blocks h)).
    apply rm_put. by apply (wf_fresh h d).
  - intros b d'. cbn. rewrite lookup_delete_Some. intros [Hn E]. eauto.
Qed.

Lemma free_to h m h' p v :
  heap_to h m h' -> points m p v ->
  exists h'', free p h' = (Ok tt, h'') /\ heap_to h (rm p m) h''.
Proof.
  intros Ht Hp. pose proof Ht as (E & _). exists (set_blocks h' (rm p m)). split.
  - rewrite <- E in Hp |- *. by apply (free_eq h' p v).
  - eapply set_blocks_to; [exact Ht|]. destruct p as [|b o|s]; cbn; eauto.
    intros c d. rewrite lookup_delete_Some. intros [_ ?]. eauto.
Qed.

Lemma mem_write_all (g s : bytes) : length s = length g -> mem_write g 0 s = Ok s.
Proof.
  intros H. rewrite <- (app_nil_r g), mem_write_head by done. by rewrite app_nil_r.
Qed.

Lemma mem_read_length d off n s : mem_read d off n = Ok s -> length s = n.
Proof.
  unfold mem_read. case_decide; [|done]. intros [= <-]. rewrite length_take, length_drop. lia.
Qed.

Lemma put_comm m p v q w : apart p q -> put p v (put q w m) = put q w (put p v m).
Proof.
  destruct p as [|b o|s], q as [|c o'|s'], v, w; cbn; try done. intros. by rewrite insert_insert_ne.
Qed.

Lemma reads_upd h b d p v : apart (At b 0) p -> reads (blocks h) p v -> reads (blocks (upd h b d)) p v.
Proof. intros. by apply (reads_put _ (At b 0) (Some d)). Qed.

Lemma alloc_apart h p v : wf h -> reads (blocks h) p v -> apart (At (next h) 0) p.
Proof.
  intros Hw H. pose proof (wf_fresh h [] Hw) as Hf. destruct p as [|b o|s]; cbn in *; try done.
  destruct H as (d0 & H & _). congruence.
Qed.

(** Writing a block that is known to be live. *)
Lemma simo_write_upd h b d off s :
  blocks h !! b = Some d ->
  simo (hwrite (At b 0) off s) (mem_write d off s) h (fun _ d' h' => h' = upd h b d').
Proof. intros H. eapply simo_conseq; [by apply simo_write|]. by intros ? ? ? [-> _]. Qed.

Lemma upd_to' h m h' b d :
  heap_to h m h' -> is_Some (m !! b) -> heap_to h (put (At b 0) (Some d) m) (upd h' b d).
Proof.
  intros Ht Hb. pose proof Ht as (<- & _). eapply set_blocks_to; [exact Ht|]. intros c d'. cbn.
  rewrite lookup_insert_Some. intros [[<- _]|[_ ?]]; eauto.
Qed.

(** Releasing a temporary block after another block was written. *)
Lemma free_temp h m h1 p v t w :
  heap_to h (put p v (put t w m)) h1 -> fresh_for m t w -> apart t p ->
  exists h2, free t h1 = (Ok tt, h2) /\ heap_to h (put p v m) h2.
Proof.
  intros Ht Hf Ha. destruct (free_to _ _ _ t w Ht) as (h2 & E & H2).
  - apply points_put; [by apply apart_sym|]. by apply put_points.
  - exists h2. split; [done|]. by rewrite rm_put_apart, rm_put in H2.
Qed.

Lemma alloc_apart_block h b d : wf h -> blocks h !! b = Some d -> apart (At (next h) 0) (At b 0).
Proof. intros Hw H. apply (alloc_apart h (At b 0) d Hw). by apply reads_block. Qed.

Lemma alloc_keeps h d b x : wf h -> blocks h !! b = Some x -> blocks (alloc d h).2 !! b = Some x.
Proof. intros Hw H. by apply (points_alloc h d (At b 0) (Some x)). Qed.

Lemma reput m p d d' : put p (Some d') (put p (Some d) m) = put p (Some d') m.
Proof. destruct p; cbn; try done. apply insert_insert_eq. Qed.

Lemma hmalloc_eq junk n h : hmalloc junk n h = (Ok (At (next h) 0), (alloc (malloc junk (Z.to_nat n)) h).2).
Proof. done. Qed.

End Heap.
