(* ===== verification/HeapModule.v ===== *)
(** * The ownership agreement of the module interface

    modules/stdafx.h lists who frees which string: [encode], [decode] and
    [server_make_auth_reply] consume the string they are given and return one
    that the caller frees, [client_deal_auth_reply] must not free its
    argument, nobody frees what [connect_info] holds but the module its
    [additional_info], in [connection_close].  [HeapModule] states this
    agreement together with the function on values that each function with
    pointers implements; [leak] bounds the blocks a handshake forgets.  The
    helpers of module-port.hpp and the packet layout of the bundled modules
    follow, then [leaks], the order by forgotten blocks. *)

From S2P Require Import Prelude ModuleApi SimpleProxy SockIO Heap.
From stdpp Require Import gmap.
Import ModuleApi SockIO Heap.

Open Scope Z_scope.

Module HeapModule.

(** ** Structures with pointers and their values *)

Definition at_bss (m : gmap nat bytes) (s : hbss) (v : binary_safe_string) : Prop :=
  h_null_terminated s = null_terminated v /\ h_length s = bss_length v /\ points m (h_str s) (str v).

(** A string that was allocated. *)
Definition at_buf (m : gmap nat bytes) (s : hbss) (v : binary_safe_string) : Prop :=
  at_bss m s v /\ str v <> None.

Definition at_conn (m : gmap nat bytes) (c : hconn) (v : connect_info) : Prop :=
  h_server_ip c = server_ip v /\ h_server_port c = server_port v /\
  at_buf m (h_passphrase c) (passphrase v) /\
  h_connect_fd c = connect_fd v /\ points m (h_additional_info c) (additional_info v).

Definition at_query (m : gmap nat bytes) (q : hquery) (v : client_query) : Prop :=
  h_destination_ip q = destination_ip v /\ h_destination_port q = destination_port v /\
  at_bss m (h_payload q) (payload v).

Definition h_set_additional_info (c : hconn) (a : ptr) : hconn :=
  HConn (h_server_ip c) (h_server_port c) (h_passphrase c) (h_connect_fd c) a.

Definition h_set_payload (q : hquery) (p : hbss) : hquery :=
  HQuery (h_destination_ip q) (h_destination_port q) p.

(** The string does not alias what the connection refers to. *)
Definition apart_conn (p : ptr) (c : hconn) : Prop :=
  apart p (h_str (h_passphrase c)) /\ apart p (h_additional_info c).

(** [s] with value [v] is new and the caller's, [arg] is gone, nothing else changed. *)
Definition transfers (h : heap) (arg : ptr) (s : hbss) (v : binary_safe_string) (h' : heap) : Prop :=
  h_null_terminated s = null_terminated v /\ h_length s = bss_length v /\
  fresh_for (rm arg (blocks h)) (h_str s) (str v) /\
  heap_to h (put (h_str s) (str v) (rm arg (blocks h))) h'.

Definition q_transfers (h : heap) (arg : ptr) (q : hquery) (v : client_query) (h' : heap) : Prop :=
  h_destination_ip q = destination_ip v /\ h_destination_port q = destination_port v /\
  transfers h arg (h_payload q) (payload v) h'.

(** The blocks become [m], the new [additional_info] and at most [leak] blocks
    nobody refers to. *)
Definition installs (leak : nat) (h : heap) (m : gmap nat bytes) (c c' : hconn) (v v' : connect_info) (h' : heap) : Prop :=
  exists a va g, c' = h_set_additional_info c a /\ v' = set_additional_info v va /\
    fresh_for m a va /\ g ##ₘ put a va m /\ (size g <= leak)%nat /\ heap_to h (g ∪ put a va m) h'.

(** ** The functions of a module *)

Record heap_fns := HFns {
  hf_client_make_auth_query : hconn -> st heap (hbss * hconn);
  hf_client_deal_auth_reply : hconn -> hbss -> st heap (bool * hconn);
  hf_client_encode : hconn -> hquery -> st heap hbss;
  hf_client_decode : hconn -> hbss -> st heap hquery;
  hf_client_connection_close : hconn -> st heap unit;
  hf_server_make_auth_reply : hconn -> hbss -> st heap (hbss * bool * hconn);
  hf_server_encode : hconn -> hquery -> st heap hbss;
  hf_server_decode : hconn -> hbss -> st heap hquery;
  hf_server_connection_close : hconn -> st heap unit;
}.

(** [ok] says which [additional_info] the module's own functions install. *)
Class HeapModule (hm : heap_fns) (m : module_fns) (leak : nat) (ok : ptr -> Prop) := {
  ok_null : ok NULL;
  own_client_make_auth_query h c v :
    wf h -> at_conn (blocks h) c v -> h_additional_info c = NULL ->
    simo (hf_client_make_auth_query hm c) (f_client_make_auth_query m v) h
      (fun r vr h' => transfers h NULL r.1 vr.1 h' /\ r.2 = c /\ vr.2 = v);
  own_client_deal_auth_reply h c v r vr :
    wf h -> at_conn (blocks h) c v -> h_additional_info c = NULL -> at_buf (blocks h) r vr ->
    simo (hf_client_deal_auth_reply hm c r) (f_client_deal_auth_reply m v vr) h
      (fun r vr h' => r.1 = vr.1 /\ installs leak h (blocks h) c r.2 v vr.2 h' /\ ok (h_additional_info r.2));
  own_client_encode h c v q vq :
    wf h -> at_conn (blocks h) c v -> at_query (blocks h) q vq -> apart_conn (h_str (h_payload q)) c ->
    simo (hf_client_encode hm c q) (f_client_encode m v vq) h (transfers h (h_str (h_payload q)));
  own_client_decode h c v d vd :
    wf h -> at_conn (blocks h) c v -> at_buf (blocks h) d vd -> apart_conn (h_str d) c ->
    simo (hf_client_decode hm c d) (f_client_decode m v vd) h (q_transfers h (h_str d));
  own_client_connection_close h c v :
    wf h -> at_conn (blocks h) c v -> ok (h_additional_info c) ->
    simo (hf_client_connection_close hm c) (f_client_connection_close m v) h
      (fun _ _ h' => heap_to h (rm (h_additional_info c) (blocks h)) h');
  own_server_make_auth_reply h c v d vd :
    wf h -> at_conn (blocks h) c v -> h_additional_info c = NULL -> at_buf (blocks h) d vd ->
    apart_conn (h_str d) c ->
    simo (hf_server_make_auth_reply hm c d) (f_server_make_auth_reply m v vd) h
      (fun r vr h' => r.1.2 = vr.1.2 /\ ok (h_additional_info r.2) /\
         h_null_terminated r.1.1 = null_terminated vr.1.1 /\ h_length r.1.1 = bss_length vr.1.1 /\
         fresh_for (rm (h_str d) (blocks h)) (h_str r.1.1) (str vr.1.1) /\
         installs leak h (put (h_str r.1.1) (str vr.1.1) (rm (h_str d) (blocks h))) c r.2 v vr.2 h');
  own_server_encode h c v q vq :
    wf h -> at_conn (blocks h) c v -> at_query (blocks h) q vq -> apart_conn (h_str (h_payload q)) c ->
    simo (hf_server_encode hm c q) (f_server_encode m v vq) h (transfers h (h_str (h_payload q)));
  own_server_decode h c v d vd :
    wf h -> at_conn (blocks h) c v -> at_buf (blocks h) d vd -> apart_conn (h_str d) c ->
    simo (hf_server_decode hm c d) (f_server_decode m v vd) h (q_transfers h (h_str d));
  own_server_connection_close h c v :
    wf h -> at_conn (blocks h) c v -> ok (h_additional_info c) ->
    simo (hf_server_connection_close hm c) (f_server_connection_close m v) h
      (fun _ _ h' => heap_to h (rm (h_additional_info c) (blocks h)) h');
}.

(** ** module_interface and the helpers of module-port.hpp *)

Section Port.
Context (junk : nat -> Z).

Definition h_make_binary_safe_string_len (length : Z) : st heap hbss :=
  p ← hmalloc junk length; mret (Hbss false length p).

Definition h_make_binary_safe_string (s : bytes) : st heap hbss :=
  bss ← h_make_binary_safe_string_len (u32 (Z.of_nat (length s)));
  _ ← hwrite (h_str bss) 0 s;
  mret bss.

Definition delete_binary_safe_string (bss : hbss) : st heap unit := free (h_str bss).
End Port.

(** A payload of size zero is not stored in the template, and then not consumed. *)
Definition h_client_impl_encode (hm : heap_fns) (pl : hbss) (conn : hconn) (addrTemplate : hquery) : st heap hbss :=
  hf_client_encode hm conn (if h_length pl =? 0 then addrTemplate else h_set_payload addrTemplate pl).

Definition h_onAuthReply (hm : heap_fns) (authdata : ptr) (len : Z) (conn : hconn) : st heap (bool * hconn) :=
  hf_client_deal_auth_reply hm conn (Hbss false (u32 len) authdata).

(** ** The packet layout of the bundled modules *)

Section Packets.
Context (junk : nat -> Z).

Definition h_overall_size (q : hquery) : Z := u64 (sizeof_data_struct + h_length (h_payload q) - 1).

Definition h_pack (q : hquery) : st heap ptr :=
  data ← hmalloc junk (h_overall_size q);
  _ ← hwrite data 0 (h_destination_ip q);
  _ ← hwrite data 16 (le_bytes 2 (h_destination_port q));
  _ ← hwrite data 20 (le_bytes 4 (h_length (h_payload q)));
  _ ← (if negb (h_length (h_payload q) =? 0) then
         s ← hread (h_str (h_payload q)) 0 (Z.to_nat (h_length (h_payload q)));
         hwrite data 24 s
       else mret tt);
  mret data.

(** From the test of the size on; the packet is freed on both paths. *)
Definition h_unpack (data : ptr) (datalen : Z) : st heap hquery :=
  if datalen <=? 24 then
    _ ← free data;
    mret (HQuery (malloc junk 16) (le_val (malloc junk 2)) (Hbss (Z.odd (junk 0%nat)) 0 NULL))
  else
    ip ← hread data 0 16;
    port ← hread data 16 2;
    sz ← hread data 20 4;
    let plsz := le_val sz in
    s ← (if negb (plsz =? 0) then
           s ← hmalloc junk plsz;
           p ← hread data 24 (Z.to_nat plsz);
           _ ← hwrite s 0 p;
           mret s
         else mret NULL);
    _ ← free data;
    mret (HQuery ip (le_val port) (Hbss false plsz s)).

End Packets.

Lemma at_bss_reads m s v d : at_bss m s v -> str v = Some d -> reads m (h_str s) d.
Proof. intros (_ & _ & H) E. rewrite E in H. by apply points_reads. Qed.

Lemma h_overall_size_eq m q vq : at_query m q vq -> h_overall_size q = overall_size vq.
Proof. intros (_ & _ & _ & E & _). unfold h_overall_size, overall_size. by rewrite E. Qed.

(** Reading through a pointer that the right side checks for null. *)
Lemma simo_deref {A' A} h p v (off n : nat) (k' : bytes -> st heap A') (k : bytes -> outcome A) Q :
  points (blocks h) p v ->
  (forall d s, v = Some d -> mem_read d off n = Ok s -> simo (k' s) (k s) h Q) ->
  simo (hread p off n ≫= k') (d ← deref v; s ← mem_read d off n; k s) h Q.
Proof.
  intros Hp Hk. destruct v as [d|]; cbn [deref]; run_ok.
  - eapply simo_bind; [apply simo_read, points_reads, Hp|]. intros s' s h' (-> & -> & E). eauto.
  - destruct p as [|b [|o]|l]; try done. unfold hread, simo, sim, lift. cbn. eauto.
Qed.

Lemma h_pack_sim junk h q vq :
  wf h -> at_query (blocks h) q vq ->
  simo (h_pack junk q) (pack_data_struct junk vq) h
    (fun p d h' => p = At (next h) 0 /\ h' = (alloc d h).2).
Proof.
  intros Hw Hq. pose proof (h_overall_size_eq _ _ _ Hq) as Eo. destruct Hq as (E1 & E2 & _ & E3 & E4).
  unfold h_pack, pack_data_struct. rewrite Eo, E1, E2, E3.
  eapply simo_left; [reflexivity|].
  eapply simo_bind; [apply simo_write_alloc|]. intros _ d1 h1 [-> _].
  eapply simo_bind; [apply simo_write_alloc|]. intros _ d2 h2 [-> _].
  eapply simo_bind; [apply simo_write_alloc|]. intros _ d3 h3 [-> _].
  destruct (bss_length (payload vq) =? 0); cbn [negb].
  - eapply simo_left; [reflexivity|]. by apply simo_ret.
  - apply (simo_map _ _ _ _ (fun _ d h' => h' = (alloc d h).2)); [|intros [] d h' ->; by apply simo_ret].
    apply simo_deref; [by apply points_alloc|]. intros d s Ed Er.
    eapply simo_conseq; [apply simo_write_alloc|]. cbv beta. tauto.
Qed.

Lemma h_unpack_sim junk h b d n :
  wf h -> blocks h !! b = Some d ->
  simo (h_unpack junk (At b 0) n) (unpack_data_struct junk d n) h (q_transfers h (At b 0)).
Proof.
  intros Hw Hb. pose proof (reads_block _ _ _ Hb) as Hr. unfold h_unpack, unpack_data_struct.
  pose proof (heap_to_refl h Hw) as H0. destruct (n <=? 24).
  { destruct (free_to _ _ _ _ _ H0 (points_block _ _ _ Hb)) as (h1 & E & Ht).
    eapply simo_left; [exact E|]. by apply simo_ret. }
  eapply simo_bind; [by apply simo_read|]. intros ? ip h' (-> & -> & _).
  eapply simo_bind; [by apply simo_read|]. intros ? port h' (-> & -> & _).
  eapply simo_bind; [by apply simo_read|]. intros ? sz h' (-> & -> & _). cbv zeta.
  destruct (le_val sz =? 0); cbn [negb].
  { eapply simo_left; [reflexivity|]. destruct (free_to _ _ _ _ _ H0 (points_block _ _ _ Hb)) as (h1 & E & Ht).
    eapply simo_left; [exact E|]. by apply simo_ret. }
  apply (simo_bind _ _ _ _ _ (fun s' s h' => s' = At (next h) 0 /\ h' = (alloc s h).2)).
  - eapply simo_left; [reflexivity|].
    eapply simo_map; [by apply simo_read, reads_alloc|]. intros ? s h' (-> & -> & Er).
    apply mem_read_length in Er.
    eapply simo_left; [apply hwrite_alloc, mem_write_all; len|]. by apply simo_ret.
  - intros ? s h' [-> ->]. pose proof (alloc_to h s Hw) as Ha. pose proof (wf_fresh h s Hw) as Hf.
    assert (Hap : apart (At b 0) (At (next h) 0))
      by (apply apart_sym; eapply fresh_apart; [exact Hf|apply (points_block _ _ _ Hb)]).
    destruct (free_to h _ _ (At b 0) (Some d) Ha) as (h1 & E & Ht).
    { apply points_put; [by apply apart_sym|done]. }
    eapply simo_left; [exact E|]. apply simo_ret. rewrite rm_put_apart in Ht by done.
    do 4 (split; [done|]). split; [by apply fresh_rm|done].
Qed.

(** ** Shared facts of the instances *)

Lemma upd_to h b d : wf h -> is_Some (blocks h !! b) -> heap_to h (<[b := d]> (blocks h)) (upd h b d).
Proof.
  intros Hw Hb. eapply set_blocks_to; [by apply heap_to_refl|]. intros c d'.
  rewrite lookup_insert_Some. intros [[<- _]|[_ ?]]; [done|]. eauto.
Qed.

(** Editing the argument in place before consuming it. *)
Lemma q_transfers_upd h b d q v h' :
  wf h -> is_Some (blocks h !! b) ->
  q_transfers (upd h b d) (At b 0) q v h' -> q_transfers h (At b 0) q v h'.
Proof.
  intros Hw Hb (E1 & E2 & E3 & E4 & E5 & E6). unfold q_transfers, transfers.
  assert (Er : rm (At b 0) (blocks (upd h b d)) = rm (At b 0) (blocks h)) by apply delete_insert_eq.
  rewrite Er in E5, E6. do 5 (split; [done|]).
  eapply heap_to_trans; [by apply upd_to|exact E6].
Qed.

(** A connection without [additional_info] and its value. *)
Lemma conn_null m c v : at_conn m c v -> h_additional_info c = NULL ->
  additional_info v = None /\ h_set_additional_info c NULL = c /\ set_additional_info v None = v.
Proof.
  intros (_ & _ & _ & _ & H) E. rewrite E in H. destruct c, v; cbn in *. subst.
  by destruct additional_info0.
Qed.

Lemma installs_nothing leak h m h' c v :
  at_conn (blocks h) c v -> h_additional_info c = NULL -> heap_to h m h' ->
  installs leak h m c c v v h'.
Proof.
  intros Hc E Ht. destruct (conn_null _ _ _ Hc E) as (_ & E1 & E2). exists NULL, None, ∅.
  rewrite E1, E2. do 3 (split; [done|]). split; [apply map_disjoint_empty_l|].
  split; [rewrite map_size_empty; lia|]. by rewrite map_empty_union.
Qed.

(** A fresh block that becomes the result, then the release of the argument. *)
Lemma transfers_free h arg va d s v :
  wf h -> points (blocks h) arg va -> h_str s = At (next h) 0 -> str v = Some d ->
  h_null_terminated s = null_terminated v -> h_length s = bss_length v ->
  exists h', free arg (alloc d h).2 = (Ok tt, h') /\ transfers h arg s v h'.
Proof.
  intros Hw Ha Es Ev En El. pose proof (alloc_to h d Hw) as Ht. pose proof (wf_fresh h d Hw) as Hf.
  pose proof (fresh_apart _ _ _ _ _ Hf Ha) as Hap.
  destruct (free_to h _ _ arg va Ht) as (h1 & E & Ht1); [by apply points_put|].
  exists h1. split; [done|]. rewrite rm_put_apart in Ht1 by (by apply apart_sym).
  unfold transfers. rewrite Es, Ev. do 2 (split; [done|]). split; [by apply fresh_rm|done].
Qed.

Lemma transfers_alloc h d s v :
  wf h -> h_str s = At (next h) 0 -> str v = Some d ->
  h_null_terminated s = null_terminated v -> h_length s = bss_length v ->
  transfers h NULL s v (alloc d h).2.
Proof.
  intros Hw Es Ev En El. unfold transfers. rewrite Es, Ev. do 2 (split; [done|]).
  split; [by apply (wf_fresh h d)|by apply alloc_to].
Qed.

Lemma at_conn_alloc h d c v : wf h -> at_conn (blocks h) c v -> at_conn (blocks (alloc d h).2) c v.
Proof.
  intros Hw (E1 & E2 & ((E3 & E4 & E5) & E8) & E6 & E7). unfold at_conn, at_buf, at_bss.
  split_and!; try done; by apply points_alloc.
Qed.

(** Blocks that nobody refers to any more. *)
Definition two_blocks (n0 n1 : nat) (d0 d1 : bytes) : gmap nat bytes := <[n1 := d1]> {[ n0 := d0 ]}.

(** Decide an equation of maps address by address. *)
Ltac map_cases :=
  apply map_eq; intros ?i;
  repeat first [case_decide | rewrite lookup_union | rewrite lookup_delete | rewrite lookup_insert
               | rewrite lookup_singleton]; subst; cbn; rewrite ?left_id, ?right_id by apply _; try done; try congruence; try lia;
  try match goal with |- context [?m !! ?j] => by destruct (m !! j) end.

Lemma one_block_size n d : size ({[ n := d ]} : gmap nat bytes) = 1%nat.
Proof. apply map_size_singleton. Qed.

Lemma two_blocks_size n0 n1 d0 d1 : (size (two_blocks n0 n1 d0 d1) <= 2)%nat.
Proof.
  unfold two_blocks. rewrite map_size_insert, one_block_size. by destruct (_ !! _); cbn; lia.
Qed.

(** One forgotten block [n], the new [additional_info] at [k]. *)
Lemma installs_one h m n d k ai h' c v :
  m !! n = None -> m !! k = None -> n <> k ->
  heap_to h (<[k := ai]> (<[n := d]> m)) h' ->
  installs 1 h m c (h_set_additional_info c (At k 0)) v (set_additional_info v (Some ai)) h'.
Proof.
  intros Hn Hk Hne T. exists (At k 0), (Some ai), {[ n := d ]}. do 3 (split; [done|]). cbn [put]. split.
  { apply map_disjoint_singleton_l. rewrite lookup_insert. by case_decide. }
  split; [by rewrite one_block_size|]. eapply heap_to_eq; [|exact T]. map_cases.
Qed.

Lemma installs_none h m n d h' c v leak :
  (1 <= leak)%nat -> m !! n = None -> at_conn (blocks h) c v -> h_additional_info c = NULL ->
  heap_to h (<[n := d]> m) h' -> installs leak h m c c v v h'.
Proof.
  intros Hl Hn Hc E T. destruct (conn_null _ _ _ Hc E) as (_ & E1 & E2).
  exists NULL, None, {[ n := d ]}. rewrite E1, E2. do 3 (split; [done|]). cbn [put].
  split; [by apply map_disjoint_singleton_l|]. split; [by rewrite one_block_size|].
  by rewrite <- insert_union_singleton_l.
Qed.

(** Two forgotten blocks [n0] and [n1], the new [additional_info] at [k]. *)
Lemma installs_two h m n0 n1 d0 d1 k ai h' c v :
  m !! n0 = None -> m !! n1 = None -> m !! k = None -> n0 <> k -> n1 <> k ->
  heap_to h (two_blocks n0 n1 d0 d1 ∪ <[k := ai]> m) h' ->
  installs 2 h m c (h_set_additional_info c (At k 0)) v (set_additional_info v (Some ai)) h'.
Proof.
  intros H0 H1 Hk N0 N1 T. exists (At k 0), (Some ai), (two_blocks n0 n1 d0 d1). do 3 (split; [done|]). cbn [put].
  split; [|split; [apply two_blocks_size|done]].
  apply map_disjoint_insert_l. split; [rewrite lookup_insert; by case_decide|].
  apply map_disjoint_singleton_l. rewrite lookup_insert. by case_decide.
Qed.

(** ** Forgotten blocks *)

(** [h'] is [h] with at most [n] new blocks. *)
Definition leaks (n : nat) (h h' : heap) : Prop :=
  exists g, g ##ₘ blocks h /\ (size g <= n)%nat /\ heap_to h (g ∪ blocks h) h'.

Lemma leaks_none h h' : heap_to h (blocks h) h' -> leaks 0 h h'.
Proof.
  intros T. exists ∅. split; [apply map_disjoint_empty_l|]. split; [by rewrite map_size_empty|].
  by rewrite map_empty_union.
Qed.

Lemma leaks_refl h : wf h -> leaks 0 h h.
Proof. intros. by apply leaks_none, heap_to_refl. Qed.

Lemma leaks_le n k h h' : leaks n h h' -> (n <= k)%nat -> leaks k h h'.
Proof. intros (g & ? & ? & ?) Hk. exists g. split_and!; try done. lia. Qed.

Lemma leaks_trans n k h1 h2 h3 : leaks n h1 h2 -> leaks k h2 h3 -> leaks (n + k) h1 h3.
Proof.
  intros (g1 & D1 & S1 & T1) (g2 & D2 & S2 & T2). pose proof T1 as (B1 & _). rewrite B1 in D2, T2.
  apply map_disjoint_union_r in D2 as [D12 D2]. exists (g2 ∪ g1).
  split; [by apply map_disjoint_union_l|]. split.
  { rewrite map_size_disj_union by done. lia. }
  rewrite <- (assoc_L _). by eapply heap_to_trans.
Qed.

Lemma leaks_wf n h h' : leaks n h h' -> wf h'.
Proof. by intros (g & _ & _ & _ & _ & _ & W). Qed.

Lemma leaks_objs n h h' : leaks n h h' -> objs h' = objs h.
Proof. by intros (g & _ & _ & _ & O & _). Qed.

Lemma leaks_sub n h h' : leaks n h h' -> blocks h ⊆ blocks h'.
Proof. intros (g & D & _ & -> & _). by apply map_union_subseteq_r. Qed.

Lemma leaks_put h p v h' : fresh_for (blocks h) p v -> heap_to h (put p v (blocks h)) h' -> leaks 1 h h'.
Proof.
  destruct p as [|b [|o]|s], v as [d|]; cbn; try done.
  - intros _ T. eapply leaks_le; [by apply leaks_none|lia].
  - intros Hb T. exists {[ b := d ]}. split; [by apply map_disjoint_singleton_l|].
    split; [by rewrite one_block_size|]. by rewrite <- insert_union_singleton_l.
Qed.

Lemma leaks_alloc h d : wf h -> leaks 1 h (alloc d h).2.
Proof. intros Hw. eapply leaks_put; [by apply (wf_fresh h d)|by apply alloc_to]. Qed.

Lemma points_mono m m' p v : m ⊆ m' -> points m p v -> points m' p v.
Proof. destruct p as [|b [|o]|s], v; cbn; try done. intros. by eapply lookup_weaken. Qed.

Lemma at_conn_mono m m' c v : m ⊆ m' -> at_conn m c v -> at_conn m' c v.
Proof.
  intros Hs (E1 & E2 & ((E3 & E4 & E5) & E8) & E6 & E7). unfold at_conn, at_buf, at_bss.
  split_and!; try done; by eapply points_mono.
Qed.

Lemma at_conn_leaks n h h' c v : leaks n h h' -> at_conn (blocks h) c v -> at_conn (blocks h') c v.
Proof. intros H. apply at_conn_mono. by eapply leaks_sub. Qed.

(** A function that consumes a block allocated after [h]. *)
Lemma transfers_base h d s v h' :
  wf h -> transfers (alloc d h).2 (At (next h) 0) s v h' ->
  h_null_terminated s = null_terminated v /\ h_length s = bss_length v /\
  fresh_for (blocks h) (h_str s) (str v) /\ heap_to h (put (h_str s) (str v) (blocks h)) h'.
Proof.
  intros Hw (E1 & E2 & F & T).
  assert (Er : rm (At (next h) 0) (blocks (alloc d h).2) = blocks h)
    by (apply (rm_put (blocks h) (At (next h) 0) (Some d)); by apply (wf_fresh h d)).
  rewrite Er in F, T. split_and!; try done. eapply heap_to_trans; [by apply (alloc_to h d)|done].
Qed.

(** *** Connections *)

Lemma apart_conn_fresh h c v : wf h -> at_conn (blocks h) c v -> apart_conn (At (next h) 0) c.
Proof.
  intros Hw (_ & _ & [(_ & _ & Hp) _] & _ & Ha).
  split; (eapply fresh_apart; [by apply (wf_fresh h [])|]); eassumption.
Qed.

Lemma installs_base leak h m0 h2 m c c' v v' h3 :
  heap_to h m0 h2 -> installs leak h2 m c c' v v' h3 -> installs leak h m c c' v v' h3.
Proof.
  intros T (a & va & g & E1 & E2 & E3 & E4 & E5 & E6). exists a, va, g. split_and!; try done.
  by eapply heap_to_trans.
Qed.

Lemma put_sub m p v : fresh_for m p v -> m ⊆ put p v m.
Proof. destruct p as [|b [|o]|s], v; cbn; try done. intros. by apply insert_subseteq. Qed.

(** A string that was live during the handshake is released afterwards. *)
Lemma installs_free leak h m p vp c c' v v' h1 :
  installs leak h (put p vp m) c c' v v' h1 -> fresh_for m p vp ->
  exists h2, free p h1 = (Ok tt, h2) /\ installs leak h m c c' v v' h2.
Proof.
  intros (a & va & g & E1 & E2 & E3 & E4 & E5 & E6) Hf.
  pose proof (put_points _ _ _ Hf) as Hp. pose proof (fresh_apart _ _ _ _ _ E3 Hp) as Hap.
  assert (Hpa : points (put a va (put p vp m)) p vp) by (by apply points_put).
  destruct p as [|b [|o]|s], vp as [d|]; try done.
  { exists h1. split; [done|]. by exists a, va, g. }
  cbn in Hpa. assert (Hg : g !! b = None).
  { destruct (g !! b) eqn:Eg; [|done]. pose proof (map_disjoint_Some_l _ _ _ _ E4 Eg) as H. cbn in H. congruence. }
  destruct (free_to _ _ _ (At b 0) (Some d) E6) as (h2 & Ef & T2).
  { cbn. by rewrite lookup_union_r. }
  exists h2. split; [done|]. cbn [rm] in T2.
  rewrite delete_union, (delete_id g) in T2 by done. fold (rm (At b 0) (put a va (put (At b 0) (Some d) m))) in T2.
  rewrite rm_put_apart, rm_put in T2 by (done || by apply apart_sym).
  exists a, va, g. do 2 (split; [done|]). split.
  - destruct (fresh_put_apart _ _ _ _ _ E3 Hf). done.
  - split; [|by split]. rewrite put_comm in E4 by done. cbn [put] in E4. by apply map_disjoint_insert_r in E4 as [_ E4].
Qed.

(** The blocks of [installs] seen as forgotten blocks. *)
Lemma installs_leaks leak h c c' v v' h' : installs leak h (blocks h) c c' v v' h' -> leaks (S leak) h h'.
Proof.
  intros (a & va & g & _ & _ & F & D & Hs & T). destruct a as [|b [|o]|s], va as [d|]; try done; cbn in *.
  - exists g. split; [done|]. split; [lia|done].
  - apply map_disjoint_insert_r in D as [Db D]. exists (<[b := d]> g).
    split; [by apply map_disjoint_insert_l|]. split; [rewrite map_size_insert, Db; lia|].
    by rewrite <- insert_union_l, insert_union_r.
Qed.

(** A block released beside two groups of forgotten blocks. *)
Lemma rm_garbage m p v (g g2 : gmap nat bytes) :
  fresh_for m p v -> g ##ₘ put p v m -> g2 ##ₘ g ∪ put p v m ->
  g2 ∪ g ##ₘ m /\ (size (g2 ∪ g) = size g2 + size g)%nat /\ rm p (g2 ∪ (g ∪ put p v m)) = (g2 ∪ g) ∪ m.
Proof.
  intros F D D2. apply map_disjoint_union_r in D2 as [D21 D2].
  assert (Dh : g2 ##ₘ m /\ g ##ₘ m).
  { split; eapply map_disjoint_weaken_r; try eassumption; by apply put_sub. }
  split; [apply map_disjoint_union_l; tauto|]. split; [by apply map_size_disj_union|].
  destruct p as [|b [|o]|s], v as [d|]; try done; cbn in *; [by rewrite (assoc_L _)|].
  apply map_disjoint_insert_r in D as [Db _]. apply map_disjoint_insert_r in D2 as [Db2 _].
  rewrite !delete_union, (delete_id g2), (delete_id g), delete_insert_id by done. by rewrite (assoc_L _).
Qed.

(** The module releases its [additional_info] when the connection ends. *)
Lemma close_leaks leak n h c c' v v' h2 h3 h4 :
  installs leak h (blocks h) c c' v v' h2 -> leaks n h2 h3 ->
  heap_to h3 (rm (h_additional_info c') (blocks h3)) h4 -> leaks (leak + n) h h4.
Proof.
  intros (a & va & g & -> & _ & F & D & Hs & T) (g2 & D2 & S2 & T2) T4. cbn [h_additional_info h_set_additional_info] in T4.
  pose proof T as (B & _). pose proof T2 as (B2 & _). rewrite B in D2, B2. rewrite B2 in T4.
  destruct (rm_garbage _ _ _ _ _ F D D2) as (Dg & Sg & Eg). exists (g2 ∪ g).
  split; [done|]. split; [lia|]. rewrite Eg in T4.
  eapply heap_to_trans; [exact T|]. eapply heap_to_trans; [exact T2|exact T4].
Qed.

(** A C string made of a [std::string]. *)
Lemma h_make_bss_sim junk s h :
  simo (h_make_binary_safe_string junk s) (make_binary_safe_string junk s) h
    (fun r vr h' => exists d, r = Hbss false (u32 (Z.of_nat (length s))) (At (next h) 0) /\
       vr = Bss false (u32 (Z.of_nat (length s))) (Some d) /\ h' = (alloc d h).2).
Proof.
  unfold h_make_binary_safe_string, make_binary_safe_string, h_make_binary_safe_string_len, make_binary_safe_string_len.
  cbv zeta. cbn [str deref null_terminated bss_length]. run_ok.
  set (n := u32 _). eapply simo_left; [reflexivity|]. cbn [h_str].
  eapply simo_bind; [apply simo_write_alloc|]. intros _ d h' [-> _]. apply simo_ret. eauto.
Qed.

(** ** A packet from process to process *)

(** The encoder [enc] of one process and the decoder [dec] of another pass a
    query: encoding succeeds and replaces the caller's payload by one packet; when
    the bytes of that packet lie in a buffer of the other process, decoding
    succeeds there, replaces the buffer by one string, and the decoded query is
    the encoded one; no other block of either process changes. *)
Definition passes (enc : hconn -> hquery -> st heap hbss) (dec : hconn -> hbss -> st heap hquery)
    (paired : connect_info -> connect_info -> Prop) : Prop :=
  forall (hc hs : heap) (c s : hconn) (cc sc : connect_info) (hq : hquery) (q : client_query),
  paired cc sc -> query_ok q -> bss_length (payload q) + 64 < 2 ^ 32 ->
  wf hc -> at_conn (blocks hc) c cc -> at_query (blocks hc) hq q -> apart_conn (h_str (h_payload hq)) c ->
  wf hs -> at_conn (blocks hs) s sc ->
  exists p vp hc', enc c hq hc = (Ok p, hc') /\ transfers hc (h_str (h_payload hq)) p vp hc' /\
  exists q' vq hs',
    dec s (Hbss false (bss_length vp) (At (next hs) 0)) (alloc (bss_bytes vp) hs).2 = (Ok q', hs') /\
    query_equiv vq q /\ h_destination_ip q' = destination_ip vq /\ h_destination_port q' = destination_port vq /\
    h_length (h_payload q') = bss_length (payload vq) /\
    fresh_for (blocks hs) (h_str (h_payload q')) (str (payload vq)) /\
    heap_to hs (put (h_str (h_payload q')) (str (payload vq)) (blocks hs)) hs'.

(** It is enough that both keep the agreement and that their functions on values
    are inverse to each other. *)
Lemma passes_intro enc dec (venc : connect_info -> client_query -> outcome binary_safe_string)
    (vdec : connect_info -> binary_safe_string -> outcome client_query) paired :
  (forall h c v q vq, wf h -> at_conn (blocks h) c v -> at_query (blocks h) q vq -> apart_conn (h_str (h_payload q)) c ->
     simo (enc c q) (venc v vq) h (transfers h (h_str (h_payload q)))) ->
  (forall h c v d vd, wf h -> at_conn (blocks h) c v -> at_buf (blocks h) d vd -> apart_conn (h_str d) c ->
     simo (dec c d) (vdec v vd) h (q_transfers h (h_str d))) ->
  (forall cc sc q, paired cc sc -> query_ok q -> bss_length (payload q) + 64 < 2 ^ 32 ->
     exists p, venc cc q = Ok p /\ exists q', vdec sc (on_wire p) = Ok q' /\ query_equiv q' q) ->
  passes enc dec paired.
Proof.
  intros Henc Hdec Hv hc hs c s cc sc hq q Hp Hq Hn Wc Cc Aq Ha Ws Cs.
  destruct (Hv cc sc q Hp Hq Hn) as (vp & Ev & vq & Ed & Heq).
  pose proof (Henc hc c cc hq q Wc Cc Aq Ha) as He. rewrite Ev in He.
  destruct He as (p & hc' & Ep & Tp). exists p, vp, hc'. split; [done|]. split; [done|].
  pose proof (Hdec (alloc (bss_bytes vp) hs).2 s sc (Hbss false (bss_length vp) (At (next hs) 0)) (on_wire vp)
    (alloc_wf _ _ Ws) (at_conn_alloc _ _ _ _ Ws Cs)) as Hd.
  rewrite Ed in Hd. destruct Hd as (q' & hs' & Eq & E1 & E2 & Tq).
  - split; [|done]. split; [done|]. split; [done|]. apply points_block, alloc_lookup.
  - by eapply apart_conn_fresh.
  - destruct (transfers_base _ _ _ _ _ Ws Tq) as (_ & El & F & T). exists q', vq, hs'. by split_and!.
Qed.

End HeapModule.
