(* ===== verification/HeapSimple.v ===== *)
(** * The memory of the simple_proxy module (modules/simple_proxy/simple_proxy.c)

    The functions of [SimpleProxy] with their allocations and releases, and the
    proof that they keep the ownership agreement without forgetting a block. *)

From S2P Require Import Prelude ModuleApi SimpleProxy SockIO Heap HeapModule.
From stdpp Require Import gmap.
Import ModuleApi SockIO Heap HeapModule.

Open Scope Z_scope.

Module HeapSimple.
Import SimpleProxy.

Definition h_bss_hash (b : hbss) : st heap Z :=
  if h_length b =? 0 then mret (simple_hash [])
  else
    s ← hread (h_str b) 0 (Z.to_nat (h_length b));
    mret (simple_hash s).

(** [data[i] = data[i] ^ simple_encoder] in place. *)
Definition h_xor_prefix (k : Z) (data : ptr) (n : Z) : st heap unit :=
  d ← hread data 0 (Z.to_nat n);
  hwrite data 0 (xor_with k d).

Section Functions.
Context (junk : nat -> Z).

Definition h_client_make_auth_query (conn : hconn) : st heap (hbss * hconn) :=
  let n := h_length (h_passphrase conn) in
  p ← hmalloc junk n;
  s ← hread (h_str (h_passphrase conn)) 0 (Z.to_nat n);
  _ ← hwrite p 0 s;
  mret (Hbss false n p, conn).

Definition h_client_deal_auth_reply (conn : hconn) (server_reply : hbss) : st heap (bool * hconn) :=
  b ← hread (h_str server_reply) 0 1;
  mret (negb (nth 0 b 0 =? 0), conn).

Definition h_client_encode (conn : hconn) (pl : hquery) : st heap hbss :=
  data ← h_pack junk pl;
  k ← h_bss_hash (h_passphrase conn);
  _ ← h_xor_prefix k data (h_overall_size pl);
  _ ← free (h_str (h_payload pl));
  mret (Hbss false (u32 (h_overall_size pl)) data).

Definition h_client_decode (conn : hconn) (data : hbss) : st heap hquery :=
  k ← h_bss_hash (h_passphrase conn);
  _ ← h_xor_prefix k (h_str data) (h_length data);
  h_unpack junk (h_str data) (h_length data).

Definition h_server_make_auth_reply (conn : hconn) (data : hbss) : st heap (hbss * bool * hconn) :=
  p ← hmalloc junk 1;
  _ ← hwrite p 0 [1];
  _ ← free (h_str data);
  mret (Hbss false 1 p, false, conn).

Definition h_server_encode (conn : hconn) (pl : hquery) : st heap hbss :=
  data ← h_pack junk pl;
  k ← h_bss_hash (h_passphrase conn);
  _ ← h_xor_prefix k data (h_overall_size pl);
  _ ← free (h_str (h_payload pl));
  mret (Hbss false (u32 (h_overall_size pl)) data).

Definition h_server_decode (conn : hconn) (data : hbss) : st heap hquery :=
  k ← h_bss_hash (h_passphrase conn);
  _ ← h_xor_prefix k (h_str data) (h_length data);
  h_unpack junk (h_str data) (h_length data).

Definition h_client_connection_close (conn : hconn) : st heap unit := mret tt.
Definition h_server_connection_close (conn : hconn) : st heap unit := mret tt.

Definition h_simple_proxy : heap_fns :=
  HFns h_client_make_auth_query h_client_deal_auth_reply h_client_encode h_client_decode
    h_client_connection_close h_server_make_auth_reply h_server_encode h_server_decode
    h_server_connection_close.
End Functions.

Lemma h_bss_hash_sim h b v :
  at_bss (blocks h) b v -> simo (h_bss_hash b) (bss_hash v) h (fun k' k h' => k' = k /\ h' = h).
Proof.
  intros (_ & E & Hp). unfold h_bss_hash, bss_hash. rewrite E. destruct (bss_length v =? 0); [by apply simo_ret|].
  apply simo_deref; [done|]. intros d s _ _. by apply simo_ret.
Qed.

Lemma simple_encode_sim junk h c v q vq :
  wf h -> at_conn (blocks h) c v -> at_query (blocks h) q vq ->
  simo (h_client_encode junk c q) (client_encode junk v vq) h (transfers h (h_str (h_payload q))).
Proof.
  intros Hw Hc Hq. pose proof (h_overall_size_eq _ _ _ Hq) as Eo. unfold h_client_encode, client_encode.
  eapply simo_bind; [by apply h_pack_sim|]. intros ? d h' [-> ->].
  destruct (at_conn_alloc h d c v Hw Hc) as (_ & _ & [Hp _] & _).
  eapply simo_bind; [by apply h_bss_hash_sim|]. intros ? k h' [-> ->]. rewrite Eo.
  apply (simo_bind _ _ _ _ _ (fun _ d' h' => h' = (alloc d' h).2)).
  - unfold h_xor_prefix, xor_prefix. eapply simo_bind; [apply simo_read, reads_block, alloc_lookup|].
    intros ? s h' (-> & -> & _). eapply simo_conseq; [apply simo_write_alloc|]. cbv beta. tauto.
  - intros _ d' h' ->. destruct Hq as (_ & _ & _ & _ & Ha).
    destruct (transfers_free h _ _ d' (Hbss false (u32 (overall_size vq)) (At (next h) 0))
      (Bss false (u32 (overall_size vq)) (Some d')) Hw Ha) as (h1 & E & Ht); [done..|].
    eapply simo_left; [exact E|]. by apply simo_ret.
Qed.

Lemma simple_decode_sim junk h c v d vd :
  wf h -> at_conn (blocks h) c v -> at_buf (blocks h) d vd ->
  simo (h_client_decode junk c d) (client_decode junk v vd) h (q_transfers h (h_str d)).
Proof.
  intros Hw (_ & _ & [Hp _] & _) [(_ & El & Hd) Hn]. unfold h_client_decode, client_decode. rewrite El.
  eapply simo_bind; [by apply h_bss_hash_sim|]. intros ? k h' [-> ->].
  destruct (str vd) as [x|] eqn:Es; [|done]. cbn [deref]. run_ok.
  destruct (h_str d) as [|b [|o]|l]; try done. cbn in Hd.
  apply (simo_bind _ _ _ _ _ (fun _ d' h' => h' = upd h b d')).
  - unfold h_xor_prefix, xor_prefix. eapply simo_bind; [by apply simo_read, reads_block|].
    intros ? s h' (-> & -> & _). eapply simo_conseq; [by apply simo_write|]. cbv beta. by intros ? ? ? [-> _].
  - intros _ d' h' ->. eapply simo_conseq; [apply h_unpack_sim; [|apply upd_lookup]|].
    + apply (upd_to h b d' Hw). eauto.
    + intros q vq h'. apply q_transfers_upd; eauto.
Qed.

#[global] Instance simple_proxy_owns junk :
  HeapModule (h_simple_proxy junk) (simple_proxy junk) 0 (fun p => p = NULL).
Proof.
  constructor; cbn.
  - done.
  - intros h c v Hw (_ & _ & [(_ & El & Hp) _] & _) _. unfold h_client_make_auth_query, client_make_auth_query.
    rewrite El. eapply simo_left; [reflexivity|]. apply simo_deref; [by apply points_alloc|].
    intros d s _ _. eapply simo_bind; [apply simo_write_alloc|]. intros _ d' h' [-> _]. apply simo_ret.
    split; [|done]. by apply transfers_alloc.
  - intros h c v r vr Hw Hc Hn [(_ & El & Hp) _]. unfold h_client_deal_auth_reply, client_deal_auth_reply.
    apply simo_deref; [done|]. intros d s _ _. apply simo_ret. split; [done|].
    split; [|done]. by apply installs_nothing.
  - intros h c v q vq Hw Hc Hq _. by apply simple_encode_sim.
  - intros h c v d vd Hw Hc Hd _. by apply simple_decode_sim.
  - intros h c v Hw Hc Hn. exists tt, h. split; [done|]. rewrite Hn. by apply heap_to_refl.
  - intros h c v d vd Hw Hc Hn Hd _. unfold h_server_make_auth_reply, server_make_auth_reply.
    eapply simo_left; [reflexivity|]. eapply simo_bind; [apply simo_write_alloc|]. intros _ d' h' [-> _].
    destruct Hd as [(_ & _ & Hd) _].
    destruct (transfers_free h _ _ d' (Hbss false 1 (At (next h) 0)) (Bss false 1 (Some d')) Hw Hd)
      as (h1 & E & _ & _ & Hf & Ht); [done..|].
    eapply simo_left; [exact E|]. apply simo_ret. cbn [fst snd]. do 4 (split; [done|]). split; [done|].
    by apply installs_nothing.
  - intros h c v q vq Hw Hc Hq _. by apply simple_encode_sim.
  - intros h c v d vd Hw Hc Hd _. by apply simple_decode_sim.
  - intros h c v Hw Hc Hn. exists tt, h. split; [done|]. rewrite Hn. by apply heap_to_refl.
Qed.

(** ** A packet from process to process *)

(** Both directions between processes that share the passphrase. *)
Lemma simple_passes junk junk' :
  passes (h_client_encode junk) (h_server_decode junk') same_pass /\
  passes (h_server_encode junk) (h_client_decode junk') (flip same_pass).
Proof.
  split.
  - apply (passes_intro _ _ (client_encode junk) (server_decode junk')).
    + intros. by apply simple_encode_sim.
    + intros. by apply (simple_decode_sim junk').
    + intros cc sc q Hp Hq Hn. destruct (simple_proxy_roundtrip junk junk' cc sc q Hp Hq Hn) as [(p & q' & ? & ? & ?) _]. eauto.
  - apply (passes_intro _ _ (server_encode junk) (client_decode junk')).
    + intros. by apply (simple_encode_sim junk).
    + intros. by apply simple_decode_sim.
    + intros sc cc q Hp Hq Hn. destruct (simple_proxy_roundtrip junk' junk cc sc q Hp Hq Hn) as [_ (p & q' & ? & ? & ?)]. eauto.
Qed.

End HeapSimple.
