(* ===== verification/HeapSe.v ===== *)
(** * The memory of the se_proxy module (modules/se_proxy/se_proxy.c, module_util/aes.c)

    [AESEncrypt] and [AESDecrypt] with their temporary copies, the functions of
    [SeProxy] with their allocations and releases, and the proof that they keep
    the ownership agreement.  A handshake forgets blocks: one on the client,
    one or two on the server. *)

From S2P Require Import Prelude Aes AesUtil ModuleApi SimpleProxy SeProxy SockIO Heap HeapModule HeapSimple.
From stdpp Require Import gmap.
Import ModuleApi SockIO Heap HeapModule.

Open Scope Z_scope.

Module HeapSe.
Import Aes AesUtil SeProxy.

(** ** The cipher on buffers *)

Definition h_AES_ECB (f : bytes -> bytes -> bytes) (input key output : ptr) (len : nat) : st heap unit :=
  src ← hread input 0 len;
  _ ← hwrite output 0 src;
  k ← hread key 0 KEYLEN;
  b ← hread output 0 BLOCKLEN;
  hwrite output 0 (f k b).

Definition h_AES_ECB_encrypt := h_AES_ECB (fun key => Cipher (KeyExpansion key)).
Definition h_AES_ECB_decrypt := h_AES_ECB (fun key => InvCipher (KeyExpansion key)).

Section Cipher.
Context (junk : nat -> Z).

Definition h_pad_key (key : ptr) (keylen : Z) : st heap ptr :=
  rkey ← hmalloc junk 16;
  _ ← (if keylen <? 16 then
         k ← hread key 0 (Z.to_nat keylen);
         _ ← hwrite rkey 0 k;
         hwrite rkey (Z.to_nat keylen) (replicate (16 - Z.to_nat keylen) 0)
       else
         k ← hread key 0 16;
         hwrite rkey 0 k);
  mret rkey.

Definition h_fill_block (src : ptr) (srclen : Z) : st heap ptr :=
  let n := round_up srclen 16 in
  let delta := u8 (n - srclen) in
  rsrc ← hmalloc junk n;
  _ ← hwrite rsrc 0 (replicate (Z.to_nat n) 0);
  _ ← hwrite rsrc (Z.to_nat (n - 1)) [delta];
  s ← hread src 0 (Z.to_nat srclen);
  _ ← hwrite rsrc 0 s;
  mret rsrc.

Definition h_AESEncrypt (src key cip : ptr) (srclen keylen flag : Z) : st heap unit :=
  if negb (flag =? 0) then
    rkey ← h_pad_key key keylen;
    s ← hread src 0 (Z.to_nat srclen);
    _ ← hwrite cip 0 s;
    _ ← h_AES_ECB_encrypt src rkey cip (Z.to_nat (u32 (round_down srclen 16)));
    free rkey
  else
    rkey ← h_pad_key key keylen;
    rsrc ← h_fill_block src srclen;
    _ ← h_AES_ECB_encrypt rsrc rkey cip (Z.to_nat (u32 (round_up srclen 16)));
    _ ← free rsrc;
    free rkey.

Definition h_AESDecrypt (src key result : ptr) (srclen keylen flag : Z) : st heap Z :=
  if negb (flag =? 0) then
    rkey ← h_pad_key key keylen;
    s ← hread src 0 (Z.to_nat srclen);
    _ ← hwrite result 0 s;
    _ ← h_AES_ECB_decrypt src rkey result (Z.to_nat (u32 (round_down srclen 16)));
    _ ← free rkey;
    mret srclen
  else
    rkey ← h_pad_key key keylen;
    _ ← h_AES_ECB_decrypt src rkey result (Z.to_nat (u32 srclen));
    _ ← free rkey;
    last ← hread result (Z.to_nat (u64 (srclen - 1))) 1;
    mret (u64 (srclen - schar (nth 0 last 0))).
End Cipher.

Lemma h_AES_ECB_sim f h input key b i k c len :
  reads (blocks h) input i -> reads (blocks h) key k -> blocks h !! b = Some c -> apart (At b 0) key ->
  simo (h_AES_ECB f input key (At b 0) len)
    (src ← mem_read i 0 len; output ← mem_write c 0 src; key ← mem_read k 0 KEYLEN; in_place (f key) output 0)
    h (fun _ c' h' => h' = upd h b c').
Proof.
  intros Hi Hk Hb Ha. unfold h_AES_ECB.
  eapply simo_bind; [by apply simo_read|]. intros ? s h' (-> & -> & _).
  eapply simo_bind; [by apply simo_write_upd|]. intros _ o h' ->.
  eapply simo_bind; [by apply simo_read, reads_upd|]. intros ? k0 h' (-> & -> & _).
  unfold in_place. eapply simo_bind; [apply simo_read, reads_block, upd_lookup|]. intros ? x h' (-> & -> & _).
  eapply simo_conseq; [apply simo_write_upd, upd_lookup|]. intros _ c' h' ->. apply upd_upd.
Qed.

Lemma h_pad_key_sim junk h key k keylen :
  wf h -> reads (blocks h) key k ->
  simo (h_pad_key junk key keylen) (pad_key k keylen) h (fun p rk h' => p = At (next h) 0 /\ h' = (alloc rk h).2).
Proof.
  intros Hw Hk. unfold h_pad_key, pad_key. eapply simo_left; [reflexivity|].
  apply (simo_map _ _ _ _ (fun _ rk h' => h' = (alloc rk h).2)); [|intros _ rk h' ->; by apply simo_ret].
  destruct (Z.ltb_spec keylen 16).
  - eapply simo_bind; [by apply simo_read, reads_alloc|]. intros ? s h' (-> & -> & Er).
    apply mem_read_length in Er. set (g := malloc junk (Z.to_nat 16)).
    assert (Lg : length g = 16%nat) by (unfold g; len).
    eapply simo_left.
    { apply hwrite_alloc. rewrite <- (take_drop (length s) g). apply mem_write_head. len. }
    eapply simo_done; [|reflexivity]. apply hwrite_alloc.
    rewrite <- (app_nil_r (drop _ _)), (mem_write_mid s (drop (length s) g) []) by len. by rewrite app_nil_r.
  - apply (simo_map _ _ _ _ (fun s' s h' => s' = s /\ h' = (alloc (malloc junk (Z.to_nat 16)) h).2 /\ length s = 16%nat)).
    + eapply simo_conseq; [by apply simo_read, reads_alloc|]. intros ? s h' (-> & -> & Er).
      by apply mem_read_length in Er.
    + intros ? s h' (-> & -> & Es). eapply simo_done; [|reflexivity]. apply hwrite_alloc, mem_write_all. len.
Qed.

Lemma h_fill_block_sim junk h src s srclen :
  wf h -> reads (blocks h) src s ->
  simo (h_fill_block junk src srclen) (fill_block s srclen) h
    (fun p d h' => p = At (next h) 0 /\ h' = (alloc d h).2).
Proof.
  intros Hw Hs. unfold h_fill_block, fill_block. eapply simo_left; [reflexivity|].
  eapply simo_left; [apply hwrite_alloc, mem_write_all; len|].
  eapply simo_bind; [apply simo_write_alloc|]. intros _ d1 h' [-> _].
  eapply simo_bind; [by apply simo_read, reads_alloc|]. intros ? x h' (-> & -> & _).
  eapply simo_map; [apply simo_write_alloc|]. intros _ d2 h' [-> _]. by apply simo_ret.
Qed.

Section Simulation.
Context (junk : nat -> Z) (h : heap) (src key : ptr) (s k c : bytes) (b : nat) (srclen keylen flag : Z).
Context (Hw : wf h) (Hs : reads (blocks h) src s) (Hk : reads (blocks h) key k) (Hb : blocks h !! b = Some c).
Context (Hsb : apart (At b 0) src).

(** The key copy is released after the cipher has written its output. *)
Lemma release_key rk c' :
  exists h', free (At (next h) 0) (upd (alloc rk h).2 b c') = (Ok tt, h') /\
    heap_to h (put (At b 0) (Some c') (blocks h)) h'.
Proof.
  eapply free_temp; [|by apply (wf_fresh h rk)|by apply (alloc_apart_block h b c)].
  eapply upd_to'; [by apply alloc_to|]. exists c. by apply (alloc_keeps h rk).
Qed.

(** The same with the copy of the source, which was made later. *)
Lemma release_both rk rs c' :
  let h1 := (alloc rk h).2 in
  exists h' h'', free (At (next h1) 0) (upd (alloc rs h1).2 b c') = (Ok tt, h') /\
    free (At (next h) 0) h' = (Ok tt, h'') /\
    heap_to h (put (At b 0) (Some c') (blocks h)) h''.
Proof.
  intros h1. assert (W1 : wf h1) by (by apply alloc_wf).
  assert (B1 : blocks h1 !! b = Some c) by (by apply alloc_keeps).
  destruct (free_temp h (put (At (next h) 0) (Some rk) (blocks h)) (upd (alloc rs h1).2 b c')
    (At b 0) (Some c') (At (next h1) 0) (Some rs)) as (h2 & E2 & T2).
  - eapply upd_to'; [eapply heap_to_trans; [by apply (alloc_to h rk)|by apply alloc_to]|].
    exists c. by apply (alloc_keeps h1 rs).
  - by apply (wf_fresh h1 rs).
  - by apply (alloc_apart_block h1 b c).
  - destruct (free_temp h (blocks h) h2 (At b 0) (Some c') (At (next h) 0) (Some rk) T2) as (h3 & E3 & T3).
    + by apply (wf_fresh h rk).
    + by apply (alloc_apart_block h b c).
    + eauto.
Qed.

Lemma h_AESEncrypt_sim :
  simo (h_AESEncrypt junk src key (At b 0) srclen keylen flag) (AESEncrypt s k c srclen keylen flag) h
    (fun _ c' h' => heap_to h (put (At b 0) (Some c') (blocks h)) h').
Proof.
  unfold h_AESEncrypt, AESEncrypt. destruct (negb (flag =? 0)).
  - eapply simo_bind; [by apply h_pad_key_sim|]. intros ? rk h' [-> ->].
    eapply simo_bind; [by apply simo_read, reads_alloc|]. intros ? x h' (-> & -> & _).
    eapply simo_bind; [by apply simo_write_upd, alloc_keeps|]. intros _ o h' ->.
    eapply simo_map.
    { eapply h_AES_ECB_sim; [by apply reads_upd, reads_alloc| |apply upd_lookup|].
      - apply reads_upd; [apply apart_sym; by apply (alloc_apart_block h b c)|]. apply reads_block, alloc_lookup.
      - apply apart_sym. by apply (alloc_apart_block h b c). }
    intros _ c' h' ->. rewrite upd_upd. destruct (release_key rk c') as (h1 & E & Ht).
    by eapply simo_done.
  - eapply simo_bind; [by apply h_pad_key_sim|]. intros ? rk h' [-> ->].
    eapply simo_bind; [by apply h_fill_block_sim; [apply alloc_wf|apply reads_alloc]|]. intros ? rs h' [-> ->].
    eapply simo_map.
    { eapply h_AES_ECB_sim.
      - apply reads_block, alloc_lookup.
      - apply reads_alloc; [by apply alloc_wf|]. apply reads_block, alloc_lookup.
      - apply alloc_keeps; [by apply alloc_wf|]. by apply alloc_keeps.
      - apply apart_sym. by apply (alloc_apart_block h b c). }
    intros _ c' h' ->. destruct (release_both rk rs c') as (h1 & h2 & E1 & E2 & Ht).
    eapply simo_left; [exact E1|]. by eapply simo_done.
Qed.

Lemma h_AESDecrypt_sim :
  simo (h_AESDecrypt junk src key (At b 0) srclen keylen flag) (AESDecrypt s k c srclen keylen flag) h
    (fun n r h' => n = r.2 /\ heap_to h (put (At b 0) (Some r.1) (blocks h)) h').
Proof.
  unfold h_AESDecrypt, AESDecrypt. destruct (negb (flag =? 0)).
  - eapply simo_bind; [by apply h_pad_key_sim|]. intros ? rk h' [-> ->].
    eapply simo_bind; [by apply simo_read, reads_alloc|]. intros ? x h' (-> & -> & _).
    eapply simo_bind; [by apply simo_write_upd, alloc_keeps|]. intros _ o h' ->.
    eapply simo_bind.
    { eapply h_AES_ECB_sim; [by apply reads_upd, reads_alloc| |apply upd_lookup|].
      - apply reads_upd; [apply apart_sym; by apply (alloc_apart_block h b c)|]. apply reads_block, alloc_lookup.
      - apply apart_sym. by apply (alloc_apart_block h b c). }
    intros _ c' h' ->. rewrite upd_upd. destruct (release_key rk c') as (h1 & E & Ht).
    eapply simo_left; [exact E|]. by apply simo_ret.
  - eapply simo_bind; [by apply h_pad_key_sim|]. intros ? rk h' [-> ->].
    eapply simo_bind.
    { eapply h_AES_ECB_sim; [by apply reads_alloc| |by apply alloc_keeps|].
      - apply reads_block, alloc_lookup.
      - apply apart_sym. by apply (alloc_apart_block h b c). }
    intros _ c' h' ->. destruct (release_key rk c') as (h1 & E & Ht).
    eapply simo_left; [exact E|].
    eapply simo_bind.
    { apply simo_read, reads_block. destruct Ht as (-> & _). cbn. apply lookup_insert_eq. }
    intros ? x h' (-> & -> & _). by apply simo_ret.
Qed.
End Simulation.

(** ** The module *)

Section Functions.
Context (junk : nat -> Z) (tmprnd : Z).

Definition h_client_make_auth_query (conn : hconn) : st heap (hbss * hconn) :=
  let conn := h_set_additional_info conn NULL in
  let n := round_up (Z.of_nat (length AUTH_STR)) 16 in
  p ← hmalloc junk n;
  _ ← hwrite p 0 (replicate (Z.to_nat n) 0);
  _ ← h_AESEncrypt junk (Lit AUTH_STR) (h_str (h_passphrase conn)) p (Z.of_nat (length AUTH_STR))
        (h_length (h_passphrase conn)) Q_AES_FLAG_FILL;
  mret (Hbss false (u32 n) p, conn).

(** [result] is not released on either path. *)
Definition h_client_deal_auth_reply (conn : hconn) (server_reply : hbss) : st heap (bool * hconn) :=
  result ← hmalloc junk (h_length server_reply);
  rlen ← h_AESDecrypt junk (h_str server_reply) (h_str (h_passphrase conn)) result (h_length server_reply)
           (h_length (h_passphrase conn)) Q_AES_FLAG_FILL;
  d ← contents result;
  ne ← lift (strncmp_ne d (MAGIC_STR ++ [0]) (length MAGIC_STR) 0);
  if (ne : bool) then mret (false, conn)
  else
    let tmplen := u64 (rlen - Z.of_nat (length MAGIC_STR)) in
    let n := u64 (sizeof_sym_passphrase + tmplen) in
    ainfo ← hmalloc junk n;
    _ ← hwrite ainfo 0 (replicate (Z.to_nat n) 0);
    _ ← hwrite ainfo 0 (le_bytes 8 tmplen);
    k ← hread result (length MAGIC_STR) (Z.to_nat tmplen);
    _ ← hwrite ainfo 8 k;
    mret (true, h_set_additional_info conn ainfo).

Definition h_ainfo_pwlen (ainfo : ptr) : st heap Z :=
  l ← hread ainfo 0 8; mret (le_val l).

Definition h_client_encode (conn : hconn) (pl : hquery) : st heap hbss :=
  data ← h_pack junk pl;
  let n := round_up (h_overall_size pl) 16 in
  encresult ← hmalloc junk n;
  _ ← hwrite encresult 0 (replicate (Z.to_nat n) 0);
  pwlen ← h_ainfo_pwlen (h_additional_info conn);
  _ ← h_AESEncrypt junk data (ptr_add (h_additional_info conn) 8) encresult (h_overall_size pl) pwlen
        Q_AES_FLAG_FILL;
  _ ← free data;
  _ ← free (h_str (h_payload pl));
  mret (Hbss false (u32 n) encresult).

Definition h_client_decode (conn : hconn) (data : hbss) : st heap hquery :=
  tmpresult ← hmalloc junk (h_length data);
  pwlen ← h_ainfo_pwlen (h_additional_info conn);
  n ← h_AESDecrypt junk (h_str data) (ptr_add (h_additional_info conn) 8) tmpresult (h_length data) pwlen
        Q_AES_FLAG_FILL;
  _ ← free (h_str data);
  h_unpack junk tmpresult (u32 n).

(** [request] is not released, nor [tmpenc] on success. *)
Definition h_server_make_auth_reply (conn : hconn) (data : hbss) : st heap (hbss * bool * hconn) :=
  request ← hmalloc junk (h_length data);
  rlen ← h_AESDecrypt junk (h_str data) (h_str (h_passphrase conn)) request (h_length data)
           (h_length (h_passphrase conn)) Q_AES_FLAG_FILL;
  d ← contents request;
  same ← lift (strfullcmp d AUTH_STR rlen (Z.of_nat (length AUTH_STR)));
  if negb (same : bool) then
    _ ← free (h_str data);
    p ← hmalloc junk 1;
    _ ← hwrite p 0 [1];
    mret (Hbss false 1 p, true, conn)
  else
    tmpenc ← hmalloc junk (Z.of_nat EXCEEDING_SIZE);
    let text := MAGIC_STR ++ bytes_of_string "_" ++ to_string tmprnd in
    _ ← hwrite tmpenc 0 (text ++ [0]);
    let tmpenl := Z.of_nat (length text) in
    let n := round_up tmpenl 16 in
    p ← hmalloc junk n;
    _ ← h_AESEncrypt junk tmpenc (h_str (h_passphrase conn)) p tmpenl (h_length (h_passphrase conn))
          Q_AES_FLAG_FILL;
    ainfo ← hmalloc junk (Z.of_nat EXCEEDING_SIZE);
    _ ← hwrite ainfo 0 (replicate EXCEEDING_SIZE 0);
    let pw := bytes_of_string "_" ++ to_string tmprnd in
    _ ← hwrite ainfo 8 (pw ++ [0]);
    _ ← hwrite ainfo 0 (le_bytes 8 (Z.of_nat (length pw)));
    _ ← free (h_str data);
    mret (Hbss false (u32 n) p, false, h_set_additional_info conn ainfo).

Definition h_server_encode := h_client_encode.
Definition h_server_decode := h_client_decode.

(** [if(conn->additional_info != NULL) free(conn->additional_info);] *)
Definition h_client_connection_close (conn : hconn) : st heap unit :=
  if bool_decide (h_additional_info conn = NULL) then mret tt else free (h_additional_info conn).
Definition h_server_connection_close (conn : hconn) : st heap unit :=
  if bool_decide (h_additional_info conn = NULL) then mret tt else free (h_additional_info conn).

Definition h_se_proxy : heap_fns :=
  HFns h_client_make_auth_query h_client_deal_auth_reply h_client_encode h_client_decode
    h_client_connection_close h_server_make_auth_reply h_server_encode h_server_decode
    h_server_connection_close.
End Functions.

Lemma strncmp_ne_plain a b n i :
  (exists x, strncmp_ne a b n i = Ok x) \/ strncmp_ne a b n i = Undefined OobRead.
Proof.
  revert i. induction n as [|n IH]; intros i; cbn [strncmp_ne]; [eauto|].
  unfold mem_read. repeat case_decide; run_ok; eauto. repeat case_bool_decide; eauto.
Qed.

Lemma strfullcmp_plain a b n k :
  (exists x, strfullcmp a b n k = Ok x) \/ strfullcmp a b n k = Undefined OobRead.
Proof.
  unfold strfullcmp. destruct (negb (n =? k)); [eauto|]. generalize 0%nat. induction (Z.to_nat n) as [|j IH];
    intros i; cbn [strfullcmp_loop]; [eauto|].
  unfold mem_read. repeat case_decide; run_ok; eauto. case_bool_decide; eauto.
Qed.

(** A comparison of the contents of a live block. *)
Lemma simo_compare {B' B} h b d (f : bytes -> outcome bool) (k' : bool -> st heap B') (k : bool -> outcome B) Q :
  blocks h !! b = Some d -> ((exists x, f d = Ok x) \/ f d = Undefined OobRead) ->
  (forall x, simo (k' x) (k x) h Q) ->
  simo (d ← contents (At b 0); x ← lift (f d); k' x) (x ← f d; k x) h Q.
Proof.
  intros Hb Hf Hk. eapply simo_left; [apply contents_eq, reads_block, Hb|].
  apply (simo_bind _ _ _ _ _ (fun x' x h' => x' = x /\ h' = h)); [|intros ? x h' [-> ->]; done].
  destruct Hf as [[x ->]| ->]; apply simo_lift; try done; by intros ? [= <-].
Qed.

Lemma pass_reads h c v :
  at_conn (blocks h) c v ->
  exists b d, h_str (h_passphrase c) = At b 0 /\ blocks h !! b = Some d /\ str (passphrase v) = Some d /\
    h_length (h_passphrase c) = bss_length (passphrase v).
Proof.
  intros (_ & _ & [(_ & El & Hp) Hn] & _). destruct (str (passphrase v)) as [d|] eqn:Es; [|done].
  destruct (h_str (h_passphrase c)) as [|b [|o]|l] eqn:Eh; try done. eauto 6.
Qed.

(** The session key, read by both sides. *)
Lemma simo_session {A' A} h p v (k' : Z -> st heap A') (k : bytes -> Z -> outcome A) Q :
  points (blocks h) p v ->
  (forall b d n, p = At b 0 -> blocks h !! b = Some d -> v = Some d -> simo (k' n) (k d n) h Q) ->
  simo (n ← h_ainfo_pwlen p; k' n) (ainfo ← deref v; n ← ainfo_pwlen ainfo; k ainfo n) h Q.
Proof.
  intros Hp Hk. destruct v as [d|], p as [|b [|o]|l]; try done; cbn [deref]; run_ok.
  - apply (simo_bind _ _ _ _ _ (fun x' x h' => x' = x /\ h' = h)).
    + unfold h_ainfo_pwlen, ainfo_pwlen. eapply simo_bind; [by apply simo_read, reads_block|].
      intros ? l h' (-> & -> & _). by apply simo_ret.
    + intros ? n h' [-> ->]. eauto.
  - unfold simo, sim, lift. cbn. eauto.
Qed.

Lemma se_encode_sim junk h c v q vq :
  wf h -> at_conn (blocks h) c v -> at_query (blocks h) q vq ->
  simo (h_client_encode junk c q) (client_encode junk v vq) h (transfers h (h_str (h_payload q))).
Proof.
  intros Hw Hc Hq. pose proof (h_overall_size_eq _ _ _ Hq) as Eo.
  unfold h_client_encode, client_encode, encode_packet. rewrite Eo.
  eapply simo_bind; [by apply h_pack_sim|]. intros ? d h' [-> ->]. cbv zeta.
  set (n := round_up (overall_size vq) 16). set (h1 := (alloc d h).2).
  assert (W1 : wf h1) by (by apply alloc_wf).
  assert (D1 : blocks h1 !! next h = Some d) by apply alloc_lookup.
  eapply simo_left; [reflexivity|]. eapply simo_left; [apply hwrite_alloc, mem_write_all; len|].
  set (z := replicate (Z.to_nat n) 0). set (h2 := (alloc z h1).2).
  destruct Hc as (_ & _ & _ & _ & Ha).
  apply simo_session; [by apply points_alloc, points_alloc|]. intros ba ai pwlen Ea Eb Ev.
  eapply simo_bind.
  { apply (h_AESEncrypt_sim junk h2 (At (next h) 0) (ptr_add (h_additional_info c) 8) d (drop 8 ai) z (next h1)).
    - by apply alloc_wf.
    - by apply reads_block, alloc_keeps.
    - apply reads_add. rewrite Ea. by apply reads_block.
    - apply alloc_lookup.
    - by apply (alloc_apart_block h1 (next h) d). }
  intros ? c' h3 T. cbv beta in T. change (blocks h2) with (put (At (next h1) 0) (Some z) (blocks h1)) in T.
  rewrite reput in T.
  assert (T3 : heap_to h (put (At (next h1) 0) (Some c') (put (At (next h) 0) (Some d) (blocks h))) h3).
  { eapply heap_to_trans; [|exact T]. eapply heap_to_trans; [by apply (alloc_to h d)|by apply (alloc_to h1 z)]. }
  destruct (free_temp _ _ _ _ _ _ _ T3) as (h4 & E4 & T4);
    [by apply (wf_fresh h d)|by apply apart_sym, (alloc_apart_block h1 (next h) d)|].
  eapply simo_left; [exact E4|]. destruct Hq as (_ & _ & _ & _ & Hp).
  assert (Hf : fresh_for (blocks h) (At (next h1) 0) (Some c')).
  { pose proof (wf_fresh h1 c' W1) as F. by apply (fresh_put_apart _ (At (next h) 0) (Some d)) in F as [F _];
      [|apply (wf_fresh h d)]. }
  pose proof (fresh_apart _ _ _ _ _ Hf Hp) as Hap.
  destruct (free_to _ _ _ _ _ T4 (points_put _ _ _ _ _ Hap Hp)) as (h5 & E5 & T5).
  eapply simo_left; [exact E5|]. apply simo_ret. rewrite rm_put_apart in T5 by (by apply apart_sym).
  do 2 (split; [done|]). split; [by apply fresh_rm|done].
Qed.

Lemma se_decode_sim junk h c v d vd :
  wf h -> at_conn (blocks h) c v -> at_buf (blocks h) d vd ->
  simo (h_client_decode junk c d) (client_decode junk v vd) h (q_transfers h (h_str d)).
Proof.
  intros Hw (_ & _ & _ & _ & Ha) [(_ & El & Hd) Hn]. unfold h_client_decode, client_decode, decode_packet.
  rewrite El. destruct (str vd) as [x|] eqn:Ex; [|done]. cbn [deref]. run_ok.
  destruct (h_str d) as [|b [|o]|l] eqn:Eh; try done. cbn in Hd.
  eapply simo_left; [reflexivity|]. set (g := malloc junk (Z.to_nat (bss_length vd))). set (h1 := (alloc g h).2).
  apply simo_session; [by apply points_alloc|]. intros ba ai pwlen Ea Eb Ev.
  assert (Hap : apart (At (next h) 0) (At b 0)) by (by apply (alloc_apart_block h b x)).
  eapply simo_bind.
  { apply (h_AESDecrypt_sim junk h1 (At b 0) (ptr_add (h_additional_info c) 8) x (drop 8 ai) g (next h)).
    - by apply alloc_wf.
    - by apply reads_block, alloc_keeps.
    - apply reads_add. rewrite Ea. by apply reads_block.
    - apply alloc_lookup.
    - done. }
  intros n0 [r m] h2 [En T]. cbn [fst snd] in En, T |- *. subst n0.
  change (blocks h1) with (put (At (next h) 0) (Some g) (blocks h)) in T. rewrite reput in T.
  assert (T2 : heap_to h (put (At (next h) 0) (Some r) (blocks h)) h2)
    by (eapply heap_to_trans; [by apply (alloc_to h g)|exact T]).
  destruct (free_to _ _ _ (At b 0) (Some x) T2) as (h3 & E3 & T3); [by apply points_put|].
  rewrite rm_put_apart in T3 by (by apply apart_sym).
  eapply simo_left; [exact E3|]. pose proof T3 as (B3 & _ & _ & W3).
  eapply simo_conseq; [apply h_unpack_sim with (d := r); [done|]|].
  { rewrite B3. cbn. apply lookup_insert_eq. }
  intros q vq h4 (Q1 & Q2 & Q3 & Q4 & Q5 & Q6). rewrite B3, rm_put in Q5, Q6 by (by apply fresh_rm, (wf_fresh h r)).
  do 4 (split; [done|]). split; [done|]. eapply heap_to_trans; [exact T3|exact Q6].
Qed.

Lemma close_sim h c v :
  wf h -> at_conn (blocks h) c v ->
  simo (h_client_connection_close c) (client_connection_close v) h
    (fun _ _ h' => heap_to h (rm (h_additional_info c) (blocks h)) h').
Proof.
  intros Hw (_ & _ & _ & _ & Ha). unfold h_client_connection_close, client_connection_close.
  case_bool_decide as En.
  - apply simo_ret. rewrite En. by apply heap_to_refl.
  - destruct (free_to _ _ _ _ _ (heap_to_refl h Hw) Ha) as (h1 & E & T). by eapply simo_done.
Qed.

(** ** The handshake *)

Lemma make_auth_query_sim junk h c v :
  wf h -> at_conn (blocks h) c v -> h_additional_info c = NULL ->
  simo (h_client_make_auth_query junk c) (client_make_auth_query v) h
    (fun r vr h' => transfers h NULL r.1 vr.1 h' /\ r.2 = c /\ vr.2 = v).
Proof.
  intros Hw Hc Hn. destruct (conn_null _ _ _ Hc Hn) as (_ & Ec & Ev).
  destruct (pass_reads h c v Hc) as (bp & pw & Ep & Hp & Es & El).
  unfold h_client_make_auth_query, client_make_auth_query. rewrite Ec, Ev, Ep, El, Es. cbn [deref]. run_ok. cbv zeta.
  eapply simo_left; [reflexivity|]. eapply simo_left; [apply hwrite_alloc, mem_write_all; len|].
  set (z := replicate (Z.to_nat _) 0). eapply simo_bind.
  { apply (h_AESEncrypt_sim junk (alloc z h).2 (Lit AUTH_STR) (At bp 0) AUTH_STR pw z (next h)).
    - by apply alloc_wf.
    - done.
    - by apply reads_block, alloc_keeps.
    - apply alloc_lookup.
    - done. }
  intros ? c' h' T. apply simo_ret. cbn [fst snd]. split; [|done]. cbv beta in T.
  change (blocks (alloc z h).2) with (put (At (next h) 0) (Some z) (blocks h)) in T. rewrite reput in T.
  do 2 (split; [done|]). split; [by apply (wf_fresh h c')|].
  eapply heap_to_trans; [by apply (alloc_to h z)|exact T].
Qed.

(** Decrypting the argument into a new block. *)
Lemma simo_decrypt {A' A} junk h d vd x b bp pw keylen (k' : ptr -> Z -> st heap A') (k : bytes * Z -> outcome A) Q :
  wf h -> h_length d = bss_length vd -> blocks h !! b = Some x -> blocks h !! bp = Some pw ->
  (forall r n h', heap_to h (put (At (next h) 0) (Some r) (blocks h)) h' ->
     simo (k' (At (next h) 0) n) (k (r, n)) h' Q) ->
  simo (result ← hmalloc junk (h_length d);
        n ← h_AESDecrypt junk (At b 0) (At bp 0) result (h_length d) keylen Q_AES_FLAG_FILL;
        k' result n)
    (r ← AESDecrypt x pw (malloc junk (Z.to_nat (bss_length vd))) (bss_length vd) keylen Q_AES_FLAG_FILL; k r)
    h Q.
Proof.
  intros Hw El Hb Hp Hk. rewrite El. eapply simo_left; [reflexivity|].
  set (g := malloc _ _). eapply simo_bind.
  { apply (h_AESDecrypt_sim junk (alloc g h).2 (At b 0) (At bp 0) x pw g (next h)).
    - by apply alloc_wf.
    - by apply reads_block, alloc_keeps.
    - by apply reads_block, alloc_keeps.
    - apply alloc_lookup.
    - by apply (alloc_apart_block h b x). }
  intros n [r n'] h' [En T]. cbn [fst snd] in En, T. subst n'. apply Hk.
  change (blocks (alloc g h).2) with (put (At (next h) 0) (Some g) (blocks h)) in T. rewrite reput in T.
  eapply heap_to_trans; [by apply (alloc_to h g)|exact T].
Qed.

Lemma deal_auth_reply_sim junk h c v r vr :
  wf h -> at_conn (blocks h) c v -> h_additional_info c = NULL -> at_buf (blocks h) r vr ->
  simo (h_client_deal_auth_reply junk c r) (client_deal_auth_reply junk v vr) h
    (fun r vr h' => r.1 = vr.1 /\ installs 1 h (blocks h) c r.2 v vr.2 h').
Proof.
  intros Hw Hc Hn [(_ & El & Hr) Hx]. destruct (pass_reads h c v Hc) as (bp & pw & Ep & Hp & Es & Elp).
  destruct (str vr) as [x|] eqn:Ex; [|done]. destruct (h_str r) as [|b [|o]|l] eqn:Eh; try done. cbn in Hr.
  unfold h_client_deal_auth_reply, client_deal_auth_reply. rewrite Ex, Es, Eh, Ep, Elp. cbn [deref]. run_ok.
  apply (simo_decrypt junk h r vr x b bp pw); [done..|]. intros result rlen h1 T1.
  pose proof T1 as (B1 & _ & _ & W1). pose proof (wf_fresh h [] Hw) as F0. cbn in F0.
  assert (L1 : blocks h1 !! next h = Some result) by (rewrite B1; cbn; apply lookup_insert_eq).
  apply (simo_compare h1 (next h) result); [done|apply strncmp_ne_plain|]. intros [].
  { apply simo_ret. split; [done|]. eapply installs_none; done. }
  cbv zeta. set (tmplen := u64 _). set (n := u64 (_ + tmplen)).
  eapply simo_left; [reflexivity|]. eapply simo_left; [apply hwrite_alloc, mem_write_all; len|].
  eapply simo_bind; [apply simo_write_alloc|]. intros ? a1 h2 [-> _].
  eapply simo_bind; [by apply simo_read, reads_alloc, reads_block|]. intros ? k h2 (-> & -> & _).
  eapply simo_bind; [apply simo_write_alloc|]. intros ? ai h2 [-> _].
  apply simo_ret. split; [done|]. pose proof (wf_fresh h1 [] W1) as F1. cbn in F1. rewrite B1 in F1. cbn in F1.
  apply lookup_insert_None in F1 as [F1 N1].
  eapply (installs_one h (blocks h) (next h) result (next h1) ai); [done..|].
  eapply heap_to_trans; [exact T1|]. pose proof (alloc_to h1 ai W1) as T2. by rewrite B1 in T2.
Qed.

Lemma next_fresh h : wf h -> blocks h !! next h = None.
Proof. apply (wf_fresh h []). Qed.

Lemma fresh_block h b d : wf h -> blocks h !! b = Some d -> next h <> b.
Proof. intros Hw H. apply (alloc_apart_block h b d Hw H). Qed.

(** The blocks after a successful reply: [request] at [n0] and [tmpenc] at [n1]
    are forgotten, the reply is at [n2], the session key at [n3]. *)
Lemma success_blocks (m : gmap nat bytes) b n0 n1 n2 n3 rq te c ai :
  is_Some (m !! b) -> m !! n0 = None -> m !! n1 = None -> m !! n2 = None -> m !! n3 = None ->
  n0 <> n1 -> n0 <> n2 -> n0 <> n3 -> n1 <> n2 -> n1 <> n3 -> n2 <> n3 ->
  delete b (<[n3 := ai]> (<[n2 := c]> (<[n1 := te]> (<[n0 := rq]> m)))) =
  two_blocks n0 n1 rq te ∪ <[n3 := ai]> (<[n2 := c]> (delete b m)).
Proof. intros [x Hb] H0 H1 H2 H3 ? ? ? ? ? ?. unfold two_blocks. map_cases. Qed.

Section Reply.
Context (junk : nat -> Z) (tmprnd : Z) (h : heap) (c : hconn) (v : connect_info) (d : hbss) (b : nat) (x : bytes).
Context (Hw : wf h) (Hc : at_conn (blocks h) c v) (Hn : h_additional_info c = NULL).
Context (Eh : h_str d = At b 0) (Hb : blocks h !! b = Some x).

Definition reply_post (r : hbss * bool * hconn) (vr : binary_safe_string * bool * connect_info) (h' : heap) : Prop :=
  r.1.2 = vr.1.2 /\ h_null_terminated r.1.1 = null_terminated vr.1.1 /\ h_length r.1.1 = bss_length vr.1.1 /\
  fresh_for (rm (At b 0) (blocks h)) (h_str r.1.1) (str vr.1.1) /\
  installs 2 h (put (h_str r.1.1) (str vr.1.1) (rm (At b 0) (blocks h))) c r.2 v vr.2 h'.

(** The rejection: the argument is released, then one byte allocated. *)
Lemma reject_sim request h1 :
  heap_to h (put (At (next h) 0) (Some request) (blocks h)) h1 ->
  simo (_ ← free (h_str d); p ← hmalloc junk 1; _ ← hwrite p 0 [1]; mret (Hbss false 1 p, true, c))
    (buf ← mem_write (malloc junk 1) 0 [1]; Ok (Bss false 1 (Some buf), true, v)) h1 reply_post.
Proof.
  intros T1. rewrite Eh. pose proof (alloc_apart_block h b x Hw Hb) as Ha.
  destruct (free_to _ _ _ (At b 0) (Some x) T1) as (h2 & E2 & T2); [by apply points_put|].
  eapply simo_left; [exact E2|]. eapply simo_left; [reflexivity|].
  eapply simo_bind; [apply simo_write_alloc|]. intros ? buf h3 [-> _]. apply simo_ret.
  pose proof T2 as (B2 & _ & _ & W2). pose proof (wf_fresh h2 [] W2) as F2. cbn in F2.
  pose proof (wf_fresh h [] Hw) as F0. cbn in F0. cbn in Ha.
  assert (F : delete b (blocks h) !! next h2 = None /\ next h2 <> next h).
  { rewrite B2 in F2. cbn in F2. rewrite delete_insert_ne in F2 by done. apply lookup_insert_None in F2 as [? ?]. auto. }
  destruct F as [F N]. do 3 (split; [done|]). split; [exact F|]. cbn [fst snd h_str str].
  eapply (installs_none h _ (next h) request); [lia| |done|done|].
  - cbn. rewrite lookup_insert_ne by done. by rewrite lookup_delete_None; right.
  - eapply heap_to_trans; [exact T2|]. eapply heap_to_eq; [|by apply (alloc_to h2 buf)].
    rewrite B2. cbn. rewrite delete_insert_ne by done. by rewrite insert_insert_ne.
Qed.

Lemma success_sim request h1 bp pw :
  heap_to h (put (At (next h) 0) (Some request) (blocks h)) h1 ->
  h_str (h_passphrase c) = At bp 0 -> blocks h !! bp = Some pw ->
  h_length (h_passphrase c) = bss_length (passphrase v) ->
  simo
   (tmpenc ← hmalloc junk (Z.of_nat EXCEEDING_SIZE);
    let text := MAGIC_STR ++ bytes_of_string "_" ++ to_string tmprnd in
    _ ← hwrite tmpenc 0 (text ++ [0]);
    let tmpenl := Z.of_nat (length text) in
    let n := round_up tmpenl 16 in
    p ← hmalloc junk n;
    _ ← h_AESEncrypt junk tmpenc (h_str (h_passphrase c)) p tmpenl (h_length (h_passphrase c)) Q_AES_FLAG_FILL;
    ainfo ← hmalloc junk (Z.of_nat EXCEEDING_SIZE);
    _ ← hwrite ainfo 0 (replicate EXCEEDING_SIZE 0);
    let pw := bytes_of_string "_" ++ to_string tmprnd in
    _ ← hwrite ainfo 8 (pw ++ [0]);
    _ ← hwrite ainfo 0 (le_bytes 8 (Z.of_nat (length pw)));
    _ ← free (h_str d);
    mret (Hbss false (u32 n) p, false, h_set_additional_info c ainfo))
   (auth_success junk tmprnd v pw) h1 reply_post.
Proof.
  intros T1 Ep Hp Elp. pose proof T1 as (B1 & _ & N1 & W1). rewrite Eh, Ep, Elp.
  assert (P1 : blocks h1 !! bp = Some pw).
  { rewrite B1. cbn. rewrite lookup_insert_ne; [done|]. by apply (fresh_block h bp pw). }
  assert (X1 : blocks h1 !! b = Some x).
  { rewrite B1. cbn. rewrite lookup_insert_ne; [done|]. by apply (fresh_block h b x). }
  unfold auth_success, sprintf_at. cbv zeta. eapply simo_left; [reflexivity|]. rewrite Nat2Z.id.
  eapply simo_bind; [apply simo_write_alloc|]. intros ? te h2 [-> _].
  set (h2 := (alloc te h1).2). assert (W2 : wf h2) by (by apply alloc_wf).
  eapply simo_left; [reflexivity|]. set (g := malloc junk _). set (h3 := (alloc g h2).2).
  eapply simo_bind.
  { apply (h_AESEncrypt_sim junk h3 (At (next h1) 0) (At bp 0) te pw g (next h2)).
    - by apply alloc_wf.
    - apply reads_block, alloc_keeps; [done|]. apply alloc_lookup.
    - by apply reads_block, alloc_keeps, alloc_keeps.
    - apply alloc_lookup.
    - apply (alloc_apart_block h2 (next h1) te W2). apply alloc_lookup. }
  intros ? cip h4 T. cbv beta in T.
  change (blocks h3) with (put (At (next h2) 0) (Some g) (blocks h2)) in T. rewrite reput in T.
  assert (T4 : heap_to h (<[next h2 := cip]> (<[next h1 := te]> (<[next h := request]> (blocks h)))) h4).
  { eapply heap_to_trans; [exact T1|]. eapply heap_to_eq; [|eapply heap_to_trans; [|exact T]].
    - cbn. by rewrite B1.
    - eapply heap_to_trans; [by apply (alloc_to h1 te)|by apply (alloc_to h2 g)]. }
  pose proof T4 as (B4 & _ & N4 & W4).
  eapply simo_left; [reflexivity|]. rewrite Nat2Z.id. eapply simo_left; [apply hwrite_alloc, mem_write_all; len|].
  eapply simo_bind; [apply simo_write_alloc|]. intros ? a1 h5 [-> _].
  eapply simo_bind; [apply simo_write_alloc|]. intros ? ai h5 [-> _].
  (* addresses of the blocks *)
  pose proof (next_fresh h Hw) as F0. pose proof (next_fresh h1 W1) as F1. pose proof (next_fresh h2 W2) as F2.
  pose proof (next_fresh h4 W4) as F4. change (blocks h2) with (<[next h1 := te]> (blocks h1)) in F2.
  rewrite B1 in F1, F2. rewrite B4 in F4. cbn [put] in F1, F2.
  apply lookup_insert_None in F1 as [F1 N01]. apply lookup_insert_None in F2 as [F2 N12].
  apply lookup_insert_None in F2 as [F2 N02]. apply lookup_insert_None in F4 as [F4 N23].
  apply lookup_insert_None in F4 as [F4 N13]. apply lookup_insert_None in F4 as [F4 N03].
  assert (X4 : blocks h4 !! b = Some x).
  { rewrite B4, !lookup_insert_ne; [done|congruence..]. }
  destruct (free_to h4 _ _ (At b 0) (Some x) (alloc_to h4 ai W4)) as (h5 & E5 & T5).
  { apply points_put; [by apply (alloc_apart_block h4 b x)|done]. }
  eapply simo_left; [exact E5|]. apply simo_ret. cbn [put rm] in T5. rewrite B4, success_blocks in T5 by eauto.
  assert (K : forall i, blocks h !! i = None -> delete b (blocks h) !! i = None) by (intros; by rewrite lookup_delete_None; right).
  do 3 (split; [done|]). split; [by apply K|]. cbn [fst snd h_str str put rm].
  eapply (installs_two h _ (next h) (next h1) request te (next h4) ai);
    rewrite ?lookup_insert_ne by congruence; try (by apply K); try congruence.
  eapply heap_to_trans; [exact T4|exact T5].
Qed.
End Reply.

Lemma make_auth_reply_sim junk tmprnd h c v d vd :
  wf h -> at_conn (blocks h) c v -> h_additional_info c = NULL -> at_buf (blocks h) d vd ->
  simo (h_server_make_auth_reply junk tmprnd c d) (server_make_auth_reply junk tmprnd v vd) h
    (fun r vr h' => exists b, h_str d = At b 0 /\ reply_post h c v b r vr h').
Proof.
  intros Hw Hc Hn [(_ & El & Hd) Hx]. destruct (pass_reads h c v Hc) as (bp & pw & Ep & Hp & Es & Elp).
  destruct (str vd) as [x|] eqn:Ex; [|done]. destruct (h_str d) as [|b [|o]|l] eqn:Eh; try done. cbn in Hd.
  eapply (simo_conseq _ _ _ (reply_post h c v b)); [|eauto].
  unfold h_server_make_auth_reply, server_make_auth_reply. rewrite Ex, Es. cbn [deref]. run_ok.
  rewrite Eh, Ep, Elp.
  apply (simo_decrypt junk h d vd x b bp pw); [done..|]. intros request rlen h1 T1.
  assert (L1 : blocks h1 !! next h = Some request) by (destruct T1 as (-> & _); cbn; apply lookup_insert_eq).
  apply (simo_compare h1 (next h) request); [done|apply strfullcmp_plain|]. intros []; cbn [negb].
  - pose proof (success_sim junk tmprnd h c v d b x Hw Eh Hd request h1 bp pw T1 Ep Hp Elp) as H.
    by rewrite Eh, Ep, Elp in H.
  - pose proof (reject_sim junk h c v d b x Hw Hc Hn Eh Hd request h1 T1) as H. by rewrite Eh in H.
Qed.

#[global] Instance se_proxy_owns junk tmprnd :
  HeapModule (h_se_proxy junk tmprnd) (se_proxy junk tmprnd) 2 (fun _ => True).
Proof.
  constructor.
  - done.
  - intros h c v Hw Hc Hn. by apply make_auth_query_sim.
  - intros h c v r vr Hw Hc Hn Hr. eapply simo_conseq; [by apply deal_auth_reply_sim|].
    intros r' vr' h' [E (a & va & g & ? & ? & ? & ? & ? & ?)]. split; [done|]. split; [|done].
    exists a, va, g. split_and!; try done. lia.
  - intros h c v q vq Hw Hc Hq _. by apply se_encode_sim.
  - intros h c v d vd Hw Hc Hd _. by apply se_decode_sim.
  - intros h c v Hw Hc _. by apply close_sim.
  - intros h c v d vd Hw Hc Hn Hd _. eapply simo_conseq; [by apply make_auth_reply_sim|].
    intros r vr h' (b & -> & E1 & E2 & E3 & E4 & E5). by split_and!.
  - intros h c v q vq Hw Hc Hq _. by apply se_encode_sim.
  - intros h c v d vd Hw Hc Hd _. by apply se_decode_sim.
  - intros h c v Hw Hc _. by apply (close_sim h c v).
Qed.

(** Both directions between processes that have the same session key. *)
Lemma se_passes junk junk' :
  passes (h_client_encode junk) (h_server_decode junk') paired /\
  passes (h_server_encode junk) (h_client_decode junk') (flip paired).
Proof.
  split.
  - apply (passes_intro _ _ (client_encode junk) (server_decode junk')).
    + intros. by apply se_encode_sim.
    + intros. by apply (se_decode_sim junk').
    + intros cc sc q (k & Hk & S1 & S2) Hq Hn.
      destruct (decode_encode_packet junk junk' cc sc k q) as (p & E & _ & _ & q' & D & _ & Eq); [done..|]. eauto.
  - apply (passes_intro _ _ (server_encode junk) (client_decode junk')).
    + intros. by apply (se_encode_sim junk).
    + intros. by apply se_decode_sim.
    + intros sc cc q (k & Hk & S1 & S2) Hq Hn.
      destruct (decode_encode_packet junk junk' sc cc k q) as (p & E & _ & _ & q' & D & _ & Eq); [done..|]. eauto.
Qed.

(** C15: packets change owner, in both bundled modules and in both directions.
    When the two ends of simple_proxy share a passphrase, or those of se_proxy a
    session key, and the query fits a packet, [encode] on one end succeeds and
    frees the caller's payload and all its own buffers but one packet, [decode]
    on the other end, in a process with any other memory, succeeds on these bytes
    and frees the received buffer and all its own but one string, which is the
    payload of the same query; no other block of either process changes. *)
Theorem packet_changes_owner (junk junk' : nat -> Z) :
  passes (HeapSimple.h_client_encode junk) (HeapSimple.h_server_decode junk') SimpleProxy.same_pass /\
  passes (HeapSimple.h_server_encode junk) (HeapSimple.h_client_decode junk') (flip SimpleProxy.same_pass) /\
  passes (h_client_encode junk) (h_server_decode junk') paired /\
  passes (h_server_encode junk) (h_client_decode junk') (flip paired).
Proof.
  destruct (HeapSimple.simple_passes junk junk') as [H1 H2]. destruct (se_passes junk junk') as [H3 H4]. done.
Qed.

(** The cipher wrappers own nothing afterwards. [AESEncrypt] and
    [AESDecrypt] compute the value-level result into the destination block and
    release the copies of the key and of the source that they make, on both
    padding modes: afterwards the destination is the only block that changed,
    and no released block is touched. *)
Theorem AES_wrappers_balanced (junk : nat -> Z) (h : heap) (src key : ptr) (s k c : bytes) (b : nat) (srclen keylen flag : Z) :
  wf h -> reads (blocks h) src s -> reads (blocks h) key k -> blocks h !! b = Some c -> apart (At b 0) src ->
  match AESEncrypt s k c srclen keylen flag with
  | Ok c' => exists h', h_AESEncrypt junk src key (At b 0) srclen keylen flag h = (Ok tt, h') /\
      heap_to h (<[b := c']> (blocks h)) h'
  | Undefined _ => exists u h', h_AESEncrypt junk src key (At b 0) srclen keylen flag h = (Undefined u, h') /\
      u <> DoubleFree /\ u <> UseAfterFree
  | Throw _ => False
  | Blocked => exists h', h_AESEncrypt junk src key (At b 0) srclen keylen flag h = (Blocked, h')
  end /\
  match AESDecrypt s k c srclen keylen flag with
  | Ok (c', n) => exists h', h_AESDecrypt junk src key (At b 0) srclen keylen flag h = (Ok n, h') /\
      heap_to h (<[b := c']> (blocks h)) h'
  | Undefined _ => exists u h', h_AESDecrypt junk src key (At b 0) srclen keylen flag h = (Undefined u, h') /\
      u <> DoubleFree /\ u <> UseAfterFree
  | Throw _ => False
  | Blocked => exists h', h_AESDecrypt junk src key (At b 0) srclen keylen flag h = (Blocked, h')
  end.
Proof.
  intros Hw Hs Hk Hb Ha. split.
  - pose proof (h_AESEncrypt_sim junk h src key s k c b srclen keylen flag Hw Hs Hk Hb Ha) as H. unfold simo, sim, lift in H.
    destruct (AESEncrypt s k c srclen keylen flag) as [c'|e|u|].
    + destruct H as ([] & h' & E & T). eauto.
    + by destruct H as (? & _ & []).
    + destruct H as (u' & h' & E & Hu). exists u', h'. split; [done|]. by destruct u'.
    + exact H.
  - pose proof (h_AESDecrypt_sim junk h src key s k c b srclen keylen flag Hw Hs Hk Hb Ha) as H. unfold simo, sim, lift in H.
    destruct (AESDecrypt s k c srclen keylen flag) as [[c' n]|e|u|].
    + destruct H as (? & h' & E & -> & T). eauto.
    + by destruct H as (? & _ & []).
    + destruct H as (u' & h' & E & Hu). exists u', h'. split; [done|]. by destruct u'.
    + exact H.
Qed.

(** ** A concrete handshake *)

(** A passphrase, a block of text and a destination with room for the padding. *)
Definition sample_heap : heap :=
  Heap (<[0%nat := bytes_of_string "pw" ++ [0]]> (<[1%nat := replicate 16 97]> {[ 2%nat := replicate 32 0 ]})) ∅ 3.

Lemma se_heap_wf : wf sample_heap.
Proof.
  split; [|by intros]. intros b d. cbn. rewrite !lookup_insert_Some, lookup_singleton_Some.
  intros [[<- _]|[_ [[<- _]|[_ [<- _]]]]]; lia.
Qed.

Lemma AES_wrappers_balanced_witness :
  (exists c' h', AESEncrypt (replicate 16 97) (bytes_of_string "pw" ++ [0]) (replicate 32 0) 16 2 Q_AES_FLAG_FILL = Ok c' /\
     h_AESEncrypt (fun _ => 5) (At 1 0) (At 0 0) (At 2 0) 16 2 Q_AES_FLAG_FILL sample_heap = (Ok tt, h') /\
     heap_to sample_heap (<[2%nat := c']> (blocks sample_heap)) h').
Proof.
  destruct (AES_wrappers_balanced (fun _ => 5) sample_heap (At 1 0) (At 0 0) (replicate 16 97) (bytes_of_string "pw" ++ [0])
    (replicate 32 0) 2 16 2 Q_AES_FLAG_FILL se_heap_wf) as [H _]; [by apply reads_block|by apply reads_block|done|done|].
  destruct (AESEncrypt _ _ _ _ _ _) as [c'|e|u|] eqn:E; [|vm_compute in E; discriminate E..].
  destruct H as (h' & H). exists c', h'. split; [reflexivity|exact H].
Defined.

Definition sample_hconn : hconn := HConn (replicate 16 0) 80 (Hbss true 2 (At 0 0)) 3 NULL.

(** A connection with a session key and a query. *)
Definition session_conn : connect_info :=
  set_additional_info SeProxy.sample_conn (Some (le_bytes 8 3 ++ bytes_of_string "_42" ++ replicate 8 0)).
Definition session_heap : heap :=
  Heap (<[0%nat := default [] (str (passphrase session_conn))]>
       (<[1%nat := default [] (additional_info session_conn)]>
         {[ 2%nat := default [] (str (payload SeProxy.sample_query)) ]})) ∅ 3.
Definition session_hconn : hconn :=
  HConn (server_ip session_conn) (server_port session_conn)
    (Hbss (null_terminated (passphrase session_conn)) (bss_length (passphrase session_conn)) (At 0 0))
    (connect_fd session_conn) (At 1 0).
Definition session_hquery : hquery :=
  HQuery (destination_ip SeProxy.sample_query) (destination_port SeProxy.sample_query)
    (Hbss (null_terminated (payload SeProxy.sample_query)) (bss_length (payload SeProxy.sample_query)) (At 2 0)).

Lemma session_heap_wf : wf session_heap.
Proof.
  split; [|by intros]. intros b d. cbn. rewrite !lookup_insert_Some, lookup_singleton_Some.
  intros [[<- _]|[_ [[<- _]|[_ [<- _]]]]]; lia.
Qed.

Lemma session_at_conn : at_conn (blocks session_heap) session_hconn session_conn.
Proof. by split_and!; try done; split. Qed.

Lemma packet_changes_owner_witness :
  exists p vp hc', h_client_encode (fun _ => 0) session_hconn session_hquery session_heap = (Ok p, hc') /\
    transfers session_heap (At 2 0) p vp hc' /\
  exists q' vq hs',
    h_server_decode (fun _ => 0) session_hconn (Hbss false (bss_length vp) (At 3 0))
      (alloc (bss_bytes vp) session_heap).2 = (Ok q', hs') /\
    query_equiv vq SeProxy.sample_query /\
    heap_to session_heap (put (h_str (h_payload q')) (str (payload vq)) (blocks session_heap)) hs'.
Proof.
  destruct (proj1 (proj2 (proj2 (packet_changes_owner (fun _ => 0) (fun _ => 0))))
    session_heap session_heap session_hconn session_hconn session_conn session_conn session_hquery SeProxy.sample_query)
    as (p & vp & hc' & E1 & T1 & q' & vq & hs' & E2 & Hq & _ & _ & _ & _ & T2).
  - exists (bytes_of_string "_42"). split; [cbn; lia|]. split; eexists; reflexivity.
  - apply SeProxy.sample_query_ok.
  - cbn. lia.
  - apply session_heap_wf.
  - apply session_at_conn.
  - by split_and!.
  - by split.
  - apply session_heap_wf.
  - apply session_at_conn.
  - exists p, vp, hc'. split; [exact E1|]. split; [exact T1|]. exists q', vq, hs'. split; [exact E2|]. split; [exact Hq|exact T2].
Defined.

(** What a successful handshake leaves allocated in a process that plays both
    sides: beside the two [additional_info] (blocks 12 and 15) the decrypted
    request (6), the text of the reply (8) and the decrypted reply (13). *)
Example se_handshake_forgets :
  match (q ← h_client_make_auth_query (fun _ => 0) sample_hconn;
         r ← h_server_make_auth_reply (fun _ => 0) 42 sample_hconn q.1;
         a ← h_client_deal_auth_reply (fun _ => 0) q.2 r.1.1;
         _ ← free (h_str r.1.1);
         mret (a.1, h_additional_info a.2, h_additional_info r.2)) sample_heap with
  | (Ok r, h') => Some (r, (map_to_list (blocks h')).*1)
  | _ => None
  end = Some ((true, At 15 0, At 12 0), [6; 12; 8; 2; 13; 15; 1; 0]%nat).
Proof. vm_compute. reflexivity. Qed.

End HeapSe.
