(* ===== verification/HeapIO.v ===== *)
(** * Packets in allocated buffers (native/src/lib/NetLib.hpp, rlib/sys/sio.hpp)

    The transfers of [SockIO] and [NetLib] with the buffers they allocate:
    the state is the heap and the operating system.  [hsim] specialises [sim]
    to this state: equal effects on the operating system. *)

From S2P Require Import Prelude RString ModuleApi SockIO NetLib Heap HeapModule.
From stdpp Require Import gmap.
Import ModuleApi SockIO NetLib Heap HeapModule.

Open Scope Z_scope.

Module HeapIO.

(** ** Computations on the heap and the operating system *)

Abbreviation hio := (st (heap * world)).

Definition of_heap {A} (m : st heap A) : hio A := fun hw =>
  let '(o, h) := m hw.1 in (o, (h, hw.2)).

(** The contents of a block replaced by what a system call left there. *)
Definition assign (p : ptr) (d : bytes) : st heap unit := fun h =>
  match p with
  | At b O => match blocks h !! b with
              | Some _ => (Ok tt, upd h b d)
              | None => (Undefined UseAfterFree, h)
              end
  | _ => (Undefined OobWrite, h)
  end.

(** [recvn_ex(fd, p, n)] *)
Definition h_recvn_ex (fd : Z) (p : ptr) (n : Z) : hio unit :=
  d ← of_heap (contents p);
  d ← embed (recvn_ex fd d 0 n);
  of_heap (assign p d).

(** [sendn_ex(fd, p, n, flags)] *)
Definition h_sendn_ptr (fd : Z) (p : ptr) (len : Z) (flags : Z) : hio unit :=
  if len =? 0 then mret tt
  else d ← of_heap (contents p); embed (sendn_ex fd d len flags).

Definition h_send_length_and_packet (connfd : Z) (data : ptr) (len : Z) : hio unit :=
  if max_packet <? len then
    embed (refuse "send_length_and_packet: refuse to send too large packet: length=()" len)
  else
    _ ← embed (sendn_ex connfd (le_bytes 4 (htonl len)) 4 0);
    h_sendn_ptr connfd data len 0.

Section Buffers.
Variable junk : nat -> Z.
Variable realloc_ok : Z -> bool.

(** The buffer is lost when [recvn_ex] throws. *)
Definition h_recv_length_and_packet (connfd : Z) : hio (ptr * Z) :=
  n ← embed (recvn_ex connfd (malloc junk 4) 0 4);
  let len := ntohl (le_val n) in
  if max_packet <? len then
    embed (refuse "recv_length_and_packet: refuse to recv too large packet: length=()" len)
  else
    data ← of_heap (hmalloc junk len);
    _ ← h_recvn_ex connfd data len;
    mret (data, len).

(** [realloc]: a new block with the old contents; the old block is released. *)
Definition h_realloc (p : ptr) (n : Z) : st heap ptr :=
  d ← contents p;
  q ← alloc (realloc junk d n);
  _ ← free p;
  mret q.

(** One [read] or [recv] into the block [p] from offset [off] on. *)
Definition h_recv (fd : Z) (p : ptr) (off : nat) (n : Z) : hio sysret :=
  d ← of_heap (contents p);
  r ← embed (recv fd d off n);
  _ ← of_heap (assign p r.2);
  mret r.1.

(** [recvall] and [readall]: the returned size and the new value of [*pvptr].
    A failing call leaves [*pvptr] alone, and the buffer is lost. *)
Fixpoint h_recvall_loop (fuel : nat) (fd : Z) (vptr pv : ptr) (current : Z) : hio (Z * ptr) :=
  match fuel with
  | O => lift Blocked
  | S fuel =>
      r ← h_recv fd vptr (Z.to_nat (current / 2)) (current / 2);
      match r with
      | Done ret =>
          if ret <? current then mret (ret + current / 2, vptr)
          else
            let current := u64 (current * 2) in
            if realloc_ok current then
              vptr ← of_heap (h_realloc vptr current);
              h_recvall_loop fuel fd vptr pv current
            else
              _ ← of_heap (free vptr);
              mret (-1, pv)
      | _ => mret (-1, pv)
      end
  end.

Definition h_recvall (fd : Z) (pv : ptr) (initSize : Z) : hio (Z * ptr) :=
  let current := if initSize =? 0 then 1024 else initSize in
  vptr ← (if bool_decide (pv = NULL) then of_heap (hmalloc junk current) else mret pv);
  r ← h_recv fd vptr 0 (current / 2);
  match r with
  | Done ret =>
      if ret <? current / 2 then mret (ret, vptr)
      else
        fuel ← asks (fun hw : heap * world => recv_fuel hw.2 fd);
        h_recvall_loop fuel fd vptr pv current
  | _ => mret (-1, pv)
  end.

(** [fdIO::readall] has the same body over [read]. *)
Definition h_readall := h_recvall.

Definition h_recvall_ex (fd : Z) (pv : ptr) (initSize : Z) : hio (Z * ptr) :=
  r ← h_recvall fd pv initSize;
  if r.1 =? -1 then throw (runtime_error "recvall failed.") else mret r.

Definition h_quick_recvall (fd : Z) : hio bytes :=
  r ← h_recvall_ex fd NULL 0;
  s ← of_heap (hread r.2 0 (Z.to_nat r.1));
  _ ← of_heap (free r.2);
  mret s.
End Buffers.

(** ** Simulation with equal effects on the operating system *)

Definition hsim {A' A} (m' : hio A') (m : io A) (h : heap) (w : world)
    (Q : A' -> A -> heap -> Prop) (E : heap -> Prop) : Prop :=
  sim m' m (h, w) w (fun a' a t' t => t'.2 = t /\ Q a' a t'.1) (fun t' t => t'.2 = t /\ E t'.1).

Lemma hsim_ret {A' A} (a' : A') (a : A) h w (Q : A' -> A -> heap -> Prop) E : Q a' a h -> hsim (mret a') (mret a) h w Q E.
Proof. intros. by apply sim_ret. Qed.

Lemma hsim_bind {A' A B' B} (m' : hio A') (m : io A) (k' : A' -> hio B') (k : A -> io B) h w R
    (Q : B' -> B -> heap -> Prop) E :
  hsim m' m h w R E -> (forall a' a h' w', R a' a h' -> hsim (k' a') (k a) h' w' Q E) ->
  hsim (m' ≫= k') (m ≫= k) h w Q E.
Proof.
  intros H1 H2. eapply sim_bind; [exact H1|]. intros a' a [h' w'] w'' [E1 HR]. cbn in E1. subst. by apply H2.
Qed.

Lemma hsim_conseq {A' A} (m' : hio A') (m : io A) h w (Q Q' : A' -> A -> heap -> Prop) (E E' : heap -> Prop) :
  hsim m' m h w Q E -> (forall a' a h', Q a' a h' -> Q' a' a h') -> (forall h', E h' -> E' h') ->
  hsim m' m h w Q' E'.
Proof.
  intros H HQ HE. eapply sim_conseq; [exact H| |].
  - intros a' a t' t [? ?]. auto.
  - intros t' t [? ?]. auto.
Qed.

Lemma hsim_left {A' A B'} (m' : st heap A') (k' : A' -> hio B') (m : io A) h w a' h' (Q : B' -> A -> heap -> Prop) E :
  m' h = (Ok a', h') -> hsim (k' a') m h' w Q E -> hsim (of_heap m' ≫= k') m h w Q E.
Proof. intros H1 H2. eapply sim_left; [|exact H2]. unfold of_heap. cbn. by rewrite H1. Qed.

(** A function of a module, or of the heap, against its value. *)
Lemma hsim_heap {A' A} (m' : st heap A') (o : outcome A) h w Q (E : heap -> Prop) :
  simo m' o h Q -> hsim (of_heap m') (lift o) h w Q E.
Proof.
  unfold simo, hsim, sim, lift, of_heap. cbn. destruct o as [a|e|u|].
  - intros (a' & h' & -> & HQ). eauto 6.
  - by intros (h' & _ & []).
  - intros (u' & h' & -> & Hu). eauto.
  - intros (h' & ->). eauto.
Qed.

(** Computations that report no error of ownership. *)
Definition benign {A} (m : io A) : Prop := forall w u w', m w = (Undefined u, w') -> ownership_error u = false.

Lemma hsim_io {A} (m : io A) h w (E : heap -> Prop) :
  benign m -> E h -> hsim (embed m) m h w (fun a' a h' => a' = a /\ h' = h) E.
Proof.
  intros Hb HE. unfold hsim, sim, embed. cbn. specialize (Hb w).
  destruct (m w) as [[a|e|u|] w1]; eauto 8.
Qed.

(** The same with the wanted postcondition. *)
Lemma hsim_io_post {A} (m : io A) h w (Q : A -> A -> heap -> Prop) (E : heap -> Prop) :
  benign m -> E h -> (forall a, Q a a h) -> hsim (embed m) m h w Q E.
Proof. intros Hb HE HQ. eapply hsim_conseq; [by apply hsim_io|by intros ? a h' [-> ->]|done]. Qed.

Lemma hsim_right {A' A B} (m' : hio B) (m : io A) (k : A -> io A') h w a (Q : B -> A' -> heap -> Prop) E :
  m w = (Ok a, w) -> hsim m' (k a) h w Q E -> hsim m' (m ≫= k) h w Q E.
Proof. apply sim_right. Qed.

Lemma hsim_asks {X A' A} (f : world -> X) (k' : X -> hio A') (k : X -> io A) h w Q E :
  hsim (k' (f w)) (k (f w)) h w Q E ->
  hsim (asks (fun hw : heap * world => f hw.2) ≫= k') (asks f ≫= k) h w Q E.
Proof. by intros H. Qed.

Lemma hsim_if {A' A} (b : bool) (m1' m2' : hio A') (m1 m2 : io A) h w Q E :
  (b = true -> hsim m1' m1 h w Q E) -> (b = false -> hsim m2' m2 h w Q E) ->
  hsim (if b then m1' else m2') (if b then m1 else m2) h w Q E.
Proof. by destruct b; auto. Qed.

Lemma hsim_throw {A' A} e h w (Q : A' -> A -> heap -> Prop) (E : heap -> Prop) :
  E h -> hsim (throw e) (throw e) h w Q E.
Proof. intros H. by apply sim_throw. Qed.

Lemma hsim_lift {A} (o : outcome A) h w (Q : A -> A -> heap -> Prop) (E : heap -> Prop) :
  (forall a, o = Ok a -> Q a a h) -> E h -> (forall u, o = Undefined u -> ownership_error u = false) ->
  hsim (lift o) (lift o) h w Q E.
Proof. intros HQ HE HU. apply sim_lift; auto. Qed.

(** [rlib_defer] of a release. *)
Lemma hsim_defer {A' A} (g : st heap unit) (m' : hio A') (m : io A) h w Q0 E0 (Q : A' -> A -> heap -> Prop) E :
  hsim m' m h w Q0 E0 ->
  (forall a' a h1, Q0 a' a h1 -> exists h2, g h1 = (Ok tt, h2) /\ Q a' a h2) ->
  (forall h1, E0 h1 -> exists h2, g h1 = (Ok tt, h2) /\ E h2) ->
  hsim (defer (of_heap g) m') m h w Q E.
Proof.
  intros H HQ HE. eapply sim_defer_left; [exact H| |].
  - intros a' a [h1 w1] w2 [Ew H1]. destruct (HQ _ _ _ H1) as (h2 & G & H2). exists (h2, w1).
    unfold of_heap. cbn in *. by rewrite G.
  - intros [h1 w1] w2 [Ew H1]. destruct (HE _ H1) as (h2 & G & H2). exists (h2, w1).
    unfold of_heap. cbn in *. by rewrite G.
Qed.

(** ** No error of ownership in the network code *)

Lemma benign_lift {A} (o : outcome A) : (forall u, o = Undefined u -> ownership_error u = false) -> benign (lift o).
Proof. intros H w u w' [= E _]. by apply H. Qed.

Lemma benign_ret {A} (a : A) : benign (mret a).
Proof. by intros w u w' [=]. Qed.

Lemma benign_throw {A} e : benign (throw e : io A).
Proof. by intros w u w' [=]. Qed.

Lemma benign_blocked {A} : benign (lift Blocked : io A).
Proof. by intros w u w' [=]. Qed.

Lemma benign_asks {A} (f : world -> A) : benign (asks f).
Proof. by intros w u w' [=]. Qed.

Lemma benign_bind {A B} (m : io A) (k : A -> io B) : benign m -> (forall a, benign (k a)) -> benign (m ≫= k).
Proof.
  intros Hm Hk w u w'. unfold mbind, st_bind. destruct (m w) as [[a|e|u'|] w1] eqn:Em; try done; [apply Hk|].
  intros [= <- <-]. by apply (Hm w u' w1).
Qed.

Lemma benign_if {A} (b : bool) (m1 m2 : io A) : benign m1 -> benign m2 -> benign (if b then m1 else m2).
Proof. by destruct b. Qed.

Lemma benign_recv fd buf off n : benign (recv fd buf off n).
Proof.
  intros w u w'. unfold recv. repeat (case_match; try done); by intros [= <- _].
Qed.

Lemma benign_send fd buf off n flags : benign (send fd buf off n flags).
Proof. intros w u w'. unfold send. repeat (case_match; try done); by intros [= <- _]. Qed.

Lemma benign_select fds : benign (select fds).
Proof. intros w u w'. unfold select. by repeat (case_match; try done). Qed.

Lemma benign_close fd : benign (close fd).
Proof. intros w u w'. unfold close. by case_match. Qed.

Create HintDb benign discriminated.
#[export] Hint Resolve benign_ret benign_throw benign_blocked benign_asks benign_bind benign_if benign_recv
  benign_send benign_select benign_close : benign.

Lemma benign_recvn_loop fuel fd buf off n : benign (recvn_loop fuel fd buf off n).
Proof.
  revert buf off n. induction fuel as [|fuel IH]; intros; cbn [recvn_loop]; [auto with benign|].
  apply benign_if; [auto with benign|]. apply benign_bind; [auto with benign|].
  intros [[m| |] b]; auto with benign.
Qed.

Lemma benign_sendn_loop fuel fd buf off n flags : benign (sendn_loop fuel fd buf off n flags).
Proof.
  revert off n. induction fuel as [|fuel IH]; intros; cbn [sendn_loop]; [auto with benign|].
  apply benign_if; [auto with benign|]. apply benign_bind; [auto with benign|].
  intros [m| |]; auto with benign.
Qed.

#[export] Hint Resolve benign_recvn_loop benign_sendn_loop : benign.

Lemma benign_recvn fd buf off n : benign (recvn fd buf off n).
Proof. unfold recvn. auto 10 with benign. Qed.

Lemma benign_recvn_ex fd buf off n : benign (recvn_ex fd buf off n).
Proof. unfold recvn_ex, recvn. auto 10 with benign. Qed.

Lemma benign_sendn_ex fd buf n flags : benign (sendn_ex fd buf n flags).
Proof. unfold sendn_ex, sendn. auto 10 with benign. Qed.

Lemma benign_try_addrs l : benign (try_addrs l).
Proof.
  induction l as [|rp l IH]; cbn [try_addrs]; [auto with benign|].
  apply benign_bind; [|intros fd; auto 10 with benign].
  intros w u w'. unfold socket. by repeat (case_match; try done).
Qed.

#[export] Hint Resolve benign_recvn benign_recvn_ex benign_sendn_ex benign_try_addrs : benign.

Lemma benign_quick_connect getaddrinfo addr port udp : benign (quick_connect getaddrinfo addr port udp).
Proof.
  unfold quick_connect. case_match; [auto with benign|]. apply benign_bind; [auto with benign|].
  intros [fd|]; auto with benign.
Qed.

#[export] Hint Resolve benign_quick_connect : benign.

(** Values that report no error of ownership. *)
Definition calm {A} (o : outcome A) : Prop := forall u, o = Undefined u -> ownership_error u = false.

Lemma calm_ok {A} (a : A) : calm (Ok a).
Proof. done. Qed.

Lemma calm_throw {A} e : calm (Throw e : outcome A).
Proof. done. Qed.

Lemma calm_bind {A B} (o : outcome A) (k : A -> outcome B) : calm o -> (forall a, calm (k a)) -> calm (o ≫= k).
Proof. intros Ho Hk u. destruct o as [a|e|u'|]; cbn; try done; [apply Hk|]. intros [= <-]. by apply Ho. Qed.

Lemma calm_mem_read d off n : calm (mem_read d off n).
Proof. intros u. apply mem_read_benign. Qed.

Lemma calm_mem_write d off s : calm (mem_write d off s).
Proof. intros u. apply mem_write_benign. Qed.

Create HintDb calm discriminated.
#[export] Hint Resolve calm_ok calm_throw calm_bind calm_mem_read calm_mem_write : calm.

Lemma calm_substr s pos n : calm (RString.substr s pos n).
Proof. intros u. unfold RString.substr. by case_match. Qed.

Lemma calm_erase s pos n : calm (RString.erase s pos n).
Proof. intros u. unfold RString.erase. by case_match. Qed.

#[export] Hint Resolve calm_substr calm_erase : calm.

Lemma calm_unescape fuel s pos : calm (RString.unescape_loop fuel s pos).
Proof.
  revert s pos. induction fuel as [|fuel IH]; intros; cbn [RString.unescape_loop]; [done|].
  case_match; auto with calm.
Qed.

Lemma calm_format fmt args : calm (RString.format_string fmt args).
Proof.
  assert (H : forall fuel ss pos prev used esc, calm (RString.format_loop fuel fmt args ss pos prev used esc)); [|apply H].
  induction fuel as [|fuel IH]; intros; cbn [RString.format_loop]; [done|].
  case_match; [|case_match; auto with calm; apply calm_bind; auto with calm].
  case_match; [auto|]. apply calm_bind; [auto with calm|]. intros cut.
  apply calm_bind; [case_match; auto using calm_unescape with calm|]. intros cut'. case_match; auto with calm.
Qed.

#[export] Hint Resolve calm_format : calm.

Lemma benign_calm {A} (o : outcome A) : calm o -> benign (lift o).
Proof. apply benign_lift. Qed.

Lemma benign_refuse {A} fmt n : benign (refuse fmt n : io A).
Proof. unfold refuse. apply benign_bind; [apply benign_calm, calm_format|]. auto with benign. Qed.

#[export] Hint Resolve benign_calm benign_refuse : benign.

(** ** Transfers *)

Lemma hsim_refuse {A' A} fmt n h w (Q : A' -> A -> heap -> Prop) (E : heap -> Prop) :
  E h -> hsim (embed (refuse fmt n)) (refuse fmt n) h w Q E.
Proof.
  intros HE. pose proof (calm_format (bytes_of_string fmt) [to_string n]) as Hc. unfold refuse.
  revert Hc. generalize (RString.format_string (bytes_of_string fmt) [to_string n]). intros o Hc.
  unfold hsim, sim, embed, mbind, st_bind, lift, throw. destruct o as [msg|e|u|]; cbn; eauto 8.
Qed.

Lemma hsim_map {A' A B'} (m' : hio A') (m : io A) (k' : A' -> hio B') h w R (Q : B' -> A -> heap -> Prop) E :
  hsim m' m h w R E -> (forall a' a h' w', R a' a h' -> hsim (k' a') (mret a) h' w' Q E) ->
  hsim (m' ≫= k') m h w Q E.
Proof.
  intros H1 H2. pose proof (hsim_bind m' m k' mret h w R Q E H1 H2) as H.
  unfold hsim, sim in *. unfold mbind at 1, st_bind at 1 in H. by destruct (m w) as [[a|e|u|] w1].
Qed.

Lemma hsim_done {A' A} (m' : st heap A') (a : A) h w a' h' (Q : A' -> A -> heap -> Prop) E :
  m' h = (Ok a', h') -> Q a' a h' -> hsim (of_heap m') (mret a) h w Q E.
Proof. intros H1 H2. unfold hsim, sim, of_heap. cbn. rewrite H1. eauto 6. Qed.

Lemma assign_eq h b d d' : blocks h !! b = Some d -> assign (At b 0) d' h = (Ok tt, upd h b d').
Proof. intros H. unfold assign. by rewrite H. Qed.

Lemma h_recvn_ex_sim fd b d n h w (E : heap -> Prop) :
  blocks h !! b = Some d -> E h ->
  hsim (h_recvn_ex fd (At b 0) n) (recvn_ex fd d 0 n) h w (fun _ d' h' => h' = upd h b d') E.
Proof.
  intros Hb HE. unfold h_recvn_ex. eapply hsim_left; [apply contents_eq, reads_block, Hb|].
  eapply hsim_map; [apply hsim_io; [auto with benign|done]|]. intros ? d' h' w' [-> ->].
  eapply hsim_done; [by eapply assign_eq|done].
Qed.

Lemma h_sendn_ptr_sim fd p v len flags h w (E : heap -> Prop) :
  points (blocks h) p v -> E h ->
  hsim (h_sendn_ptr fd p len flags) (sendn_ptr fd v len flags) h w (fun _ _ h' => h' = h) E.
Proof.
  intros Hp HE. unfold h_sendn_ptr, sendn_ptr. destruct (len =? 0); [by apply hsim_ret|].
  destruct v as [d|], p as [|b [|o]|s]; try done; cbn [deref].
  - eapply hsim_left; [by apply contents_eq, reads_block|]. eapply hsim_right; [reflexivity|].
    by apply hsim_io_post; [auto with benign|..].
  - unfold hsim, sim, of_heap, lift, mbind, st_bind. cbn. eauto.
Qed.

Lemma h_send_packet_sim fd p v len h w (E : heap -> Prop) :
  points (blocks h) p v -> E h ->
  hsim (h_send_length_and_packet fd p len) (send_length_and_packet fd v len) h w (fun _ _ h' => h' = h) E.
Proof.
  intros Hp HE. unfold h_send_length_and_packet, send_length_and_packet. apply hsim_if; intros _.
  - by apply hsim_io_post; [auto with benign|..].
  - eapply hsim_bind; [apply hsim_io; [auto with benign|done]|]. intros _ _ h' w' [_ ->].
    by apply h_sendn_ptr_sim.
Qed.

(** What a failing receive leaves behind. *)
Definition lost (h h' : heap) : Prop := h' = h \/ exists d, h' = (alloc d h).2.

Lemma h_recv_packet_sim junk fd h w :
  hsim (h_recv_length_and_packet junk fd) (recv_length_and_packet junk fd) h w
    (fun r vr h' => r = (At (next h) 0, vr.2) /\ h' = (alloc vr.1 h).2) (lost h).
Proof.
  unfold h_recv_length_and_packet, recv_length_and_packet.
  eapply hsim_bind; [apply hsim_io; [auto with benign|by left]|]. intros ? n h' w' [-> ->].
  cbv zeta. apply hsim_if; intros _.
  - apply hsim_refuse. by left.
  - eapply hsim_left; [reflexivity|].
    eapply hsim_bind; [apply h_recvn_ex_sim; [apply alloc_lookup|right; eauto]|].
    intros _ d h' w2 ->. apply hsim_ret. split; [done|]. apply alloc_upd.
Qed.

(** ** Reading whatever there is *)

Lemma recv_done w fd d off n k d' w' :
  recv fd d off n w = (Ok (Done k, d'), w') -> 0 <= k <= Z.max n 0.
Proof.
  unfold recv. destruct (socks w !! fd) as [s|]; [|done]. destruct (negb (is_open s)); [done|].
  assert (H : forall (es : list io_event) (m : nat) (b : outcome bytes) w1,
    m = Z.to_nat (Z.min n (Z.of_nat (Nat.min (match es with Chunk k :: _ => S k | _ => length (inbuf s) end) (length (inbuf s))))) ->
    (match b with Ok buf' => (Ok (Done (Z.of_nat m), buf'), w1) | _ => (Undefined OobWrite, w) end)
      = (Ok (Done k, d'), w') -> 0 <= k <= Z.max n 0).
  { intros es m [b| | |] w1 -> [= <- _ _]. lia. }
  destruct (rscript s) as [|[j| | |] es]; try done; (destruct (Z.leb_spec n 0); [intros [= <- _ _]; lia|]);
    (destruct (inbuf s) as [|x l] eqn:Ei; [destruct (at_eof s); [intros [= <- _ _]; lia|done]|]);
    rewrite <- Ei in *.
  - by apply (H []).
  - by apply (H (Chunk j :: es)).
Qed.

Lemma recv_no_throw w fd d off n e w' : recv fd d off n w <> (Throw e, w').
Proof. unfold recv. by repeat (case_match; try done). Qed.

(** One read into a block; what it returned is known on both sides. *)
Lemma h_recv_sim fd b d off n h w :
  blocks h !! b = Some d ->
  hsim (h_recv fd (At b 0) off n) (recv fd d off n) h w
    (fun r' r h' => r' = r.1 /\ h' = upd h b r.2 /\ (forall k, r.1 = Done k -> 0 <= k <= Z.max n 0)) (fun _ => False).
Proof.
  intros Hb. unfold h_recv. eapply hsim_left; [apply contents_eq, reads_block, Hb|].
  eapply (hsim_map _ _ _ _ _ (fun r' r h' => r' = r /\ h' = h /\ forall k, r.1 = Done k -> 0 <= k <= Z.max n 0)).
  - unfold hsim, sim, embed. cbn. pose proof (benign_recv fd d off n w) as Hu.
    pose proof (recv_no_throw w fd d off n) as Ht. pose proof (recv_done w fd d off n) as Hk.
    destruct (recv fd d off n w) as [[[r d']|e|u|] w1].
    + eexists _, _. split; [done|]. split; [done|]. split; [done|]. split; [done|].
      intros k Ek. cbn in Ek. subst r. by eapply Hk.
    + by destruct (Ht e w1).
    + eauto.
    + eauto.
  - intros ? [r d'] h' w' (-> & -> & Hk). cbn [fst snd]. eapply hsim_left; [by eapply assign_eq|]. by apply hsim_ret.
Qed.

(** The result of [recvall] from a null pointer: at most 1024 bytes in a block
    of its own, or -1 and the block is lost. *)
Definition recvall_post (h : heap) (r' : Z * ptr) (r : Z * bytes) (h' : heap) : Prop :=
  r'.1 = r.1 /\
  (r.1 = -1 /\ r'.2 = NULL /\ lost h h' \/
   0 <= r.1 <= 1024 /\ r'.2 = At (next h) 0 /\ h' = (alloc r.2 h).2).

Lemma h_recvall_loop_sim junk realloc_ok fuel fd d h w :
  hsim (h_recvall_loop junk realloc_ok fuel fd (At (next h) 0) NULL 1024)
    (recvall_loop junk realloc_ok fuel fd d 1024) (alloc d h).2 w (recvall_post h) (fun _ => False).
Proof.
  destruct fuel as [|fuel]; cbn [h_recvall_loop recvall_loop].
  { unfold hsim, sim, lift. eauto. }
  eapply hsim_bind; [apply h_recv_sim, alloc_lookup|]. intros ? [r d'] h' w' (-> & -> & Hk).
  cbn [fst snd] in *. rewrite alloc_upd. change (1024 / 2) with 512 in *. destruct r as [k| |].
  - specialize (Hk k eq_refl). destruct (Z.ltb_spec k 1024); [|lia]. apply hsim_ret. split; [done|].
    right. cbn [fst snd]. split; [lia|done].
  - apply hsim_ret. split; [done|]. left. split; [done|]. split; [done|]. right. eauto.
  - apply hsim_ret. split; [done|]. left. split; [done|]. split; [done|]. right. eauto.
Qed.

Lemma h_recvall_sim junk realloc_ok fd h w :
  hsim (h_recvall junk realloc_ok fd NULL 0) (recvall junk realloc_ok fd Null 0) h w
    (recvall_post h) (fun _ => False).
Proof.
  unfold h_recvall, recvall. cbn [Z.eqb initial_buffer]. rewrite bool_decide_true by done.
  eapply hsim_left; [apply hmalloc_eq|]. eapply hsim_right; [reflexivity|].
  eapply hsim_bind; [apply h_recv_sim, alloc_lookup|]. intros ? [r d'] h' w' (-> & -> & Hk).
  cbn [fst snd] in *. rewrite alloc_upd. change (1024 / 2) with 512 in *. destruct r as [k| |].
  - specialize (Hk k eq_refl). destruct (Z.ltb_spec k 512).
    + apply hsim_ret. split; [done|]. right. cbn [fst snd]. split; [lia|done].
    + apply (hsim_asks (fun w => recv_fuel w fd)). apply h_recvall_loop_sim.
  - apply hsim_ret. split; [done|]. left. split; [done|]. split; [done|]. right. eauto.
  - apply hsim_ret. split; [done|]. left. split; [done|]. split; [done|]. right. eauto.
Qed.

(** [quick_recvall] releases the buffer, except when it throws. *)
Lemma h_quick_recvall_sim junk realloc_ok fd h w :
  wf h ->
  hsim (h_quick_recvall junk realloc_ok fd) (quick_recvall junk realloc_ok fd) h w
    (fun s' s h' => s' = s /\ (length s <= 1024)%nat /\ heap_to h (blocks h) h') (lost h).
Proof.
  intros Hw. unfold h_quick_recvall, quick_recvall, h_recvall_ex, recvall_ex.
  apply (hsim_bind _ _ _ _ h w (fun r' r h' => r'.1 = r.1 /\ 0 <= r.1 <= 1024 /\ r'.2 = At (next h) 0 /\ h' = (alloc r.2 h).2)).
  - apply (hsim_bind _ _ _ _ h w (recvall_post h)).
    { eapply hsim_conseq; [apply h_recvall_sim|done|done]. }
    intros [n p] [n' d] h' w' [En Hr]. cbn [fst snd] in *. subst n'.
    destruct Hr as [(-> & -> & Hl)|(Hn & -> & ->)]; [by apply hsim_throw|].
    destruct (Z.eqb_spec n (-1)); [lia|]. by apply hsim_ret.
  - intros [n p] [n' d] h' w' (En & Hn & Ep & ->). cbn [fst snd] in *. subst.
    eapply hsim_map; [apply hsim_heap, simo_read, reads_block, alloc_lookup|].
    intros ? s h' w2 (-> & -> & Er). apply mem_read_length in Er.
    eapply hsim_left; [eapply free_eq, points_block, alloc_lookup|]. apply hsim_ret. split; [done|].
    split; [lia|]. by apply alloc_free.
Qed.

End HeapIO.
