(* ===== verification/HeapTunnel.v ===== *)
(** * The memory of the tunnels (native/src/tunnel.cc, tunnel.hpp, connection.hpp)

    [Tunnel] with its allocations, releases and scope guards, over any module
    that keeps the ownership agreement.  The theorems show that the code with
    pointers behaves on the network as the code with values, that no run frees
    a block twice or uses a released one, and how many blocks each part of a
    connection forgets. *)

From S2P Require Import Prelude ModuleApi SimpleProxy SockIO NetLib Tunnel Heap HeapModule HeapSimple HeapIO.
From stdpp Require Import gmap.
Import ModuleApi SockIO NetLib Tunnel Heap HeapModule HeapIO.

Open Scope Z_scope.

Module HeapTunnel.

(** The fields without pointers are those of [outbound_tunnel]. *)
Record h_outbound := HOutbound {
  ho_tunnel : outbound_tunnel;
  ho_mod : heap_fns;
  ho_conv_passphrase : hbss;
}.

(** [nextHopConn] is a local variable that the scope guards refer to. *)
Abbreviation hop_hio := (st ((Z * heap) * world)).
Abbreviation hop_io := (st (Z * world)).

Section System.
Variable junk : nat -> Z.
Variable realloc_ok : Z -> bool.
Variable getaddrinfo : bytes -> bytes -> bool -> Z + list addrinfo.
Variable resolve : nat -> bytes -> outcome (list ip_address).
Variable getpeername : Z -> option sockaddr.
Variable inet_ntop : ss_family -> bytes -> option bytes.

(** ** The client side *)

(** The end of [initCString], and [destroyCString]. *)
Definition h_initCString (t : outbound_tunnel) (hm : heap_fns) : st heap h_outbound :=
  s ← hcalloc (Z.of_nat (length (ot_passphrase t)) + 1);
  _ ← hwrite s 0 (ot_passphrase t);
  mret (HOutbound t hm (Hbss true (u32 (Z.of_nat (length (ot_passphrase t)))) s)).

Definition destroyCString (t : h_outbound) : st heap unit := free (h_str (ho_conv_passphrase t)).

Definition h_outbound_doAuth (t : h_outbound) (conn : hconn) : hio (bool * hconn) :=
  let connfd := h_connect_fd conn in
  q ← of_heap (hf_client_make_auth_query (ho_mod t) conn);
  let authdat := q.1 in
  let conn := q.2 in
  defer (of_heap (free (h_str authdat)))
    (let lengthBackup := h_length authdat in
     if 64 * 1024 * 1024 <? lengthBackup then throw (runtime_error "authQuery is too long(incorrect)")
     else
       _ ← embed (sendn_ex connfd (le_bytes 4 (htonl lengthBackup)) 4 0);
       _ ← h_sendn_ptr connfd (h_str authdat) lengthBackup 0;
       n ← embed (recvn_ex connfd (malloc junk 4) 0 4);
       let replyLen := ntohl (le_val n) in
       if 64 * 1024 * 1024 <? replyLen then throw (runtime_error "authReply is too long(incorrect)")
       else
         rbuf ← of_heap (hmalloc junk replyLen);
         defer (of_heap (free rbuf))
           (_ ← h_recvn_ex connfd rbuf replyLen;
            of_heap (h_onAuthReply (ho_mod t) rbuf replyLen conn))).

Definition h_set_connect_fd (c : hconn) (fd : Z) : hconn :=
  HConn (h_server_ip c) (h_server_port c) (h_passphrase c) fd (h_additional_info c).

Definition h_initConnInfo (t : h_outbound) : st heap nat :=
  new_conn (HConn (conv_serverAddr (ho_tunnel t)) (serverPort (ho_tunnel t)) (ho_conv_passphrase t) 0 NULL).

Definition h_connect (t : h_outbound) (myConnInfo : nat) : hio (nat * Z) :=
  connfd ← embed (newConnection getaddrinfo (ho_tunnel t));
  c ← of_heap (get_conn myConnInfo);
  _ ← of_heap (put_conn myConnInfo (h_set_connect_fd c connfd));
  r ← h_outbound_doAuth t (h_set_connect_fd c connfd);
  _ ← of_heap (put_conn myConnInfo r.2);
  if r.1 : bool then mret (myConnInfo, connfd) else throw (runtime_error "Auth failed.").

(** The object and the descriptor, or an exception: then the destructor does
    not run and nobody deletes the object. *)
Definition h_SnakeConnection (t : h_outbound) : hio (nat * Z) :=
  myConnInfo ← of_heap (h_initConnInfo t);
  h_connect t myConnInfo.

Definition h_destroy_SnakeConnection (t : h_outbound) (c : nat * Z) : hio unit :=
  conn ← of_heap (get_conn c.1);
  _ ← of_heap (hf_client_connection_close (ho_mod t) conn);
  _ ← of_heap (delete_conn c.1);
  if c.2 =? 0 then mret tt else embed (close c.2).

(** ** The server side *)

Definition h_inbound_doAuth (hm : heap_fns) (conn : hconn) : hio (bool * hconn) :=
  let connfd := h_connect_fd conn in
  msg ← h_recv_length_and_packet junk connfd;
  r ← of_heap (hf_server_make_auth_reply hm conn (Hbss false msg.2 msg.1));
  let authReplyMsg := r.1.1 in
  defer (of_heap (delete_binary_safe_string authReplyMsg))
    (_ ← h_send_length_and_packet connfd (h_str authReplyMsg) (h_length authReplyMsg);
     mret (negb r.1.2, r.2)).

Definition under {A} (m : hio A) : hop_hio A := fun s =>
  let '(o, hw) := m (s.1.2, s.2) in (o, ((s.1.1, hw.1), hw.2)).
Definition get_hop : hop_hio Z := fun s => (Ok s.1.1, s).
Definition set_hop (z : Z) : hop_hio unit := fun s => (Ok tt, ((z, s.1.2), s.2)).
Definition with_hop {A} (z : Z) (m : hop_hio A) : hio A := fun hw =>
  let '(o, s) := m ((z, hw.1), hw.2) in (o, (s.1.2, s.2)).

(** The payload of the query is not released on any path. *)
Definition h_on_client_data (hm : heap_fns) (conn : hconn) (connfd : Z) : hop_hio unit :=
  msg ← under (h_recv_length_and_packet junk connfd);
  thisQuery ← under (of_heap (hf_server_decode hm conn (Hbss false msg.2 msg.1)));
  if forallb (fun b => b =? 0) (h_destination_ip thisQuery) then
    domainStr ← (if h_length (h_payload thisQuery) <=? 32 then mret []
                 else
                   s ← under (of_heap (contents (h_str (h_payload thisQuery))));
                   lift (if decide (0 ∈ drop 32 s) then Ok (cstr (drop 32 s)) else Undefined OobRead));
    nextHopIp ← lift (resolveDomainOnce (resolve 0) domainStr);
    ip ← lift (ip_to_array nextHopIp);
    encoded ← under (of_heap (hf_server_encode hm conn
                (HQuery ip (h_destination_port thisQuery) (Hbss false 0 NULL))));
    under (defer (of_heap (free (h_str encoded)))
             (h_send_length_and_packet connfd (h_str encoded) (h_length encoded)))
  else
    nextHopConn ← get_hop;
    _ ← (if nextHopConn =? -1 then
           fd ← under (embed (quick_connect getaddrinfo (ip_array_to_str (h_destination_ip thisQuery))
                                (h_destination_port thisQuery) false));
           set_hop fd
         else mret tt);
    nextHopConn ← get_hop;
    under (h_sendn_ptr nextHopConn (h_str (h_payload thisQuery)) (h_length (h_payload thisQuery)) 0).

(** The encoded packet is not released. *)
Definition h_on_hop_data (hm : heap_fns) (port : Z) (conn : hconn) (connfd : Z) : hop_hio bool :=
  nextHopConn ← get_hop;
  freedomData ← under (h_quick_recvall junk realloc_ok nextHopConn);
  if bool_decide (freedomData = []) then mret false
  else
    pl ← under (of_heap (h_make_binary_safe_string junk freedomData));
    encoded ← under (of_heap (hf_server_encode hm conn (HQuery (replicate 16 0) port pl)));
    _ ← under (h_send_length_and_packet connfd (h_str encoded) (h_length encoded));
    mret true.

Fixpoint h_exchange (fuel : nat) (hm : heap_fns) (port : Z) (conn : hconn) (connfd : Z) : hop_hio unit :=
  match fuel with
  | O => lift Blocked
  | S fuel =>
      nextHopConn ← get_hop;
      r ← under (embed (select (connfd :: if nextHopConn =? -1 then [] else [nextHopConn])));
      match r with
      | None => throw (runtime_error "Select failed")
      | Some rset =>
          _ ← (if decide (connfd ∈ rset) then h_on_client_data hm conn connfd else mret tt);
          nextHopConn ← get_hop;
          goon ← (if decide (nextHopConn <> -1 /\ nextHopConn ∈ rset) then h_on_hop_data hm port conn connfd
                  else mret true);
          if goon : bool then h_exchange fuel hm port conn connfd else mret tt
      end
  end.

(** The copy of the passphrase is not released. *)
Definition h_dealConnectionImpl (t : inbound_tunnel) (hm : heap_fns) (connfd : Z) : hio unit :=
  pass ← of_heap (h_make_binary_safe_string junk (in_passphrase t));
  let myConnInfo := HConn (replicate 16 0) (bindPort t) pass connfd NULL in
  a ← h_inbound_doAuth hm myConnInfo;
  if negb a.1 then
    _ ← lift (get_peer_name getpeername inet_ntop connfd);
    throw (runtime_error "client auth failed.")
  else
    fuel ← asks (fun hw : heap * world => S (length (selects hw.2)));
    with_hop (-1)
      (defer (under (of_heap (hf_server_connection_close hm a.2)))
        (defer (nextHopConn ← get_hop;
                if nextHopConn =? -1 then mret tt else under (embed (close nextHopConn)))
          (h_exchange fuel hm (bindPort t) a.2 connfd))).

Definition h_dealConnection (t : inbound_tunnel) (hm : heap_fns) (connfd : Z) : hio unit :=
  _ ← try_catch (h_dealConnectionImpl t hm connfd) (fun _ => mret tt);
  embed (close connfd).

End System.

(** ** Authentication *)

Section Auth.
Context (junk : nat -> Z) (getaddrinfo : bytes -> bytes -> bool -> Z + list addrinfo).
Context (hm : heap_fns) (m : module_fns) (leak : nat) (ok : ptr -> Prop) `{!HeapModule hm m leak ok}.

Definition auth_post (h : heap) (c : hconn) (v : connect_info) (r' : bool * hconn) (r : bool * connect_info) (h' : heap) : Prop :=
  r'.1 = r.1 /\ ok (h_additional_info r'.2) /\ installs leak h (blocks h) c r'.2 v r.2 h'.

Lemma outbound_doAuth_sim t c v h w :
  ho_mod t = hm -> ot_mod (ho_tunnel t) = m ->
  wf h -> at_conn (blocks h) c v -> h_additional_info c = NULL ->
  hsim (h_outbound_doAuth junk t c) (outbound_doAuth junk (ho_tunnel t) v) h w
    (auth_post h c v) (fun h' => heap_to h (blocks h) h').
Proof.
  intros Em Ev Hw Hc Hn. unfold h_outbound_doAuth, outbound_doAuth, makeAuthQuery. rewrite Em, Ev.
  assert (Efd : h_connect_fd c = connect_fd v) by apply Hc. rewrite Efd.
  eapply hsim_bind; [apply hsim_heap; by apply own_client_make_auth_query|].
  intros [s c1] [vs v1] h1 w1 ((E1 & E2 & F & T) & Ec & Evv). cbn [fst snd] in *. subst c1 v1.
  pose proof T as (B1 & _ & _ & W1). cbn [rm] in F, T, B1. rewrite E2.
  assert (C1 : at_conn (blocks h1) c v) by (eapply at_conn_mono; [|exact Hc]; rewrite B1; by apply put_sub).
  assert (P1 : points (blocks h1) (h_str s) (str vs)) by (rewrite B1; by apply put_points).
  eapply (hsim_defer _ _ _ _ _ (fun r' r h' => r'.1 = r.1 /\ ok (h_additional_info r'.2) /\
      installs leak h (put (h_str s) (str vs) (blocks h)) c r'.2 v r.2 h')
    (fun h' => heap_to h (put (h_str s) (str vs) (blocks h)) h')).
  2: { intros r' r h' (? & ? & Hi). destruct (installs_free _ _ _ _ _ _ _ _ _ _ Hi F) as (h2 & Ef & Hi2).
       exists h2. split; [done|]. by split_and!. }
  2: { intros h' Ht. destruct (free_to _ _ _ _ _ Ht (put_points _ _ _ F)) as (h2 & Ef & T2).
       rewrite rm_put in T2 by done. eauto. }
  cbv zeta. apply hsim_if; intros _; [by apply hsim_throw|].
  eapply hsim_bind; [apply hsim_io; [auto with benign|done]|]. intros _ _ ? w2 [_ ->].
  eapply hsim_bind; [by apply h_sendn_ptr_sim|]. intros _ _ ? w3 ->.
  eapply hsim_bind; [apply hsim_io; [auto with benign|done]|]. intros ? n ? w4 [-> ->].
  apply hsim_if; intros _; [by apply hsim_throw|].
  set (len := ntohl (le_val n)). eapply hsim_left; [apply hmalloc_eq|].
  eapply (hsim_defer _ _ _ _ _ (fun r' r h' => exists d, r'.1 = r.1 /\ ok (h_additional_info r'.2) /\
      installs leak h1 (put (At (next h1) 0) (Some d) (blocks h1)) c r'.2 v r.2 h')
    (fun h' => exists d, h' = (alloc d h1).2)).
  - eapply hsim_bind; [apply h_recvn_ex_sim; [apply alloc_lookup|eauto]|]. intros _ d h2 w5 ->. rewrite alloc_upd.
    apply hsim_heap. unfold h_onAuthReply, onAuthReply.
    eapply simo_conseq; [apply own_client_deal_auth_reply with (vr := Bss false (u32 len) (Some d))|].
    + by apply alloc_wf.
    + by apply at_conn_alloc.
    + done.
    + split; [|done]. split; [done|]. split; [done|]. apply points_block, alloc_lookup.
    + intros r' r h' (R1 & R2 & R3). exists d. split_and!; try done.
      eapply installs_base; [by apply (alloc_to h1 d)|]. exact R2.
  - intros r' r h' (d & R1 & R2 & R3).
    destruct (installs_free _ _ _ _ _ _ _ _ _ _ R3 (wf_fresh h1 d W1)) as (h2 & Ef & Hi2).
    exists h2. split; [done|]. split_and!; try done. rewrite B1 in Hi2. by eapply installs_base.
  - intros h' (d & ->). eexists. split; [eapply free_eq, points_block, alloc_lookup|].
    eapply heap_to_trans; [exact T|]. rewrite <- B1. by apply alloc_free.
Qed.

(** *** SnakeConnection *)

(** The object [o] holds the connection [v'] to a server; besides it and its
    [additional_info], at most [leak] blocks are new. *)
Definition connected (h : heap) (o : nat) (v' : connect_info) (h' : heap) : Prop :=
  exists c' g, objs h' = <[o := c']> (objs h) /\ objs h !! o = None /\
    at_conn (blocks h') c' v' /\ ok (h_additional_info c') /\
    fresh_for (blocks h) (h_additional_info c') (additional_info v') /\
    g ##ₘ put (h_additional_info c') (additional_info v') (blocks h) /\ (size g <= leak)%nat /\
    blocks h' = g ∪ put (h_additional_info c') (additional_info v') (blocks h) /\
    (next h <= next h')%nat /\ wf h'.

(** The constructor has thrown: the object stays, with at most [n] blocks. *)
Definition abandoned (n : nat) (h h' : heap) : Prop :=
  exists c g, objs h' = <[next h := c]> (objs h) /\ g ##ₘ blocks h /\ (size g <= n)%nat /\
    blocks h' = g ∪ blocks h /\ (next h <= next h')%nat /\ wf h'.

Definition with_conn (h : heap) (o : nat) (c : hconn) : heap := Heap (blocks h) (<[o := c]> (objs h)) (next h).

Lemma get_conn_eq h o c : objs h !! o = Some c -> get_conn o h = (Ok c, h).
Proof. intros H. unfold get_conn. by rewrite H. Qed.

Lemma put_conn_eq h o c c' : objs h !! o = Some c -> put_conn o c' h = (Ok tt, with_conn h o c').
Proof. intros H. unfold put_conn. by rewrite H. Qed.

Lemma with_conn_wf h o c c' : objs h !! o = Some c -> wf h -> wf (with_conn h o c').
Proof.
  intros Ho [W1 W2]. split; [exact W1|]. cbn. intros o' x. rewrite lookup_insert_Some.
  intros [[<- _]|[_ E]]; [by apply W2 in Ho|by apply W2 in E].
Qed.

Lemma new_conn_wf h c : wf h -> wf (new_conn c h).2 /\ objs h !! next h = None.
Proof.
  intros [W1 W2]. split; [split; cbn|].
  - intros b d E. apply W1 in E. lia.
  - intros o x. rewrite lookup_insert_Some. intros [[<- _]|[_ E]]; [lia|]. apply W2 in E. lia.
  - destruct (objs h !! next h) as [x|] eqn:E; [|done]. apply W2 in E. lia.
Qed.

Lemma benign_newConnection t : benign (newConnection getaddrinfo t).
Proof.
  unfold newConnection. case_match; [auto with benign|]. apply benign_bind; [auto with benign|].
  intros [fd|]; auto with benign.
Qed.

Lemma SnakeConnection_sim t h w :
  ho_mod t = hm -> ot_mod (ho_tunnel t) = m -> wf h ->
  at_buf (blocks h) (ho_conv_passphrase t) (conv_passphrase (ho_tunnel t)) ->
  hsim (h_SnakeConnection junk getaddrinfo t) (SnakeConnection junk getaddrinfo (ho_tunnel t)) h w
    (fun r' r h' => r' = (next h, r.2) /\ connect_fd r.1 = r.2 /\ connected h (next h) r.1 h') (abandoned (S leak) h).
Proof.
  intros Em Ev Hw Hp. unfold h_SnakeConnection, SnakeConnection, h_connect, Tunnel.connect.
  set (c0 := HConn (conv_serverAddr (ho_tunnel t)) (serverPort (ho_tunnel t)) (ho_conv_passphrase t) 0 NULL).
  set (v0 := initConnInfo (ho_tunnel t)). destruct (new_conn_wf h c0 Hw) as [W1 Ho].
  set (h1 := (new_conn c0 h).2) in *.
  eapply hsim_left; [exact (eq_refl : h_initConnInfo t h = (Ok (next h), h1))|].
  assert (O1 : objs h1 !! next h = Some c0) by apply lookup_insert_eq.
  eapply hsim_bind; [apply hsim_io; [apply benign_newConnection|]|].
  { exists c0, ∅. split; [done|]. split; [apply map_disjoint_empty_l|]. split; [rewrite map_size_empty; lia|].
    split; [by rewrite map_empty_union|]. split; [cbn; lia|done]. }
  intros ? connfd ? w1 [-> ->]. eapply hsim_left; [by apply get_conn_eq|]. eapply hsim_left; [by eapply put_conn_eq|].
  set (c1 := h_set_connect_fd c0 connfd). set (v1 := set_connect_fd v0 connfd). set (h2 := with_conn h1 (next h) c1).
  assert (W2 : wf h2) by (by eapply with_conn_wf).
  assert (C2 : at_conn (blocks h2) c1 v1) by (by split_and!).
  assert (O2 : objs h2 = <[next h := c1]> (objs h)) by apply insert_insert_eq.
  eapply hsim_bind.
  { eapply hsim_conseq; [by apply (outbound_doAuth_sim t c1 v1 h2 w1 Em Ev)|done|].
    intros h' (B & O & N & W). exists c1, ∅. split; [congruence|]. split; [apply map_disjoint_empty_l|].
    split; [rewrite map_size_empty; lia|]. split; [by rewrite map_empty_union|]. split; [cbn in N; lia|done]. }
  intros [b' c'] [b v'] h3 w3 (R1 & R2 & R3). cbn [fst snd] in *. subst b'.
  pose proof R3 as (a & va & g & Ec & Evv & F & D & Hs & B3 & O3 & N3 & W3).
  assert (O3' : objs h3 !! next h = Some c1) by (rewrite O3, O2; apply lookup_insert_eq).
  eapply hsim_left; [by eapply put_conn_eq|].
  assert (O4 : objs (with_conn h3 (next h) c') = <[next h := c']> (objs h)).
  { cbn. by rewrite O3, O2, insert_insert_eq. }
  assert (W4 : wf (with_conn h3 (next h) c')) by (by eapply with_conn_wf).
  apply hsim_if; intros _.
  - apply hsim_ret. split; [done|]. split; [by subst v'|]. exists c', g.
    assert (Pa : points (blocks h3) a va).
    { rewrite B3. eapply points_mono; [by apply map_union_subseteq_r|]. by apply put_points. }
    subst c' v'. cbn [h_additional_info h_set_additional_info additional_info set_additional_info fst].
    do 2 (split; [done|]). split.
    + destruct C2 as (? & ? & [(? & ? & Hpp) ?] & ? & _). split_and!; try done. split; [|done]. split_and!; try done.
      eapply points_mono; [|exact Hpp]. cbn [blocks with_conn]. rewrite B3. etrans; [by apply put_sub|]. by apply map_union_subseteq_r.
    + split_and!; try done. cbn in N3. cbn. lia.
  - apply hsim_throw. destruct (installs_leaks _ _ _ _ _ _ _ R3) as (g' & D' & S' & B' & _).
    exists c', g'. split_and!; try done. cbn in N3. cbn. lia.
Qed.

Lemma hsim_close fd h w (E : heap -> Prop) : hsim (embed (close fd)) (close fd) h w (fun _ _ h' => h' = h) E.
Proof. unfold hsim, sim, embed, close. cbn. destruct (socks w !! fd); cbn; eauto 6. Qed.

(** The destructor: the module's data and the object are released. *)
Lemma destroy_sim t o fd c v h w (E : heap -> Prop) :
  ho_mod t = hm -> ot_mod (ho_tunnel t) = m -> wf h -> objs h !! o = Some c ->
  at_conn (blocks h) c v -> ok (h_additional_info c) ->
  hsim (h_destroy_SnakeConnection t (o, fd)) (destroy_SnakeConnection (ho_tunnel t) (v, fd)) h w
    (fun _ _ h' => blocks h' = rm (h_additional_info c) (blocks h) /\ objs h' = delete o (objs h) /\
       (next h <= next h')%nat /\ wf h') E.
Proof.
  intros Em Ev Hw Ho Hc Hok. unfold h_destroy_SnakeConnection, destroy_SnakeConnection, client_impl_onCloseConn.
  cbn [fst snd]. rewrite Em, Ev. eapply hsim_left; [by apply get_conn_eq|].
  eapply hsim_bind; [apply hsim_heap; by apply own_client_connection_close|]. intros _ _ h1 w1 (B & O & N & W).
  eapply hsim_left.
  { unfold delete_conn. rewrite O, Ho. reflexivity. }
  set (h2 := Heap (blocks h1) (delete o (objs h)) (next h1)).
  assert (Q : blocks h2 = rm (h_additional_info c) (blocks h) /\ objs h2 = delete o (objs h) /\
       (next h <= next h2)%nat /\ wf h2).
  { split_and!; try done. destruct W as [W1 W2]. split; [exact W1|]. cbn. intros o' x.
    rewrite lookup_delete_Some. intros [_ E']. rewrite <- O in E'. by apply W2 in E'. }
  apply hsim_if; intros _; [by apply hsim_ret|]. eapply hsim_conseq; [apply hsim_close|by intros ? ? ? ->|done].
Qed.

(** What is left of a connection whose destructor has run. *)
Lemma destroy_leaks h o v h1 n h2 c h3 :
  connected h o v h1 -> leaks n h1 h2 -> objs h1 !! o = Some c ->
  blocks h3 = rm (h_additional_info c) (blocks h2) -> objs h3 = delete o (objs h2) -> (next h2 <= next h3)%nat ->
  wf h3 -> leaks (leak + n) h h3.
Proof.
  intros (c' & g & O1 & On & _ & _ & F & D & Hs & B1 & N1 & _) (g2 & D2 & S2 & (B2 & O2 & N2 & _)) Hc B3 O3 N3 W3.
  rewrite O1, lookup_insert_eq in Hc. injection Hc as <-. rewrite B1 in D2, B2. rewrite B2 in B3.
  destruct (rm_garbage _ _ _ _ _ F D D2) as (Dg & Sg & Eg). exists (g2 ∪ g). split; [done|]. split; [lia|].
  split; [congruence|]. split; [|split; [lia|done]]. rewrite O3, O2, O1. by apply delete_insert_id.
Qed.

(** *** The server *)

Lemma inbound_doAuth_sim sv c v h w :
  in_mod sv = m -> wf h -> at_conn (blocks h) c v -> h_additional_info c = NULL ->
  hsim (h_inbound_doAuth junk hm c) (inbound_doAuth junk sv v) h w (auth_post h c v) (leaks (S leak) h).
Proof.
  intros Ev Hw Hc Hn. unfold h_inbound_doAuth, inbound_doAuth, makeAuthReply. rewrite Ev.
  assert (Efd : h_connect_fd c = connect_fd v) by apply Hc. rewrite Efd.
  eapply hsim_bind.
  { eapply hsim_conseq; [apply h_recv_packet_sim|done|]. intros h' [->|[d ->]].
    - eapply leaks_le; [by apply leaks_refl|lia].
    - eapply leaks_le; [by apply leaks_alloc|lia]. }
  intros ? [d len] h' w1 [-> ->]. cbn [fst snd].
  assert (Er : rm (At (next h) 0) (blocks (alloc d h).2) = blocks h)
    by (apply (rm_put (blocks h) (At (next h) 0) (Some d)); by apply (wf_fresh h d)).
  eapply hsim_bind.
  { apply hsim_heap, (own_server_make_auth_reply (alloc d h).2 c v _ (Bss false len (Some d))).
    - by apply alloc_wf.
    - by apply at_conn_alloc.
    - done.
    - split; [|done]. split; [done|]. split; [done|]. apply points_block, alloc_lookup.
    - by eapply apart_conn_fresh. }
  intros [[s b] c'] [[vs vb] v'] h2 w2 (R1 & R2 & R3 & R4 & R5 & R6). cbn [fst snd h_str] in *. subst vb.
  rewrite Er in R5, R6.
  assert (R : installs leak h (put (h_str s) (str vs) (blocks h)) c c' v v' h2)
    by (eapply installs_base; [by apply (alloc_to h d)|exact R6]).
  clear R6. assert (Hp : points (blocks h2) (h_str s) (str vs)).
  { destruct R as (a & va & g & _ & _ & F & D & _ & (-> & _)).
    eapply points_mono; [by apply map_union_subseteq_r|]. apply points_put; [|by apply put_points].
    eapply fresh_apart; [exact F|by apply put_points]. }
  rewrite R4. eapply (hsim_defer _ _ _ _ _ (fun r' r h' => r' = (negb b, c') /\ r = (negb b, v') /\ h' = h2) (fun h' => h' = h2)).
  - eapply hsim_bind; [by apply h_send_packet_sim|]. intros _ _ ? w3 ->. by apply hsim_ret.
  - intros ? ? ? (-> & -> & ->). destruct (installs_free _ _ _ _ _ _ _ _ _ _ R R5) as (h3 & Ef & Hi).
    exists h3. split; [done|]. by split.
  - intros ? ->. destruct (installs_free _ _ _ _ _ _ _ _ _ _ R R5) as (h3 & Ef & Hi).
    exists h3. split; [done|]. by eapply installs_leaks.
Qed.
End Auth.

(** ** The exchange loop *)

(** Simulation with equal descriptors of the next hop and equal effects on
    the operating system. *)
Definition ksim {A' A} (m' : hop_hio A') (m : hop_io A) (z : Z) (h : heap) (w : world)
    (Q : A' -> A -> heap -> Prop) (E : heap -> Prop) : Prop :=
  sim m' m ((z, h), w) (z, w) (fun a' a t' t => t'.1.1 = t.1 /\ t'.2 = t.2 /\ Q a' a t'.1.2)
    (fun t' t => t'.1.1 = t.1 /\ t'.2 = t.2 /\ E t'.1.2).

Lemma ksim_ret {A' A} (a' : A') (a : A) z h w (Q : A' -> A -> heap -> Prop) E : Q a' a h -> ksim (mret a') (mret a) z h w Q E.
Proof. intros. by apply sim_ret. Qed.

Lemma ksim_bind {A' A B' B} (m' : hop_hio A') (m : hop_io A) (k' : A' -> hop_hio B') (k : A -> hop_io B) z h w R
    (Q : B' -> B -> heap -> Prop) E :
  ksim m' m z h w R E -> (forall a' a z' h' w', R a' a h' -> ksim (k' a') (k a) z' h' w' Q E) ->
  ksim (m' ≫= k') (m ≫= k) z h w Q E.
Proof.
  intros H1 H2. eapply sim_bind; [exact H1|]. intros a' a [[z' h'] w'] [z'' w''] (E1 & E2 & HR).
  cbn in E1, E2. subst. by apply H2.
Qed.

Lemma ksim_conseq {A' A} (m' : hop_hio A') (m : hop_io A) z h w (Q Q' : A' -> A -> heap -> Prop) (E E' : heap -> Prop) :
  ksim m' m z h w Q E -> (forall a' a h', Q a' a h' -> Q' a' a h') -> (forall h', E h' -> E' h') ->
  ksim m' m z h w Q' E'.
Proof.
  intros H HQ HE. eapply sim_conseq; [exact H| |].
  - intros a' a t' t (? & ? & ?). auto.
  - intros t' t (? & ? & ?). auto.
Qed.

Lemma ksim_if {A' A} (b : bool) (m1' m2' : hop_hio A') (m1 m2 : hop_io A) z h w Q E :
  (b = true -> ksim m1' m1 z h w Q E) -> (b = false -> ksim m2' m2 z h w Q E) ->
  ksim (if b then m1' else m2') (if b then m1 else m2) z h w Q E.
Proof. by destruct b; auto. Qed.

Lemma ksim_under {A' A} (m' : hio A') (m : io A) z h w Q E :
  hsim m' m h w Q E -> ksim (under m') (embed m) z h w Q E.
Proof.
  unfold hsim, ksim, sim, under, embed. cbn. destruct (m w) as [[a|e|u|] w1].
  - intros (a' & [h1 w2] & -> & Ew & HQ). cbn in *. subst. eauto 8.
  - intros ([h1 w2] & -> & Ew & HQ). cbn in *. subst. eauto 8.
  - intros (u' & [h1 w2] & -> & Hu). cbn. eauto.
  - intros ([h1 w2] & ->). cbn. eauto.
Qed.

Lemma ksim_heap {A' A} (m' : st heap A') (o : outcome A) z h w Q (E : heap -> Prop) :
  simo m' o h Q -> ksim (under (of_heap m')) (lift o) z h w Q E.
Proof.
  intros H. pose proof (ksim_under _ _ z h w Q E (hsim_heap m' o h w Q E H)) as K.
  unfold ksim, sim in *. by destruct o.
Qed.

Lemma ksim_lift {A} (o : outcome A) z h w (Q : A -> A -> heap -> Prop) (E : heap -> Prop) :
  (forall a, o = Ok a -> Q a a h) -> E h -> calm o -> ksim (lift o) (lift o) z h w Q E.
Proof. intros HQ HE HU. apply sim_lift; auto. Qed.

Lemma ksim_throw {A' A} e z h w (Q : A' -> A -> heap -> Prop) (E : heap -> Prop) :
  E h -> ksim (throw e) (throw e) z h w Q E.
Proof. intros H. by apply sim_throw. Qed.

Lemma ksim_get_hop z h w (E : heap -> Prop) : ksim get_hop get_local z h w (fun a' a h' => a' = a /\ h' = h) E.
Proof. unfold ksim, sim, get_hop, get_local. cbn. eauto 8. Qed.

Lemma ksim_set_hop x z h w (E : heap -> Prop) : ksim (set_hop x) (set_local x) z h w (fun _ _ h' => h' = h) E.
Proof. unfold ksim, sim, set_hop, set_local. cbn. eauto 8. Qed.

Lemma ksim_defer {A' A} (g' : hop_hio unit) (g : hop_io unit) (m' : hop_hio A') (m : hop_io A) z h w Q0 E0
    (Q : A' -> A -> heap -> Prop) (E : heap -> Prop) :
  ksim m' m z h w Q0 E0 ->
  (forall a' a z1 h1 w1, Q0 a' a h1 -> ksim g' g z1 h1 w1 (fun _ _ h2 => Q a' a h2) E) ->
  (forall z1 h1 w1, E0 h1 -> ksim g' g z1 h1 w1 (fun _ _ h2 => E h2) E) ->
  ksim (defer g' m') (defer g m) z h w Q E.
Proof.
  intros H HQ HE. eapply sim_defer; [exact H| |].
  - intros a' a [[z1 h1] w1] [z2 w2] (E1 & E2 & H1). cbn in E1, E2. subst. by apply HQ.
  - intros [[z1 h1] w1] [z2 w2] (E1 & E2 & H1). cbn in E1, E2. subst. by apply HE.
Qed.

Lemma hsim_with_hop {A' A} (m' : hop_hio A') (m : hop_io A) z h w Q E :
  ksim m' m z h w Q E -> hsim (with_hop z m') (with_local z m) h w Q E.
Proof.
  unfold hsim, ksim, sim, with_hop, with_local. cbn. destruct (m (z, w)) as [[a|e|u|] [z1 w1]].
  - intros (a' & [[z2 h1] w2] & -> & Ez & Ew & HQ). cbn in *. subst. eauto 8.
  - intros ([[z2 h1] w2] & -> & Ez & Ew & HQ). cbn in *. subst. eauto 8.
  - intros (u' & [[z2 h1] w2] & -> & Hu). cbn. eauto.
  - intros ([[z2 h1] w2] & ->). cbn. eauto.
Qed.

Section Server.
Context (junk : nat -> Z) (realloc_ok : Z -> bool).
Context (getaddrinfo : bytes -> bytes -> bool -> Z + list addrinfo).
Context (resolve : nat -> bytes -> outcome (list ip_address)).
Context (getpeername : Z -> option sockaddr) (inet_ntop : ss_family -> bytes -> option bytes).
Context (hm : heap_fns) (m : module_fns) (leak : nat) (ok : ptr -> Prop) `{!HeapModule hm m leak ok}.
(** The resolver is not the code under study: it reports its failures by exceptions. *)
Context (Hresolve : forall n d, calm (resolve n d)).
Context (sv : inbound_tunnel) (Hmod : in_mod sv = m).

Lemma calm_resolve_once d : calm (resolveDomainOnce (resolve 0) d).
Proof.
  unfold resolveDomainOnce, resolveDomainOnce_if. apply calm_bind; [apply Hresolve|]. intros l.
  by destruct l.
Qed.

Lemma calm_ip_to_array ip : calm (ip_to_array ip).
Proof. unfold ip_to_array. case_match; auto with calm. Qed.

(** The name in a query, read through the pointer. *)
Lemma domain_sim q vq z h w (E : heap -> Prop) :
  at_query (blocks h) q vq ->
  ksim (if h_length (h_payload q) <=? 32 then mret []
        else s ← under (of_heap (contents (h_str (h_payload q))));
             lift (if decide (0 ∈ drop 32 s) then Ok (cstr (drop 32 s)) else Undefined OobRead))
    (lift (get_domain_from_dns_query vq)) z h w (fun d' d h' => d' = d /\ h' = h) E.
Proof.
  intros (_ & _ & _ & El & Hp). unfold get_domain_from_dns_query. rewrite El.
  destruct (bss_length (payload vq) <=? 32); [by apply ksim_ret|].
  destruct (str (payload vq)) as [d|], (h_str (h_payload q)) as [|b [|o]|s]; try done; cbn [deref]; run_ok.
  - cbn in Hp. unfold ksim, sim, under, of_heap, lift, mbind, st_bind. cbn. rewrite Hp. cbn. rewrite drop_0.
    case_decide; cbn; eauto 8.
  - unfold ksim, sim. cbn. eauto.
Qed.

(** What remains of a turn: one block that nobody refers to, or none. *)
Definition one_lost (h h' : heap) : Prop :=
  exists p v, fresh_for (blocks h) p v /\ heap_to h (put p v (blocks h)) h'.

Lemma one_lost_leaks h h' : one_lost h h' -> leaks 1 h h'.
Proof. intros (p & v & F & T). by eapply leaks_put. Qed.

Lemma lost_leaks h h' : wf h -> lost h h' -> leaks 1 h h'.
Proof.
  intros Hw [->|[d ->]]; [|by apply leaks_alloc]. eapply leaks_le; [by apply leaks_refl|lia].
Qed.

(** The answer to a name query: the encoded packet is released by its guard. *)
Lemma dns_answer_sim conn v q vq connfd z h w :
  wf h -> at_conn (blocks h) conn v -> at_query (blocks h) q vq -> h_str (h_payload q) = NULL ->
  ksim (encoded ← under (of_heap (hf_server_encode hm conn q));
        under (defer (of_heap (free (h_str encoded))) (h_send_length_and_packet connfd (h_str encoded) (h_length encoded))))
    (encoded ← lift (server_impl_encode (in_mod sv) v vq);
     embed (send_length_and_packet connfd (str encoded) (bss_length encoded))) z h w
    (fun _ _ h' => heap_to h (blocks h) h') (fun h' => heap_to h (blocks h) h').
Proof.
  intros Hw Hc Hq Hn. unfold server_impl_encode. rewrite Hmod. eapply ksim_bind.
  { apply ksim_heap, own_server_encode; [done|done|done|]. rewrite Hn. done. }
  intros s vs z1 h1 w1 (E1 & E2 & F & T). rewrite Hn in F, T. cbn [rm] in F, T. rewrite E2.
  assert (Hfree : exists h2, free (h_str s) h1 = (Ok tt, h2) /\ heap_to h (blocks h) h2).
  { destruct (free_to _ _ _ _ _ T (put_points _ _ _ F)) as (h2 & Ef & T2). rewrite rm_put in T2 by done. eauto. }
  apply ksim_under. eapply (hsim_defer _ _ _ _ _ (fun _ _ h' => h' = h1) (fun h' => h' = h1)).
  - apply h_send_packet_sim; [|done]. pose proof T as (-> & _). by apply put_points.
  - by intros _ _ ? ->.
  - by intros ? ->.
Qed.

Lemma on_client_data_sim conn v connfd z h w :
  wf h -> at_conn (blocks h) conn v ->
  ksim (h_on_client_data junk getaddrinfo resolve hm conn connfd)
    (on_client_data junk getaddrinfo resolve sv v connfd) z h w (fun _ _ h' => one_lost h h') (leaks 1 h).
Proof.
  intros Hw Hc. unfold h_on_client_data, on_client_data.
  eapply ksim_bind.
  { eapply ksim_under, hsim_conseq; [apply h_recv_packet_sim|done|]. intros. by apply lost_leaks. }
  intros ? [d len] z1 h1 w1 [-> ->]. cbn [fst snd]. unfold server_impl_decode at 1. rewrite Hmod at 1.
  eapply ksim_bind.
  { apply ksim_heap, (own_server_decode (alloc d h).2 conn v _ (Bss false len (Some d))).
    - by apply alloc_wf.
    - by apply at_conn_alloc.
    - split; [|done]. split; [done|]. split; [done|]. apply points_block, alloc_lookup.
    - by eapply apart_conn_fresh. }
  intros q vq z2 h2 w2 (Q1 & Q2 & Q3). destruct (transfers_base _ _ _ _ _ Hw Q3) as (Q4 & Q5 & F & T).
  assert (L : one_lost h h2) by (eexists _, _; eauto). pose proof (one_lost_leaks _ _ L) as L1.
  assert (W2 : wf h2) by (by eapply leaks_wf). assert (C2 : at_conn (blocks h2) conn v) by (by eapply at_conn_leaks).
  assert (P2 : points (blocks h2) (h_str (h_payload q)) (str (payload vq))).
  { destruct T as (-> & _). by apply put_points. }
  unfold is_dns_query. rewrite Q1. apply ksim_if; intros _.
  - eapply ksim_bind; [apply domain_sim; by split_and!|]. intros ? dom z3 ? w3 [-> ->].
    eapply ksim_bind; [apply (ksim_lift _ _ _ _ (fun a' a h' => a' = a /\ h' = h2)); [done|done|apply calm_resolve_once]|].
    intros ? ip z4 ? w4 [-> ->].
    eapply ksim_bind; [apply (ksim_lift _ _ _ _ (fun a' a h' => a' = a /\ h' = h2)); [done|done|apply calm_ip_to_array]|].
    intros ? arr z5 ? w5 [-> ->]. rewrite Q2.
    assert (K : forall h3, heap_to h2 (blocks h2) h3 -> one_lost h h3).
    { intros h3 T3. eexists _, _. split; [exact F|]. eapply heap_to_eq; [|eapply heap_to_trans; [exact T|exact T3]].
      by destruct T. }
    eapply ksim_conseq; [by apply dns_answer_sim| |]; [by auto|]. intros. by apply one_lost_leaks, K.
  - eapply ksim_bind; [apply ksim_get_hop|]. intros ? hop z3 ? w3 [-> ->].
    apply (ksim_bind _ _ _ _ _ _ _ (fun _ _ h' => h' = h2)).
    { apply ksim_if; intros _; [|by apply ksim_ret]. rewrite Q2.
      eapply ksim_bind; [apply ksim_under, hsim_io; [auto with benign|done]|]. intros ? fd z4 ? w4 [-> ->].
      eapply ksim_conseq; [apply ksim_set_hop|done|done]. }
    intros _ _ z4 ? w4 ->. eapply ksim_bind; [apply ksim_get_hop|]. intros ? hop' z5 ? w5 [-> ->]. rewrite Q5.
    eapply (ksim_conseq _ _ _ _ _ (fun _ _ h' => h' = h2) _ (leaks 1 h));
      [by apply ksim_under, h_sendn_ptr_sim|by intros _ _ ? ->|done].
Qed.

(** Data from the next hop: one block stays exactly when a packet was sent. *)
Lemma on_hop_data_sim conn v connfd z h w :
  wf h -> at_conn (blocks h) conn v ->
  ksim (h_on_hop_data junk realloc_ok hm (bindPort sv) conn connfd)
    (on_hop_data junk realloc_ok sv v connfd) z h w
    (fun b' b h' => b' = b /\ if b : bool then one_lost h h' else heap_to h (blocks h) h') (leaks 1 h).
Proof.
  intros Hw Hc. unfold h_on_hop_data, on_hop_data.
  eapply ksim_bind; [apply ksim_get_hop|]. intros ? hop z1 ? w1 [-> ->].
  eapply ksim_bind.
  { eapply ksim_under, hsim_conseq; [by apply h_quick_recvall_sim|done|]. intros. by apply lost_leaks. }
  intros ? s z2 h1 w2 (-> & Hl & T1). pose proof T1 as (B1 & _ & _ & W1).
  apply ksim_if; intros _; [by apply ksim_ret|].
  eapply ksim_bind; [apply ksim_heap, h_make_bss_sim|]. intros ? ? z3 ? w3 (d & -> & -> & ->).
  unfold server_impl_encode. rewrite Hmod.
  assert (C1 : at_conn (blocks h1) conn v) by (by rewrite B1).
  eapply ksim_bind.
  { apply ksim_heap, own_server_encode with
      (vq := Query (replicate 16 0) (bindPort sv) (Bss false (u32 (Z.of_nat (length s))) (Some d))).
    - by apply alloc_wf.
    - by apply at_conn_alloc.
    - split; [done|]. split; [done|]. split; [done|]. split; [done|]. apply points_block, alloc_lookup.
    - by eapply apart_conn_fresh. }
  intros p vp z4 h2 w4 Ht. cbn [h_str h_payload] in Ht.
  destruct (transfers_base _ _ _ _ _ W1 Ht) as (E1 & E2 & F & T). rewrite B1 in F, T. rewrite E2.
  assert (L : one_lost h h2) by (eexists _, _; split; [exact F|]; by eapply heap_to_trans).
  eapply ksim_bind.
  { apply ksim_under, (h_send_packet_sim _ _ (str vp)); [|by apply one_lost_leaks].
    destruct T as (-> & _). by apply put_points. }
  intros _ _ z5 ? w5 ->. by apply ksim_ret.
Qed.

(** Every turn forgets at most two blocks. *)
Lemma exchange_sim fuel conn v connfd z h w :
  wf h -> at_conn (blocks h) conn v ->
  ksim (h_exchange junk realloc_ok getaddrinfo resolve fuel hm (bindPort sv) conn connfd)
    (exchange junk realloc_ok getaddrinfo resolve fuel sv v connfd) z h w
    (fun _ _ h' => leaks (2 * fuel) h h') (leaks (2 * fuel) h).
Proof.
  revert z h w. induction fuel as [|fuel IH]; intros z h w Hw Hc; cbn [h_exchange exchange].
  { unfold ksim, sim, lift. eauto. }
  assert (L0 : leaks (2 * S fuel) h h) by (eapply leaks_le; [by apply leaks_refl|lia]).
  eapply ksim_bind; [apply ksim_get_hop|]. intros ? hop z1 ? w1 [-> ->].
  eapply ksim_bind; [apply ksim_under, hsim_io; [auto with benign|done]|]. intros ? r z2 ? w2 [-> ->].
  destruct r as [rset|]; [|by apply ksim_throw].
  apply (ksim_bind _ _ _ _ _ _ _ (fun _ _ h' => leaks 1 h h')).
  { case_decide; [|apply ksim_ret; eapply leaks_le; [by apply leaks_refl|lia]].
    eapply ksim_conseq; [by apply on_client_data_sim| |]; intros; [by apply one_lost_leaks|].
    eapply leaks_le; [eassumption|lia]. }
  intros ? ? z3 h1 w3 L1. cbv beta in L1. pose proof (leaks_wf _ _ _ L1) as W1. pose proof (at_conn_leaks _ _ _ _ _ L1 Hc) as C1.
  eapply ksim_bind; [apply ksim_get_hop|]. intros ? hop' z4 ? w4 [-> ->].
  apply (ksim_bind _ _ _ _ _ _ _ (fun b' b h' => b' = b /\ leaks 1 h1 h')).
  { case_decide; [|apply ksim_ret; split; [done|]; eapply leaks_le; [by apply leaks_refl|lia]].
    eapply ksim_conseq; [by apply on_hop_data_sim| |].
    - intros ? [] h' [-> Hb]; (split; [done|]); [by apply one_lost_leaks|].
      eapply leaks_le; [by apply leaks_none|lia].
    - intros h' L. eapply leaks_le; [by eapply leaks_trans|lia]. }
  intros ? b z5 h2 w5 [-> L2]. pose proof (leaks_trans _ _ _ _ _ L1 L2) as L12.
  apply ksim_if; intros _; [|apply ksim_ret; eapply leaks_le; [exact L12|lia]].
  eapply ksim_conseq; [apply IH; [by eapply leaks_wf|by eapply at_conn_leaks]| |].
  - intros ? ? h' L. cbv beta in L. eapply leaks_le; [by eapply leaks_trans|lia].
  - intros h' L. eapply leaks_le; [by eapply leaks_trans|lia].
Qed.

(** A connection: everything that was live before is live and unchanged after. *)
Definition safe (h h' : heap) : Prop := exists n, leaks n h h'.

Lemma safe_trans h1 h2 h3 : safe h1 h2 -> safe h2 h3 -> safe h1 h3.
Proof. intros [n H1] [k H2]. eexists. by eapply leaks_trans. Qed.

Lemma hop_guard_sim z h w (Q : heap -> Prop) (E : heap -> Prop) :
  Q h ->
  ksim (nextHopConn ← get_hop; if nextHopConn =? -1 then mret tt else under (embed (close nextHopConn)))
    (nextHopConn ← get_local; if nextHopConn =? -1 then mret tt else embed (close nextHopConn)) z h w
    (fun _ _ h' => Q h') E.
Proof.
  intros HQ. eapply ksim_bind; [apply ksim_get_hop|]. intros ? hop z1 ? w1 [-> ->].
  apply ksim_if; intros _; [by apply ksim_ret|].
  eapply ksim_conseq; [apply ksim_under, hsim_close|by intros ? ? ? ->|done].
Qed.

Lemma dealConnectionImpl_sim connfd h w :
  wf h ->
  hsim (h_dealConnectionImpl junk realloc_ok getaddrinfo resolve getpeername inet_ntop sv hm connfd)
    (dealConnectionImpl junk realloc_ok getaddrinfo resolve getpeername inet_ntop sv connfd) h w
    (fun _ _ h' => safe h h') (safe h).
Proof.
  intros Hw. unfold h_dealConnectionImpl, dealConnectionImpl.
  eapply hsim_bind; [apply hsim_heap, h_make_bss_sim|]. intros ? ? ? w1 (d & -> & -> & ->).
  set (h1 := (alloc d h).2). assert (W1 : wf h1) by (by apply alloc_wf).
  assert (L1 : safe h h1) by (exists 1%nat; by apply leaks_alloc).
  set (c := HConn _ _ _ _ _). set (v := ConnInfo _ _ _ _ _).
  assert (C1 : at_conn (blocks h1) c v).
  { split_and!; try done. split; [|done]. split; [done|]. split; [done|]. apply points_block, alloc_lookup. }
  eapply hsim_bind.
  { eapply hsim_conseq; [by apply (inbound_doAuth_sim junk hm m leak ok sv c v h1 w1)|done|].
    intros h' L. eapply safe_trans; [exact L1|]. by eexists. }
  intros [b c'] [b' v'] h2 w2 (R1 & R2 & R3). cbn [fst snd] in *. subst b'.
  pose proof (installs_leaks _ _ _ _ _ _ _ R3) as L2.
  assert (S2 : safe h h2) by (eapply safe_trans; [exact L1|by eexists]).
  apply hsim_if; intros _.
  - eapply hsim_bind; [apply (hsim_lift _ _ _ (fun _ _ h' => h' = h2)); [done|done|]|].
    { intros u. unfold get_peer_name. by repeat (case_match; try done). }
    intros _ _ ? w3 ->. by apply hsim_throw.
  - apply (hsim_asks (fun w => S (length (selects w)))). set (fuel := S _). clearbody fuel.
    apply hsim_with_hop.
    assert (C2 : at_conn (blocks h2) c' v').
    { pose proof (at_conn_leaks _ _ _ _ _ L2 C1) as Cc. destruct R3 as (a & va & g & -> & -> & F & D & _ & (B & _)).
      destruct Cc as (? & ? & ? & ? & _). split_and!; try done. cbn. rewrite B.
      eapply points_mono; [by apply map_union_subseteq_r|by apply put_points]. }
    assert (Hclose : forall n z h3 w3 (Q : heap -> Prop), leaks n h2 h3 -> (forall h4, safe h h4 -> Q h4) ->
      ksim (under (of_heap (hf_server_connection_close hm c'))) (lift (server_impl_onCloseConn (in_mod sv) v')) z h3 w3
        (fun _ _ h4 => Q h4) Q).
    { intros n z h3 w3 Q L3 HQ. unfold server_impl_onCloseConn. rewrite Hmod.
      eapply ksim_conseq; [apply (ksim_heap _ _ z h3 w3 _ Q), own_server_connection_close| |done].
      - by eapply leaks_wf.
      - by eapply at_conn_leaks.
      - done.
      - intros ? ? h4 T4. apply HQ. eapply safe_trans; [exact L1|]. eexists. by eapply close_leaks. }
    eapply (ksim_defer _ _ _ _ _ _ _ (fun _ _ h3 => leaks (2 * fuel) h2 h3) (leaks (2 * fuel) h2)).
    + eapply ksim_defer; [apply exchange_sim; [by eapply leaks_wf|done]| |]; intros; by apply hop_guard_sim.
    + intros ? ? z h3 w3 L3. by apply (Hclose _ _ _ _ (safe h) L3).
    + intros z h3 w3 L3. by apply (Hclose _ _ _ _ (safe h) L3).
Qed.

Lemma dealConnection_sim connfd h w (E : heap -> Prop) :
  wf h ->
  hsim (h_dealConnection junk realloc_ok getaddrinfo resolve getpeername inet_ntop sv hm connfd)
    (dealConnection junk realloc_ok getaddrinfo resolve getpeername inet_ntop sv connfd) h w
    (fun _ _ h' => safe h h') E.
Proof.
  intros Hw. unfold h_dealConnection, dealConnection.
  apply (hsim_bind _ _ _ _ _ _ (fun _ _ h' => safe h h')).
  - eapply sim_try_catch; [by apply dealConnectionImpl_sim|]. intros e [h1 w1] w2 [Ew HE]. by apply sim_ret.
  - intros ? ? h1 w1 S1. eapply hsim_conseq; [apply hsim_close|by intros ? ? ? ->|done].
Qed.

(** C13: The server's memory. For every module that keeps the ownership
    agreement and every behaviour of the network, a connection handled with
    pointers, allocations and releases ends as the one handled with values and
    leaves the operating system in the same state; no block is freed twice or
    used after its release, and every block and object that was live before is
    live and unchanged afterwards. *)
Theorem server_memory_safe connfd h w :
  wf h ->
  match dealConnection junk realloc_ok getaddrinfo resolve getpeername inet_ntop sv connfd w with
  | (Ok _, w') => exists h',
      h_dealConnection junk realloc_ok getaddrinfo resolve getpeername inet_ntop sv hm connfd (h, w) = (Ok tt, (h', w')) /\
      objs h' = objs h /\ blocks h ⊆ blocks h'
  | (Throw _, _) => False
  | (Undefined _, _) => exists u s,
      h_dealConnection junk realloc_ok getaddrinfo resolve getpeername inet_ntop sv hm connfd (h, w) = (Undefined u, s) /\
      u <> DoubleFree /\ u <> UseAfterFree
  | (Blocked, _) => exists s,
      h_dealConnection junk realloc_ok getaddrinfo resolve getpeername inet_ntop sv hm connfd (h, w) = (Blocked, s)
  end.
Proof.
  intros Hw. pose proof (dealConnection_sim connfd h w (fun _ => False) Hw) as H. unfold hsim, sim in H.
  destruct (dealConnection _ _ _ _ _ _ _ _ w) as [[a|e|u|] w'].
  - destruct H as ([] & [h' w2] & E & Ew & n & L). cbn in *. subst. exists h'. split; [exact E|].
    split; [by eapply leaks_objs|by eapply leaks_sub].
  - by destruct H as (? & _ & _ & []).
  - destruct H as (u' & s & E & Hu). exists u', s. split; [exact E|]. by destruct u'.
  - exact H.
Qed.

End Server.

(** ** The life of a client connection *)

Section Life.
Context (junk : nat -> Z) (getaddrinfo : bytes -> bytes -> bool -> Z + list addrinfo).
Context (hm : heap_fns) (m : module_fns) (leak : nat) (ok : ptr -> Prop) `{!HeapModule hm m leak ok}.

(** [initCString] makes the C string of the tunnel, [destroyCString] releases it. *)
Lemma initCString_owns resolve fuel addr p pass retry t h :
  initCString resolve fuel m addr p pass retry = Ok t -> wf h ->
  exists t' h', h_initCString t hm h = (Ok t', h') /\ ho_mod t' = hm /\ ho_tunnel t' = t /\ wf h' /\
    at_buf (blocks h') (ho_conv_passphrase t') (conv_passphrase t) /\
    exists h'', destroyCString t' h' = (Ok tt, h'') /\ heap_to h (blocks h) h''.
Proof.
  unfold initCString. intros E Hw. destruct (resolve_retry _ _ _ _ _) as [ip| | |]; try done. run_ok.
  revert E. run_ok. destruct (ip_to_array ip) as [conv| | |]; try done. run_ok.
  destruct (mem_write _ 0 pass) as [s| | |] eqn:Es; try done. run_ok. intros [= <-].
  eexists _, (alloc s h).2. split.
  - unfold h_initCString. cbn [ot_passphrase]. unfold mbind, st_bind, hcalloc.
    replace (Z.to_nat (Z.of_nat (length pass) + 1)) with (length pass + 1)%nat by lia.
    rewrite (surjective_pairing (alloc _ h)). cbn [fst alloc].
    change (Heap (<[next h:=?x]> (blocks h)) (objs h) (S (next h))) with (alloc x h).2.
    by rewrite (hwrite_alloc _ _ _ _ _ Es).
  - split; [done|]. split; [done|]. split; [by apply alloc_wf|].
    split; [split; [|done]; split; [done|]; split; [done|]; apply points_block, alloc_lookup|].
    eexists. split; [eapply free_eq, points_block, alloc_lookup|]. by apply alloc_free.
Qed.

(** The memory of a client connection. Constructing a connection to the
    server and destroying it again has the network effects of the code on
    values; the destructor releases the connection object and what the module
    stored in it, so that at most the blocks the module's handshake forgets are
    left; when the constructor throws, exactly one object stays allocated. *)
Theorem SnakeConnection_balanced (t : h_outbound) (h : heap) (w : world) :
  ho_mod t = hm -> ot_mod (ho_tunnel t) = m -> wf h ->
  at_buf (blocks h) (ho_conv_passphrase t) (conv_passphrase (ho_tunnel t)) ->
  match (c ← SnakeConnection junk getaddrinfo (ho_tunnel t); destroy_SnakeConnection (ho_tunnel t) c) w with
  | (Ok _, w') => exists h' g,
      (c ← h_SnakeConnection junk getaddrinfo t; h_destroy_SnakeConnection t c) (h, w) = (Ok tt, (h', w')) /\
      objs h' = objs h /\ g ##ₘ blocks h /\ (size g <= leak)%nat /\ blocks h' = g ∪ blocks h
  | (Throw e, w') => exists h' c,
      (c ← h_SnakeConnection junk getaddrinfo t; h_destroy_SnakeConnection t c) (h, w) = (Throw e, (h', w')) /\
      objs h !! next h = None /\ objs h' = <[next h := c]> (objs h) /\ blocks h ⊆ blocks h'
  | (Undefined _, _) => exists u s,
      (c ← h_SnakeConnection junk getaddrinfo t; h_destroy_SnakeConnection t c) (h, w) = (Undefined u, s) /\
      u <> DoubleFree /\ u <> UseAfterFree
  | (Blocked, _) => exists s,
      (c ← h_SnakeConnection junk getaddrinfo t; h_destroy_SnakeConnection t c) (h, w) = (Blocked, s)
  end.
Proof.
  intros Em Ev Hw Hp.
  assert (H : hsim (c ← h_SnakeConnection junk getaddrinfo t; h_destroy_SnakeConnection t c)
    (c ← SnakeConnection junk getaddrinfo (ho_tunnel t); destroy_SnakeConnection (ho_tunnel t) c) h w
    (fun _ _ h' => leaks leak h h') (abandoned (S leak) h)).
  { eapply hsim_bind; [apply (SnakeConnection_sim junk getaddrinfo hm m leak ok t h w Em Ev Hw Hp)|].
    intros ? [v fd] h1 w1 (-> & _ & Hc). cbn [fst snd]. pose proof Hc as (c & g & O1 & _ & C1 & Hok & _ & _ & _ & _ & _ & W1).
    assert (Oc : objs h1 !! next h = Some c) by (by rewrite O1, lookup_insert_eq).
    eapply hsim_conseq; [by apply (destroy_sim hm m leak ok t (next h) fd c v h1 w1 _ Em Ev W1 Oc C1)| |intros ? HE; exact HE].
    intros ? ? h3 (B3 & O3 & N3 & W3). rewrite <- (Nat.add_0_r leak).
    eapply destroy_leaks; [exact Hc|by apply leaks_refl|done..]. }
  unfold hsim, sim in H. revert H. generalize (c ← SnakeConnection junk getaddrinfo (ho_tunnel t); destroy_SnakeConnection (ho_tunnel t) c).
  intros run H. destruct (run w) as [[a|e|u|] w'].
  - destruct H as ([] & [h' w2] & E & Ew & g & D & S & B & O & _). cbn in *. subst. eauto 8.
  - destruct H as ([h' w2] & E & Ew & c & g & O & D & S & B & _). cbn in *. subst. exists h', c.
    split; [exact E|]. split; [by apply (new_conn_wf h c)|]. split; [done|]. rewrite B. by apply map_union_subseteq_r.
  - destruct H as (u' & s & E & Hu). exists u', s. split; [exact E|]. by destruct u'.
  - exact H.
Qed.

End Life.

(** ** A concrete connection

    The [simple_proxy] module: a client that authenticates and sends one
    packet, a destination that answers three bytes and closes. *)
Module HSample.

Definition jk : nat -> Z := fun _ => 0.
Definition fns : heap_fns := HeapSimple.h_simple_proxy jk.
Definition h0 : heap := Heap {[ 0%nat := [107; 0] ]} ∅ 1.
Definition tun : h_outbound := HOutbound Sample.ct fns (Hbss true 1 (At 0 0)).
Definition peer (fd : Z) : option sockaddr := None.
Definition ntop (f : ss_family) (d : bytes) : option bytes := None.

Definition served : world :=
  World (<[5 := Sock (frame [107] ++ frame (bss_bytes (Sample.encoded Sample.q))) false [Chunk 3; Intr] [] [] true]>
    {[ 9 := Sock [1; 2; 3] true [] [] [] false ]}) [Some [5]; Some [9]; Some [9]] [].

Definition dialled (reply : bytes) : world := World {[ 9 := Sock (frame reply) false [] [] [] false ]} [] [].

Lemma h0_wf : wf h0.
Proof.
  split; [|by intros o c]. intros b d. cbn. rewrite lookup_singleton_Some. intros [<- _]. lia.
Qed.

Lemma h0_pass : at_buf (blocks h0) (ho_conv_passphrase tun) (conv_passphrase (ho_tunnel tun)).
Proof. by split; [|done]. Qed.

Lemma res_calm n d : calm (Sample.res n d).
Proof. done. Qed.

End HSample.
Import HSample.

(** What the server forgets for one client with one packet and one answer: its
    copy of the passphrase, the payload it forwarded and the packet it sent. *)
Example session_forgets_blocks :
  match h_dealConnection jk (fun _ => true) Sample.gai Sample.res peer ntop Sample.sv fns 5 (h0, served) with
  | (Ok _, (h', w')) => Some ((map_to_list (blocks h')).*1, blocks h' !! 1%nat, blocks h' !! 5%nat, selects w')
  | _ => None
  end = Some ([8; 5; 1; 0]%nat, Some [107], Some [104; 105], []).
Proof. vm_compute. reflexivity. Qed.

Lemma server_memory_safe_witness :
  exists h' w',
    h_dealConnection jk (fun _ => true) Sample.gai Sample.res peer ntop Sample.sv fns 5 (h0, served) = (Ok tt, (h', w')) /\
    objs h' = objs h0 /\ blocks h0 ⊆ blocks h'.
Proof.
  pose proof (server_memory_safe jk (fun _ => true) Sample.gai Sample.res peer ntop fns Sample.md 0 (fun p => p = NULL)
    res_calm Sample.sv eq_refl 5 h0 served h0_wf) as H.
  destruct (dealConnection _ _ _ _ _ _ Sample.sv 5 served) as [[a|e|u|] w'] eqn:E; [|vm_compute in E; discriminate E..].
  destruct H as (h' & H). by exists h', w'.
Defined.

Lemma SnakeConnection_balanced_witness :
  exists h' w' g,
    (c ← h_SnakeConnection jk Sample.gai tun; h_destroy_SnakeConnection tun c) (h0, dialled [1]) = (Ok tt, (h', w')) /\
    objs h' = objs h0 /\ g ##ₘ blocks h0 /\ (size g <= 0)%nat /\ blocks h' = g ∪ blocks h0.
Proof.
  pose proof (SnakeConnection_balanced jk Sample.gai fns Sample.md 0 (fun p => p = NULL) tun h0 (dialled [1])
    eq_refl eq_refl h0_wf h0_pass) as H.
  destruct ((c ← SnakeConnection jk Sample.gai (ho_tunnel tun); destroy_SnakeConnection (ho_tunnel tun) c) (dialled [1]))
    as [[a|e|u|] w'] eqn:E; [|vm_compute in E; discriminate E..].
  destruct H as (h' & g & H). by exists h', w', g.
Defined.

End HeapTunnel.
