(* ===== verification/HeapSocks5.v ===== *)
(** * The memory of the SOCKS5 front end (native/src/socks5.cc, connection.hpp)

    [Socks5] with its allocations, releases and scope guards, over any module
    that keeps the ownership agreement.  A served application leaves no block
    behind but what the handshake of the module and a name lookup forget. *)

From S2P Require Import Prelude RString Log ModuleApi SimpleProxy SockIO NetLib Tunnel Socks5 Heap HeapModule HeapSimple HeapIO HeapTunnel.
From stdpp Require Import gmap.
Import ModuleApi SockIO NetLib Tunnel Socks5 Heap HeapModule HeapIO HeapTunnel.

Open Scope Z_scope.

Module HeapSocks5.

Section Code.
Context {lg : Log.Rlog}.
Variable junk : nat -> Z.
Variable realloc_ok : Z -> bool.
Variable getaddrinfo : bytes -> bytes -> bool -> Z + list addrinfo.
Variable skserver : h_outbound.

Definition h_assemble_dns_query (domain : bytes) : st heap hquery :=
  let len := u32 (32 + Z.of_nat (length domain) + 1) in
  str ← hmalloc junk len;
  _ ← hwrite str 0 dns_head;
  _ ← hwrite str 32 domain;
  _ ← hwrite str (Z.to_nat (len - 1)) [0];
  mret (HQuery (replicate 16 0) 0 (Hbss true len str)).

Definition h_make_dns_query_body (a : addr_info) : st heap hquery :=
  cq ← h_assemble_dns_query (data a);
  mret (HQuery (h_destination_ip cq) (port a) (h_payload cq)).

Definition h_to_query_template (a : addr_info) : outcome hquery :=
  q ← to_query_template a;
  Ok (HQuery (destination_ip q) (destination_port q) (Hbss false 0 NULL)).

(** [GetConnInfo] and [GetConnFd] *)
Definition GetConnInfo (c : nat * Z) : hio hconn := of_heap (get_conn c.1).
Definition GetConnFd (c : nat * Z) : hio Z := info ← GetConnInfo c; mret (h_connect_fd info).

(** The length field of a packet, from a local variable. *)
Definition h_send_length (c : nat * Z) (len : Z) : hio unit :=
  embed (sendn_ptr c.2 (Some (le_bytes 4 (htonl len))) 4 MSG_NOSIGNAL).

Definition h_recvn_and_free_on_err (c : nat * Z) (p : ptr) (len : Z) : hio unit :=
  d ← of_heap (contents p);
  r ← embed (recvn c.2 d 0 len);
  _ ← of_heap (assign p r.2);
  if r.1 =? -1 then _ ← of_heap (free p); throw (runtime_error "RecvnAndFree failed.") else mret tt.

(** The query is lost when the first log call throws, the buffer of the answer
    when [recvn] throws; the payload of the answer is not released. *)
Definition h_dns_pkgs (nextHop : nat * Z) (rawAddr : addr_info) : hio addr_info :=
  if negb (bool_decide (type rawAddr = addr_domain)) then mret rawAddr
  else
    let domain_str := print rawAddr in
    pkg ← of_heap (h_make_dns_query_body rawAddr);
    _ ← lift (Log.rlog_call Log.DEBUG (print rawAddr) []);
    info ← GetConnInfo nextHop;
    firstPack ← of_heap (h_client_impl_encode (ho_mod skserver) (h_payload pkg) info pkg);
    defer (of_heap (free (h_str firstPack)))
      (_ ← lift (Log.rlog_text Log.DEBUG (bytes_of_string "DNS pack to send: len={}") [to_string (h_length firstPack)]);
       _ ← h_send_length nextHop (h_length firstPack);
       _ ← h_sendn_ptr nextHop.2 (h_str firstPack) (h_length firstPack) MSG_NOSIGNAL;
       n ← embed (recvn_ex nextHop.2 (malloc junk 4) 0 4);
       let len := ntohl (le_val n) in
       rbuf ← of_heap (hmalloc junk len);
       _ ← h_recvn_ex nextHop.2 rbuf len;
       info ← GetConnInfo nextHop;
       dnsResponse ← of_heap (hf_client_decode (ho_mod skserver) info (Hbss false len rbuf));
       let goodaddr := AddrI addr_ipv6 (h_destination_ip dnsResponse) (port rawAddr) in
       if is_invalid goodaddr then lift (Log.die_text (bytes_of_string "Can not resolve address `{}`") [domain_str])
       else
         _ ← lift (Log.rlog_text Log.DEBUG (bytes_of_string "dns raw responce: {}") [print goodaddr]);
         goodaddr ← lift (try_6to4 goodaddr);
         _ ← lift (Log.rlog_text Log.DEBUG (bytes_of_string "dns responce: {}") [print goodaddr]);
         mret goodaddr).

Definition h_on_local_data (nextHop : nat * Z) (templateQueryWithIp : hquery) (m_fd : Z) : hio bool :=
  r ← h_readall junk realloc_ok m_fd NULL 0;
  _ ← (if r.1 <=? 0 then of_heap (free r.2) else mret tt);
  if r.1 =? 0 then mret false
  else if r.1 <? 0 then lift (Log.die (bytes_of_string "read failed"))
  else
    info ← GetConnInfo nextHop;
    encodedDat ← of_heap (h_client_impl_encode (ho_mod skserver) (Hbss false (u32 r.1) r.2) info templateQueryWithIp);
    defer (of_heap (free (h_str encodedDat)))
      (_ ← lift (Log.rlog_text Log.DEBUG (bytes_of_string "Data pack to send: len={}") [to_string (h_length encodedDat)]);
       _ ← h_send_length nextHop (h_length encodedDat);
       _ ← h_sendn_ptr nextHop.2 (h_str encodedDat) (h_length encodedDat) MSG_NOSIGNAL;
       mret true).

Definition h_on_server_data (nextHop : nat * Z) (m_fd : Z) : hio bool :=
  n ← embed (recvn_ex nextHop.2 (malloc junk 4) 0 4);
  let binLen := ntohl (le_val n) in
  if binLen =? 0 then mret false
  else
    bridgeBuffer ← of_heap (hmalloc junk binLen);
    _ ← h_recvn_and_free_on_err nextHop bridgeBuffer binLen;
    _ ← lift (Log.rlog_text Log.DEBUG (bytes_of_string "Data pack recv:len={}") [to_string binLen]);
    info ← GetConnInfo nextHop;
    decoded ← of_heap (hf_client_decode (ho_mod skserver) info (Hbss false binLen bridgeBuffer));
    let decodedDat := h_payload decoded in
    defer (of_heap (free (h_str decodedDat)))
      (_ ← h_sendn_ptr m_fd (h_str decodedDat) (h_length decodedDat) MSG_NOSIGNAL;
       mret true).

Fixpoint h_pass_loop (fuel : nat) (nextHop : nat * Z) (templateQueryWithIp : hquery) (m_fd : Z) : hio unit :=
  match fuel with
  | O => lift Blocked
  | S fuel =>
      hop ← GetConnFd nextHop;
      r ← embed (select [m_fd; hop]);
      match r with
      | None => lift (Log.die (bytes_of_string "Select failed"))
      | Some rset =>
          goon ← (if decide (m_fd ∈ rset) then h_on_local_data nextHop templateQueryWithIp m_fd else mret true);
          if negb goon then mret tt
          else
            hop ← GetConnFd nextHop;
            goon ← (if decide (hop ∈ rset) then h_on_server_data nextHop m_fd else mret true);
            if negb goon then mret tt
            else h_pass_loop fuel nextHop templateQueryWithIp m_fd
      end
  end.

Definition h_passData (nextHop : nat * Z) (resolvedAddr : addr_info) (m_fd : Z) : hio unit :=
  templateQueryWithIp ← lift (h_to_query_template resolvedAddr);
  fuel ← asks (fun hw : heap * world => S (length (selects hw.2)));
  h_pass_loop fuel nextHop templateQueryWithIp m_fd.

Definition h_serve (m_fd : Z) : hio unit :=
  _ ← embed (handshake_pkgs junk m_fd);
  rawAddr ← embed (connect_pkgs junk m_fd);
  nextHop ← h_SnakeConnection junk getaddrinfo skserver;
  defer (h_destroy_SnakeConnection skserver nextHop)
    (resolvedAddr ← h_dns_pkgs nextHop rawAddr;
     h_passData nextHop resolvedAddr m_fd).

Definition h_launch (m_fd : Z) : hio unit :=
  _ ← lift (Log.rlog_text Log.INFO (bytes_of_string "Socks5: Connection {} opened.") [to_string m_fd]);
  _ ← try_catch (h_serve m_fd)
    (fun e => lift (Log.rlog_text Log.ERROR
       (bytes_of_string "Exception caught from child thread: At connection {}:{}.") [to_string m_fd; what e]));
  lift (Log.rlog_text Log.INFO (bytes_of_string "Socks5: Connection {} closed.") [to_string m_fd]).

Definition h_socks5_dealConnection (connfd : Z) : hio unit :=
  defer (embed (close connfd)) (h_launch connfd).

End Code.

(** ** Log calls *)

Lemma calm_rlog_call {lg : Log.Rlog} level msg args : calm (Log.rlog_call level msg args).
Proof. unfold Log.rlog_call. case_match; auto with calm. Qed.

#[export] Hint Resolve calm_rlog_call : calm.

Lemma calm_rlog_text {lg : Log.Rlog} level fmt args : calm (Log.rlog_text level fmt args).
Proof. unfold Log.rlog_text. auto with calm. Qed.

Lemma calm_die {lg : Log.Rlog} {A} msg : calm (Log.die msg : outcome A).
Proof. unfold Log.die. auto with calm. Qed.

#[export] Hint Resolve calm_rlog_text calm_die : calm.

Lemma calm_die_text {lg : Log.Rlog} {A} fmt args : calm (Log.die_text fmt args : outcome A).
Proof. unfold Log.die_text. auto with calm. Qed.

Lemma calm_try_6to4 {lg : Log.Rlog} a : calm (try_6to4 a).
Proof. unfold try_6to4. repeat case_match; auto with calm. Qed.

Lemma calm_mem_readz d off n : calm (mem_readz d off n).
Proof. unfold mem_readz. case_match; auto with calm. by intros u [= <-]. Qed.

#[export] Hint Resolve calm_die_text calm_try_6to4 calm_mem_readz : calm.

Lemma calm_unpack {lg : Log.Rlog} junk s : calm (unpackConnectionPacket junk s).
Proof. unfold unpackConnectionPacket. repeat case_match; auto 10 with calm. Qed.

Lemma calm_to_query_template {lg : Log.Rlog} a : calm (to_query_template a).
Proof. unfold to_query_template. repeat case_match; auto 10 with calm. Qed.

#[export] Hint Resolve calm_unpack calm_to_query_template : calm.

Lemma benign_handshake {lg : Log.Rlog} junk fd : benign (handshake_pkgs junk fd).
Proof.
  unfold handshake_pkgs. apply benign_bind; [auto with benign|]. intros a.
  apply benign_if; auto 10 with benign calm.
Qed.

Lemma benign_connect_pkgs {lg : Log.Rlog} junk fd : benign (connect_pkgs junk fd).
Proof.
  unfold connect_pkgs. apply benign_bind; [auto with benign|]. intros buf.
  apply benign_bind; [repeat apply benign_if; auto with benign calm|]. intros len.
  apply benign_bind; [auto with benign|]. intros buf'.
  apply benign_bind; [auto with benign calm|]. intros [[cmd atyp] info].
  apply benign_if; auto 10 with benign calm.
Qed.

Lemma benign_sendn_some fd d len flags : benign (sendn_ptr fd (Some d) len flags).
Proof. unfold sendn_ptr, deref. auto 10 with benign calm. Qed.

#[export] Hint Resolve benign_handshake benign_connect_pkgs benign_sendn_some : benign.

(** ** Steps of the front end *)

(** A string released by its guard, whatever the guarded code forgets. *)
Lemma free_leaks h p v h1 n h2 :
  fresh_for (blocks h) p v -> heap_to h (put p v (blocks h)) h1 -> leaks n h1 h2 ->
  exists h3, free p h2 = (Ok tt, h3) /\ leaks n h h3.
Proof.
  intros F T (g & D & S & T2). pose proof T as (B1 & _). rewrite B1 in D, T2.
  destruct (free_to _ _ _ p v T2) as (h3 & Ef & T3).
  { eapply points_mono; [by apply map_union_subseteq_r|]. by apply put_points. }
  exists h3. split; [done|].
  destruct (rm_garbage (blocks h) p v ∅ g F) as (Dg & Sg & Eg); [apply map_disjoint_empty_l|by rewrite map_empty_union|].
  rewrite map_empty_union, (right_id_L ∅ (∪)) in Eg. rewrite (right_id_L ∅ (∪)) in Dg. rewrite Eg in T3.
  exists g. split; [done|]. split; [done|]. by eapply heap_to_trans.
Qed.

Lemma guard_sim {A' A} (m' : hio A') (m : io A) h p v h1 w n k (P : A' -> A -> Prop) :
  fresh_for (blocks h) p v -> heap_to h (put p v (blocks h)) h1 ->
  hsim m' m h1 w (fun a' a h2 => P a' a /\ leaks n h1 h2) (leaks k h1) ->
  hsim (defer (of_heap (free p)) m') m h1 w (fun a' a h' => P a' a /\ leaks n h h') (leaks k h).
Proof.
  intros F T H. eapply hsim_defer; [exact H| |].
  - intros a' a h2 [HP L]. destruct (free_leaks _ _ _ _ _ _ F T L) as (h3 & Ef & L3). eauto.
  - intros h2 L. by eapply free_leaks.
Qed.

(** A guard on both sides. *)
Lemma hsim_defer_both {A' A} (g' : hio unit) (g : io unit) (m' : hio A') (m : io A) h w Q0 E0
    (Q : A' -> A -> heap -> Prop) (E : heap -> Prop) :
  hsim m' m h w Q0 E0 ->
  (forall a' a h1 w1, Q0 a' a h1 -> hsim g' g h1 w1 (fun _ _ h2 => Q a' a h2) E) ->
  (forall h1 w1, E0 h1 -> hsim g' g h1 w1 (fun _ _ h2 => E h2) E) ->
  hsim (defer g' m') (defer g m) h w Q E.
Proof.
  intros H HQ HE. eapply sim_defer; [exact H| |].
  - intros a' a [h1 w1] w2 [E1 H1]. cbn in E1. subst. by apply HQ.
  - intros [h1 w1] w2 [E1 H1]. cbn in E1. subst. by apply HE.
Qed.

Lemma hsim_try_catch {A' A} (m' : hio A') (m : io A) (k' : exn -> hio A') (k : exn -> io A) h w
    (Q : A' -> A -> heap -> Prop) (E0 E : heap -> Prop) :
  hsim m' m h w Q E0 -> (forall e h1 w1, E0 h1 -> hsim (k' e) (k e) h1 w1 Q E) ->
  hsim (try_catch m' k') (try_catch m k) h w Q E.
Proof.
  intros H1 H2. eapply sim_try_catch; [exact H1|]. intros e [h1 w1] w2 [E1 F1]. cbn in E1. subst. by apply H2.
Qed.

(** A log call, or any other computation on values, keeps the heap. *)
Lemma hsim_calm {A} (o : outcome A) h w (E : heap -> Prop) :
  calm o -> E h -> hsim (lift o) (lift o) h w (fun a' a h' => a' = a /\ h' = h) E.
Proof. intros Hc HE. by apply hsim_lift. Qed.

(** [die] does not return. *)
Lemma hsim_die {lg : Log.Rlog} {A} msg h w (Q : A -> A -> heap -> Prop) (E : heap -> Prop) :
  E h -> hsim (lift (Log.die msg)) (lift (Log.die msg)) h w Q E.
Proof. intros HE. apply hsim_lift; [|done|apply calm_die]. intros a Ha. by destruct (Log.die_not_ok msg a). Qed.

Lemma hsim_die_text {lg : Log.Rlog} {A} fmt args h w (Q : A -> A -> heap -> Prop) (E : heap -> Prop) :
  E h -> hsim (lift (Log.die_text fmt args)) (lift (Log.die_text fmt args)) h w Q E.
Proof.
  intros HE. apply hsim_lift; [|done|apply calm_die_text]. intros a. unfold Log.die_text.
  destruct (RString.format_string fmt args) as [msg| | |]; try done. intros Ha. by destruct (Log.die_not_ok msg a).
Qed.

Lemma hsim_skip {A' A} (k' : unit -> hio A') (n : io A) h w Q E :
  hsim (k' tt) n h w Q E -> hsim (mret tt ≫= k') n h w Q E.
Proof. by intros H. Qed.

Lemma h_assemble_sim junk domain h :
  simo (h_assemble_dns_query junk domain) (assemble_dns_query junk domain) h
    (fun q vq h' => exists d len, q = HQuery (replicate 16 0) 0 (Hbss true len (At (next h) 0)) /\
       vq = Query (replicate 16 0) 0 (Bss true len (Some d)) /\ h' = (alloc d h).2).
Proof.
  unfold h_assemble_dns_query, assemble_dns_query. cbv zeta. set (len := u32 _).
  eapply simo_left; [apply hmalloc_eq|].
  do 3 (eapply simo_bind; [apply simo_write_alloc|]; intros ? ? ? [-> _]).
  apply simo_ret. eauto.
Qed.

Section Front.
Context {lg : Log.Rlog} (junk : nat -> Z) (realloc_ok : Z -> bool).
Context (hm : heap_fns) (m : module_fns) (leak : nat) (ok : ptr -> Prop) `{!HeapModule hm m leak ok}.
Context (t : h_outbound) (Em : ho_mod t = hm) (Ev : ot_mod (ho_tunnel t) = m).

(** The object [o] is the connection [v]. *)
Definition conn_at (h : heap) (o : nat) (v : connect_info) : Prop :=
  exists c, objs h !! o = Some c /\ at_conn (blocks h) c v.

Lemma conn_at_leaks n h h' o v : leaks n h h' -> conn_at h o v -> conn_at h' o v.
Proof.
  intros L (c & O & C). exists c. split; [by rewrite (leaks_objs _ _ _ L)|by eapply at_conn_leaks].
Qed.

(** A payload in a block of its own is encoded: the block is consumed. *)
Lemma impl_encode_sim h c v nt len d tq vt :
  wf h -> at_conn (blocks h) c v -> h_destination_ip tq = destination_ip vt ->
  h_destination_port tq = destination_port vt ->
  (len <> 0 \/ h_payload tq = Hbss nt len (At (next h) 0) /\ payload vt = Bss nt len (Some d)) ->
  simo (h_client_impl_encode hm (Hbss nt len (At (next h) 0)) c tq)
    (client_impl_encode m (Bss nt len (Some d)) v vt) (alloc d h).2
    (fun s vs h' => h_length s = bss_length vs /\ fresh_for (blocks h) (h_str s) (str vs) /\
       heap_to h (put (h_str s) (str vs) (blocks h)) h').
Proof.
  intros Hw Hc E1 E2 Hl. unfold h_client_impl_encode, client_impl_encode. cbn [h_length bss_length].
  set (q := if len =? 0 then tq else _). set (vq := if len =? 0 then vt else _).
  assert (Hq : h_payload q = Hbss nt len (At (next h) 0)) by (unfold q; destruct (Z.eqb_spec len 0); tauto || done).
  assert (Aq : at_query (blocks (alloc d h).2) q vq).
  { split_and!; try (unfold q, vq; by destruct (len =? 0)). rewrite Hq.
    assert (payload vq = Bss nt len (Some d)) as -> by (unfold vq; destruct (Z.eqb_spec len 0); tauto || done).
    split; [done|]. split; [done|]. apply points_block, alloc_lookup. }
  eapply simo_conseq; [apply own_client_encode; [by apply alloc_wf|by apply at_conn_alloc|exact Aq|]|].
  - rewrite Hq. by eapply apart_conn_fresh.
  - intros s vs h' Ht. rewrite Hq in Ht. destruct (transfers_base _ _ _ _ _ Hw Ht) as (_ & ? & ? & ?). done.
Qed.

(** A received packet is decoded: its buffer is consumed. *)
Lemma impl_decode_sim h c v len d :
  wf h -> at_conn (blocks h) c v ->
  simo (hf_client_decode hm c (Hbss false len (At (next h) 0)))
    (client_impl_decode m (Bss false len (Some d)) v) (alloc d h).2
    (fun q vq h' => h_destination_ip q = destination_ip vq /\ h_length (h_payload q) = bss_length (payload vq) /\
       fresh_for (blocks h) (h_str (h_payload q)) (str (payload vq)) /\
       heap_to h (put (h_str (h_payload q)) (str (payload vq)) (blocks h)) h').
Proof.
  intros Hw Hc. unfold client_impl_decode.
  eapply simo_conseq; [apply (own_client_decode _ c v _ (Bss false len (Some d)))|].
  - by apply alloc_wf.
  - by apply at_conn_alloc.
  - split; [|done]. split; [done|]. split; [done|]. apply points_block, alloc_lookup.
  - by eapply apart_conn_fresh.
  - intros q vq h' (E1 & _ & Ht). destruct (transfers_base _ _ _ _ _ Hw Ht) as (_ & ? & ? & ?). done.
Qed.

Lemma hsim_info {A' A} h o c fd (k' : hconn -> hio A') (n : io A) w Q E :
  objs h !! o = Some c -> hsim (k' c) n h w Q E -> hsim (info ← GetConnInfo (o, fd); k' info) n h w Q E.
Proof. intros O H. eapply hsim_left; [by apply get_conn_eq|done]. Qed.

(** The length, the packet and the end of the guarded part. *)
Lemma send_pack_sim {A' A} (o : nat) fd v p vp len (k' : unit -> hio A') (k : unit -> io A) h w Q (E : heap -> Prop) :
  points (blocks h) p vp -> E h -> (forall w', hsim (k' tt) (k tt) h w' Q E) ->
  hsim (_ ← h_send_length (o, fd) len; (h_sendn_ptr fd p len MSG_NOSIGNAL ≫= k'))
    (_ ← sc_sendn (v, fd) (Some (le_bytes 4 (htonl len))) 4; (sc_sendn (v, fd) vp len ≫= k)) h w Q E.
Proof.
  intros Hp HE H. unfold h_send_length, sc_sendn. cbn [snd].
  eapply hsim_bind; [apply hsim_io; [auto with benign|done]|]. intros ? ? ? w1 [-> ->].
  eapply hsim_bind; [by apply h_sendn_ptr_sim|]. intros [] [] ? w2 ->. apply H.
Qed.

Lemma on_local_data_sim o fd v tq vt m_fd h w :
  wf h -> conn_at h o v -> h_destination_ip tq = destination_ip vt -> h_destination_port tq = destination_port vt ->
  hsim (h_on_local_data junk realloc_ok t (o, fd) tq m_fd) (on_local_data junk realloc_ok (ho_tunnel t) (v, fd) vt m_fd) h w
    (fun b' b h' => b' = b /\ leaks 0 h h') (leaks 1 h).
Proof.
  intros Hw (c & O & C) E1 E2. unfold h_on_local_data, on_local_data, readall, h_readall. rewrite Em, Ev.
  eapply hsim_bind; [eapply hsim_conseq; [apply h_recvall_sim|done|done]|].
  intros [n p] [n' d] h1 w1 [En Hr]. cbn [fst snd] in *. subst n'. destruct Hr as [(-> & -> & Hl)|(Hn & -> & ->)].
  { cbn [Z.leb Z.eqb Z.ltb Z.compare]. eapply hsim_left; [reflexivity|].
    by apply hsim_die, lost_leaks. }
  assert (L1 : leaks 1 h (alloc d h).2) by (by apply leaks_alloc).
  destruct (Z.leb_spec n 0).
  { assert (n = 0) as -> by lia. cbn [Z.eqb].
    eapply hsim_left; [eapply free_eq, points_block, alloc_lookup|]. apply hsim_ret. split; [done|].
    by apply leaks_none, alloc_free. }
  destruct (Z.eqb_spec n 0); [lia|]. destruct (Z.ltb_spec n 0); [lia|]. eapply hsim_skip.
  eapply hsim_info; [by rewrite (leaks_objs _ _ _ L1)|].
  eapply hsim_bind; [apply hsim_heap, impl_encode_sim; [done|exact C|done|done|left; rewrite u32_small; lia]|].
  intros s vs h2 w2 (El & F & T). rewrite El.
  eapply (guard_sim _ _ _ _ _ _ _ 0%nat 1%nat); [exact F|exact T|].
  assert (L0 : leaks 0 h2 h2) by (apply leaks_refl; by destruct T as (_ & _ & _ & ?)).
  assert (L0' : leaks 1 h2 h2) by (eapply leaks_le; [exact L0|lia]).
  eapply hsim_bind; [apply hsim_calm; [auto with calm|done]|]. intros ? ? ? w3 [-> ->].
  apply send_pack_sim; [|done|intros; by apply hsim_ret].
  destruct T as (-> & _). by apply put_points.
Qed.

Lemma recvn_and_free_sim o fd v n d h w :
  wf h ->
  hsim (h_recvn_and_free_on_err (o, fd) (At (next h) 0) n) (recvn_and_free_on_err (v, fd) d n) (alloc d h).2 w
    (fun _ d' h' => h' = (alloc d' h).2) (leaks 1 h).
Proof.
  intros Hw. unfold h_recvn_and_free_on_err, recvn_and_free_on_err. cbn [snd].
  eapply hsim_left; [apply contents_eq, reads_block, alloc_lookup|].
  eapply hsim_bind; [apply hsim_io; [auto with benign|by apply leaks_alloc]|]. intros ? [r d'] ? w1 [-> ->]. cbn [fst snd].
  eapply hsim_left; [eapply assign_eq, alloc_lookup|]. rewrite alloc_upd. destruct (r =? -1); [|by apply hsim_ret].
  eapply hsim_left; [eapply free_eq, points_block, alloc_lookup|]. apply hsim_throw.
  eapply leaks_le; [by apply leaks_none, alloc_free|lia].
Qed.

Lemma on_server_data_sim o fd v m_fd h w :
  wf h -> conn_at h o v ->
  hsim (h_on_server_data junk t (o, fd) m_fd) (on_server_data junk (ho_tunnel t) (v, fd) m_fd) h w
    (fun b' b h' => b' = b /\ leaks 0 h h') (leaks 1 h).
Proof.
  intros Hw (c & O & C). unfold h_on_server_data, on_server_data, sc_recvn. rewrite Em, Ev. cbn [snd].
  assert (L0 : leaks 0 h h) by (by apply leaks_refl).
  assert (L1 : leaks 1 h h) by (eapply leaks_le; [exact L0|lia]).
  eapply hsim_bind; [apply hsim_io; [auto with benign|done]|]. intros ? n ? w1 [-> ->]. cbv zeta.
  apply hsim_if; intros _; [by apply hsim_ret|]. set (len := ntohl (le_val n)).
  eapply hsim_left; [apply hmalloc_eq|].
  eapply hsim_bind; [by apply recvn_and_free_sim|]. intros ? d ? w2 ->.
  eapply hsim_bind; [apply hsim_calm; [auto with calm|by apply leaks_alloc]|]. intros ? ? ? w3 [-> ->].
  eapply hsim_info; [exact O|].
  eapply hsim_bind; [apply hsim_heap, impl_decode_sim; [done|exact C]|]. intros q vq h2 w4 (_ & El & F & T). rewrite El.
  eapply (guard_sim _ _ _ _ _ _ _ 0%nat 1%nat); [exact F|exact T|].
  assert (L2 : leaks 0 h2 h2) by (apply leaks_refl; by destruct T as (_ & _ & _ & ?)).
  eapply hsim_bind; [apply (h_sendn_ptr_sim _ _ (str (payload vq))); [|eapply leaks_le; [exact L2|lia]]|].
  - destruct T as (-> & _). by apply put_points.
  - intros _ _ ? w5 ->. by apply hsim_ret.
Qed.

Lemma hsim_connfd {A' A} h o v fd (k' : Z -> hio A') (n : io A) w Q E :
  conn_at h o v -> connect_fd v = fd -> hsim (k' fd) n h w Q E ->
  hsim (hop ← GetConnFd (o, fd); k' hop) n h w Q E.
Proof.
  intros (c & O & (_ & _ & _ & Ef & _)) <- H. rewrite <- Ef in H |- *.
  unfold hsim, sim, GetConnFd, GetConnInfo, of_heap, mbind, st_bind in *. cbn. by rewrite (get_conn_eq _ _ _ O).
Qed.

(** The loop leaves nothing behind when it ends, one block when it throws. *)
Lemma pass_loop_sim fuel o fd v tq vt m_fd h w :
  wf h -> conn_at h o v -> connect_fd v = fd ->
  h_destination_ip tq = destination_ip vt -> h_destination_port tq = destination_port vt ->
  hsim (h_pass_loop junk realloc_ok t fuel (o, fd) tq m_fd)
    (pass_loop junk realloc_ok (ho_tunnel t) fuel (v, fd) vt m_fd) h w (fun _ _ h' => leaks 0 h h') (leaks 1 h).
Proof.
  revert h w. induction fuel as [|fuel IH]; intros h w Hw Hc Hfd E1 E2; cbn [h_pass_loop pass_loop snd].
  { unfold hsim, sim, lift. eauto. }
  assert (L0 : leaks 0 h h) by (by apply leaks_refl).
  assert (L1 : leaks 1 h h) by (eapply leaks_le; [exact L0|lia]).
  eapply hsim_connfd; [done|done|].
  eapply hsim_bind; [apply hsim_io; [auto with benign|done]|]. intros ? r ? w1 [-> ->].
  destruct r as [rset|]; [|by apply hsim_die].
  apply (hsim_bind _ _ _ _ _ _ (fun b' b h' => b' = b /\ leaks 0 h h')).
  { case_decide; [by apply on_local_data_sim|by apply hsim_ret]. }
  intros ? b h1 w2 [-> L2]. apply hsim_if; intros _; [by apply hsim_ret|].
  pose proof (leaks_wf _ _ _ L2) as W1. pose proof (conn_at_leaks _ _ _ _ _ L2 Hc) as C1.
  eapply hsim_connfd; [done|done|].
  apply (hsim_bind _ _ _ _ _ _ (fun b' b h' => b' = b /\ leaks 0 h h')).
  { case_decide; [|by apply hsim_ret]. eapply hsim_conseq; [by apply on_server_data_sim| |].
    - intros ? ? h2 [-> L3]. split; [done|]. exact (leaks_trans _ _ _ _ _ L2 L3).
    - intros h2 L3. exact (leaks_trans _ _ _ _ _ L2 L3). }
  intros ? b2 h2 w3 [-> L3]. apply hsim_if; intros _; [by apply hsim_ret|].
  eapply hsim_conseq; [apply IH; try done; [by eapply leaks_wf|by eapply conn_at_leaks]| |].
  - intros ? ? h3 L4. exact (leaks_trans _ _ _ _ _ L3 L4).
  - intros h3 L4. exact (leaks_trans _ _ _ _ _ L3 L4).
Qed.

Lemma passData_sim o fd v a m_fd h w :
  wf h -> conn_at h o v -> connect_fd v = fd ->
  hsim (h_passData junk realloc_ok t (o, fd) a m_fd)
    (passData junk realloc_ok (ho_tunnel t) (v, fd) a m_fd) h w (fun _ _ h' => leaks 0 h h') (leaks 1 h).
Proof.
  intros Hw Hc Hfd. unfold h_passData, passData.
  apply (hsim_bind _ _ _ _ _ _ (fun tq vt h' => h' = h /\ h_destination_ip tq = destination_ip vt /\
    h_destination_port tq = destination_port vt)).
  - pose proof (calm_to_query_template a) as Hq. unfold h_to_query_template, hsim, sim, lift.
    assert (L1 : leaks 1 h h) by (eapply leaks_le; [by apply leaks_refl|lia]).
    destruct (to_query_template a) as [q|e|u|]; cbn; eauto 10.
  - intros tq vt ? w1 (-> & E1 & E2). apply (hsim_asks (fun w => S (length (selects w)))). by apply pass_loop_sim.
Qed.

(** The answer to a name query, beside the live query packet. *)
Lemma dns_answer_read_sim o fd v raw domain_str h w :
  wf h -> conn_at h o v ->
  hsim (n ← embed (recvn_ex fd (malloc junk 4) 0 4);
        let len := ntohl (le_val n) in
        rbuf ← of_heap (hmalloc junk len);
        _ ← h_recvn_ex fd rbuf len;
        info ← GetConnInfo (o, fd);
        dnsResponse ← of_heap (hf_client_decode hm info (Hbss false len rbuf));
        let goodaddr := AddrI addr_ipv6 (h_destination_ip dnsResponse) (port raw) in
        if is_invalid goodaddr then lift (Log.die_text (bytes_of_string "Can not resolve address `{}`") [domain_str])
        else
          _ ← lift (Log.rlog_text Log.DEBUG (bytes_of_string "dns raw responce: {}") [print goodaddr]);
          goodaddr ← lift (try_6to4 goodaddr);
          _ ← lift (Log.rlog_text Log.DEBUG (bytes_of_string "dns responce: {}") [print goodaddr]);
          mret goodaddr)
    (n ← sc_recvn (v, fd) (malloc junk 4) 4;
     let len := ntohl (le_val n) in
     d ← sc_recvn (v, fd) (malloc junk (Z.to_nat len)) len;
     dnsResponse ← lift (client_impl_decode m (Bss false len (Some d)) v);
     let goodaddr := AddrI addr_ipv6 (destination_ip dnsResponse) (port raw) in
     if is_invalid goodaddr then lift (Log.die_text (bytes_of_string "Can not resolve address `{}`") [domain_str])
     else
       _ ← lift (Log.rlog_text Log.DEBUG (bytes_of_string "dns raw responce: {}") [print goodaddr]);
       goodaddr ← lift (try_6to4 goodaddr);
       _ ← lift (Log.rlog_text Log.DEBUG (bytes_of_string "dns responce: {}") [print goodaddr]);
       mret goodaddr) h w (fun a' a h' => a' = a /\ leaks 1 h h') (leaks 1 h).
Proof.
  intros Hw (c & O & C). unfold sc_recvn. cbn [snd].
  assert (L0 : leaks 1 h h) by (eapply leaks_le; [by apply leaks_refl|lia]).
  eapply hsim_bind; [apply hsim_io; [auto with benign|done]|]. intros ? n ? w1 [-> ->]. cbv zeta.
  set (len := ntohl (le_val n)). eapply hsim_left; [apply hmalloc_eq|].
  eapply hsim_bind; [apply h_recvn_ex_sim; [apply alloc_lookup|by apply leaks_alloc]|].
  intros ? d ? w2 ->. rewrite alloc_upd. eapply hsim_info; [exact O|].
  eapply hsim_bind; [apply hsim_heap, impl_decode_sim; [done|exact C]|]. intros q vq h2 w3 (-> & _ & F & T).
  pose proof (leaks_put _ _ _ _ F T) as L1. apply hsim_if; intros _; [by apply hsim_die_text|].
  eapply hsim_bind; [apply hsim_calm; [auto with calm|done]|]. intros ? ? ? w4 [-> ->].
  eapply hsim_bind; [apply hsim_calm; [auto with calm|done]|]. intros ? good ? w5 [-> ->].
  eapply hsim_bind; [apply hsim_calm; [auto with calm|done]|]. intros ? ? ? w6 [-> ->]. by apply hsim_ret.
Qed.

Lemma dns_pkgs_sim o fd v raw h w :
  wf h -> conn_at h o v ->
  hsim (h_dns_pkgs junk t (o, fd) raw) (dns_pkgs junk (ho_tunnel t) (v, fd) raw) h w
    (fun a' a h' => a' = a /\ leaks 1 h h') (leaks 1 h).
Proof.
  intros Hw Hc. pose proof Hc as (c & O & C). unfold h_dns_pkgs, dns_pkgs. rewrite Em, Ev.
  apply hsim_if; intros _; [apply hsim_ret; split; [done|]; eapply leaks_le; [by apply leaks_refl|lia]|]. cbv zeta.
  eapply (hsim_bind _ _ _ _ _ _ (fun q vq h' => exists d len, q = HQuery (replicate 16 0) (port raw) (Hbss true len (At (next h) 0)) /\
       vq = Query (replicate 16 0) (port raw) (Bss true len (Some d)) /\ h' = (alloc d h).2)).
  { apply hsim_heap. unfold h_make_dns_query_body, make_dns_query_body.
    eapply simo_bind; [apply h_assemble_sim|]. intros ? ? ? (d & len & -> & -> & ->). apply simo_ret. eauto. }
  intros ? ? ? w1 (d & len & -> & -> & ->). cbn [h_payload payload fst snd].
  eapply hsim_bind; [apply hsim_calm; [auto with calm|by apply leaks_alloc]|]. intros ? ? ? w2 [-> ->].
  eapply hsim_info; [exact O|].
  eapply hsim_bind; [apply hsim_heap, impl_encode_sim; [done|exact C|done|done|by right]|].
  intros s vs h2 w3 (El & F & T). rewrite El. eapply guard_sim; [exact F|exact T|].
  assert (W2 : wf h2) by apply T. assert (C2 : conn_at h2 o v) by (eapply conn_at_leaks; [by eapply leaks_put|done]).
  assert (L2 : leaks 1 h2 h2) by (eapply leaks_le; [by apply leaks_refl|lia]).
  eapply hsim_bind; [apply hsim_calm; [auto with calm|done]|]. intros ? ? ? w4 [-> ->].
  apply send_pack_sim; [destruct T as (-> & _); by apply put_points|done|].
  intros w5. by apply dns_answer_read_sim.
Qed.

(** C14: The data loop keeps no memory. Relaying any number of packets in both
    directions until one side closes leaves exactly the blocks and objects that
    were live before; an exception in the loop leaves at most one block more. *)
Theorem relay_keeps_memory o fd v a m_fd h w :
  wf h -> conn_at h o v -> connect_fd v = fd ->
  match passData junk realloc_ok (ho_tunnel t) (v, fd) a m_fd w with
  | (Ok _, w') => exists h', h_passData junk realloc_ok t (o, fd) a m_fd (h, w) = (Ok tt, (h', w')) /\
      blocks h' = blocks h /\ objs h' = objs h
  | (Throw e, w') => exists h' g, h_passData junk realloc_ok t (o, fd) a m_fd (h, w) = (Throw e, (h', w')) /\
      blocks h' = g ∪ blocks h /\ g ##ₘ blocks h /\ (size g <= 1)%nat /\ objs h' = objs h
  | (Undefined _, _) => exists u s, h_passData junk realloc_ok t (o, fd) a m_fd (h, w) = (Undefined u, s) /\
      u <> DoubleFree /\ u <> UseAfterFree
  | (Blocked, _) => exists s, h_passData junk realloc_ok t (o, fd) a m_fd (h, w) = (Blocked, s)
  end.
Proof.
  intros Hw Hc Hfd. pose proof (passData_sim o fd v a m_fd h w Hw Hc Hfd) as H. unfold hsim, sim in H.
  destruct (passData _ _ _ _ _ _ w) as [[x|e|u|] w'].
  - destruct H as ([] & [h' w2] & E & Ew & g & D & S & B & O & _). cbn in *. subst. exists h'. split; [exact E|].
    assert (g = ∅) as -> by (apply map_size_empty_inv; lia). by rewrite B, map_empty_union.
  - destruct H as ([h' w2] & E & Ew & g & D & S & B & O & _). cbn in *. subst. eauto 8.
  - destruct H as (u' & s & E & Hu). exists u', s. split; [exact E|]. by destruct u'.
  - exact H.
Qed.

(** ** A served application *)

(** At most [n] blocks and objects more than before. *)
Definition forgets (n : nat) (h h' : heap) : Prop :=
  exists (g : gmap nat bytes) (go : gmap nat hconn), g ##ₘ blocks h /\ go ##ₘ objs h /\ (size g + size go <= n)%nat /\
    blocks h' = g ∪ blocks h /\ objs h' = go ∪ objs h /\ (next h <= next h')%nat /\ wf h'.

Lemma forgets_le n k h h' : forgets n h h' -> (n <= k)%nat -> forgets k h h'.
Proof. intros (g & go & ? & ? & ? & ?) Hk. exists g, go. split_and!; try done; tauto || lia. Qed.

Lemma leaks_forgets n h h' : leaks n h h' -> forgets n h h'.
Proof.
  intros (g & D & S & B & O & N & W). exists g, ∅. split_and!; try done; [apply map_disjoint_empty_l| |].
  - rewrite map_size_empty. lia.
  - by rewrite map_empty_union.
Qed.

Lemma abandoned_forgets n h h' : wf h -> abandoned n h h' -> forgets (S n) h h'.
Proof.
  intros [_ W] (c & g & O & D & S & B & N & W'). exists g, {[ next h := c ]}.
  assert (On : objs h !! next h = None).
  { destruct (objs h !! next h) as [x|] eqn:E; [|done]. apply W in E. lia. }
  split_and!; try done.
  - by apply map_disjoint_singleton_l.
  - rewrite map_size_singleton. lia.
  - by rewrite O, insert_union_singleton_l.
Qed.

Context (getaddrinfo : bytes -> bytes -> bool -> Z + list addrinfo).

Lemma serve_sim m_fd h w :
  wf h -> at_buf (blocks h) (ho_conv_passphrase t) (conv_passphrase (ho_tunnel t)) ->
  hsim (h_serve junk realloc_ok getaddrinfo t m_fd) (serve junk realloc_ok getaddrinfo (ho_tunnel t) m_fd) h w
    (fun _ _ h' => leaks (leak + 1) h h') (forgets (leak + 2) h).
Proof.
  intros Hw Hp. unfold h_serve, serve. assert (L0 : forgets (leak + 2) h h).
  { apply leaks_forgets. eapply leaks_le; [by apply leaks_refl|lia]. }
  eapply hsim_bind; [apply hsim_io; [auto with benign|done]|]. intros ? ? ? w1 [-> ->].
  eapply hsim_bind; [apply hsim_io; [auto with benign|done]|]. intros ? raw ? w2 [-> ->].
  eapply hsim_bind.
  { eapply hsim_conseq; [apply (SnakeConnection_sim junk getaddrinfo hm m leak ok t h w2 Em Ev Hw Hp)|done|].
    intros h' Ha. eapply forgets_le; [by apply abandoned_forgets|lia]. }
  intros ? [v fd] h1 w3 (-> & Hfd & Hconn). cbn [fst snd] in *.
  pose proof Hconn as (c & g & O1 & _ & C1 & Hok & _ & _ & _ & _ & _ & W1).
  assert (Oc : objs h1 !! next h = Some c) by (by rewrite O1, lookup_insert_eq).
  assert (Hd : forall n h2 w4 (Q : heap -> Prop) E, leaks n h1 h2 -> (forall h3, leaks (leak + n) h h3 -> Q h3) ->
    hsim (h_destroy_SnakeConnection t (next h, fd)) (destroy_SnakeConnection (ho_tunnel t) (v, fd)) h2 w4
      (fun _ _ h3 => Q h3) E).
  { intros n h2 w4 Q E L2 HQ. eapply hsim_conseq; [apply (destroy_sim hm m leak ok t (next h) fd c v h2 w4 E Em Ev)| |done].
    - by eapply leaks_wf.
    - by rewrite (leaks_objs _ _ _ L2).
    - by eapply at_conn_leaks.
    - done.
    - intros ? ? h3 (B3 & O3 & N3 & W3). apply HQ. by eapply destroy_leaks. }
  eapply (hsim_defer_both _ _ _ _ _ _ (fun _ _ h2 => leaks 1 h1 h2) (leaks 2 h1)).
  - assert (Cc : conn_at h1 (next h) v) by (by exists c).
    eapply hsim_bind.
    { eapply hsim_conseq; [by apply dns_pkgs_sim|done|]. intros. eapply leaks_le; [eassumption|lia]. }
    intros ? res h2 w4 [-> L2]. eapply hsim_conseq; [apply passData_sim|..].
    + by eapply leaks_wf.
    + by eapply conn_at_leaks.
    + done.
    + intros ? ? h3 L3. exact (leaks_trans _ _ _ _ _ L2 L3).
    + intros h3 L3. exact (leaks_trans _ _ _ _ _ L2 L3).
  - intros ? ? h2 w4 L2. by apply (Hd _ _ _ (leaks (leak + 1) h) _ L2).
  - intros h2 w4 L2. apply (Hd _ _ _ (forgets (leak + 2) h) _ L2). intros. by apply leaks_forgets.
Qed.

Lemma socks5_dealConnection_sim connfd h w :
  wf h -> at_buf (blocks h) (ho_conv_passphrase t) (conv_passphrase (ho_tunnel t)) ->
  hsim (h_socks5_dealConnection junk realloc_ok getaddrinfo t connfd)
    (Socks5.dealConnection junk realloc_ok getaddrinfo (ho_tunnel t) connfd) h w
    (fun _ _ h' => forgets (leak + 2) h h') (forgets (leak + 2) h).
Proof.
  intros Hw Hp. unfold h_socks5_dealConnection, Socks5.dealConnection, h_launch, launch.
  assert (L0 : forgets (leak + 2) h h).
  { apply leaks_forgets. eapply leaks_le; [by apply leaks_refl|lia]. }
  eapply (hsim_defer_both _ _ _ _ _ _ (fun _ _ => forgets (leak + 2) h) (forgets (leak + 2) h)).
  - eapply hsim_bind; [apply hsim_calm; [auto with calm|done]|]. intros ? ? ? w1 [-> ->].
    apply (hsim_bind _ _ _ _ _ _ (fun _ _ => forgets (leak + 2) h)).
    + eapply (hsim_try_catch _ _ _ _ _ _ _ (forgets (leak + 2) h)).
      * eapply hsim_conseq; [by apply serve_sim| |done]. intros ? ? h1 L.
        eapply forgets_le; [exact (leaks_forgets _ _ _ L)|lia].
      * intros e h1 w2 F1. by apply hsim_lift; [|done|apply calm_rlog_text].
    + intros ? ? h1 w2 F1. by apply hsim_lift; [|done|apply calm_rlog_text].
  - intros ? ? h1 w1 F1. eapply hsim_conseq; [apply hsim_close|by intros ? ? ? ->|done].
  - intros h1 w1 F1. eapply hsim_conseq; [apply hsim_close|by intros ? ? ? ->|done].
Qed.

(** C12: The client's memory. For every module that keeps the ownership
    agreement and every behaviour of the application and of the server, serving
    one application with pointers, allocations and releases ends in the way in
    which serving it with values ends. When that returns or throws, the operating
    system is in the same state, everything that was live before is live and
    unchanged, and however much data went through, at most [leak + 2] blocks and
    objects are left over, where [leak] is what the module's handshake forgets.
    When the values have undefined behaviour, as when a greeting or a request
    overflows its buffer on the stack, the code with pointers has it too, but
    never by freeing a block twice or using it after its release; nothing is
    claimed of the memory then. *)
Theorem client_memory_safe connfd h w :
  wf h -> at_buf (blocks h) (ho_conv_passphrase t) (conv_passphrase (ho_tunnel t)) ->
  match Socks5.dealConnection junk realloc_ok getaddrinfo (ho_tunnel t) connfd w with
  | (Ok _, w') => exists h',
      h_socks5_dealConnection junk realloc_ok getaddrinfo t connfd (h, w) = (Ok tt, (h', w')) /\ forgets (leak + 2) h h'
  | (Throw e, w') => exists h',
      h_socks5_dealConnection junk realloc_ok getaddrinfo t connfd (h, w) = (Throw e, (h', w')) /\ forgets (leak + 2) h h'
  | (Undefined _, _) => exists u s,
      h_socks5_dealConnection junk realloc_ok getaddrinfo t connfd (h, w) = (Undefined u, s) /\
      u <> DoubleFree /\ u <> UseAfterFree
  | (Blocked, _) => exists s, h_socks5_dealConnection junk realloc_ok getaddrinfo t connfd (h, w) = (Blocked, s)
  end.
Proof.
  intros Hw Hp. pose proof (socks5_dealConnection_sim connfd h w Hw Hp) as H. unfold hsim, sim in H.
  destruct (Socks5.dealConnection _ _ _ _ _ w) as [[a|e|u|] w'].
  - destruct H as ([] & [h' w2] & E & Ew & F). cbn in *. subst. eauto.
  - destruct H as ([h' w2] & E & Ew & F). cbn in *. subst. eauto.
  - destruct H as (u' & s & E & Hu). exists u', s. split; [exact E|]. by destruct u'.
  - exact H.
Qed.

End Front.

(** ** A concrete application

    It greets, asks for an IPv4 address, sends two bytes and closes. *)
Module HSocks.

Definition lg : Log.Rlog := Log.rlog_at 9.
Definition app : sock :=
  Sock ([5; 1; 0] ++ [5; 1; 0; 1; 10; 0; 0; 1; 0; 80] ++ [104; 105]) true [Chunk 1; Intr] [] [Chunk 0] true.
Definition desk : world := World (<[4 := app]> {[ 9 := Sock (frame [1]) false [] [] [] false ]}) [Some [4]; Some [4]] [].

Definition target : addr_info := AddrI addr_ipv4 [10; 0; 0; 1] 80.
Definition info (fd : Z) : connect_info := set_connect_fd (initConnInfo Sample.ct) fd.
Definition h1 : heap :=
  Heap {[ 0%nat := [107; 0] ]}
    {[ 1%nat := HConn (replicate 16 0) 80 (Hbss true 1 (At 0 0)) 9 NULL ]} 2.
Definition linked : world :=
  World (<[4 := Sock [104; 105] true [] [] [] true]> {[ 9 := Sock [] false [] [] [] true ]}) [Some [4]; Some [4]] [].

Lemma h1_wf : wf h1.
Proof. split; [intros b d|intros o c]; cbn; rewrite lookup_singleton_Some; intros [<- _]; lia. Qed.

Lemma h1_conn : conn_at h1 1 (info 9).
Proof. eexists. split; [reflexivity|]. by split_and!; try done; split. Qed.

End HSocks.
Import HSocks.

Lemma client_memory_safe_witness :
  exists h' w',
    h_socks5_dealConnection (lg := lg) HSample.jk (fun _ => true) Sample.gai HSample.tun 4 (HSample.h0, desk)
      = (Ok tt, (h', w')) /\ forgets 2 HSample.h0 h'.
Proof.
  pose proof (client_memory_safe (lg := lg) HSample.jk (fun _ => true) HSample.fns Sample.md 0 (fun p => p = NULL)
    HSample.tun eq_refl eq_refl Sample.gai 4 HSample.h0 desk HSample.h0_wf HSample.h0_pass) as H.
  destruct (Socks5.dealConnection _ _ _ _ _ desk) as [[x|e|u|] w'] eqn:E; [|vm_compute in E; discriminate E..].
  destruct H as (h' & H). by exists h', w'.
Defined.

Lemma relay_keeps_memory_witness :
  exists h' w',
    h_passData (lg := lg) HSample.jk (fun _ => true) HSample.tun (1%nat, 9) target 4 (h1, linked) = (Ok tt, (h', w')) /\
    blocks h' = blocks h1 /\ objs h' = objs h1.
Proof.
  pose proof (relay_keeps_memory (lg := lg) HSample.jk (fun _ => true) HSample.fns Sample.md 0 (fun p => p = NULL)
    HSample.tun eq_refl eq_refl 1 9 (info 9) target 4 h1 linked h1_wf h1_conn eq_refl) as H.
  destruct (passData _ _ _ _ _ _ linked) as [[x|e|u|] w'] eqn:E; [|vm_compute in E; discriminate E..].
  destruct H as (h' & H). by exists h', w'.
Defined.

End HeapSocks5.
