(* ===== verification/Printing.v ===== *)
(** * Printing: [rlib/stdio.hpp], [rlib/terminal.hpp], [modules/module_util/fmt.c]

    [print], [println], [print_iter], [printf] and [printfln] on an output
    stream, [scanln] on an input stream, the escape sequences of [fontInfo], and
    [printbss] with the functions it is called with.  A printed argument is the
    text its [operator<<] gives. *)

From stdpp Require Import list.
From S2P Require Import Prelude RString ModuleApi.
Open Scope Z_scope.

Module Stdio.

(** ** Output *)

Inductive os_t := LINUX | MACOS | WINDOWS.

#[global] Instance os_t_eq_dec : EqDecision os_t.
Proof. solve_decision. Defined.

(** [RLIB_IMPL_ENDLINE] *)
Definition endline (os : os_t) : bytes :=
  match os with WINDOWS => [13; 10] | MACOS => [13] | LINUX => [10] end.

(** A stream: what was written, and how much of it was flushed. *)
Record ostream := Stream { written : bytes; flushed : nat }.

Definition put (x : bytes) (s : ostream) : ostream := Stream (written s ++ x) (flushed s).
Definition flush (s : ostream) : ostream := Stream (written s) (length (written s)).

Section Out.
(** The platform, and [impl::enable_endl_flush()]. *)
Context (os : os_t) (enable_endl_flush : bool).

Definition endl (s : ostream) : ostream :=
  let s := put (endline os) s in
  if enable_endl_flush then flush s else s.

(** [print] with its arguments, at least one. *)
Fixpoint print (args : list bytes) (s : ostream) : ostream :=
  match args with
  | [] => s
  | [x] => put x s
  | x :: args => print args (put [32] (put x s))
  end.

Definition println (args : list bytes) (s : ostream) : ostream :=
  match args with
  | [] => endl s
  | _ => endl (print args s)
  end.

(** [for(const auto & i : arg) os << i << spliter;] *)
Fixpoint print_iter (arg : list bytes) (spliter : bytes) (s : ostream) : ostream :=
  match arg with
  | [] => s
  | i :: arg => print_iter arg spliter (put spliter (put i s))
  end.

Definition println_iter (arg : list bytes) (spliter : bytes) (s : ostream) : ostream :=
  println [] (print_iter arg spliter s).

(** The overloads without a separator. *)
Definition print_iter_default (arg : list bytes) (s : ostream) : ostream := print_iter arg [32] s.
Definition println_iter_default (arg : list bytes) (s : ostream) : ostream := println_iter arg [32] s.

Definition printf (fmt : bytes) (args : list bytes) (s : ostream) : outcome (Z * ostream) :=
  to_print ← RString.format_string fmt args;
  Ok (Z.of_nat (length to_print), print [to_print] s).

Definition printfln (fmt : bytes) (args : list bytes) (s : ostream) : outcome (Z * ostream) :=
  r ← printf fmt args s;
  Ok (r.1 + 1, println [] r.2).

End Out.

(** ** Input *)

(** [std::getline(is, line, delimiter)]: the line and what is left. *)
Fixpoint getline (delimiter : Z) (input : bytes) : bytes * bytes :=
  match input with
  | [] => ([], [])
  | c :: input =>
      if c =? delimiter then ([], input)
      else let '(line, rest) := getline delimiter input in (c :: line, rest)
  end.

Definition scanln (input : bytes) (delimiter : Z) : bytes * bytes := getline delimiter input.

(** ** Theorems *)

Lemma print_written args s : written (print args s) = written s ++ RString.concat_with [32] args.
Proof.
  revert s. induction args as [|x args IH]; intros s; [cbn; by rewrite app_nil_r|].
  destruct args as [|y args]; [done|]. change (print (x :: y :: args) s) with (print (y :: args) (put [32] (put x s))).
  rewrite IH. cbn [written put]. change (RString.concat_with [32] (x :: y :: args))
    with (x ++ [32] ++ RString.concat_with [32] (y :: args)). by rewrite <- !app_assoc.
Qed.

Lemma print_iter_written arg sp s : written (print_iter arg sp s) = written s ++ (arg ≫= fun i => i ++ sp).
Proof.
  revert s. induction arg as [|i arg IH]; intros s; [cbn; by rewrite app_nil_r|].
  cbn [print_iter]. rewrite IH. cbn [written put]. rewrite bind_cons. by rewrite <- !app_assoc.
Qed.

Lemma endl_written os fl s : written (endl os fl s) = written s ++ endline os.
Proof. unfold endl. by destruct fl. Qed.

(** [println] writes its arguments joined by spaces and the end of line, and
    flushes all of it when flushing is enabled; [println_iter] also writes the
    separator after the last element. *)
Theorem println_spec os fl args s :
  written (println os fl args s) = written s ++ RString.join [32] args ++ endline os /\
  (fl = true -> flushed (println os fl args s) = length (written (println os fl args s))) /\
  forall arg sp, written (println_iter os fl arg sp s) = written s ++ (arg ≫= fun i => i ++ sp) ++ endline os.
Proof.
  assert (E : println os fl args s = endl os fl (print args s)) by (by destruct args).
  rewrite E. split_and!.
  - by rewrite endl_written, print_written, RString.join_concat, <- app_assoc.
  - by intros ->.
  - intros arg sp. unfold println_iter. cbn [println]. by rewrite endl_written, print_iter_written, <- app_assoc.
Qed.

(** [printfln] returns one more than the length of the text: the number of bytes
    written on systems whose end of line has one byte, one less on Windows. *)
Theorem printfln_count os fl fmt args s n s' :
  printfln os fl fmt args s = Ok (n, s') ->
  Z.of_nat (length (written s')) =
    Z.of_nat (length (written s)) + n + (if decide (os = WINDOWS) then 1 else 0).
Proof.
  unfold printfln, printf. destruct (RString.format_string fmt args) as [x| | |]; try done. run_ok. intros [= <- <-].
  cbn [println fst snd print]. rewrite endl_written. cbn [written put]. rewrite !length_app.
  destruct os; cbn; case_decide; try done; lia.
Qed.

Lemma getline_delim d l rest : d ∉ l -> getline d (l ++ d :: rest) = (l, rest).
Proof.
  induction l as [|c l IH]; cbn [app getline]; intros Hn; [by rewrite Z.eqb_refl|].
  apply not_elem_of_cons in Hn as [Hc Hn]. destruct (Z.eqb_spec c d); [congruence|]. by rewrite IH.
Qed.

Lemma getline_end d l : d ∉ l -> getline d l = (l, []).
Proof.
  induction l as [|c l IH]; cbn [getline]; intros Hn; [done|].
  apply not_elem_of_cons in Hn as [Hc Hn]. destruct (Z.eqb_spec c d); [congruence|]. by rewrite IH.
Qed.

(** A line written by [println] is read back by [scanln] on Linux; on Windows
    the carriage return stays at the end of what is read, and where the end of
    line is a lone carriage return the following lines are read with it. *)
Theorem println_scanln fl args rest :
  10 ∉ RString.join [32] args -> 10 ∉ rest ->
  scanln (written (println LINUX fl args (Stream [] 0)) ++ rest) 10 = (RString.join [32] args, rest) /\
  scanln (written (println WINDOWS fl args (Stream [] 0)) ++ rest) 10 = (RString.join [32] args ++ [13], rest) /\
  scanln (written (println MACOS fl args (Stream [] 0)) ++ rest) 10 = (RString.join [32] args ++ [13] ++ rest, []).
Proof.
  intros Hj Hr. assert (E : forall os, written (println os fl args (Stream [] 0)) = RString.join [32] args ++ endline os)
    by (intros os; apply (println_spec os fl args)).
  rewrite !E. cbn [endline]. unfold scanln. split_and!.
  - rewrite <- app_assoc. by apply getline_delim.
  - rewrite <- app_assoc. cbn [app]. rewrite (app_assoc _ [13] (10 :: rest)). apply getline_delim.
    rewrite not_elem_of_app. split; [done|]. by intros Hin%list_elem_of_singleton.
  - rewrite <- app_assoc. apply getline_end. rewrite !not_elem_of_app. split_and!; try done.
    by intros Hin%list_elem_of_singleton.
Qed.

Lemma println_scanln_witness :
  scanln (written (println LINUX true [[97]; [98; 99]] (Stream [] 0)) ++ [100]) 10 = ([97; 32; 98; 99], [100]).
Proof.
  refine (proj1 (println_scanln true [[97]; [98; 99]] [100] _ _)); apply (bool_decide_unpack _); vm_compute; reflexivity.
Defined.

End Stdio.

(** ** The console: streams of a process and the overloads that choose one *)

Module Console.
Import Stdio.

(** The value of [impl::enable_endl_flush()], [std::cout] and the other streams. *)
Record console := Con { flush_flag : bool; cout : ostream; others : list ostream }.

Definition initial : console := Con true (Stream [] 0) [].

(** [enable_endl_flush(enable)]: the new state and the returned value. *)
Definition enable_endl_flush (enable : bool) (c : console) : console * bool := (Con enable (cout c) (others c), enable).

(** The first argument of [print] and [println]: a stream of a class derived
    from [std::ostream], or a value, which [print_wrapper] prints as it is. *)
Inductive first_arg := StreamArg (i : nat) | DataArg (text : bytes).

Definition on_cout (f : ostream -> ostream) (c : console) : console := Con (flush_flag c) (f (cout c)) (others c).
Definition on_other (i : nat) (f : ostream -> ostream) (c : console) : console :=
  Con (flush_flag c) (cout c) (alter f i (others c)).

Section Overloads.
Context (os : os_t).

(** The overloads without a stream. *)
Definition println_cout (args : list bytes) (c : console) : console := on_cout (println os (flush_flag c) args) c.
Definition print_cout (args : list bytes) (c : console) : console := on_cout (print args) c.
Definition print_iter_cout (arg : list bytes) (spliter : bytes) (c : console) : console :=
  on_cout (print_iter arg spliter) c.
Definition println_iter_cout (arg : list bytes) (spliter : bytes) (c : console) : console :=
  on_cout (println_iter os (flush_flag c) arg spliter) c.
Definition print_iter_default_cout (arg : list bytes) (c : console) : console := on_cout (print_iter_default arg) c.
Definition println_iter_default_cout (arg : list bytes) (c : console) : console :=
  on_cout (println_iter_default os (flush_flag c) arg) c.
Definition printf_cout (fmt : bytes) (args : list bytes) (c : console) : outcome (Z * console) :=
  r ← printf fmt args (cout c); Ok (r.1, on_cout (fun _ => r.2) c).
Definition printfln_cout (fmt : bytes) (args : list bytes) (c : console) : outcome (Z * console) :=
  r ← printfln os (flush_flag c) fmt args (cout c); Ok (r.1, on_cout (fun _ => r.2) c).

(** The overloads for an argument that is not declared as [std::ostream &]. *)
Definition println_any (x : first_arg) (args : list bytes) (c : console) : console :=
  match x with
  | StreamArg i => on_other i (println os (flush_flag c) args) c
  | DataArg t => println_cout (t :: args) c
  end.
Definition print_any (x : first_arg) (args : list bytes) (c : console) : console :=
  match x with
  | StreamArg i => on_other i (print args) c
  | DataArg t => print_cout (t :: args) c
  end.

(** Printing a value goes to [std::cout] and printing to a stream leaves
    [std::cout] and the other streams alone; with flushing enabled everything a
    [println] wrote is flushed. *)
Theorem console_dispatch x args c :
  let c' := println_any x args c in
  match x with
  | DataArg t => written (cout c') = written (cout c) ++ RString.join [32] (t :: args) ++ endline os /\ others c' = others c /\
      (flush_flag c = true -> flushed (cout c') = length (written (cout c')))
  | StreamArg i => cout c' = cout c /\ (forall j, j <> i -> others c' !! j = others c !! j) /\
      forall s, others c !! i = Some s ->
        exists s', others c' !! i = Some s' /\ written s' = written s ++ RString.join [32] args ++ endline os
  end.
Proof.
  destruct x as [i|t]; cbn.
  - split; [done|]. split; [intros j Hj; by rewrite list_lookup_alter_ne|]. intros s Hs.
    rewrite list_lookup_alter_eq, Hs. eexists. split; [done|]. apply (println_spec os (flush_flag c) args s).
  - destruct (println_spec os (flush_flag c) (t :: args) (cout c)) as (H1 & H2 & _). auto.
Qed.

End Overloads.
End Console.

(** ** Fonts and colours *)

Module Terminal.

Inductive color_t := color_unset | black | red | green | brown | blue | magenta | cyan | lightgray.
Inductive font_t := font_unset | bold | underline | dark | background | striked.

#[global] Instance color_t_eq_dec : EqDecision color_t.
Proof. solve_decision. Defined.
#[global] Instance font_t_eq_dec : EqDecision font_t.
Proof. solve_decision. Defined.

Definition color_to_int (c : color_t) : Z :=
  match c with
  | color_unset => 10 | black => 0 | red => 1 | green => 2 | brown => 3 | blue => 4 | magenta => 5 | cyan => 6
  | lightgray => 7
  end.
Definition font_to_int (f : font_t) : Z :=
  match f with font_unset => 0 | bold => 1 | underline => 4 | dark => 2 | background => 7 | striked => 9 end.

Record fontInfo := FontInfo { textColor : color_t; fontType : font_t; clear : bool }.

#[global] Instance fontInfo_eq_dec : EqDecision fontInfo.
Proof. solve_decision. Defined.

(** The constructors. *)
Definition of_color (c : color_t) : fontInfo := FontInfo c font_unset false.
Definition of_font (f : font_t) : fontInfo := FontInfo color_unset f false.
Definition of_both (c : color_t) (f : font_t) : fontInfo := FontInfo c f false.
Definition of_clear : fontInfo := FontInfo color_unset font_unset true.

Definition color_to_char (c : color_t) : Z := if decide (c = color_unset) then 0 else 48 + color_to_int c.
Definition font_to_char (f : font_t) : Z := if decide (f = font_unset) then 0 else 48 + font_to_int f.

(** The arrays end with a NUL, which the string does not include. *)
Definition color_to_string (i : fontInfo) : bytes :=
  if decide (textColor i = color_unset) then []
  else cstr [27; 91; 51; color_to_char (textColor i); 109; 0].
Definition font_to_string (i : fontInfo) : bytes :=
  if decide (fontType i = font_unset) then []
  else cstr [27; 91; font_to_char (fontType i); 109; 0].

Definition toString (os : Stdio.os_t) (i : fontInfo) : bytes :=
  if decide (os = Stdio.WINDOWS) then []
  else if clear i then [27; 91; 48; 109]
  else color_to_string i ++ font_to_string i.

Definition all_colors : list color_t := [color_unset; black; red; green; brown; blue; magenta; cyan; lightgray].
Definition all_fonts : list font_t := [font_unset; bold; underline; dark; background; striked].
Definition all_infos : list fontInfo :=
  of_clear :: (all_colors ≫= fun c => all_fonts ≫= fun f => [of_both c f]).

(** Escape sequences tell the settings apart: two settings that print the same,
    on a system with escape sequences, are the same; on Windows all print
    nothing. *)
Theorem toString_injective i j :
  i ∈ all_infos -> j ∈ all_infos ->
  (toString Stdio.LINUX i = toString Stdio.LINUX j -> i = j) /\ toString Stdio.WINDOWS i = [].
Proof.
  intros Hi Hj. split; [|done].
  assert (H : Forall (fun i => Forall (fun j => toString Stdio.LINUX i = toString Stdio.LINUX j -> i = j) all_infos) all_infos)
    by (apply (bool_decide_unpack _); vm_compute; reflexivity).
  rewrite Forall_forall in H. specialize (H i Hi). rewrite Forall_forall in H. by apply H.
Qed.

End Terminal.

(** ** [printbss] *)

Module Fmt.
Import ModuleApi.

(** [printf("%u", (unsigned int)((unsigned char)i))] and [printf("%c", i)] of a byte. *)
Definition asnumber (i : Z) : bytes := to_string i.
Definition aschar (i : Z) : bytes := [i].
Definition lbracket (b : binary_safe_string) : bytes := [91].
Definition rbracket (b : binary_safe_string) : bytes := [93].

(** The loop over the bytes of [bss.str]; [n] is how many remain. *)
Fixpoint printbss_loop (aswhat : Z -> bytes) (div : Z) (b : binary_safe_string) (i n : nat) : outcome bytes :=
  match n with
  | O => Ok []
  | S n =>
      c ← match str b with
          | None => Undefined NullDeref
          | Some d => mem_read d i 1
          end;
      rest ← printbss_loop aswhat div b (S i) n;
      Ok (aswhat (nth 0 c 0) ++
          (if negb (Z.of_nat i =? bss_length b - 1) && negb (div =? 0) then [div] else []) ++ rest)
  end.

Definition printbss (b : binary_safe_string) (prefix : option (binary_safe_string -> bytes)) (aswhat : Z -> bytes)
    (div : Z) (suffix : option (binary_safe_string -> bytes)) : outcome bytes :=
  r ← printbss_loop aswhat div b 0 (Z.to_nat (bss_length b));
  Ok (match prefix with Some f => f b | None => [] end ++ r ++ match suffix with Some f => f b | None => [] end).

Lemma printbss_loop_ok aswhat div b d1 d2 :
  str b = Some (d1 ++ d2) -> bss_length b = Z.of_nat (length (d1 ++ d2)) -> div <> 0 ->
  printbss_loop aswhat div b (length d1) (length d2) = Ok (RString.concat_with [div] (aswhat <$> d2)).
Proof.
  revert d1. induction d2 as [|c d2 IH]; intros d1 Hs Hl Hd; [done|]. cbn [printbss_loop length]. rewrite Hs.
  rewrite (mem_read_mid d1 [c] d2) by done. run_ok.
  assert (Hs' : str b = Some ((d1 ++ [c]) ++ d2)) by (by rewrite <- app_assoc).
  assert (Hl' : bss_length b = Z.of_nat (length ((d1 ++ [c]) ++ d2))) by (by rewrite <- app_assoc).
  specialize (IH (d1 ++ [c]) Hs' Hl' Hd). rewrite length_app in IH. cbn [length] in IH. rewrite Nat.add_comm in IH.
  cbn [Nat.add] in IH. rewrite IH. run_ok. rewrite Hl, length_app. cbn [length nth]. f_equal. cbn [fmap list_fmap].
  destruct (Z.eqb_spec div 0); [done|]. cbn [negb]. rewrite andb_true_r. destruct d2 as [|c' d2]; cbn [length fmap list_fmap].
  - destruct (Z.eqb_spec (Z.of_nat (length d1)) (Z.of_nat (length d1 + 1) - 1)); [|lia]. cbn. by rewrite app_nil_r.
  - destruct (Z.eqb_spec (Z.of_nat (length d1)) (Z.of_nat (length d1 + S (S (length d2))) - 1)); [lia|]. done.
Qed.

(** [printbss] with brackets, numbers and a divider prints the bytes as a list;
    with a null pointer and a positive length it reads through the pointer. *)
Theorem printbss_list aswhat div nt d :
  div <> 0 ->
  printbss (Bss nt (Z.of_nat (length d)) (Some d)) (Some lbracket) aswhat div (Some rbracket) =
    Ok ([91] ++ RString.join [div] (aswhat <$> d) ++ [93]) /\
  forall n, 0 < n -> printbss (Bss nt n None) (Some lbracket) aswhat div (Some rbracket) = Undefined NullDeref.
Proof.
  intros Hd. unfold printbss. cbn [bss_length]. rewrite Nat2Z.id. split.
  - pose proof (printbss_loop_ok aswhat div (Bss nt (Z.of_nat (length d)) (Some d)) [] d eq_refl eq_refl Hd) as E.
    cbn [length] in E. rewrite E. run_ok. by rewrite RString.join_concat.
  - intros n Hn. destruct (Z.to_nat n) as [|k] eqn:E; [lia|]. done.
Qed.

Example printbss_123 :
  printbss (Bss false 3 (Some [1; 20; 255])) (Some lbracket) asnumber 44 (Some rbracket) =
    Ok (bytes_of_string "[1,20,255]").
Proof. reflexivity. Qed.

End Fmt.
